(** * SAM2 seeker robot: agent motion core, vision fallback and mission sequencer

    A shallow embedding of the TypeScript sources

    - [components/simulation/Agent.tsx] (in the source tree as
      [unnamed/part_001]; the line numbers quoted below are those of that
      file): collision test, movement update, waypoint synthesis and
      following, the per-frame callback;
    - [services/sam2.ts], in its monocular build and in its stereo build
      ([unnamed/part_003]): the vision request with its fallbacks;
    - [App.tsx] ([unnamed/part_000]) with the mission types of
      [services/llm.ts]: vision capture handler and mission steps, the
      log, the start/abort button;
    - [services/llm.ts]: the mission parsers and [getNextAction];
    - [components/simulation/WallWithGap.tsx] (the head of
      [unnamed/part_001]) and, from [components/SimulationWorld.tsx] (in
      [unnamed/part_000]), the table of targets, the target position
      handed to the agent and the capture schedule of the scene manager;
    - the Gemini build of the vision service (the tail of
      [unnamed/part_003]);

    followed by the properties the specification states about them and
    by further properties of the code.

    Numbers.  A JavaScript [number] is modelled by a rational [Q]: every
    arithmetic operation is exact, comparisons are the rational ones, and
    rounding of IEEE doubles is not modelled.  [Math.PI] is the rational
    value of the double the platform returns.  The four platform functions
    the agent calls ([Math.sqrt], [Math.atan2] and the sine and cosine
    behind [Object3D.translateZ]) are parameters of the model, gathered in
    the record [MathFns]; every general theorem holds for all of them.
    Where a statement turns on a number being exactly zero, the module
    [IEEE] repeats the computation on binary64 doubles as a cross-check.

    Payloads.  What the vision service sends is kept as the JSON document
    it is, and the result the client builds from it holds, property by
    property, whatever was read: the types of [VisionResponse] are not
    checked at run time.  The two conversions the capture handler can
    apply to a value that is not of its declared type (the text of an
    array or an object, the number of a string, an array or an object)
    are parameters of the model, gathered in the record
    [App.Conversions]; so are [String.prototype.toLowerCase] and
    [String.prototype.trim].

    Handlers.  The part of a handler that follows an [await], and a timer
    callback, read the cells of the render that created them and write
    the cells as they are when they run; the module [Session] runs the
    handlers of [App] as events, in any order. *)

From Stdlib Require Import QArith Qabs Qround Qpower Lqa Lia ZArith List Bool
  String DecimalString.
From Stdlib Require Floats.
Import ListNotations.
Open Scope Q_scope.

(* ================================================================== *)
(** * Part I: definitions                                              *)
(* ================================================================== *)

(** ** JavaScript numeric primitives *)

Module JS.

(** [a < b] as the boolean the source branches on. *)
Definition ltb (a b : Q) : bool := negb (Qle_bool b a).
(** [a > b]. *)
Definition gtb (a b : Q) : bool := ltb b a.
(** [a <= b]. *)
Definition leb (a b : Q) : bool := Qle_bool a b.
(** [a >= b]. *)
Definition geb (a b : Q) : bool := Qle_bool b a.

(** [Math.min] and [Math.max] on two numbers. *)
Definition min (a b : Q) : Q := if Qle_bool a b then a else b.
Definition max (a b : Q) : Q := if Qle_bool a b then b else a.

(** [Math.PI]: the double 0x1.921FB54442D18p+1, as a rational. *)
Definition PI : Q := 884279719003555 # 281474976710656.

(** The platform functions the agent relies on. *)
Record MathFns : Type := mkMathFns {
  sqrt  : Q -> Q;          (* Math.sqrt *)
  atan2 : Q -> Q -> Q;     (* Math.atan2(y, x) *)
  sin   : Q -> Q;          (* Math.sin, through translateZ *)
  cos   : Q -> Q           (* Math.cos, through translateZ *)
}.

End JS.

(** ** The parts of three.js the agent uses *)

Module THREE.

Record Vector3 : Type := mkVector3 { x : Q; y : Q; z : Q }.

(** [THREE.MathUtils.lerp(x, y, t)] is [(1 - t) * x + t * y]. *)
Definition lerp (a b t : Q) : Q := (1 - t) * a + t * b.

(** [THREE.MathUtils.clamp(value, min, max)] is
    [Math.max(min, Math.min(max, value))]. *)
Definition clamp (v lo hi : Q) : Q := JS.max lo (JS.min hi v).

(** [a.distanceTo(b)]. *)
Definition distanceTo (M : JS.MathFns) (a b : Vector3) : Q :=
  JS.sqrt M ((x a - x b) * (x a - x b) + (y a - y b) * (y a - y b)
             + (z a - z b) * (z a - z b)).

End THREE.

(** ** [types.ts] *)

Inductive ActionType : Type :=
  | IDLE | FORWARD | LEFT | RIGHT | STOP | SCAN.

Definition ActionType_eqb (a b : ActionType) : bool :=
  match a, b with
  | IDLE, IDLE | FORWARD, FORWARD | LEFT, LEFT
  | RIGHT, RIGHT | STOP, STOP | SCAN, SCAN => true
  | _, _ => false
  end.

(** The string an [ActionType] member is. *)
Definition actionName (a : ActionType) : string :=
  match a with
  | IDLE => "IDLE" | FORWARD => "FORWARD" | LEFT => "LEFT"
  | RIGHT => "RIGHT" | STOP => "STOP" | SCAN => "SCAN"
  end.

(** ** JSON documents and the values read from them

    The payload of the vision service reaches the client through
    [response.json()] (or [JSON.parse]) and is typed by a cast only, so
    nothing of [VisionResponse] is checked at run time.  The model keeps
    the payload as the JSON document it is. *)

Module JSON.

#[warnings="-register-all"]
Inductive Json : Type :=
  | JNull
  | JBool (b : bool)
  | JNumber (q : Q)
  | JString (s : string)
  | JArray (items : list Json)
  | JObject (members : list (string * Json)).

(** What a variable or a property holds: [undefined] ([None]) or a value
    of a document. *)
Definition Value : Type := option Json.

(** The member of an object under a name; when the text of the document
    repeats a name, the last member is the one [JSON.parse] keeps. *)
Fixpoint lookup (key : string) (members : list (string * Json)) : Value :=
  match members with
  | [] => None
  | (k, v) :: rest =>
      match lookup key rest with
      | Some later => Some later
      | None => if String.eqb k key then Some v else None
      end
  end.

(** [data.key] for a document other than [null] and a name that no
    prototype defines (the seven property names of [VisionResponse] are
    such names): the member of an object, [undefined] for a number, a
    string, a boolean or an array. *)
Definition field (data : Json) (key : string) : Value :=
  match data with
  | JObject members => lookup key members
  | _ => None
  end.

(** [v === 'text']. *)
Definition isString (v : Value) (text : string) : bool :=
  match v with
  | Some (JString s) => String.eqb s text
  | _ => false
  end.

(** [v === undefined || v === null]. *)
Definition nullish (v : Value) : bool :=
  match v with
  | None | Some JNull => true
  | _ => false
  end.

(** [ToBoolean(v)], the test of [if (v)] and [v && ...]. *)
Definition truthy (v : Value) : bool :=
  match v with
  | None | Some JNull => false
  | Some (JBool b) => b
  | Some (JNumber q) => negb (Qeq_bool q 0)
  | Some (JString s) => negb (String.eqb s "")
  | Some (JArray _) | Some (JObject _) => true
  end.

(** [typeof v === 'number']. *)
Definition isNumber (v : Value) : bool :=
  match v with
  | Some (JNumber _) => true
  | _ => false
  end.

(** What [Number(v)] can be for a value that is not a number already. *)
Inductive Num : Type :=
  | NaN
  | NegInfinity
  | Finite (q : Q)
  | PosInfinity.

(** [n > q] for a finite [q]. *)
Definition gtNum (n : Num) (q : Q) : bool :=
  match n with
  | NaN | NegInfinity => false
  | Finite a => JS.gtb a q
  | PosInfinity => true
  end.

(** An [ActionType] member as a value. *)
Definition ofAction (a : ActionType) : Value := Some (JString (actionName a)).

End JSON.

Import JSON.

(** The object the vision calls return, a cell for each property of
    [VisionResponse].  A cell holds whatever was put there: the declared
    types ([ActionType], [string], [boolean], optional [number]s and the
    bounding box) are what a conforming service sends. *)
Record VisionResponse : Type := mkVisionResponse {
  vr_action        : Value;
  vr_reasoning     : Value;
  vr_targetVisible : Value;
  vr_confidence    : Value;
  vr_boundingBox   : Value;
  vr_distance      : Value;
  vr_angle         : Value
}.

(** The result a payload of the declared types gives. *)
Definition conforming (action : ActionType) (reasoning : string)
    (targetVisible : bool) (confidence : option Q) (boundingBox : Value)
    (distance angle : option Q) : VisionResponse :=
  mkVisionResponse (ofAction action) (Some (JString reasoning))
    (Some (JBool targetVisible)) (option_map JNumber confidence)
    boundingBox (option_map JNumber distance) (option_map JNumber angle).

(** ** [Agent.tsx] *)

Module Agent.

Import THREE.

(** Module constants. *)
Definition AGENT_RADIUS : Q := 0.4.
Definition COLLISION_COOLDOWN_TIME : Q := 1.0.
Definition VIEW_SWITCH_COOLDOWN_TIME : Q := 2.0.

Inductive Side : Type := north | south.

Definition Side_eqb (a b : Side) : bool :=
  match a, b with
  | north, north | south, south => true
  | _, _ => false
  end.

(** A waypoint is the pair [[x, z]]. *)
Definition Waypoint : Type := (Q * Q)%type.

(** The mutable references of the component ([useRef] cells) together with
    the position and heading of the group they steer. *)
Record AgentState : Type := mkAgentState {
  position             : Vector3;   (* groupRef.current.position *)
  rotation_y           : Q;         (* groupRef.current.rotation.y *)
  velocity             : Q;
  rotationVelocity     : Q;
  collisionDetected    : bool;
  collisionCooldown    : Q;
  useRearView          : bool;
  viewSwitchCooldown   : Q;
  explorationMode      : bool;
  explorationStartTime : Q;
  lastRotationAngle    : Q;
  totalRotation        : Q;
  scanRotation         : Q;
  explorationPhase     : nat;
  pathfindingMode      : bool;
  currentPath          : list Waypoint;
  currentPathIndex     : nat
}.

(** Assignments to one reference. *)
Definition set_position (v : Vector3) (s : AgentState) : AgentState :=
  mkAgentState v (rotation_y s) (velocity s) (rotationVelocity s)
    (collisionDetected s) (collisionCooldown s) (useRearView s)
    (viewSwitchCooldown s) (explorationMode s) (explorationStartTime s)
    (lastRotationAngle s) (totalRotation s) (scanRotation s)
    (explorationPhase s) (pathfindingMode s) (currentPath s)
    (currentPathIndex s).

Definition set_rotation_y (v : Q) (s : AgentState) : AgentState :=
  mkAgentState (position s) v (velocity s) (rotationVelocity s)
    (collisionDetected s) (collisionCooldown s) (useRearView s)
    (viewSwitchCooldown s) (explorationMode s) (explorationStartTime s)
    (lastRotationAngle s) (totalRotation s) (scanRotation s)
    (explorationPhase s) (pathfindingMode s) (currentPath s)
    (currentPathIndex s).

Definition set_velocity (v : Q) (s : AgentState) : AgentState :=
  mkAgentState (position s) (rotation_y s) v (rotationVelocity s)
    (collisionDetected s) (collisionCooldown s) (useRearView s)
    (viewSwitchCooldown s) (explorationMode s) (explorationStartTime s)
    (lastRotationAngle s) (totalRotation s) (scanRotation s)
    (explorationPhase s) (pathfindingMode s) (currentPath s)
    (currentPathIndex s).

Definition set_rotationVelocity (v : Q) (s : AgentState) : AgentState :=
  mkAgentState (position s) (rotation_y s) (velocity s) v
    (collisionDetected s) (collisionCooldown s) (useRearView s)
    (viewSwitchCooldown s) (explorationMode s) (explorationStartTime s)
    (lastRotationAngle s) (totalRotation s) (scanRotation s)
    (explorationPhase s) (pathfindingMode s) (currentPath s)
    (currentPathIndex s).

Definition set_collisionDetected (v : bool) (s : AgentState) : AgentState :=
  mkAgentState (position s) (rotation_y s) (velocity s) (rotationVelocity s)
    v (collisionCooldown s) (useRearView s)
    (viewSwitchCooldown s) (explorationMode s) (explorationStartTime s)
    (lastRotationAngle s) (totalRotation s) (scanRotation s)
    (explorationPhase s) (pathfindingMode s) (currentPath s)
    (currentPathIndex s).

Definition set_collisionCooldown (v : Q) (s : AgentState) : AgentState :=
  mkAgentState (position s) (rotation_y s) (velocity s) (rotationVelocity s)
    (collisionDetected s) v (useRearView s)
    (viewSwitchCooldown s) (explorationMode s) (explorationStartTime s)
    (lastRotationAngle s) (totalRotation s) (scanRotation s)
    (explorationPhase s) (pathfindingMode s) (currentPath s)
    (currentPathIndex s).

Definition set_useRearView (v : bool) (s : AgentState) : AgentState :=
  mkAgentState (position s) (rotation_y s) (velocity s) (rotationVelocity s)
    (collisionDetected s) (collisionCooldown s) v
    (viewSwitchCooldown s) (explorationMode s) (explorationStartTime s)
    (lastRotationAngle s) (totalRotation s) (scanRotation s)
    (explorationPhase s) (pathfindingMode s) (currentPath s)
    (currentPathIndex s).

Definition set_viewSwitchCooldown (v : Q) (s : AgentState) : AgentState :=
  mkAgentState (position s) (rotation_y s) (velocity s) (rotationVelocity s)
    (collisionDetected s) (collisionCooldown s) (useRearView s)
    v (explorationMode s) (explorationStartTime s)
    (lastRotationAngle s) (totalRotation s) (scanRotation s)
    (explorationPhase s) (pathfindingMode s) (currentPath s)
    (currentPathIndex s).

Definition set_explorationMode (v : bool) (s : AgentState) : AgentState :=
  mkAgentState (position s) (rotation_y s) (velocity s) (rotationVelocity s)
    (collisionDetected s) (collisionCooldown s) (useRearView s)
    (viewSwitchCooldown s) v (explorationStartTime s)
    (lastRotationAngle s) (totalRotation s) (scanRotation s)
    (explorationPhase s) (pathfindingMode s) (currentPath s)
    (currentPathIndex s).

Definition set_explorationStartTime (v : Q) (s : AgentState) : AgentState :=
  mkAgentState (position s) (rotation_y s) (velocity s) (rotationVelocity s)
    (collisionDetected s) (collisionCooldown s) (useRearView s)
    (viewSwitchCooldown s) (explorationMode s) v
    (lastRotationAngle s) (totalRotation s) (scanRotation s)
    (explorationPhase s) (pathfindingMode s) (currentPath s)
    (currentPathIndex s).

Definition set_lastRotationAngle (v : Q) (s : AgentState) : AgentState :=
  mkAgentState (position s) (rotation_y s) (velocity s) (rotationVelocity s)
    (collisionDetected s) (collisionCooldown s) (useRearView s)
    (viewSwitchCooldown s) (explorationMode s) (explorationStartTime s)
    v (totalRotation s) (scanRotation s)
    (explorationPhase s) (pathfindingMode s) (currentPath s)
    (currentPathIndex s).

Definition set_totalRotation (v : Q) (s : AgentState) : AgentState :=
  mkAgentState (position s) (rotation_y s) (velocity s) (rotationVelocity s)
    (collisionDetected s) (collisionCooldown s) (useRearView s)
    (viewSwitchCooldown s) (explorationMode s) (explorationStartTime s)
    (lastRotationAngle s) v (scanRotation s)
    (explorationPhase s) (pathfindingMode s) (currentPath s)
    (currentPathIndex s).

Definition set_scanRotation (v : Q) (s : AgentState) : AgentState :=
  mkAgentState (position s) (rotation_y s) (velocity s) (rotationVelocity s)
    (collisionDetected s) (collisionCooldown s) (useRearView s)
    (viewSwitchCooldown s) (explorationMode s) (explorationStartTime s)
    (lastRotationAngle s) (totalRotation s) v
    (explorationPhase s) (pathfindingMode s) (currentPath s)
    (currentPathIndex s).

Definition set_explorationPhase (v : nat) (s : AgentState) : AgentState :=
  mkAgentState (position s) (rotation_y s) (velocity s) (rotationVelocity s)
    (collisionDetected s) (collisionCooldown s) (useRearView s)
    (viewSwitchCooldown s) (explorationMode s) (explorationStartTime s)
    (lastRotationAngle s) (totalRotation s) (scanRotation s)
    v (pathfindingMode s) (currentPath s)
    (currentPathIndex s).

Definition set_pathfindingMode (v : bool) (s : AgentState) : AgentState :=
  mkAgentState (position s) (rotation_y s) (velocity s) (rotationVelocity s)
    (collisionDetected s) (collisionCooldown s) (useRearView s)
    (viewSwitchCooldown s) (explorationMode s) (explorationStartTime s)
    (lastRotationAngle s) (totalRotation s) (scanRotation s)
    (explorationPhase s) v (currentPath s)
    (currentPathIndex s).

Definition set_currentPath (v : list Waypoint) (s : AgentState) : AgentState :=
  mkAgentState (position s) (rotation_y s) (velocity s) (rotationVelocity s)
    (collisionDetected s) (collisionCooldown s) (useRearView s)
    (viewSwitchCooldown s) (explorationMode s) (explorationStartTime s)
    (lastRotationAngle s) (totalRotation s) (scanRotation s)
    (explorationPhase s) (pathfindingMode s) v
    (currentPathIndex s).

Definition set_currentPathIndex (v : nat) (s : AgentState) : AgentState :=
  mkAgentState (position s) (rotation_y s) (velocity s) (rotationVelocity s)
    (collisionDetected s) (collisionCooldown s) (useRearView s)
    (viewSwitchCooldown s) (explorationMode s) (explorationStartTime s)
    (lastRotationAngle s) (totalRotation s) (scanRotation s)
    (explorationPhase s) (pathfindingMode s) (currentPath s)
    v.

(** The state of a freshly mounted agent: every reference at its initial
    value, the group at the origin with heading 0. *)
Definition initialState : AgentState :=
  mkAgentState (mkVector3 0 0 0) 0 0 0 false 0 false 0 false 0 0 0 0 0%nat
    false [] 0%nat.

(** [flipCommand]: remap a command when the rear view is active. *)
Definition flipCommand (rear : bool) (cmd : ActionType) : ActionType :=
  if negb rear then cmd
  else match cmd with
       | FORWARD => FORWARD
       | LEFT => RIGHT
       | RIGHT => LEFT
       | SCAN => SCAN
       | STOP => STOP
       | _ => cmd
       end.

(** Geometry constants local to [checkCollisions]. *)
Definition wallZ : Q := 0.
Definition wallSegmentHalfWidth : Q := 8.5.
Definition gapHalfWidth : Q := 3.
Definition leftWallCenterX : Q := - (wallSegmentHalfWidth + gapHalfWidth).
Definition rightWallCenterX : Q := wallSegmentHalfWidth + gapHalfWidth.
Definition boundary : Q := 14.
Definition wallThickness : Q := 0.5.

(** The conditions [checkCollisions] branches on. *)
Definition nearCentralWall (p : Vector3) : bool :=
  JS.ltb (Qabs (z p - wallZ)) (AGENT_RADIUS + 0.25).
Definition hitsLeftSegment (p : Vector3) : bool :=
  JS.ltb (Qabs (x p - leftWallCenterX)) (wallSegmentHalfWidth + AGENT_RADIUS).
Definition hitsRightSegment (p : Vector3) : bool :=
  JS.ltb (Qabs (x p - rightWallCenterX)) (wallSegmentHalfWidth + AGENT_RADIUS).
Definition inGapArea (p : Vector3) : bool :=
  JS.ltb (Qabs (x p)) gapHalfWidth.

(** The four boundary-wall tests, in source order, as one disjunction. *)
Definition hitsBoundaryWall (p : Vector3) : bool :=
  (JS.ltb (Qabs (z p - boundary)) (AGENT_RADIUS + wallThickness / 2)
     && JS.ltb (Qabs (x p)) boundary)
  || (JS.ltb (Qabs (z p + boundary)) (AGENT_RADIUS + wallThickness / 2)
     && JS.ltb (Qabs (x p)) boundary)
  || (JS.ltb (Qabs (x p - boundary)) (AGENT_RADIUS + wallThickness / 2)
     && JS.ltb (Qabs (z p)) boundary)
  || (JS.ltb (Qabs (x p + boundary)) (AGENT_RADIUS + wallThickness / 2)
     && JS.ltb (Qabs (z p)) boundary).

(** The loop over the targets: true at the first one closer than
    [AGENT_RADIUS + 0.5]. *)
Fixpoint hitsTarget (M : JS.MathFns) (p : Vector3) (targets : list Vector3)
  : bool :=
  match targets with
  | [] => false
  | t :: rest =>
      if JS.ltb (distanceTo M p t) (AGENT_RADIUS + 0.5) then true
      else hitsTarget M p rest
  end.

(** [checkCollisions(agentPos, targets)]. *)
Definition checkCollisions (M : JS.MathFns) (agentPos : Vector3)
    (targets : list Vector3) : bool :=
  let afterCentral (_ : unit) :=
    if hitsBoundaryWall agentPos then true
    else hitsTarget M agentPos targets in
  if nearCentralWall agentPos then
    if hitsLeftSegment agentPos then true
    else if hitsRightSegment agentPos then true
    else if inGapArea agentPos then false
    else afterCentral tt
  else afterCentral tt.

(** [updateMovement(delta, effectiveAction, agentPos)]: the new forward and
    angular velocities. *)
Definition MAX_SPEED (pathfinding : bool) : Q :=
  if pathfinding then 7.5 else 2.5.
Definition ROT_SPEED : Q := 0.675.

Definition targetVel (s : AgentState) (effectiveAction : ActionType) : Q :=
  match effectiveAction with
  | FORWARD => MAX_SPEED (pathfindingMode s)
  | LEFT => velocity s * 0.5
  | RIGHT => velocity s * 0.5
  | SCAN => 0
  | _ => 0
  end.

Definition targetRot (effectiveAction : ActionType) : Q :=
  match effectiveAction with
  | FORWARD => 0
  | LEFT => ROT_SPEED
  | RIGHT => - ROT_SPEED
  | SCAN => ROT_SPEED * 0.8 * 1.5
  | _ => 0
  end.

Definition updateMovement (delta : Q) (effectiveAction : ActionType)
    (s : AgentState) : AgentState :=
  let tv := targetVel s effectiveAction in
  let tr := targetRot effectiveAction in
  let s := set_velocity (lerp (velocity s) tv (delta * 2)) s in
  set_rotationVelocity (lerp (rotationVelocity s) tr (delta * 4)) s.

(** [determineAgentSide] and [determineTargetSide]. *)
Definition determineAgentSide (agentZ : Q) : Side :=
  if JS.geb agentZ 0 then north else south.
Definition determineTargetSide (targetZ : Q) : Side :=
  if JS.geb targetZ 0 then north else south.

(** [findPathThroughGap(startX, startZ, targetSide)]. *)
Definition BOUNDARY : Q := 12.

Definition findPathThroughGap (startX startZ : Q) (targetSide : Side)
  : list Waypoint :=
  let startSide := determineAgentSide startZ in
  if Side_eqb startSide targetSide then
    let targetZ := match targetSide with
                   | north => JS.min 10 BOUNDARY
                   | south => JS.max (-10) (- BOUNDARY)
                   end in
    [ (startX, startZ); (0, targetZ) ]
  else
    let alignZ := match startSide with north => 5 | south => -5 end in
    let approachZ := match startSide with north => 2 | south => -2 end in
    let exitZ := match targetSide with north => 2 | south => -2 end in
    let exploreZ := match targetSide with
                    | north => JS.min 8 BOUNDARY
                    | south => JS.max (-8) (- BOUNDARY)
                    end in
    let spreadX := JS.min (JS.max startX (- BOUNDARY)) BOUNDARY in
    let spreadZ := match targetSide with
                   | north => JS.min 10 BOUNDARY
                   | south => JS.max (-10) (- BOUNDARY)
                   end in
    [ (startX, startZ); (0, alignZ); (0, approachZ); (0, 0);
      (0, exitZ); (0, exploreZ); (spreadX, spreadZ) ].


(** The arguments of one call of the frame callback: the component's props
    and the clock. *)
Record FrameInput : Type := mkFrameInput {
  action         : ActionType;
  targetPosition : option (Q * Q * Q);   (* [x, y, z] or null *)
  delta          : Q;                    (* seconds since the last frame *)
  elapsedTime    : Q                     (* state.clock.elapsedTime *)
}.

Section WithMath.

Variable M : JS.MathFns.

(** [calculateAngleToWaypoint(agentPos, waypoint)]. *)
Definition calculateAngleToWaypoint (agentPos : Vector3) (waypoint : Waypoint)
  : Q :=
  let dx := fst waypoint - x agentPos in
  let dz := snd waypoint - z agentPos in
  JS.atan2 M dx dz.

(** The two [if]s that bring an angle difference back by one turn. *)
Definition normalizeAngle (d : Q) : Q :=
  let d := if JS.gtb d JS.PI then d - 2 * JS.PI else d in
  if JS.ltb d (- JS.PI) then d + 2 * JS.PI else d.

(** Lines 344-363 of [followPath]: the command that turns the agent
    towards a waypoint, or drives it forward once it faces it. *)
Definition steerTowards (currentWaypoint : Waypoint) (s : AgentState)
  : ActionType :=
  let targetAngle := calculateAngleToWaypoint (position s) currentWaypoint in
  let currentAngle := rotation_y s in
  let angleDiff := normalizeAngle (targetAngle - currentAngle) in
  if JS.ltb (Qabs angleDiff) 0.1 then FORWARD
  else if JS.gtb angleDiff 0 then LEFT
  else RIGHT.

(** [followPath(agentPos, delta)]: the action to take, with the references
    it updates.  [currentWaypoint] is read before the index moves, as in
    the source. *)
Definition followPath (s : AgentState) : ActionType * AgentState :=
  let path := currentPath s in
  if (Nat.eqb (List.length path) 0)
     || (Nat.leb (List.length path) (currentPathIndex s))
  then (STOP, set_pathfindingMode false s)
  else
    let currentWaypoint := nth (currentPathIndex s) path (0, 0) in
    let agentPos := position s in
    let distanceToWaypoint :=
      JS.sqrt M ((x agentPos - fst currentWaypoint)
                   * (x agentPos - fst currentWaypoint)
                 + (z agentPos - snd currentWaypoint)
                   * (z agentPos - snd currentWaypoint)) in
    if JS.ltb distanceToWaypoint 1.0 then
      let s := set_currentPathIndex (S (currentPathIndex s)) s in
      if Nat.leb (List.length path) (currentPathIndex s)
      then (STOP, set_pathfindingMode false s)
      else (steerTowards currentWaypoint s, s)
    else (steerTowards currentWaypoint s, s).

(** *** The frame callback, block by block *)

(** Lines 369-380: rotation tracking.  Returns [normalizedDelta] too, which
    the scan accumulation reads later in the frame. *)
Definition trackRotation (s : AgentState) : AgentState * Q :=
  let currentRotation := rotation_y s in
  let rotationDelta := currentRotation - lastRotationAngle s in
  let s := set_lastRotationAngle currentRotation s in
  let normalizedDelta := normalizeAngle rotationDelta in
  (set_totalRotation (totalRotation s + Qabs normalizedDelta) s,
   normalizedDelta).

Definition oppositeSide (side : Side) : Side :=
  match side with north => south | south => north end.

(** The guard of lines 384. *)
Definition pathfindingTrigger (inp : FrameInput) (s : AgentState) : bool :=
  JS.gtb (scanRotation s) (2 * JS.PI)
  && negb (pathfindingMode s)
  && match targetPosition inp with Some _ => true | None => false end.

(** Lines 384-413: entering pathfinding mode.  The target's side is
    computed by the source only for its log line. *)
Definition activatePathfinding (inp : FrameInput) (s : AgentState)
  : AgentState :=
  if pathfindingTrigger inp s then
    let agentPos := position s in
    let currentAgentSide := determineAgentSide (z agentPos) in
    let s := set_pathfindingMode true s in
    let s := set_currentPath
               (findPathThroughGap (x agentPos) (z agentPos)
                  (oppositeSide currentAgentSide)) s in
    let s := set_currentPathIndex 0 s in
    let s := set_useRearView false s in
    let s := set_explorationMode false s in
    let s := set_totalRotation 0 s in
    set_scanRotation 0 s
  else s.

(** Lines 418-424: entering exploration mode. *)
Definition activateExploration (inp : FrameInput) (s : AgentState)
  : AgentState :=
  if JS.gtb (totalRotation s) (2 * JS.PI)
     && negb (explorationMode s)
     && match targetPosition inp with Some _ => false | None => true end
  then
    let s := set_explorationMode true s in
    let s := set_explorationStartTime (elapsedTime inp) s in
    let s := set_explorationPhase 0 s in
    set_totalRotation 0 s
  else s.

(** Lines 460-472: the collision test made while following a path. *)
Definition pathfindingCollision (s : AgentState) : AgentState :=
  if JS.leb (collisionCooldown s) 0 then
    let s := set_collisionDetected (checkCollisions M (position s) []) s in
    if collisionDetected s then
      let s := set_collisionCooldown COLLISION_COOLDOWN_TIME s in
      let s := set_pathfindingMode false s in
      let s := set_velocity 0 s in
      set_rotationVelocity 0 s
    else s
  else s.

(** Lines 438-475: one frame of travel along the path, under a steering
    command from [followPath].  The position is advanced straight towards
    the current waypoint and the heading is set to face it. *)
Definition moveAlongPath (inp : FrameInput) (pathAction : ActionType)
    (s : AgentState) : AgentState :=
  let effectiveAction := flipCommand (useRearView s) pathAction in
  let s := updateMovement (delta inp) effectiveAction s in
  let currentWaypoint := nth (currentPathIndex s) (currentPath s) (0, 0) in
  let agentPos := position s in
  let dirX := fst currentWaypoint - x agentPos in
  let dirZ := snd currentWaypoint - z agentPos in
  let dist := JS.sqrt M (dirX * dirX + dirZ * dirZ) in
  let s :=
    if JS.gtb dist 0 then
      let moveX := (dirX / dist) * velocity s * delta inp in
      let moveZ := (dirZ / dist) * velocity s * delta inp in
      set_position
        (mkVector3 (x agentPos + moveX) (y agentPos) (z agentPos + moveZ)) s
    else s in
  let targetAngle := calculateAngleToWaypoint (position s) currentWaypoint in
  let s := set_rotation_y targetAngle s in
  pathfindingCollision s.

(** Lines 432-482: the pathfinding block.  The boolean tells whether the
    callback returned from inside it ([return] at line 475). *)
Definition pathfindingStep (inp : FrameInput) (s : AgentState)
  : AgentState * bool :=
  if pathfindingMode s then
    let (pathAction, s) := followPath s in
    if negb (ActionType_eqb pathAction STOP) then
      (moveAlongPath inp pathAction s, true)
    else
      let s := set_pathfindingMode false s in
      (set_totalRotation 0 s, false)
  else (s, false).

(** Lines 485-515: the exploration block. *)
Definition explorationStep (inp : FrameInput) (s : AgentState) : AgentState :=
  if explorationMode s && negb (pathfindingMode s) then
    let explorationTime := elapsedTime inp - explorationStartTime s in
    let s :=
      match explorationPhase s with
      | O =>
          let s := set_velocity 1.5 s in
          let s := set_rotationVelocity 0 s in
          if JS.gtb explorationTime 3.0 then
            let s := set_explorationPhase 1 s in
            set_explorationStartTime (elapsedTime inp) s
          else s
      | S O =>
          let s := set_rotationVelocity 1.0 s in
          let s := set_velocity 0.3 s in
          if JS.gtb explorationTime 1.2 then
            let s := set_explorationPhase 0 s in
            set_explorationStartTime (elapsedTime inp) s
          else s
      | _ => s
      end in
    match targetPosition inp with
    | Some _ => set_explorationMode false s
    | None => s
    end
  else s.

(** Lines 518-523: cooldown timers. *)
Definition updateCooldowns (inp : FrameInput) (s : AgentState) : AgentState :=
  let s := if JS.gtb (collisionCooldown s) 0
           then set_collisionCooldown (collisionCooldown s - delta inp) s
           else s in
  if JS.gtb (viewSwitchCooldown s) 0
  then set_viewSwitchCooldown (viewSwitchCooldown s - delta inp) s
  else s.

(** Lines 526-539: collision test and rebound. *)
Definition collisionResponse (s : AgentState) : AgentState :=
  if JS.leb (collisionCooldown s) 0 then
    let s := set_collisionDetected (checkCollisions M (position s) []) s in
    if collisionDetected s then
      let s := set_collisionCooldown COLLISION_COOLDOWN_TIME s in
      let reverseSpeed := JS.min 2.5 (Qabs (velocity s) + 1.5) in
      let s := set_velocity reverseSpeed s in
      set_rotationVelocity (rotationVelocity s * 0.3) s
    else s
  else s.

(** Lines 545-550: scan rotation accumulates only while the supplied action
    is SCAN. *)
Definition accumulateScan (inp : FrameInput) (normalizedDelta : Q)
    (s : AgentState) : AgentState :=
  if ActionType_eqb (action inp) SCAN
  then set_scanRotation (scanRotation s + Qabs normalizedDelta) s
  else set_scanRotation 0 s.

(** Lines 556-565: integrate heading and position.  [translateZ(d)] moves a
    group whose only rotation is about the vertical axis by [d] along
    [(sin heading, 0, cos heading)]. *)
Definition translateZ (d : Q) (s : AgentState) : AgentState :=
  let p := position s in
  set_position
    (mkVector3 (x p + d * JS.sin M (rotation_y s)) (y p)
               (z p + d * JS.cos M (rotation_y s))) s.

Definition applyMovement (inp : FrameInput) (s : AgentState) : AgentState :=
  let s := set_rotation_y (rotation_y s + rotationVelocity s * delta inp) s in
  if useRearView s then translateZ (velocity s * delta inp) s
  else translateZ (- velocity s * delta inp) s.

(** Lines 568-581: soft boundary. *)
Definition softBoundary (s : AgentState) : AgentState :=
  let s :=
    if JS.gtb (Qabs (x (position s))) (boundary - AGENT_RADIUS) then
      let p := position s in
      let nx := clamp (x p) (- boundary + AGENT_RADIUS)
                      (boundary - AGENT_RADIUS) in
      let s := set_position (mkVector3 nx (y p) (z p)) s in
      let s := set_velocity (velocity s * 0.5) s in
      set_rotationVelocity
        (rotationVelocity s + (if JS.gtb nx 0 then 0.5 else -0.5)) s
    else s in
  if JS.gtb (Qabs (z (position s))) (boundary - AGENT_RADIUS) then
    let p := position s in
    let nz := clamp (z p) (- boundary + AGENT_RADIUS)
                    (boundary - AGENT_RADIUS) in
    let s := set_position (mkVector3 (x p) (y p) nz) s in
    let s := set_velocity (velocity s * 0.5) s in
    set_rotationVelocity
      (rotationVelocity s + (if JS.gtb nz 0 then 0.5 else -0.5)) s
  else s.

(** Lines 518-581: what a frame does once it is past the pathfinding
    block. *)
Definition reactiveStep (inp : FrameInput) (normalizedDelta : Q)
    (s : AgentState) : AgentState :=
  let s := explorationStep inp s in
  let s := updateCooldowns inp s in
  let s := collisionResponse s in
  let effectiveAction := flipCommand (useRearView s) (action inp) in
  let s := accumulateScan inp normalizedDelta s in
  let s := updateMovement (delta inp) effectiveAction s in
  let s := applyMovement inp s in
  softBoundary s.

(** [useFrame((state, delta) => ...)] on a mounted group. *)
Definition useFrame (inp : FrameInput) (s : AgentState) : AgentState :=
  let (s, normalizedDelta) := trackRotation s in
  let s := activatePathfinding inp s in
  let s := activateExploration inp s in
  let (s, returned) := pathfindingStep inp s in
  if returned then s
  else reactiveStep inp normalizedDelta s.

(** A run of frames, oldest input first. *)
Fixpoint runFrames (inps : list FrameInput) (s : AgentState) : AgentState :=
  match inps with
  | [] => s
  | inp :: rest => runFrames rest (useFrame inp s)
  end.

End WithMath.

(** The behaviour mode a state is in: pathfinding has priority over
    exploration (line 431), and the reactive mode is what is left. *)
Inductive BehaviorMode : Type := Reactive | Exploring | Pathfinding.

Definition behaviorMode (s : AgentState) : BehaviorMode :=
  if pathfindingMode s then Pathfinding
  else if explorationMode s then Exploring
  else Reactive.

(** The status light ([eyeColor], lines 585-603).  [straightLineMode] is
    the value of the reference of that name, which the component creates
    as [false] and never assigns. *)
Definition eyeColor (straightLineMode : bool) (confidence : Q)
    (command : ActionType) (s : AgentState) : string :=
  if collisionDetected s then "#ff0000"
  else if useRearView s then "#ff00ff"
  else if straightLineMode && JS.gtb confidence 0.6 then "#00ffff"
  else match command with
       | FORWARD => "#00ff00"
       | STOP => "#ff0000"
       | SCAN => "#ffff00"
       | LEFT | RIGHT => "#ff00ff"
       | _ => "#00ccff"
       end.

End Agent.

(** ** Rational stand-ins for the platform functions

    Used only to run the model on concrete inputs (worked examples and
    instances of the theorems); no theorem depends on how good they are.
    Square root by integer square root at six decimals, sine by
    Bhaskara's rational formula, arctangent by a quadratic correction of
    the identity on [[-1, 1]]. *)

Module Approx.

Definition sqrt (q : Q) : Q :=
  if Qle_bool q 0 then 0
  else Qred (Z.sqrt (Qnum q * 1000000000000 / Zpos (Qden q)) # 1000000).

Definition bhaskara (t : Q) : Q :=
  16 * t * (JS.PI - t) / (5 * JS.PI * JS.PI - 4 * t * (JS.PI - t)).

Definition sin (a : Q) : Q :=
  let r := a - 2 * JS.PI * inject_Z (Qfloor (a / (2 * JS.PI))) in
  Qred (if Qle_bool r JS.PI then bhaskara r else - bhaskara (r - JS.PI)).

Definition cos (a : Q) : Q := sin (a + JS.PI / 2).

Definition atanUnit (t : Q) : Q := t * (JS.PI / 4 + 0.273 * (1 - Qabs t)).

Definition atan (t : Q) : Q :=
  if Qle_bool (Qabs t) 1 then atanUnit t
  else if Qle_bool 0 t then JS.PI / 2 - atanUnit (1 / t)
  else - (JS.PI / 2) - atanUnit (1 / t).

Definition atan2 (b a : Q) : Q :=
  Qred (if JS.gtb a 0 then atan (b / a)
        else if JS.ltb a 0 then
          (if JS.geb b 0 then atan (b / a) + JS.PI else atan (b / a) - JS.PI)
        else if JS.gtb b 0 then JS.PI / 2
        else if JS.ltb b 0 then - (JS.PI / 2)
        else 0).

Definition math : JS.MathFns := JS.mkMathFns sqrt atan2 sin cos.

End Approx.

(** ** [services/sam2.ts] *)

Module Sam2.

(** What a [catch] clause receives: whether the value is an [Error], and
    its [message]. *)
Record Thrown : Type := mkThrown { isError : bool; message : string }.

(** How an asynchronous computation completes. *)
Inductive Completion (A : Type) : Type :=
  | Normal (a : A)
  | Throw (e : Thrown).
Arguments Normal {A} a.
Arguments Throw {A} e.

(** The body of an HTTP response, as [response.json()] delivers it: the
    promise rejects when the text is not JSON, and resolves with the
    document otherwise. *)
Inductive Body : Type :=
  | NotJson (e : Thrown)
  | Json (data : JSON.Json).

(** A [Response]: its [ok] flag, status line and body. *)
Record Response : Type := mkResponse {
  ok         : bool;
  status     : nat;
  statusText : string;
  body       : Body
}.

(** How one [fetch] ends: rejected (no connection), or resolved with a
    response. *)
Inductive FetchResult : Type :=
  | Rejected (e : Thrown)
  | Responded (r : Response).

(** The service as the client sees it: the outcomes of its successive
    requests.  A request made when the script is exhausted is rejected the
    way browsers reject an unreachable host. *)
Definition Net : Type := list FetchResult.

Definition failedToFetch : Thrown := mkThrown true "Failed to fetch".

(** Computations that issue requests: a state monad over the script, with
    exceptions. *)
Definition Async (A : Type) : Type := Net -> Completion A * Net.

Definition ret {A} (a : A) : Async A := fun net => (Normal a, net).
Definition throw {A} (e : Thrown) : Async A := fun net => (Throw e, net).
Definition bind {A B} (m : Async A) (k : A -> Async B) : Async B :=
  fun net =>
    match m net with
    | (Normal a, net') => k a net'
    | (Throw e, net') => (Throw e, net')
    end.
Definition tryCatch {A} (body : Async A) (handler : Thrown -> Async A)
  : Async A :=
  fun net =>
    match body net with
    | (Normal a, net') => (Normal a, net')
    | (Throw e, net') => handler e net'
    end.

Notation "x <- m ;; k" := (bind m (fun x => k))
  (at level 61, m at next level, right associativity).

(** [await fetch(...)]: the next outcome of the script. *)
Definition fetch : Async Response :=
  fun net =>
    match net with
    | [] => (Throw failedToFetch, [])
    | Rejected e :: rest => (Throw e, rest)
    | Responded r :: rest => (Normal r, rest)
    end.

(** [await response.json()]. *)
Definition json (b : Body) : Async JSON.Json :=
  match b with
  | NotJson e => throw e
  | Json data => ret data
  end.

(** [data.key]: reading a property of [null] throws a [TypeError]; any
    other document is read with [JSON.field]. *)
Definition read (data : JSON.Json) (key : string) : Async Value :=
  match data with
  | JNull =>
      throw (mkThrown true
               ("Cannot read properties of null (reading '" ++ key ++ "')"))
  | _ => ret (field data key)
  end.

(** [s.includes(pat)]. *)
Fixpoint includes (s pat : string) : bool :=
  if String.prefix pat s then true
  else match s with
       | EmptyString => false
       | String _ rest => includes rest pat
       end.

(** A status code in decimal. *)
Definition showStatus (n : nat) : string :=
  NilEmpty.string_of_uint (Nat.to_uint n).

Definition backendError (status : nat) (statusText : string) : Thrown :=
  mkThrown true
    ("SAM2 backend error: " ++ showStatus status ++ " " ++ statusText).

(** The [catch] branch shared by the monocular calls. *)
Definition scanFallback (error : Thrown) : VisionResponse :=
  let errorMessage :=
    "SAM2 backend unavailable. Falling back to scan mode."%string in
  let errorMessage :=
    if isError error then
      if includes (message error) "Failed to fetch"
         || includes (message error) "NetworkError"
      then "SAM2 backend not running. Please start the Python backend server."%string
      else errorMessage
    else errorMessage in
  mkVisionResponse (ofAction SCAN) (Some (JString errorMessage))
    (Some (JBool false)) None None None None.

(** The monocular request ([getNavCommand] of [services/sam2.ts], and
    [getMonocularNavCommand] of the stereo build).  The object it returns
    is built from the document property by property, unchecked. *)
Definition getMonocularNavCommand : Async VisionResponse :=
  tryCatch
    (response <- fetch ;;
     if negb (ok response)
     then throw (backendError (status response) (statusText response))
     else
       data <- json (body response) ;;
       action <- read data "action" ;;
       reasoning <- read data "reasoning" ;;
       targetVisible <- read data "targetVisible" ;;
       confidence <- read data "confidence" ;;
       boundingBox <- read data "boundingBox" ;;
       ret (mkVisionResponse action reasoning targetVisible confidence
              boundingBox None None))
    (fun error => ret (scanFallback error)).

Definition getNavCommand : Async VisionResponse := getMonocularNavCommand.

(** [getNavCommand] of the stereo build: the stereo endpoint first, the
    monocular request when that fails. *)
Definition getNavCommandStereo : Async VisionResponse :=
  tryCatch
    (response <- fetch ;;
     if negb (ok response) then getMonocularNavCommand
     else
       data <- json (body response) ;;
       action <- read data "action" ;;
       reasoning <- read data "reasoning" ;;
       targetVisible <- read data "targetVisible" ;;
       confidence <- read data "confidence" ;;
       boundingBox <- read data "boundingBox" ;;
       distance <- read data "distance" ;;
       angle <- read data "angle" ;;
       ret (mkVisionResponse action reasoning targetVisible confidence
              boundingBox distance angle))
    (fun _ => getMonocularNavCommand).

(** The requests a call reads no result from: the connection fails, the
    status is not a success status, the body is not JSON, or the body is
    JSON [null].  Every other body, whatever its shape, is read as a
    result. *)
Definition failed (r : FetchResult) : bool :=
  match r with
  | Rejected _ => true
  | Responded r =>
      negb (ok r)
      || match body r with
         | NotJson _ | Json JNull => true
         | Json _ => false
         end
  end.

(** The object both calls build from a document other than [null]. *)
Definition fieldsOf (data : JSON.Json) : VisionResponse :=
  mkVisionResponse (field data "action") (field data "reasoning")
    (field data "targetVisible") (field data "confidence")
    (field data "boundingBox") (field data "distance") (field data "angle").

End Sam2.

(** ** [App.tsx] and the mission types of [services/llm.ts] *)

Module App.

Definition TargetShape : Type := string.

Inductive StepCondition : Type := reached | detected.
Inductive MissionStatus : Type := pending | active | completed | failed.

Record MissionStep : Type := mkMissionStep {
  target    : TargetShape;
  condition : StepCondition;
  actions   : list ActionType
}.

Record ChainedMission : Type := mkChainedMission {
  id           : string;
  steps        : list MissionStep;
  current_step : nat;
  status       : MissionStatus
}.

(** [TARGET_OPTIONS]. *)
Definition TARGET_OPTIONS : list TargetShape :=
  [ "Red Cube"; "Pink Sphere"; "Green Cone"; "Yellow Cylinder";
    "Skeleton Head" ]%string.

(** The state cells of [App] the handlers read or write (the log and the
    preview frames are left out).  [agentAction] holds what was put
    there, which for [setAgentAction(result.action)] is whatever the
    service sent. *)
Record AppState : Type := mkAppState {
  selectedTarget : TargetShape;
  isRunning      : bool;
  agentAction    : Value;
  visionData     : option VisionResponse;
  currentMission : option ChainedMission;
  isProcessing   : bool                     (* isProcessingRef.current *)
}.

(** The two cells of the mission form. *)
Record MissionForm : Type := mkMissionForm {
  missionInput        : string;
  isProcessingMission : bool
}.

(** The cells of a freshly mounted [App]: the initial values of its
    [useState] and [useRef] calls. *)
Definition initialApp : AppState :=
  mkAppState (nth 0 TARGET_OPTIONS ""%string) false (ofAction IDLE) None None
    false.

Definition initialForm : MissionForm := mkMissionForm "" false.

(** *** Renders and the callbacks they create

    A handler is created by a render and closes over the cells as that
    render saw them; its setters write the cells as they are when it
    runs.  The two coincide when a handler runs to its end at once.  They
    differ for the part of an [async] handler after its [await] and for a
    timer callback: what these read ([currentMission], [selectedTarget],
    [isRunning]) is what the render that created them saw.  Below, [r] is
    that render, given by its cells, and [s] the cells at the time of the
    run.  The reference [isProcessingRef] is read where it is, never
    through a render. *)

(** [handleNextStep] as the render [r] created it, run on the cells [s]:
    the mission it advances is the one [r] saw, and the three setters
    write to [s]. *)
Definition handleNextStepOf (r s : AppState) : AppState :=
  match currentMission r with
  | None => s
  | Some m =>
      let nextStep := (current_step m + 1)%nat in
      if Nat.ltb nextStep (List.length (steps m)) then
        let updatedMission :=
          mkChainedMission (id m) (steps m) nextStep active in
        mkAppState
          (match nth_error (steps m) nextStep with
           | Some st => target st
           | None => selectedTarget s
           end)
          (isRunning s) (agentAction s) (visionData s)
          (Some updatedMission) (isProcessing s)
      else
        mkAppState (selectedTarget s) false (agentAction s) (visionData s)
          (Some (mkChainedMission (id m) (steps m) (current_step m) completed))
          (isProcessing s)
  end.

(** [handleNextStep] run at once, in the render of the cells. *)
Definition handleNextStep (s : AppState) : AppState := handleNextStepOf s s.

(** Sequencing of statements that may throw. *)
Definition andThen {A B : Type} (c : Sam2.Completion A)
    (k : A -> Sam2.Completion B) : Sam2.Completion B :=
  match c with
  | Sam2.Normal a => k a
  | Sam2.Throw e => Sam2.Throw e
  end.

(** The conversions of the language that the handler applies to what the
    service sent and that the model leaves open: the text of an array or
    an object ([String(v)], which calls its [toString] and can throw a
    [TypeError]), and the number a string, an array or an object converts
    to ([Number(v)], which can throw in the same way).  Every general
    theorem holds for all of them. *)
Record Conversions : Type := mkConversions {
  ToString : Json -> Sam2.Completion string;
  ToNumber : Json -> Sam2.Completion Num
}.

(** What [llmService.parseMission] resolves to: the special mission whose
    status is ['help'] (no target recognised), or a mission. *)
Inductive ParseResult : Type :=
  | Help
  | Parsed (mission : ChainedMission).

Section Handlers.

Variable C : Conversions.

(** [String.prototype.trim] is a parameter of the model. *)
Variable trim : string -> string.

(** A value inside a template literal.  The text goes to the log, which
    is not modelled: what matters is whether building it throws, and
    only an array or an object can make it throw. *)
Definition interpolate (v : Value) : Sam2.Completion unit :=
  match v with
  | Some (JArray items) =>
      andThen (ToString C (JArray items)) (fun _ => Sam2.Normal tt)
  | Some (JObject members) =>
      andThen (ToString C (JObject members)) (fun _ => Sam2.Normal tt)
  | _ => Sam2.Normal tt
  end.

(** [v.toFixed(1)] for a value that is neither [undefined] nor [null]: a
    number has the method, and calling it on anything else throws a
    [TypeError]. *)
Definition toFixed (v : Value) : Sam2.Completion unit :=
  if isNumber v then Sam2.Normal tt
  else Sam2.Throw (Sam2.mkThrown true "toFixed is not a function").

(** [v > q]. *)
Definition greaterThan (v : Value) (q : Q) : Sam2.Completion bool :=
  match v with
  | None => Sam2.Normal false
  | Some JNull => Sam2.Normal (JS.gtb 0 q)
  | Some (JBool b) => Sam2.Normal (JS.gtb (if b then 1 else 0) q)
  | Some (JNumber n) => Sam2.Normal (JS.gtb n q)
  | Some other => andThen (ToNumber C other) (fun n => Sam2.Normal (gtNum n q))
  end.

(** Lines 78-83: the two log lines built from the result. *)
Definition logResult (result : VisionResponse) : Sam2.Completion unit :=
  andThen (interpolate (vr_reasoning result)) (fun _ =>
  andThen
    (if negb (nullish (vr_distance result))
        && negb (nullish (vr_angle result))
     then andThen (toFixed (vr_distance result))
            (fun _ => toFixed (vr_angle result))
     else Sam2.Normal tt) (fun _ =>
  interpolate (vr_action result))).

(** The test of line 86:
    [action === STOP && targetVisible && confidence && confidence > 0.8]. *)
Definition targetReached (result : VisionResponse) : Sam2.Completion bool :=
  if isString (vr_action result) (actionName STOP)
     && truthy (vr_targetVisible result)
     && truthy (vr_confidence result)
  then greaterThan (vr_confidence result) 0.8
  else Sam2.Normal false.

Definition set_isProcessing (b : bool) (s : AppState) : AppState :=
  mkAppState (selectedTarget s) (isRunning s) (agentAction s) (visionData s)
    (currentMission s) b.

(** Lines 105-107: the [catch] branch. *)
Definition visionError (s : AppState) : AppState :=
  mkAppState (selectedTarget s) (isRunning s) (ofAction SCAN) (visionData s)
    (currentMission s) (isProcessing s).

(** Lines 74-107: what the handler does with a result, in the render [r]
    and on the cells [s].  A statement of the [try] block that throws
    leaves the two cells written before it as they are and hands over to
    the [catch] branch.  The boolean tells whether the timer that calls
    [handleNextStep] was set. *)
Definition applyVisionResult (r : AppState) (result : VisionResponse)
    (s : AppState) : AppState * bool :=
  let s := mkAppState (selectedTarget s) (isRunning s) (vr_action result)
             (Some result) (currentMission s) (isProcessing s) in
  match andThen (logResult result) (fun _ => targetReached result) with
  | Sam2.Throw _ => (visionError s, false)
  | Sam2.Normal false => (s, false)
  | Sam2.Normal true =>
      match currentMission r with
      | Some m =>
          match nth_error (steps m) (current_step m) with
          | Some currentStep =>
              if String.eqb (target currentStep) (selectedTarget r)
              then (s, true) else (s, false)
          | None => (s, false)
          end
      | None =>
          (mkAppState (selectedTarget s) false (agentAction s) (visionData s)
             (currentMission s) (isProcessing s), false)
      end
  end.

(** The guard of line 65, [isProcessingRef.current || !isRunning], in the
    render [r] and on the cells [s]. *)
Definition captureRefused (r s : AppState) : bool :=
  isProcessing s || negb (isRunning r).

(** Lines 72-110, from the point where the awaited call has settled, with
    a result or by throwing, to the end of [finally]. *)
Definition resumeCapture (r : AppState)
    (settled : Sam2.Completion VisionResponse) (s : AppState)
  : AppState * bool :=
  let (s, timer) :=
    match settled with
    | Sam2.Normal result => applyVisionResult r result s
    | Sam2.Throw _ => (visionError s, false)
    end in
  (set_isProcessing false s, timer).

(** [handleVisionCapture], for cells that nothing else writes while it
    awaits the call: the guard of line 65, the reference set, the
    request, and the rest in the render of the call. *)
Definition handleVisionCapture (s : AppState) (net : Sam2.Net)
  : (AppState * bool) * Sam2.Net :=
  if captureRefused s s then ((s, false), net)
  else
    let (settled, net') := Sam2.getNavCommandStereo net in
    (resumeCapture s settled (set_isProcessing true s), net').

(** Lines 121-141 of [handleMissionSubmit]: what it does with the parsed
    mission, in the render [r] (whose [isRunning] line 135 reads) and on
    the cells [s]. *)
Definition resumeSubmit (r : AppState) (parsed : ParseResult) (s : AppState)
  : AppState :=
  match parsed with
  | Help =>
      mkAppState (selectedTarget s) (isRunning s) (agentAction s)
        (visionData s) None (isProcessing s)
  | Parsed mission =>
      match steps mission with
      | firstStep :: _ =>
          if negb (isRunning r) then
            mkAppState (target firstStep) true (ofAction IDLE) None
              (Some mission) (isProcessing s)
          else
            mkAppState (target firstStep) (isRunning s) (agentAction s)
              (visionData s) (Some mission) (isProcessing s)
      | [] =>
          mkAppState (selectedTarget s) (isRunning s) (agentAction s)
            (visionData s) (Some mission) (isProcessing s)
      end
  end.

(** The guard of line 114: [!missionInput.trim() || isProcessingMission]. *)
Definition submitRefused (f : MissionForm) : bool :=
  String.eqb (trim (missionInput f)) "" || isProcessingMission f.

(** [handleMissionSubmit], for cells that nothing else writes while it
    awaits the parser.  [parse] is what [llmService.parseMission]
    resolves to for a text and a list of targets; [finally] clears the
    form. *)
Definition handleMissionSubmit
    (parse : string -> list TargetShape -> ParseResult)
    (s : AppState) (f : MissionForm) : AppState * MissionForm :=
  if submitRefused f then (s, f)
  else
    (resumeSubmit s (parse (missionInput f) TARGET_OPTIONS) s,
     mkMissionForm "" false).

End Handlers.

(** The state [handleMissionSubmit] leaves for a parsed mission with at
    least one step: the selected target is the target of the mission's
    current step. *)
Definition missionInSync (s : AppState) : Prop :=
  exists m st,
    currentMission s = Some m
    /\ nth_error (steps m) (current_step m) = Some st
    /\ target st = selectedTarget s.

(** [LogEntry] of [types.ts]. *)
Inductive LogType : Type := log_info | log_action | log_vision | log_error.

Record LogEntry : Type := mkLogEntry {
  log_id        : string;
  log_timestamp : string;
  log_message   : string;
  log_type      : LogType
}.

(** [addLog(message, type)], as the update of the [logs] cell.  [uuid] and
    [time] are what [uuidv4()] and [toLocaleTimeString] return at the
    call. *)
Definition addLog (uuid time message : string) (type : LogType)
    (prev : list LogEntry) : list LogEntry :=
  firstn 50 (mkLogEntry uuid time message type :: prev).

(** [toggleSimulation]. *)
Definition toggleSimulation (s : AppState) : AppState :=
  let hasMission :=
    match currentMission s with Some _ => true | None => false end in
  if hasMission && negb (isRunning s) then
    mkAppState (selectedTarget s) true (ofAction IDLE) None (currentMission s)
      (isProcessing s)
  else if negb hasMission && negb (isRunning s) then
    mkAppState (selectedTarget s) true (ofAction IDLE) None (currentMission s)
      (isProcessing s)
  else
    mkAppState (selectedTarget s) false (ofAction IDLE) (visionData s)
      (currentMission s) (isProcessing s).

End App.

(** ** [services/llm.ts] *)

Module Llm.

Import App.

(** The step every parser builds for a target. *)
Definition stepFor (target : TargetShape) : MissionStep :=
  mkMissionStep target reached [SCAN; FORWARD; STOP].

(** A number in decimal, as a template literal prints [Date.now()]. *)
Definition showNumber (n : N) : string :=
  NilEmpty.string_of_uint (N.to_uint n).

(** [s.split(' ')[0]]. *)
Fixpoint firstWord (s : string) : string :=
  match s with
  | EmptyString => EmptyString
  | String c rest =>
      if Ascii.eqb c Ascii.Space then EmptyString else String c (firstWord rest)
  end.

Section Fallback.

(** [String.prototype.toLowerCase] is a parameter of the model. *)
Variable toLowerCase : string -> string.

(** The [for] loop of [fallbackParseMission]: a step for the first
    available target whose first word occurs in the text, then [break]. *)
Fixpoint firstMentioned (text : string) (availableTargets : list TargetShape)
  : list MissionStep :=
  match availableTargets with
  | [] => []
  | target :: rest =>
      if Sam2.includes text (firstWord (toLowerCase target))
      then [stepFor target]
      else firstMentioned text rest
  end.

(** [fallbackParseMission(missionText, availableTargets)]; [now] is what
    [Date.now()] returns. *)
Definition fallbackParseMission (now : N) (missionText : string)
    (availableTargets : list TargetShape) : ChainedMission :=
  let steps : list MissionStep := [] in
  let text := toLowerCase missionText in
  let steps :=
    if Sam2.includes text "sphere" || Sam2.includes text "pink"
    then steps ++ [stepFor "Pink Sphere"%string] else steps in
  let steps :=
    if Sam2.includes text "cube" || Sam2.includes text "red"
       || Sam2.includes text "square"
    then steps ++ [stepFor "Red Cube"%string] else steps in
  let steps :=
    if Sam2.includes text "cone" || Sam2.includes text "green"
    then steps ++ [stepFor "Green Cone"%string] else steps in
  let steps :=
    if Sam2.includes text "cylinder" || Sam2.includes text "yellow"
    then steps ++ [stepFor "Yellow Cylinder"%string] else steps in
  let steps :=
    if Sam2.includes text "skeleton" || Sam2.includes text "skull"
       || Sam2.includes text "head" || Sam2.includes text "bone"
    then steps ++ [stepFor "Skeleton Head"%string] else steps in
  let steps :=
    if Nat.eqb (List.length steps) 0 then
      let steps := steps ++ firstMentioned text availableTargets in
      if Nat.eqb (List.length steps) 0
         && Nat.ltb 0 (List.length availableTargets)
      then steps ++ [stepFor (nth 0 availableTargets ""%string)]
      else steps
    else steps in
  mkChainedMission ("fallback_mission_" ++ showNumber now) steps 0 pending.

(** What the [try] block of [parseMission] gets from the language model:
    a list of target names ([parsed.targets || []]), or nothing it can use
    (the request is rejected, the status is not a success status, the
    reply has no content, the content is not JSON, [targets] is not an
    array: every case in which a statement of the block throws). *)
Inductive LLMReply : Type :=
  | Unusable
  | Targets (targets : list TargetShape).

(** [parseMission(missionText, availableTargets)]. *)
Definition parseMission (reply : LLMReply) (now : N) (missionText : string)
    (availableTargets : list TargetShape) : ParseResult :=
  match reply with
  | Targets targets =>
      if Nat.eqb (List.length targets) 0 then Help
      else Parsed (mkChainedMission ("mission_" ++ showNumber now)
                     (map stepFor targets) 0 pending)
  | Unusable => Parsed (fallbackParseMission now missionText availableTargets)
  end.

End Fallback.

(** The [reasoning] texts of [getNextAction], by template, with the values
    they interpolate. *)
Inductive Reasoning : Type :=
  | MissionOver                                  (* no current step *)
  | MovingToNext (reachedTarget next : TargetShape)
  | MissionCompleted
  | MovingToward (target : TargetShape) (confidence : Q)
  | LowConfidence (target : TargetShape)
  | Searching (target : TargetShape).

Record NextAction : Type := mkNextAction {
  na_action          : ActionType;
  na_reasoning       : Reasoning;
  shouldSwitchTarget : bool
}.

(** [getNextAction(mission, currentTarget, targetVisible, confidence)]. *)
Definition getNextAction (mission : ChainedMission)
    (currentTarget : TargetShape) (targetVisible : bool) (confidence : Q)
  : NextAction :=
  match nth_error (steps mission) (current_step mission) with
  | None => mkNextAction STOP MissionOver false
  | Some currentStep =>
      if String.eqb (target currentStep) currentTarget
         && match condition currentStep with
            | reached => true
            | detected => false
            end
         && JS.gtb confidence 0.8
      then
        if (Z.of_nat (current_step mission)
            <? Z.of_nat (List.length (steps mission)) - 1)%Z
        then
          mkNextAction STOP
            (MovingToNext currentTarget
               (target (nth (current_step mission + 1) (steps mission)
                          currentStep)))
            true
        else mkNextAction STOP MissionCompleted false
      else if targetVisible then
        if JS.gtb confidence 0.6
        then mkNextAction FORWARD (MovingToward currentTarget confidence) false
        else mkNextAction SCAN (LowConfidence currentTarget) false
      else mkNextAction SCAN (Searching currentTarget) false
  end.

End Llm.

(** ** What happens to a mounted [App]

    The cells of the component, together with what is under way: the
    call of [handleVisionCapture] that awaits the vision service, the
    call of [handleMissionSubmit] that awaits the parser, and the timers
    set by line 92 that have not fired yet.  Each of them holds the render
    that created it.

    An event is one uninterrupted piece of code: a handler up to its
    [await], the rest of a handler once the awaited call has settled, a
    timer callback.  Between two events the component has rendered, so a
    handler that starts sees the cells as they are.  The events of a
    session may come in any order: nothing is assumed on how long a
    request or a timer takes, except that timers, which all wait one
    second, fire in the order they were set.  An event that cannot happen
    in the state it meets (an answer with no request under way, a timer
    when none is pending) leaves the state as it is.  What the component
    draws from its cells is not modelled. *)

Module Session.

Import App.

Record State : Type := mkState {
  cells      : AppState;
  form       : MissionForm;
  capture    : option AppState;                 (* awaiting getNavCommand *)
  submission : option (AppState * MissionForm); (* awaiting parseMission *)
  timers     : list AppState                    (* oldest first *)
}.

(** The component as mounted. *)
Definition mounted : State := mkState initialApp initialForm None None [].

Inductive Event : Type :=
  | InputChanged (text : string)      (* the mission field is edited *)
  | SubmitPressed                     (* Enter, or the send button *)
  | MissionParsed (reply : Llm.LLMReply) (now : N)
                                      (* parseMission has resolved *)
  | SimulationToggled                 (* the start/abort button *)
  | FramesCaptured                    (* the scene manager hands over frames *)
  | VisionAnswered (net : Sam2.Net)   (* getNavCommand has settled *)
  | TimerFired.                       (* the oldest timer of line 92 *)

Section WithParameters.

Variable C : Conversions.
Variable toLowerCase : string -> string.
Variable trim : string -> string.

Definition dispatch (e : Event) (st : State) : State :=
  match e with
  | InputChanged text =>
      mkState (cells st)
        (mkMissionForm text (isProcessingMission (form st)))
        (capture st) (submission st) (timers st)
  | SubmitPressed =>
      if submitRefused trim (form st) then st
      else
        mkState (cells st) (mkMissionForm (missionInput (form st)) true)
          (capture st) (Some (cells st, form st)) (timers st)
  | MissionParsed reply now =>
      match submission st with
      | None => st
      | Some (r, f) =>
          mkState
            (resumeSubmit r
               (Llm.parseMission toLowerCase reply now (missionInput f)
                  TARGET_OPTIONS)
               (cells st))
            (mkMissionForm "" false) (capture st) None (timers st)
      end
  | SimulationToggled =>
      mkState (toggleSimulation (cells st)) (form st) (capture st)
        (submission st) (timers st)
  | FramesCaptured =>
      if captureRefused (cells st) (cells st) then st
      else
        mkState (set_isProcessing true (cells st)) (form st)
          (Some (cells st)) (submission st) (timers st)
  | VisionAnswered net =>
      match capture st with
      | None => st
      | Some r =>
          let (s', timer) :=
            resumeCapture C r (fst (Sam2.getNavCommandStereo net))
              (cells st) in
          mkState s' (form st) None (submission st)
            (if timer then timers st ++ [r] else timers st)
      end
  | TimerFired =>
      match timers st with
      | [] => st
      | r :: rest =>
          mkState (handleNextStepOf r (cells st)) (form st) (capture st)
            (submission st) rest
      end
  end.

Fixpoint run (events : list Event) (st : State) : State :=
  match events with
  | [] => st
  | e :: rest => run rest (dispatch e st)
  end.

End WithParameters.

(** ASCII lower case, the part of [toLowerCase] the target names need. *)
Definition asciiLower (c : Ascii.ascii) : Ascii.ascii :=
  let n := Ascii.nat_of_ascii c in
  if Nat.leb 65 n && Nat.leb n 90 then Ascii.ascii_of_nat (n + 32) else c.

Fixpoint lowerAscii (s : string) : string :=
  match s with
  | EmptyString => EmptyString
  | String c rest => String (asciiLower c) (lowerAscii rest)
  end.

End Session.

(** ** [WallWithGap.tsx] *)

Module WallWithGap.

Import THREE.

Definition wallHeight : Q := 3.
Definition wallThickness : Q := 0.5.
Definition wallLength : Q := 40.
Definition gapWidth : Q := 6.
Definition boundarySize : Q := 28.

(** A [mesh] with a [boxGeometry]: where its centre is, the [args] of the
    box (width along x, height, depth along z), and whether it is turned a
    quarter turn about the vertical axis. *)
Record Mesh : Type := mkMesh {
  centre      : Vector3;
  boxWidth    : Q;
  boxHeight   : Q;
  boxDepth    : Q;
  quarterTurn : bool
}.

Definition leftSegment : Mesh :=
  mkMesh (mkVector3 (- (wallLength / 2 + gapWidth / 2) / 2) (wallHeight / 2) 0)
    (wallLength / 2 - gapWidth / 2) wallHeight wallThickness false.

Definition rightSegment : Mesh :=
  mkMesh (mkVector3 ((wallLength / 2 + gapWidth / 2) / 2) (wallHeight / 2) 0)
    (wallLength / 2 - gapWidth / 2) wallHeight wallThickness false.

Definition northWall : Mesh :=
  mkMesh (mkVector3 0 (wallHeight / 2) (boundarySize / 2))
    boundarySize wallHeight wallThickness false.

Definition southWall : Mesh :=
  mkMesh (mkVector3 0 (wallHeight / 2) (- boundarySize / 2))
    boundarySize wallHeight wallThickness false.

Definition eastWall : Mesh :=
  mkMesh (mkVector3 (boundarySize / 2) (wallHeight / 2) 0)
    boundarySize wallHeight wallThickness true.

Definition westWall : Mesh :=
  mkMesh (mkVector3 (- boundarySize / 2) (wallHeight / 2) 0)
    boundarySize wallHeight wallThickness true.

(** The extent of a mesh along x and along z. *)
Definition extentX (m : Mesh) : Q :=
  if quarterTurn m then boxDepth m else boxWidth m.
Definition extentZ (m : Mesh) : Q :=
  if quarterTurn m then boxWidth m else boxDepth m.

(** A point of the floor plan lies in the footprint of a mesh. *)
Definition occupies (m : Mesh) (p : Vector3) : Prop :=
  Qabs (x p - x (centre m)) <= extentX m / 2
  /\ Qabs (z p - z (centre m)) <= extentZ m / 2.

End WallWithGap.

(** ** [SimulationWorld.tsx]: the targets and the capture schedule *)

Module SimulationWorld.

(** An entry of the [targets] table. *)
Record TargetData : Type := mkTargetData {
  type     : string;
  color    : string;
  position : Q * Q * Q;
  geometry : string
}.

Definition targets : list TargetData :=
  [ mkTargetData "Red Cube" "#ff0040" (5, 0.5, 5) "box";
    mkTargetData "Pink Sphere" "#ff69b4" (-4, 0.5, 4) "sphere";
    mkTargetData "Green Cone" "#00ff40" (2, 0.5, -6) "cone";
    mkTargetData "Yellow Cylinder" "#ffd700" (-6, 0.5, -2) "cylinder";
    mkTargetData "Skeleton Head" "#f0f0f0" (6, 0.5, -8) "skeleton" ].

(** The [targetPosition] prop handed to the agent:
    [targets.find(t => t.type === props.target &&
    !destroyedTargets.has(t.type))?.position || null]. *)
Definition targetPosition (target : string) (destroyedTargets : list string)
  : option (Q * Q * Q) :=
  match find (fun t => String.eqb (type t) target
                       && negb (existsb (String.eqb (type t))
                                  destroyedTargets))
          targets with
  | Some t => Some (position t)
  | None => None
  end.

(** [SceneManager]: the capture interval in milliseconds. *)
Definition CAPTURE_INTERVAL : Q := 600.

(** What a frame of the scene manager sees: the [isRunning] prop, whether
    both camera references are set, the clock, and whether both frames
    could be read back as images. *)
Record SceneInput : Type := mkSceneInput {
  isRunning    : bool;
  camerasReady : bool;
  elapsedTime  : Q;
  imagesReady  : bool
}.

(** The frame callback of [SceneManager]: the new value of
    [lastCaptureTime] and whether [onCaptureFrame] was called. *)
Definition useFrame (inp : SceneInput) (lastCaptureTime : Q) : Q * bool :=
  if negb (isRunning inp) then (lastCaptureTime, false)
  else if negb (camerasReady inp) then (lastCaptureTime, false)
  else
    let now := elapsedTime inp * 1000 in
    if JS.gtb (now - lastCaptureTime) CAPTURE_INTERVAL
    then (now, imagesReady inp)
    else (lastCaptureTime, false).

(** The clock values (in milliseconds) at which a run of frames calls
    [onCaptureFrame]. *)
Fixpoint captureTimes (inps : list SceneInput) (lastCaptureTime : Q)
  : list Q :=
  match inps with
  | [] => []
  | inp :: rest =>
      (if snd (useFrame inp lastCaptureTime)
       then [elapsedTime inp * 1000] else [])
      ++ captureTimes rest (fst (useFrame inp lastCaptureTime))
  end.

End SimulationWorld.

(** ** The Gemini build of the vision service ([unnamed/part_003]) *)

Module Gemini.

Import Sam2.

(** How [ai.models.generateContent] ends: rejected, resolved with no text
    (or an empty one), or resolved with a text, given by what
    [JSON.parse] makes of it. *)
Inductive GenerateResult : Type :=
  | Failed (e : Thrown)
  | NoText
  | Text (parsed : Body).

(** The [catch] branch: the object it returns. *)
Definition signalFallback (error : Thrown) : JSON.Json :=
  let errorMessage := "Signal interference. Recalibrating..."%string in
  let errorMessage :=
    if isError error then
      if includes (message error) "API_KEY"
         || includes (message error) "api key"
         || includes (message error) "authentication"
      then "API Key Error: Check .env.local configuration"%string
      else if includes (message error) "quota"
              || includes (message error) "rate limit"
      then "API quota exceeded. Please check your Gemini API usage."%string
      else errorMessage
    else errorMessage in
  JObject [ ("action", JString (actionName SCAN));
            ("reasoning", JString errorMessage);
            ("targetVisible", JBool false) ]%string.

(** [getNavCommand(imageBase64, targetDescription)].  The parsed document
    is returned as it is, without reading any of its properties. *)
Definition getNavCommand (result : GenerateResult) : Completion JSON.Json :=
  let body : Completion JSON.Json :=
    match result with
    | Failed e => Throw e
    | Text (NotJson e) => Throw e
    | Text (Json data) => Normal data
    | NoText => Throw (mkThrown true "No response text from Gemini")
    end in
  match body with
  | Normal v => Normal v
  | Throw error => Normal (signalFallback error)
  end.

End Gemini.

(** ** The STOP update on IEEE doubles

    [THREE.MathUtils.lerp] and the forward velocity that
    [updateMovement(delta, STOP)] assigns, on binary64 numbers with their
    rounding, as JavaScript computes them.  Used to cross-check on real
    doubles what the rational model says about reaching zero. *)

Module IEEE.

Import Floats.
Local Open Scope float_scope.

Definition lerp (a b t : float) : float := (1 - t) * a + t * b.

Definition stopVelocity (delta v : float) : float := lerp v 0 (delta * 2).

(** The velocity is positive now and after each of the next [n] STOP
    ticks. *)
Fixpoint positiveFor (n : nat) (delta v : float) : bool :=
  match n with
  | O => ltb 0 v
  | S k => ltb 0 v && positiveFor k delta (stopVelocity delta v)
  end.

End IEEE.

(** ** Vocabulary of the statements *)

Module Spec.

Import THREE Agent.

(** The depth coordinate lies in the band in which the central wall is
    tested: the wall's half thickness widened by the agent's radius. *)
Definition inWallBand (p : Vector3) : Prop :=
  Qabs (z p - wallZ) < AGENT_RADIUS + 0.25.

(** The lateral coordinate lies on one of the two solid segments of the
    central wall, each [2 * wallSegmentHalfWidth] wide, as
    [WallWithGap] draws them. *)
Definition onSolidSegment (p : Vector3) : Prop :=
  Qabs (x p - leftWallCenterX) <= wallSegmentHalfWidth
  \/ Qabs (x p - rightWallCenterX) <= wallSegmentHalfWidth.

(** The lateral coordinate lies in the gap band. *)
Definition inGapBand (p : Vector3) : Prop := Qabs (x p) < gapHalfWidth.

(** The lateral coordinate is within the agent's radius of a point of a
    solid segment. *)
Definition touchesSolidSegment (p : Vector3) : Prop :=
  exists q : Q,
    onSolidSegment (mkVector3 q (y p) (z p))
    /\ Qabs (x p - q) < AGENT_RADIUS.

(** Waypoints are compared coordinate by coordinate. *)
Definition Waypoint_eqb (a b : Waypoint) : bool :=
  Qeq_bool (fst a) (fst b) && Qeq_bool (snd a) (snd b).

(** The centre of the gap, [wallGapCenter]. *)
Definition gapCenter : Waypoint := (0, 0).

(** How many waypoints of a path are a given point. *)
Definition countWaypoint (w : Waypoint) (path : list Waypoint) : nat :=
  List.length (filter (Waypoint_eqb w) path).

(** A waypoint inside the safe interior [BOUNDARY] of the maze. *)
Definition withinBoundary (w : Waypoint) : Prop :=
  - BOUNDARY <= fst w /\ fst w <= BOUNDARY
  /\ - BOUNDARY <= snd w /\ snd w <= BOUNDARY.

(** The state in which the pathfinding block runs: rotation tracked and
    both activations done. *)
Definition afterActivation (inp : FrameInput) (s : AgentState) : AgentState :=
  activateExploration inp (activatePathfinding inp (fst (trackRotation s))).

(** While pathfinding is on, the scan accumulator is 0. *)
Definition scanClearedWhilePathfinding (s : AgentState) : Prop :=
  pathfindingMode s = true -> scanRotation s = 0.

(** The agent is in exploration mode (pathfinding has priority, so it
    must be off) in one of the two phases the controller alternates. *)
Definition exploring (s : AgentState) : Prop :=
  explorationMode s = true /\ pathfindingMode s = false
  /\ (explorationPhase s <= 1)%nat.

(** A frame with no target assigned and a frame time between 0 and
    1/4 s. *)
Definition calmFrame (inp : FrameInput) : Prop :=
  targetPosition inp = None /\ 0 <= delta inp /\ delta inp <= 1 # 4.

(** The sum of the frame times of a run. *)
Definition totalTime (inps : list FrameInput) : Q :=
  fold_right (fun inp acc => delta inp + acc) 0 inps.

(** The square the soft boundary keeps the agent in. *)
Definition insideSoftBoundary (p : Vector3) : Prop :=
  Qabs (x p) <= boundary - AGENT_RADIUS
  /\ Qabs (z p) <= boundary - AGENT_RADIUS.

(** The waypoint index is inside its path while a path is being followed
    and never beyond its end; a path is empty or a crossing route. *)
Definition pathIndexInvariant (s : AgentState) : Prop :=
  (currentPathIndex s <= List.length (currentPath s))%nat
  /\ (currentPath s = [] \/ List.length (currentPath s) = 7%nat)
  /\ (pathfindingMode s = true
      -> (currentPathIndex s < List.length (currentPath s))%nat).

(** Reflection of a waypoint through the line of the central wall. *)
Definition mirror (w : Waypoint) : Waypoint := (fst w, - snd w).

(** The straight legs of a route: each waypoint with the next. *)
Definition legs (path : list Waypoint) : list (Waypoint * Waypoint) :=
  combine path (tl path).

(** The point a fraction [t] of the way along a leg, on the floor. *)
Definition pointOnLeg (leg : Waypoint * Waypoint) (t : Q) : Vector3 :=
  mkVector3 (lerp (fst (fst leg)) (fst (snd leg)) t) 0
            (lerp (snd (fst leg)) (snd (snd leg)) t).

(** The front view is the active one and the view-switch cooldown is not
    running. *)
Definition frontView (s : AgentState) : Prop :=
  useRearView s = false /\ viewSwitchCooldown s = 0.

(** The heading is the bearing of the current waypoint, as
    [calculateAngleToWaypoint] gives it from the agent's position. *)
Definition facingWaypoint (M : JS.MathFns) (s : AgentState) : Prop :=
  rotation_y s
  = calculateAngleToWaypoint M (position s)
      (nth (currentPathIndex s) (currentPath s) (0, 0)).

(** Successive times are more than [gap] apart. *)
Fixpoint spaced (gap : Q) (times : list Q) : Prop :=
  match times with
  | a :: (b :: _) as rest => a + gap < b /\ spaced gap rest
  | _ => True
  end.

(** Every frame time of a run is non-negative. *)
Definition forwardInTime (inps : list FrameInput) : Prop :=
  Forall (fun inp => 0 <= delta inp) inps.

(** The words the keyword parser looks for in a mission text. *)
Definition fallbackKeywords : list string :=
  [ "sphere"; "pink"; "cube"; "red"; "square"; "cone"; "green"; "cylinder";
    "yellow"; "skeleton"; "skull"; "head"; "bone" ]%string.

(** A text (in lower case) that contains none of them. *)
Definition namesNoTarget (text : string) : Prop :=
  forall keyword, In keyword fallbackKeywords ->
                  Sam2.includes text keyword = false.

(** The step the parsers build: reach the target, by scanning, moving
    forward and stopping. *)
Definition standardStep (st : App.MissionStep) : Prop :=
  App.condition st = App.reached
  /\ App.actions st = [SCAN; FORWARD; STOP].

(** A mission, if there is one, whose current step exists. *)
Definition stepExists (s : App.AppState) : Prop :=
  forall m, App.currentMission s = Some m ->
            (App.current_step m < List.length (App.steps m))%nat.

(** What the mission sequencer maintains of the cells: the current step
    of the mission exists, and until the mission is completed its target
    is the selected target. *)
Definition sequencerInvariant (s : App.AppState) : Prop :=
  stepExists s
  /\ forall m, App.currentMission s = Some m ->
               App.status m <> App.completed -> App.missionInSync s.

(** What holds of a mounted application at every moment: the in-flight
    flag is set exactly while a capture awaits the vision service, the
    form is marked busy exactly while a submission awaits the parser, the
    cells satisfy the sequencer's invariant, so did the render of the
    capture under way, and every pending timer was set by a render whose
    current step exists and is the target that render had selected. *)
Definition sessionInvariant (st : Session.State) : Prop :=
  (App.isProcessing (Session.cells st) = true
   <-> Session.capture st <> None)
  /\ (App.isProcessingMission (Session.form st) = true
      <-> Session.submission st <> None)
  /\ sequencerInvariant (Session.cells st)
  /\ (forall r, Session.capture st = Some r -> sequencerInvariant r)
  /\ Forall (fun r => stepExists r /\ App.missionInSync r)
       (Session.timers st).

End Spec.

(** ** States and inputs used as worked examples *)

Module Examples.

Import THREE Agent.

(** The agent where it is mounted (the origin, which is the gap centre),
    after 33 frames of 1/4 s under the action SCAN: it has not moved, it
    turns at the scan rate 0.81, and the heading of the previous frame,
    which both accumulators have reached, is 32 * 0.2025 = 6.48. *)
Definition scannedAtOrigin : AgentState :=
  set_rotation_y 6.6825
    (set_lastRotationAngle 6.48
       (set_rotationVelocity 0.81
          (set_scanRotation 6.48 (set_totalRotation 6.48 initialState)))).

(** A frame of 1/60 s with the action SCAN and the Green Cone, which stands
    on the south half, as target. *)
Definition scanForGreenCone : FrameInput :=
  mkFrameInput SCAN (Some (2, 0.5, -6)) (1 # 60) 10.

(** A frame of 1/60 s with no target and the action IDLE. *)
Definition idleNoTarget (t : Q) : FrameInput :=
  mkFrameInput IDLE None (1 # 60) t.

(** Exploring, in the turn phase since time 0. *)
Definition exploringTurn : AgentState :=
  set_explorationPhase 1 (set_explorationMode true initialState).

(** Thirteen frames of 1/10 s with no target and the action SCAN, the
    clock running from 0.1 to 1.3: a whole turn phase begun at time 0. *)
Definition turnRun : list FrameInput :=
  map (fun k => mkFrameInput SCAN None (1 # 10) (inject_Z k * (1 # 10)))
      [1; 2; 3; 4; 5; 6; 7; 8; 9; 10; 11; 12; 13]%Z.

(** The application running a mission with the single step Red Cube. *)
Definition redCubeStep : App.MissionStep :=
  App.mkMissionStep "Red Cube"%string App.reached [SCAN; FORWARD; STOP].

Definition singleStepApp : App.AppState :=
  App.mkAppState "Red Cube"%string true (ofAction IDLE) None
    (Some (App.mkChainedMission "mission_1"%string [redCubeStep] 0
             App.pending))
    false.

(** The session of that application: nothing under way. *)
Definition singleStepSession : Session.State :=
  Session.mkState singleStepApp App.initialForm None None [].

(** A vision result that reports STOP with the target visible, at a given
    confidence. *)
Definition stopAt (c : Q) : VisionResponse :=
  conforming STOP "Target reached" true (Some c) None None None.

(** The answer of the stereo endpoint that gives this result: status 200
    and the four properties as the body. *)
Definition stopAnswer (c : Q) : Sam2.Net :=
  [ Sam2.Responded
      (Sam2.mkResponse true 200 "OK"
         (Sam2.Json
            (JObject [ ("action", JString "STOP");
                       ("reasoning", JString "Target reached");
                       ("targetVisible", JBool true);
                       ("confidence", JNumber c) ]%string))) ].

(** Stand-ins for the two conversions, for the worked examples (which
    convert no array, object or string): the text [[object Object]] and
    the number [NaN]. *)
Definition plainConversions : App.Conversions :=
  App.mkConversions (fun _ => Sam2.Normal "[object Object]"%string)
    (fun _ => Sam2.Normal NaN).

(** Arriving: on the last leg of the crossing route from the origin, half
    a unit short of its last waypoint, heading south as in the frame
    before. *)
Definition arrivingSouth : AgentState :=
  set_position (mkVector3 0 0 (-9.5))
    (set_rotation_y JS.PI
       (set_lastRotationAngle JS.PI
          (set_velocity 5
             (set_pathfindingMode true
                (set_currentPathIndex 6
                   (set_currentPath
                      [ (0, 0); (0, 5); (0, 2); (0, 0); (0, -2); (0, -8);
                        (0, -10) ]
                      initialState)))))).

(** Moving forward at speed 1, not yet in any mode. *)
Definition cruising : AgentState := set_velocity 1 initialState.

End Examples.

(* ================================================================== *)
(** * Part II: properties                                              *)
(* ================================================================== *)

(** ** Comparisons, minimum and maximum *)

Module JSFacts.

Lemma ltb_true (a b : Q) : JS.ltb a b = true <-> a < b.
Proof.
  unfold JS.ltb. rewrite negb_true_iff.
  split; intro H.
  - apply Qnot_le_lt. intro Hle. apply Qle_bool_iff in Hle. congruence.
  - destruct (Qle_bool b a) eqn:E; [|reflexivity].
    apply Qle_bool_iff in E. lra.
Qed.

Lemma ltb_false (a b : Q) : JS.ltb a b = false <-> b <= a.
Proof.
  unfold JS.ltb. rewrite negb_false_iff. apply Qle_bool_iff.
Qed.

Lemma gtb_true (a b : Q) : JS.gtb a b = true <-> b < a.
Proof. apply ltb_true. Qed.

Lemma gtb_false (a b : Q) : JS.gtb a b = false <-> a <= b.
Proof. apply ltb_false. Qed.

Lemma leb_true (a b : Q) : JS.leb a b = true <-> a <= b.
Proof. apply Qle_bool_iff. Qed.

Lemma leb_false (a b : Q) : JS.leb a b = false <-> b < a.
Proof.
  unfold JS.leb. split; intro H.
  - apply Qnot_le_lt. intro Hle. apply Qle_bool_iff in Hle. congruence.
  - destruct (Qle_bool a b) eqn:E; [|reflexivity].
    apply Qle_bool_iff in E. lra.
Qed.

Lemma geb_true (a b : Q) : JS.geb a b = true <-> b <= a.
Proof. apply Qle_bool_iff. Qed.

Lemma geb_false (a b : Q) : JS.geb a b = false <-> a < b.
Proof. unfold JS.geb. apply leb_false. Qed.

Lemma min_spec (a b : Q) :
  (a <= b /\ JS.min a b = a) \/ (b < a /\ JS.min a b = b).
Proof.
  unfold JS.min. destruct (Qle_bool a b) eqn:E.
  - left. split; [apply Qle_bool_iff; exact E | reflexivity].
  - right. split; [apply leb_false; exact E | reflexivity].
Qed.

Lemma max_spec (a b : Q) :
  (a <= b /\ JS.max a b = b) \/ (b < a /\ JS.max a b = a).
Proof.
  unfold JS.max. destruct (Qle_bool a b) eqn:E.
  - left. split; [apply Qle_bool_iff; exact E | reflexivity].
  - right. split; [apply leb_false; exact E | reflexivity].
Qed.

Lemma abs_lt (a b : Q) : Qabs a < b <-> - b < a /\ a < b.
Proof. apply Qabs_Qlt_condition. Qed.

Lemma abs_cases (a : Q) :
  (0 <= a /\ Qabs a == a) \/ (a <= 0 /\ Qabs a == - a).
Proof.
  destruct (Qlt_le_dec a 0) as [H|H].
  - right. split; [lra|]. apply Qabs_neg. lra.
  - left. split; [exact H|]. apply Qabs_pos. exact H.
Qed.

(** [2 * Math.PI] lies strictly between 6.28 and 6.29. *)
Lemma two_pi_bounds : 6.28 < 2 * JS.PI /\ 2 * JS.PI < 6.29.
Proof. unfold JS.PI. split; reflexivity. Qed.

End JSFacts.

(** Turn the boolean tests in the context and the goal into inequalities. *)
Ltac js_props :=
  repeat match goal with
  | H : JS.ltb _ _ = true |- _ => apply JSFacts.ltb_true in H
  | H : JS.ltb _ _ = false |- _ => apply JSFacts.ltb_false in H
  | H : JS.gtb _ _ = true |- _ => apply JSFacts.gtb_true in H
  | H : JS.gtb _ _ = false |- _ => apply JSFacts.gtb_false in H
  | H : JS.leb _ _ = true |- _ => apply JSFacts.leb_true in H
  | H : JS.leb _ _ = false |- _ => apply JSFacts.leb_false in H
  | H : JS.geb _ _ = true |- _ => apply JSFacts.geb_true in H
  | H : JS.geb _ _ = false |- _ => apply JSFacts.geb_false in H
  end.

(** Replace every absolute value by its two cases. *)
Ltac abs_split :=
  repeat match goal with
  | |- context [Qabs ?a] =>
      let Hs := fresh "Hs" in let He := fresh "He" in
      destruct (JSFacts.abs_cases a) as [[Hs He]|[Hs He]];
      generalize dependent (Qabs a); intros
  | H : context [Qabs ?a] |- _ =>
      let Hs := fresh "Hs" in let He := fresh "He" in
      destruct (JSFacts.abs_cases a) as [[Hs He]|[Hs He]];
      generalize dependent (Qabs a); intros
  end.

(** ** The view/command mapper *)

Module FlipFacts.

Import Agent.

(** C10.  [flipCommand] is an involution for either state of the rear
    view; with the rear view inactive it is the identity; with the rear
    view active it exchanges LEFT and RIGHT and leaves FORWARD, STOP, SCAN
    and IDLE as they are. *)
Theorem flipCommand_involution (rear : bool) (cmd : ActionType) :
  flipCommand rear (flipCommand rear cmd) = cmd
  /\ flipCommand false cmd = cmd
  /\ flipCommand true LEFT = RIGHT
  /\ flipCommand true RIGHT = LEFT
  /\ flipCommand true FORWARD = FORWARD
  /\ flipCommand true STOP = STOP
  /\ flipCommand true SCAN = SCAN
  /\ flipCommand true IDLE = IDLE.
Proof.
  repeat split; try reflexivity.
  destruct rear, cmd; reflexivity.
Qed.

End FlipFacts.

(** ** The collision detector *)

Module CollisionFacts.

Import THREE Agent Spec.

Lemma nearCentralWall_iff (p : Vector3) :
  nearCentralWall p = true <-> inWallBand p.
Proof. apply JSFacts.ltb_true. Qed.

Lemma hitsLeftSegment_iff (p : Vector3) :
  hitsLeftSegment p = true <-> -20.4 < x p /\ x p < -2.6.
Proof.
  unfold hitsLeftSegment. rewrite JSFacts.ltb_true, JSFacts.abs_lt.
  unfold leftWallCenterX, wallSegmentHalfWidth, gapHalfWidth, AGENT_RADIUS.
  split; intros [H1 H2]; split; lra.
Qed.

Lemma hitsRightSegment_iff (p : Vector3) :
  hitsRightSegment p = true <-> 2.6 < x p /\ x p < 20.4.
Proof.
  unfold hitsRightSegment. rewrite JSFacts.ltb_true, JSFacts.abs_lt.
  unfold rightWallCenterX, wallSegmentHalfWidth, gapHalfWidth, AGENT_RADIUS.
  split; intros [H1 H2]; split; lra.
Qed.

(** A coordinate is within [r] of the interval of half width [h] around
    [c] exactly when it is within [h + r] of [c]. *)
Lemma near_interval (a c h r : Q) :
  0 <= h -> 0 < r ->
  (exists q, Qabs (q - c) <= h /\ Qabs (a - q) < r) <-> Qabs (a - c) < h + r.
Proof.
  intros Hh Hr. split.
  - intros (q & Hq & Ha).
    apply Qabs_Qle_condition in Hq. apply JSFacts.abs_lt in Ha.
    apply JSFacts.abs_lt. lra.
  - intro Ha. apply JSFacts.abs_lt in Ha.
    destruct (Qlt_le_dec (a - c) (- h)) as [Hlow|Hlow].
    + exists (c - h). split.
      * apply Qabs_Qle_condition. lra.
      * apply JSFacts.abs_lt. lra.
    + destruct (Qlt_le_dec h (a - c)) as [Hhigh|Hhigh].
      * exists (c + h). split.
        -- apply Qabs_Qle_condition. lra.
        -- apply JSFacts.abs_lt. lra.
      * exists a. split.
        -- apply Qabs_Qle_condition. lra.
        -- apply JSFacts.abs_lt. lra.
Qed.

(** The two segment tests of [checkCollisions] are the test of touching a
    solid segment. *)
Lemma touchesSolidSegment_iff (p : Vector3) :
  touchesSolidSegment p <->
  hitsLeftSegment p = true \/ hitsRightSegment p = true.
Proof.
  unfold touchesSolidSegment, onSolidSegment, hitsLeftSegment,
    hitsRightSegment.
  cbn [x]. rewrite !JSFacts.ltb_true.
  assert (Hh : 0 <= wallSegmentHalfWidth) by discriminate.
  assert (Hr : 0 < AGENT_RADIUS) by reflexivity.
  rewrite <- (near_interval (x p) leftWallCenterX _ _ Hh Hr).
  rewrite <- (near_interval (x p) rightWallCenterX _ _ Hh Hr).
  split.
  - intros (q & [Hq|Hq] & Ha); [left|right]; exists q; tauto.
  - intros [(q & Hq & Ha)|(q & Hq & Ha)]; exists q; tauto.
Qed.

Lemma reach_of_boundary_wall : 0.4 + 0.5 / 2 == 0.65.
Proof. reflexivity. Qed.

(** Inside the wall band no boundary wall is in reach unless a solid
    segment is. *)
Lemma boundary_needs_segment (p : Vector3) :
  inWallBand p -> hitsBoundaryWall p = true ->
  hitsLeftSegment p = true \/ hitsRightSegment p = true.
Proof.
  unfold inWallBand, wallZ, AGENT_RADIUS. intros Hband Hb.
  rewrite hitsLeftSegment_iff, hitsRightSegment_iff.
  unfold hitsBoundaryWall in Hb.
  unfold boundary, wallThickness, AGENT_RADIUS in Hb.
  apply JSFacts.abs_lt in Hband.
  repeat (apply orb_true_iff in Hb; destruct Hb as [Hb|Hb]);
    apply andb_true_iff in Hb; destruct Hb as [H1 H2];
    apply JSFacts.ltb_true in H1; apply JSFacts.ltb_true in H2;
    apply JSFacts.abs_lt in H1; apply JSFacts.abs_lt in H2;
    rewrite reach_of_boundary_wall in H1; lra.
Qed.

(** Touching a solid segment, as an interval of the lateral coordinate. *)
Lemma touchesSolidSegment_interval (p : Vector3) :
  touchesSolidSegment p <-> 2.6 < Qabs (x p) /\ Qabs (x p) < 20.4.
Proof.
  rewrite touchesSolidSegment_iff, hitsLeftSegment_iff, hitsRightSegment_iff.
  destruct (JSFacts.abs_cases (x p)) as [[Hs He]|[Hs He]]; rewrite He;
    split; intro H; lra.
Qed.

(** C1, as the code has it.  For every position in the wall band,
    [checkCollisions] (with the empty obstacle list the frame callback
    passes) reports a collision if and only if the lateral coordinate is
    within the agent's radius of a solid segment, that is, strictly
    between 2.6 and 20.4 in absolute value; and for every position in the
    band whose lateral coordinate is at most the gap half-width minus the
    agent's radius, it reports none, whatever the obstacles. *)
Theorem central_wall_collision (M : JS.MathFns) (p : Vector3)
    (Hband : inWallBand p) :
  (checkCollisions M p [] = true <-> touchesSolidSegment p)
  /\ (checkCollisions M p [] = true
      <-> 2.6 < Qabs (x p) /\ Qabs (x p) < 20.4)
  /\ (forall targets, Qabs (x p) <= gapHalfWidth - AGENT_RADIUS ->
        checkCollisions M p targets = false).
Proof.
  pose proof Hband as Hn. apply nearCentralWall_iff in Hn.
  assert (Hiff : checkCollisions M p [] = true <-> touchesSolidSegment p).
  { rewrite touchesSolidSegment_iff. unfold checkCollisions. rewrite Hn.
    destruct (hitsLeftSegment p) eqn:EL; [tauto|].
    destruct (hitsRightSegment p) eqn:ER; [tauto|].
    destruct (inGapArea p); [intuition discriminate|].
    destruct (hitsBoundaryWall p) eqn:EB.
    - destruct (boundary_needs_segment p Hband EB); congruence.
    - simpl. intuition discriminate. }
  split; [exact Hiff|]. split.
  - rewrite Hiff. apply touchesSolidSegment_interval.
  - intros targets Hx. unfold checkCollisions. rewrite Hn.
    unfold gapHalfWidth, AGENT_RADIUS in Hx.
    apply Qabs_Qle_condition in Hx.
    destruct (hitsLeftSegment p) eqn:EL.
    { apply hitsLeftSegment_iff in EL. lra. }
    destruct (hitsRightSegment p) eqn:ER.
    { apply hitsRightSegment_iff in ER. lra. }
    assert (Hg : inGapArea p = true).
    { apply JSFacts.ltb_true. apply JSFacts.abs_lt.
      unfold gapHalfWidth. lra. }
    rewrite Hg. reflexivity.
Qed.

(** An instance: the gap centre, in the band and clear of both segments. *)
Lemma central_wall_collision_witness :
  inWallBand (mkVector3 0 0 0)
  /\ forall targets, checkCollisions Approx.math (mkVector3 0 0 0) targets
                     = false.
Proof.
  assert (H : inWallBand (mkVector3 0 0 0)) by reflexivity.
  split; [exact H|]. intro targets.
  refine (proj2 (proj2
    (central_wall_collision Approx.math (mkVector3 0 0 0) H)) targets _).
  discriminate.
Defined.

(** C1 as stated fails: at lateral coordinate 2.8 and depth 0 the agent is
    in the wall band and in the gap band, on neither solid segment, and
    [checkCollisions] reports a collision (the right segment, widened by
    the agent's radius, starts at 2.6). *)
Lemma gap_band_collision_counterexample :
  inWallBand (mkVector3 2.8 0 0)
  /\ inGapBand (mkVector3 2.8 0 0)
  /\ ~ onSolidSegment (mkVector3 2.8 0 0)
  /\ checkCollisions Approx.math (mkVector3 2.8 0 0) [] = true.
Proof.
  split; [reflexivity|]. split; [reflexivity|]. split; [|reflexivity].
  unfold onSolidSegment, leftWallCenterX, rightWallCenterX,
    wallSegmentHalfWidth, gapHalfWidth.
  intros [H|H]; apply Qabs_Qle_condition in H; simpl in H; lra.
Qed.

End CollisionFacts.

(** ** The physics integrator *)

Module MovementFacts.

Import THREE Agent.

(** [lerp] towards a value of an interval stays in the interval when the
    weight is between 0 and 1. *)
Lemma lerp_between (a b t lo hi : Q) :
  0 <= t -> t <= 1 -> lo <= a -> a <= hi -> lo <= b -> b <= hi ->
  lo <= lerp a b t /\ lerp a b t <= hi.
Proof. unfold lerp. intros. split; nra. Qed.

Lemma updateMovement_velocity (delta : Q) (a : ActionType) (s : AgentState) :
  velocity (updateMovement delta a s)
  = lerp (velocity s) (targetVel s a) (delta * 2).
Proof. reflexivity. Qed.

Lemma updateMovement_rotationVelocity (delta : Q) (a : ActionType)
    (s : AgentState) :
  rotationVelocity (updateMovement delta a s)
  = lerp (rotationVelocity s) (targetRot a) (delta * 4).
Proof. reflexivity. Qed.

Lemma updateMovement_pathfindingMode (delta : Q) (a : ActionType)
    (s : AgentState) :
  pathfindingMode (updateMovement delta a s) = pathfindingMode s.
Proof. reflexivity. Qed.

Lemma MAX_SPEED_bounds (b : bool) : 2.5 <= MAX_SPEED b /\ MAX_SPEED b <= 7.5.
Proof. destruct b; unfold MAX_SPEED; split; lra. Qed.

(** The target speed of a command is between 0 and any bound above both
    the current speed and the speed cap. *)
Lemma targetVel_between (s : AgentState) (a : ActionType) (hi : Q) :
  0 <= velocity s -> velocity s <= hi -> MAX_SPEED (pathfindingMode s) <= hi ->
  0 <= targetVel s a /\ targetVel s a <= hi.
Proof.
  intros H0 H1 H2. pose proof (MAX_SPEED_bounds (pathfindingMode s)).
  destruct a; unfold targetVel; split; lra.
Qed.

(** The target turn rate of a command is within the scan rate. *)
Lemma targetRot_between (a : ActionType) :
  -0.81 <= targetRot a /\ targetRot a <= 0.81.
Proof. destruct a; unfold targetRot, ROT_SPEED; split; lra. Qed.

Lemma updateMovement_velocity_between (delta : Q) (a : ActionType)
    (s : AgentState) (hi : Q) :
  0 <= delta -> delta <= 1 # 2 ->
  0 <= velocity s -> velocity s <= hi -> MAX_SPEED (pathfindingMode s) <= hi ->
  0 <= velocity (updateMovement delta a s)
  /\ velocity (updateMovement delta a s) <= hi.
Proof.
  intros Hd0 Hd1 H0 H1 H2. rewrite updateMovement_velocity.
  destruct (targetVel_between s a hi H0 H1 H2).
  apply lerp_between; lra.
Qed.

(** *** Repeated STOP *)

(** The forward velocity after [n] calls of [updateMovement] with STOP. *)
Lemma stop_velocity_step (delta : Q) (n : nat) (s : AgentState) :
  velocity (Nat.iter (S n) (updateMovement delta STOP) s)
  == (1 - delta * 2) * velocity (Nat.iter n (updateMovement delta STOP) s).
Proof.
  rewrite Nat.iter_succ, updateMovement_velocity.
  unfold lerp, targetVel. lra.
Qed.

Lemma stop_velocity_closed_form (delta : Q) (n : nat) (s : AgentState) :
  velocity (Nat.iter n (updateMovement delta STOP) s)
  == velocity s * (1 - delta * 2) ^ Z.of_nat n.
Proof.
  induction n as [|n IH].
  - simpl. lra.
  - rewrite stop_velocity_step, IH.
    rewrite Nat2Z.inj_succ, <- Z.add_1_r.
    rewrite Qpower_plus' by lia. simpl (_ ^ 1). lra.
Qed.

Lemma stop_velocity_nonneg (delta : Q) (n : nat) (s : AgentState) :
  0 <= delta -> delta <= 1 # 2 -> 0 <= velocity s ->
  0 <= velocity (Nat.iter n (updateMovement delta STOP) s).
Proof.
  intros Hd0 Hd1 H0. induction n as [|n IH]; [exact H0|].
  rewrite stop_velocity_step. nra.
Qed.

Lemma stop_velocity_positive (delta : Q) (n : nat) (s : AgentState) :
  0 <= delta -> delta < 1 # 2 -> 0 < velocity s ->
  0 < velocity (Nat.iter n (updateMovement delta STOP) s).
Proof.
  intros Hd0 Hd1 H0. induction n as [|n IH]; [exact H0|].
  rewrite stop_velocity_step. nra.
Qed.

Lemma stop_velocity_decreasing (delta : Q) (n : nat) (s : AgentState) :
  0 <= delta -> delta <= 1 # 2 -> 0 <= velocity s ->
  velocity (Nat.iter (S n) (updateMovement delta STOP) s)
  <= velocity (Nat.iter n (updateMovement delta STOP) s).
Proof.
  intros Hd0 Hd1 H0.
  pose proof (stop_velocity_nonneg delta n s Hd0 Hd1 H0).
  rewrite stop_velocity_step. nra.
Qed.

Lemma stop_velocity_antitone (delta : Q) (n m : nat) (s : AgentState) :
  0 <= delta -> delta <= 1 # 2 -> 0 <= velocity s -> (n <= m)%nat ->
  velocity (Nat.iter m (updateMovement delta STOP) s)
  <= velocity (Nat.iter n (updateMovement delta STOP) s).
Proof.
  intros Hd0 Hd1 H0 Hnm. induction Hnm as [|m Hnm IH]; [lra|].
  pose proof (stop_velocity_decreasing delta m s Hd0 Hd1 H0). lra.
Qed.

(** Bernoulli's bound: after [n] STOP ticks the velocity is at most the
    initial one divided by [1 + n * (2 delta)]. *)
Lemma stop_velocity_bernoulli (delta : Q) (n : nat) (s : AgentState) :
  0 <= delta -> delta <= 1 # 2 -> 0 <= velocity s ->
  velocity (Nat.iter n (updateMovement delta STOP) s)
    * (1 + inject_Z (Z.of_nat n) * (delta * 2))
  <= velocity s.
Proof.
  intros Hd0 Hd1 H0. induction n as [|n IH].
  - change (Nat.iter 0 (updateMovement delta STOP) s) with s.
    change (inject_Z (Z.of_nat 0)) with 0. lra.
  - pose proof (stop_velocity_nonneg delta n s Hd0 Hd1 H0) as Hn.
    rewrite stop_velocity_step.
    rewrite Nat2Z.inj_succ, <- Z.add_1_r, inject_Z_plus.
    assert (Hk : 0 <= inject_Z (Z.of_nat n)).
    { change 0 with (inject_Z 0). rewrite <- Zle_Qle. lia. }
    set (k := inject_Z (Z.of_nat n)) in *.
    set (v := velocity (Nat.iter n (updateMovement delta STOP) s)) in *.
    change (inject_Z 1) with 1.
    assert (Hprod : 0 <= v * ((k + 1) * (delta * 2) * (delta * 2))).
    { apply Qmult_le_0_compat; [exact Hn|].
      apply Qmult_le_0_compat; [|lra].
      apply Qmult_le_0_compat; lra. }
    nra.
Qed.

(** The number of STOP ticks after which the velocity is below [eps]. *)
Lemma stop_velocity_eventually_small (delta eps : Q) (s : AgentState) :
  0 < delta -> delta <= 1 # 2 -> 0 <= velocity s -> 0 < eps ->
  exists N : nat, forall n : nat, (N <= n)%nat ->
    velocity (Nat.iter n (updateMovement delta STOP) s) < eps.
Proof.
  intros Hd0 Hd1 H0 He.
  set (t := delta * 2).
  assert (Ht : 0 < t) by (unfold t; lra).
  assert (Het : 0 < eps * t) by (apply Qmult_lt_0_compat; assumption).
  set (N := Z.to_nat (Qceiling (velocity s / (eps * t)))).
  exists N. intros n Hn.
  apply Qle_lt_trans
    with (velocity (Nat.iter N (updateMovement delta STOP) s)).
  { apply stop_velocity_antitone; try assumption; lra. }
  pose proof (stop_velocity_bernoulli delta N s
                ltac:(lra) Hd1 H0) as HB.
  pose proof (stop_velocity_nonneg delta N s ltac:(lra) Hd1 H0) as HN.
  fold t in HB.
  assert (Hq : 0 <= velocity s / (eps * t)).
  { apply Qle_shift_div_l; [exact Het|]. lra. }
  assert (HNq : velocity s / (eps * t) <= inject_Z (Z.of_nat N)).
  { unfold N. rewrite Z2Nat.id.
    - apply Qle_ceiling.
    - change 0%Z with (Qceiling 0). apply Qceiling_resp_le. exact Hq. }
  assert (Hv : velocity s <= inject_Z (Z.of_nat N) * (eps * t)).
  { setoid_replace (velocity s)
      with (velocity s / (eps * t) * (eps * t)) at 1 by (field; lra).
    apply Qmult_le_compat_r; [exact HNq | lra]. }
  set (k := inject_Z (Z.of_nat N)) in *.
  set (v := velocity (Nat.iter N (updateMovement delta STOP) s)) in *.
  assert (Hk : 0 <= k) by lra.
  assert (Hkt : 0 <= k * t) by (apply Qmult_le_0_compat; lra).
  destruct (Qlt_le_dec v eps) as [Hlt|Hge]; [exact Hlt|].
  exfalso.
  assert (H1 : eps * (1 + k * t) <= v * (1 + k * t)).
  { apply Qmult_le_compat_r; lra. }
  nra.
Qed.

End MovementFacts.

(** Reduce projections of assignments. *)
Ltac st_simpl :=
  cbn [Agent.position Agent.rotation_y Agent.velocity Agent.rotationVelocity
       Agent.collisionDetected Agent.collisionCooldown Agent.useRearView
       Agent.viewSwitchCooldown Agent.explorationMode
       Agent.explorationStartTime Agent.lastRotationAngle
       Agent.totalRotation Agent.scanRotation Agent.explorationPhase
       Agent.pathfindingMode Agent.currentPath Agent.currentPathIndex
       Agent.set_position Agent.set_rotation_y Agent.set_velocity
       Agent.set_rotationVelocity Agent.set_collisionDetected
       Agent.set_collisionCooldown Agent.set_useRearView
       Agent.set_viewSwitchCooldown Agent.set_explorationMode
       Agent.set_explorationStartTime Agent.set_lastRotationAngle
       Agent.set_totalRotation Agent.set_scanRotation
       Agent.set_explorationPhase Agent.set_pathfindingMode
       Agent.set_currentPath Agent.set_currentPathIndex
       Agent.updateMovement Agent.translateZ
       THREE.x THREE.y THREE.z fst snd andb orb negb] in *.

(** Split on the innermost undecided test of the goal. *)
Ltac split_test :=
  match goal with
  | |- context [if ?c then _ else _] =>
      lazymatch c with
      | context [if _ then _ else _] => fail
      | context [match _ with _ => _ end] => fail
      | _ => destruct c eqn:?
      end
  | |- context [match Agent.explorationPhase ?s with _ => _ end] =>
      destruct (Agent.explorationPhase s) as [|[|?]] eqn:?
  | |- context [match Agent.targetPosition ?i with _ => _ end] =>
      destruct (Agent.targetPosition i) eqn:?
  end.

Ltac split_tests := cbv zeta; st_simpl; repeat (split_test; st_simpl).

(** ** The frame callback, block by block *)

Module FrameFacts.

Import THREE Agent.

Section WithMath.

Variable M : JS.MathFns.

Lemma steerTowards_not_STOP (wp : Waypoint) (s : AgentState) :
  steerTowards M wp s <> STOP.
Proof.
  unfold steerTowards. cbv zeta.
  destruct (JS.ltb _ _); [discriminate|].
  destruct (JS.gtb _ _); discriminate.
Qed.

Lemma steerTowards_ext (wp : Waypoint) (s1 s2 : AgentState) :
  position s1 = position s2 -> rotation_y s1 = rotation_y s2 ->
  steerTowards M wp s1 = steerTowards M wp s2.
Proof. intros Hp Hr. unfold steerTowards. rewrite Hp, Hr. reflexivity. Qed.

Lemma set_currentPathIndex_same (s : AgentState) :
  set_currentPathIndex (currentPathIndex s) s = s.
Proof. destruct s; reflexivity. Qed.

(** [followPath] either ends the path (STOP, pathfinding mode off) or
    returns a steering command, leaving everything but the waypoint index
    untouched and the index inside the path. *)
Lemma followPath_cases (s : AgentState) :
  (exists i, followPath M s = (STOP, set_pathfindingMode false
                                       (set_currentPathIndex i s)))
  \/ (exists a i, followPath M s = (a, set_currentPathIndex i s)
                  /\ a <> STOP
                  /\ (i < List.length (currentPath s))%nat).
Proof.
  unfold followPath. cbv zeta.
  destruct (Nat.eqb (List.length (currentPath s)) 0
            || Nat.leb (List.length (currentPath s)) (currentPathIndex s))
    eqn:Eend.
  { left. exists (currentPathIndex s).
    rewrite set_currentPathIndex_same. reflexivity. }
  apply orb_false_iff in Eend. destruct Eend as [_ Eidx].
  apply Nat.leb_gt in Eidx.
  destruct (JS.ltb _ 1.0).
  - cbn [currentPathIndex set_currentPathIndex].
    destruct (Nat.leb (List.length (currentPath s)) (S (currentPathIndex s)))
      eqn:Elast.
    + left. exists (S (currentPathIndex s)). reflexivity.
    + right. apply Nat.leb_gt in Elast.
      eexists. exists (S (currentPathIndex s)).
      split; [reflexivity|]. split; [apply steerTowards_not_STOP|exact Elast].
  - right. eexists. exists (currentPathIndex s).
    rewrite set_currentPathIndex_same.
    split; [reflexivity|]. split; [apply steerTowards_not_STOP|exact Eidx].
Qed.

(** With the index at the start of a path of at least two waypoints,
    [followPath] does not end the path. *)
Lemma followPath_continues (s : AgentState) :
  currentPathIndex s = 0%nat -> (2 <= List.length (currentPath s))%nat ->
  exists a i, followPath M s = (a, set_currentPathIndex i s)
              /\ a <> STOP /\ (i < List.length (currentPath s))%nat.
Proof.
  intros Hi Hlen.
  destruct (followPath_cases s) as [[i E]|H]; [|exact H].
  exfalso. revert E. unfold followPath. cbv zeta. rewrite Hi.
  destruct (Nat.eqb (List.length (currentPath s)) 0
            || Nat.leb (List.length (currentPath s)) 0) eqn:Eend.
  { apply orb_true_iff in Eend. destruct Eend as [E|E];
      [apply Nat.eqb_eq in E | apply Nat.leb_le in E]; lia. }
  destruct (JS.ltb _ 1.0).
  - cbn [currentPathIndex set_currentPathIndex].
    destruct (Nat.leb (List.length (currentPath s)) 1) eqn:Elast.
    { apply Nat.leb_le in Elast. lia. }
    intro E. injection E as E _. exact (steerTowards_not_STOP _ _ E).
  - intro E. injection E as E _. exact (steerTowards_not_STOP _ _ E).
Qed.

(** The action [followPath] returns depends only on the group's pose and
    on the path and its index. *)
Lemma followPath_action_ext (s1 s2 : AgentState) :
  position s1 = position s2 -> rotation_y s1 = rotation_y s2 ->
  currentPath s1 = currentPath s2 ->
  currentPathIndex s1 = currentPathIndex s2 ->
  fst (followPath M s1) = fst (followPath M s2).
Proof.
  intros Hp Hr Hc Hi. unfold followPath. cbv zeta.
  rewrite Hp, Hc, Hi.
  destruct (Nat.eqb _ 0 || Nat.leb _ _); [reflexivity|].
  destruct (JS.ltb _ 1.0).
  - cbn [currentPathIndex set_currentPathIndex].
    destruct (Nat.leb _ _); [reflexivity|].
    cbn [fst]. apply steerTowards_ext; assumption.
  - cbn [fst]. apply steerTowards_ext; assumption.
Qed.

(** *** What each block leaves untouched *)

Lemma trackRotation_keeps (s : AgentState) :
  let s' := fst (trackRotation s) in
  position s' = position s /\ rotation_y s' = rotation_y s
  /\ velocity s' = velocity s /\ rotationVelocity s' = rotationVelocity s
  /\ scanRotation s' = scanRotation s
  /\ pathfindingMode s' = pathfindingMode s
  /\ explorationMode s' = explorationMode s
  /\ explorationPhase s' = explorationPhase s
  /\ explorationStartTime s' = explorationStartTime s
  /\ currentPath s' = currentPath s
  /\ currentPathIndex s' = currentPathIndex s.
Proof. unfold trackRotation. cbv zeta. st_simpl. repeat split. Qed.

Lemma activateExploration_keeps (inp : FrameInput) (s : AgentState) :
  let s' := activateExploration inp s in
  position s' = position s /\ rotation_y s' = rotation_y s
  /\ velocity s' = velocity s /\ rotationVelocity s' = rotationVelocity s
  /\ scanRotation s' = scanRotation s
  /\ pathfindingMode s' = pathfindingMode s
  /\ currentPath s' = currentPath s
  /\ currentPathIndex s' = currentPathIndex s
  /\ collisionCooldown s' = collisionCooldown s
  /\ collisionDetected s' = collisionDetected s
  /\ useRearView s' = useRearView s.
Proof.
  unfold activateExploration. cbv zeta.
  destruct (_ && _); st_simpl; repeat split.
Qed.

Lemma explorationStep_keeps (inp : FrameInput) (s : AgentState) :
  let s' := explorationStep inp s in
  position s' = position s /\ rotation_y s' = rotation_y s
  /\ scanRotation s' = scanRotation s
  /\ pathfindingMode s' = pathfindingMode s
  /\ currentPath s' = currentPath s
  /\ currentPathIndex s' = currentPathIndex s
  /\ useRearView s' = useRearView s.
Proof.
  unfold explorationStep. split_tests; repeat split.
Qed.

Lemma updateCooldowns_keeps (inp : FrameInput) (s : AgentState) :
  let s' := updateCooldowns inp s in
  position s' = position s /\ rotation_y s' = rotation_y s
  /\ velocity s' = velocity s /\ rotationVelocity s' = rotationVelocity s
  /\ scanRotation s' = scanRotation s
  /\ pathfindingMode s' = pathfindingMode s
  /\ explorationMode s' = explorationMode s
  /\ explorationPhase s' = explorationPhase s
  /\ explorationStartTime s' = explorationStartTime s
  /\ currentPath s' = currentPath s
  /\ currentPathIndex s' = currentPathIndex s
  /\ useRearView s' = useRearView s.
Proof.
  unfold updateCooldowns. split_tests; repeat split.
Qed.

Lemma collisionResponse_keeps (s : AgentState) :
  let s' := collisionResponse M s in
  position s' = position s /\ rotation_y s' = rotation_y s
  /\ scanRotation s' = scanRotation s
  /\ pathfindingMode s' = pathfindingMode s
  /\ explorationMode s' = explorationMode s
  /\ explorationPhase s' = explorationPhase s
  /\ explorationStartTime s' = explorationStartTime s
  /\ currentPath s' = currentPath s
  /\ currentPathIndex s' = currentPathIndex s
  /\ useRearView s' = useRearView s.
Proof.
  unfold collisionResponse. split_tests; repeat split.
Qed.

Lemma accumulateScan_keeps (inp : FrameInput) (nd : Q) (s : AgentState) :
  let s' := accumulateScan inp nd s in
  position s' = position s /\ rotation_y s' = rotation_y s
  /\ velocity s' = velocity s /\ rotationVelocity s' = rotationVelocity s
  /\ pathfindingMode s' = pathfindingMode s
  /\ explorationMode s' = explorationMode s
  /\ explorationPhase s' = explorationPhase s
  /\ explorationStartTime s' = explorationStartTime s
  /\ currentPath s' = currentPath s
  /\ currentPathIndex s' = currentPathIndex s
  /\ useRearView s' = useRearView s.
Proof.
  unfold accumulateScan. split_tests; repeat split.
Qed.

Lemma applyMovement_keeps (inp : FrameInput) (s : AgentState) :
  let s' := applyMovement M inp s in
  velocity s' = velocity s /\ rotationVelocity s' = rotationVelocity s
  /\ scanRotation s' = scanRotation s
  /\ pathfindingMode s' = pathfindingMode s
  /\ explorationMode s' = explorationMode s
  /\ explorationPhase s' = explorationPhase s
  /\ explorationStartTime s' = explorationStartTime s
  /\ currentPath s' = currentPath s
  /\ currentPathIndex s' = currentPathIndex s
  /\ rotation_y s' = rotation_y s + rotationVelocity s * delta inp.
Proof.
  unfold applyMovement. split_tests; repeat split.
Qed.

Lemma softBoundary_keeps (s : AgentState) :
  let s' := softBoundary s in
  rotation_y s' = rotation_y s
  /\ scanRotation s' = scanRotation s
  /\ pathfindingMode s' = pathfindingMode s
  /\ explorationMode s' = explorationMode s
  /\ explorationPhase s' = explorationPhase s
  /\ explorationStartTime s' = explorationStartTime s
  /\ currentPath s' = currentPath s
  /\ currentPathIndex s' = currentPathIndex s.
Proof.
  unfold softBoundary. split_tests; repeat split.
Qed.

Lemma pathfindingCollision_keeps (s : AgentState) :
  let s' := pathfindingCollision M s in
  position s' = position s /\ rotation_y s' = rotation_y s
  /\ scanRotation s' = scanRotation s
  /\ explorationMode s' = explorationMode s
  /\ explorationPhase s' = explorationPhase s
  /\ explorationStartTime s' = explorationStartTime s
  /\ currentPath s' = currentPath s
  /\ currentPathIndex s' = currentPathIndex s.
Proof.
  unfold pathfindingCollision. split_tests; repeat split.
Qed.

(** A collision test made while following a path either leaves the
    kinematics alone or, on a collision, stops the agent and leaves
    pathfinding mode. *)
Lemma pathfindingCollision_outcome (s : AgentState) :
  let s' := pathfindingCollision M s in
  (pathfindingMode s' = pathfindingMode s /\ velocity s' = velocity s
   /\ rotationVelocity s' = rotationVelocity s)
  \/ (pathfindingMode s' = false /\ collisionDetected s' = true
      /\ velocity s' = 0 /\ rotationVelocity s' = 0).
Proof.
  unfold pathfindingCollision. split_tests; tauto.
Qed.

Lemma moveAlongPath_keeps (inp : FrameInput) (a : ActionType)
    (s : AgentState) :
  let s' := moveAlongPath M inp a s in
  scanRotation s' = scanRotation s
  /\ explorationMode s' = explorationMode s
  /\ explorationPhase s' = explorationPhase s
  /\ explorationStartTime s' = explorationStartTime s
  /\ currentPath s' = currentPath s
  /\ currentPathIndex s' = currentPathIndex s.
Proof.
  unfold moveAlongPath. cbv zeta.
  match goal with
  | |- context [pathfindingCollision M ?t] =>
      destruct (pathfindingCollision_keeps t)
        as (_ & _ & H1 & H2 & H3 & H4 & H5 & H6);
      cbv zeta in H1, H2, H3, H4, H5, H6;
      rewrite H1, H2, H3, H4, H5, H6
  end.
  split_tests; repeat split.
Qed.

(** After a frame of travel the agent is still in pathfinding mode with
    the velocity [updateMovement] gave it, or a collision has stopped it
    and ended pathfinding. *)
Lemma moveAlongPath_outcome (inp : FrameInput) (a : ActionType)
    (s : AgentState) :
  let s' := moveAlongPath M inp a s in
  (pathfindingMode s' = pathfindingMode s
   /\ velocity s'
      = velocity (updateMovement (delta inp)
                    (flipCommand (useRearView s) a) s))
  \/ (pathfindingMode s' = false /\ collisionDetected s' = true
      /\ velocity s' = 0 /\ rotationVelocity s' = 0).
Proof.
  unfold moveAlongPath. cbv zeta.
  match goal with
  | |- context [pathfindingCollision M ?t] =>
      destruct (pathfindingCollision_outcome t) as [(H1 & H2 & _)|H];
      cbv zeta in *
  end.
  - left. rewrite H1, H2. split_tests; split; reflexivity.
  - right. exact H.
Qed.

(** *** The frame past the pathfinding block *)

Lemma reactiveStep_keeps (inp : FrameInput) (nd : Q) (s : AgentState) :
  let s' := reactiveStep M inp nd s in
  pathfindingMode s' = pathfindingMode s
  /\ currentPath s' = currentPath s
  /\ currentPathIndex s' = currentPathIndex s.
Proof.
  unfold reactiveStep. cbv zeta.
  repeat match goal with
  | |- context [softBoundary ?t] =>
      destruct (softBoundary_keeps t) as (_ & _ & H1 & _ & _ & _ & H2 & H3);
      cbv zeta in H1, H2, H3; rewrite H1, H2, H3; clear H1 H2 H3
  | |- context [applyMovement M inp ?t] =>
      destruct (applyMovement_keeps inp t)
        as (_ & _ & _ & H1 & _ & _ & _ & H2 & H3 & _);
      cbv zeta in H1, H2, H3; rewrite H1, H2, H3; clear H1 H2 H3
  end.
  st_simpl.
  repeat match goal with
  | |- context [accumulateScan inp nd ?t] =>
      destruct (accumulateScan_keeps inp nd t)
        as (_ & _ & _ & _ & H1 & _ & _ & _ & H2 & H3 & _);
      cbv zeta in H1, H2, H3; rewrite H1, H2, H3; clear H1 H2 H3
  | |- context [collisionResponse M ?t] =>
      destruct (collisionResponse_keeps t)
        as (_ & _ & _ & H1 & _ & _ & _ & H2 & H3 & _);
      cbv zeta in H1, H2, H3; rewrite H1, H2, H3; clear H1 H2 H3
  | |- context [updateCooldowns inp ?t] =>
      destruct (updateCooldowns_keeps inp t)
        as (_ & _ & _ & _ & _ & H1 & _ & _ & _ & H2 & H3 & _);
      cbv zeta in H1, H2, H3; rewrite H1, H2, H3; clear H1 H2 H3
  | |- context [explorationStep inp ?t] =>
      destruct (explorationStep_keeps inp t)
        as (_ & _ & _ & H1 & H2 & H3 & _);
      cbv zeta in H1, H2, H3; rewrite H1, H2, H3; clear H1 H2 H3
  end.
  repeat split.
Qed.

(** The scan accumulator after the frame: it grows by the absolute heading
    change while the supplied action is SCAN and is cleared otherwise. *)
Lemma reactiveStep_scanRotation (inp : FrameInput) (nd : Q)
    (s : AgentState) :
  scanRotation (reactiveStep M inp nd s)
  = if ActionType_eqb (action inp) SCAN
    then scanRotation s + Qabs nd else 0.
Proof.
  unfold reactiveStep. cbv zeta.
  match goal with
  | |- context [softBoundary ?t] =>
      destruct (softBoundary_keeps t) as (_ & H1 & _);
      cbv zeta in H1; rewrite H1; clear H1
  end.
  match goal with
  | |- context [applyMovement M inp ?t] =>
      destruct (applyMovement_keeps inp t) as (_ & _ & H1 & _);
      cbv zeta in H1; rewrite H1; clear H1
  end.
  st_simpl. unfold accumulateScan.
  destruct (ActionType_eqb (action inp) SCAN); st_simpl; [|reflexivity].
  match goal with
  | |- context [collisionResponse M ?t] =>
      destruct (collisionResponse_keeps t) as (_ & _ & H1 & _);
      cbv zeta in H1; rewrite H1; clear H1
  end.
  match goal with
  | |- context [updateCooldowns inp ?t] =>
      destruct (updateCooldowns_keeps inp t) as (_ & _ & _ & _ & H1 & _);
      cbv zeta in H1; rewrite H1; clear H1
  end.
  destruct (explorationStep_keeps inp s) as (_ & _ & H1 & _).
  cbv zeta in H1. rewrite H1. reflexivity.
Qed.

(** *** The frame, by cases *)

(** With pathfinding off after the activations, the frame is its reactive
    part. *)
Lemma useFrame_reactive (inp : FrameInput) (s : AgentState) :
  pathfindingMode (Spec.afterActivation inp s) = false ->
  useFrame M inp s
  = reactiveStep M inp (snd (trackRotation s)) (Spec.afterActivation inp s).
Proof.
  unfold Spec.afterActivation. intro H. unfold useFrame.
  destruct (trackRotation s) as [s1 nd]. cbn [fst snd] in *.
  unfold pathfindingStep. rewrite H. reflexivity.
Qed.

(** With pathfinding on and a steering command, the frame is one step of
    travel and returns. *)
Lemma useFrame_travel (inp : FrameInput) (s : AgentState)
    (a : ActionType) (s4 : AgentState) :
  pathfindingMode (Spec.afterActivation inp s) = true ->
  followPath M (Spec.afterActivation inp s) = (a, s4) ->
  a <> STOP ->
  useFrame M inp s = moveAlongPath M inp a s4.
Proof.
  unfold Spec.afterActivation. intros H E Ha. unfold useFrame.
  destruct (trackRotation s) as [s1 nd]. cbn [fst snd] in *.
  unfold pathfindingStep. rewrite H, E.
  destruct a; try reflexivity. congruence.
Qed.

(** With pathfinding on and STOP from [followPath], pathfinding ends and
    the frame goes on with its reactive part. *)
Lemma useFrame_arrival (inp : FrameInput) (s : AgentState)
    (s4 : AgentState) :
  pathfindingMode (Spec.afterActivation inp s) = true ->
  followPath M (Spec.afterActivation inp s) = (STOP, s4) ->
  useFrame M inp s
  = reactiveStep M inp (snd (trackRotation s))
      (set_totalRotation 0 (set_pathfindingMode false s4)).
Proof.
  unfold Spec.afterActivation. intros H E. unfold useFrame.
  destruct (trackRotation s) as [s1 nd]. cbn [fst snd] in *.
  unfold pathfindingStep. rewrite H, E. reflexivity.
Qed.

End WithMath.

End FrameFacts.

(** ** The waypoint pathfinder and its activation *)

Module PathfindingFacts.

Import THREE Agent Spec.

Lemma pathfindingTrigger_iff (inp : FrameInput) (s : AgentState) :
  pathfindingTrigger inp s = true
  <-> 2 * JS.PI < scanRotation s
      /\ pathfindingMode s = false
      /\ targetPosition inp <> None.
Proof.
  unfold pathfindingTrigger.
  rewrite !andb_true_iff, JSFacts.gtb_true, negb_true_iff.
  destruct (targetPosition inp); intuition (discriminate || congruence).
Qed.

(** Rotation tracking does not change what the trigger reads. *)
Lemma pathfindingTrigger_tracked (inp : FrameInput) (s : AgentState) :
  pathfindingTrigger inp (fst (trackRotation s)) = pathfindingTrigger inp s.
Proof. reflexivity. Qed.

Lemma activatePathfinding_idle (inp : FrameInput) (s : AgentState) :
  pathfindingTrigger inp s = false -> activatePathfinding inp s = s.
Proof. intro H. unfold activatePathfinding. rewrite H. reflexivity. Qed.

(** What the activation assigns. *)
Lemma activatePathfinding_fires (inp : FrameInput) (s : AgentState) :
  pathfindingTrigger inp s = true ->
  let s' := activatePathfinding inp s in
  pathfindingMode s' = true
  /\ currentPath s'
     = findPathThroughGap (x (position s)) (z (position s))
         (oppositeSide (determineAgentSide (z (position s))))
  /\ currentPathIndex s' = 0%nat
  /\ useRearView s' = false
  /\ explorationMode s' = false
  /\ totalRotation s' = 0
  /\ scanRotation s' = 0
  /\ position s' = position s
  /\ rotation_y s' = rotation_y s
  /\ velocity s' = velocity s.
Proof.
  intro H. unfold activatePathfinding. rewrite H.
  cbv zeta. st_simpl. repeat split.
Qed.

(** Pathfinding mode after the activation block. *)
Lemma activatePathfinding_mode (inp : FrameInput) (s : AgentState) :
  pathfindingMode (activatePathfinding inp s)
  = pathfindingMode s || pathfindingTrigger inp s.
Proof.
  unfold activatePathfinding.
  destruct (pathfindingTrigger inp s) eqn:E; st_simpl.
  - rewrite orb_true_r. reflexivity.
  - rewrite orb_false_r. reflexivity.
Qed.

(** The route to the other half has seven waypoints. *)
Lemma crossing_path (startX startZ : Q) :
  findPathThroughGap startX startZ (oppositeSide (determineAgentSide startZ))
  = match determineAgentSide startZ with
    | north =>
        [ (startX, startZ); (0, 5); (0, 2); (0, 0); (0, -2); (0, -8);
          (JS.min (JS.max startX (- BOUNDARY)) BOUNDARY, -10) ]
    | south =>
        [ (startX, startZ); (0, -5); (0, -2); (0, 0); (0, 2); (0, 8);
          (JS.min (JS.max startX (- BOUNDARY)) BOUNDARY, 10) ]
    end.
Proof.
  unfold findPathThroughGap.
  destruct (determineAgentSide startZ); reflexivity.
Qed.

Lemma crossing_path_length (startX startZ : Q) :
  List.length
    (findPathThroughGap startX startZ
       (oppositeSide (determineAgentSide startZ))) = 7%nat.
Proof.
  rewrite crossing_path. destruct (determineAgentSide startZ); reflexivity.
Qed.

(** Its last waypoint lies on the half opposite the start. *)
Lemma crossing_path_destination (startX startZ : Q) :
  determineAgentSide
    (snd (last (findPathThroughGap startX startZ
                  (oppositeSide (determineAgentSide startZ))) (0, 0)))
  = oppositeSide (determineAgentSide startZ).
Proof.
  rewrite crossing_path. destruct (determineAgentSide startZ); reflexivity.
Qed.

(** The spread coordinate is clamped into the safe interior. *)
Lemma spreadX_within (startX : Q) :
  - BOUNDARY <= JS.min (JS.max startX (- BOUNDARY)) BOUNDARY
  /\ JS.min (JS.max startX (- BOUNDARY)) BOUNDARY <= BOUNDARY.
Proof.
  unfold BOUNDARY.
  destruct (JSFacts.max_spec startX (-(12))) as [[H1 E1]|[H1 E1]];
    rewrite E1;
    match goal with
    | |- context [JS.min ?a ?b] =>
        destruct (JSFacts.min_spec a b) as [[H2 E2]|[H2 E2]]; rewrite E2
    end; split; lra.
Qed.

Section WithMath.

Variable M : JS.MathFns.

(** While pathfinding is on the trigger cannot hold. *)
Lemma no_trigger_while_pathfinding (inp : FrameInput) (s : AgentState) :
  pathfindingMode s = true -> pathfindingTrigger inp s = false.
Proof.
  intro H. unfold pathfindingTrigger. rewrite H.
  rewrite andb_false_r. reflexivity.
Qed.

(** Without the trigger, the state the pathfinding block sees differs from
    the frame's initial state only in the rotation bookkeeping and the
    exploration references. *)
Lemma afterActivation_idle (inp : FrameInput) (s : AgentState) :
  pathfindingTrigger inp s = false ->
  let s3 := afterActivation inp s in
  position s3 = position s /\ rotation_y s3 = rotation_y s
  /\ velocity s3 = velocity s /\ rotationVelocity s3 = rotationVelocity s
  /\ scanRotation s3 = scanRotation s
  /\ pathfindingMode s3 = pathfindingMode s
  /\ currentPath s3 = currentPath s
  /\ currentPathIndex s3 = currentPathIndex s.
Proof.
  intro Htrig. unfold afterActivation.
  destruct (FrameFacts.activateExploration_keeps inp
              (activatePathfinding inp (fst (trackRotation s))))
    as (H1 & H2 & H3 & H4 & H5 & H6 & H7 & H8 & _).
  cbv zeta in *. rewrite H1, H2, H3, H4, H5, H6, H7, H8.
  rewrite activatePathfinding_idle by exact Htrig.
  repeat split.
Qed.

(** When pathfinding is off and the trigger does not hold, the frame is a
    reactive one and pathfinding stays off. *)
Lemma frame_without_trigger (inp : FrameInput) (s : AgentState) :
  pathfindingMode s = false -> pathfindingTrigger inp s = false ->
  useFrame M inp s
  = reactiveStep M inp (snd (trackRotation s)) (afterActivation inp s)
  /\ pathfindingMode (useFrame M inp s) = false
  /\ currentPath (useFrame M inp s) = currentPath s.
Proof.
  intros Hoff Htrig.
  assert (Hmode : pathfindingMode (afterActivation inp s) = false).
  { unfold afterActivation.
    destruct (FrameFacts.activateExploration_keeps inp
                (activatePathfinding inp (fst (trackRotation s))))
      as (_ & _ & _ & _ & _ & H & _).
    cbv zeta in H. rewrite H.
    rewrite activatePathfinding_idle by exact Htrig. exact Hoff. }
  pose proof (FrameFacts.useFrame_reactive M inp s Hmode) as E.
  split; [exact E|]. rewrite E.
  destruct (FrameFacts.reactiveStep_keeps M inp (snd (trackRotation s))
              (afterActivation inp s)) as (H1 & H2 & _).
  cbv zeta in H1, H2. rewrite H1, H2. split; [exact Hmode|].
  unfold afterActivation.
  destruct (FrameFacts.activateExploration_keeps inp
              (activatePathfinding inp (fst (trackRotation s))))
    as (_ & _ & _ & _ & _ & _ & H & _).
  cbv zeta in H. rewrite H.
  rewrite activatePathfinding_idle by exact Htrig. reflexivity.
Qed.

(** When the trigger holds, the frame activates pathfinding and travels
    its first step: the path is the crossing route from the position the
    frame started at, the scan accumulator is 0, and pathfinding is on
    unless a collision was detected during the step. *)
Lemma frame_with_trigger (inp : FrameInput) (s : AgentState) :
  pathfindingTrigger inp s = true ->
  let s' := useFrame M inp s in
  currentPath s'
  = findPathThroughGap (x (position s)) (z (position s))
      (oppositeSide (determineAgentSide (z (position s))))
  /\ scanRotation s' = 0
  /\ explorationMode s' = false
  /\ (pathfindingMode s' = true
      \/ (pathfindingMode s' = false /\ collisionDetected s' = true
          /\ velocity s' = 0 /\ rotationVelocity s' = 0)).
Proof.
  intros Htrig.
  pose proof (activatePathfinding_fires inp (fst (trackRotation s)) Htrig)
    as (Hm & Hp & Hi & _ & He & _ & Hs & Hpos & _).
  cbv zeta in Hm, Hp, Hi, He, Hs, Hpos.
  set (s2 := activatePathfinding inp (fst (trackRotation s))) in *.
  assert (Hex : activateExploration inp s2 = s2).
  { unfold activateExploration.
    apply pathfindingTrigger_iff in Htrig. destruct Htrig as (_ & _ & Ht).
    destruct (targetPosition inp); [|congruence].
    rewrite andb_false_r. reflexivity. }
  assert (Haa : afterActivation inp s = s2).
  { unfold afterActivation. exact Hex. }
  assert (Hlen : (2 <= List.length (currentPath s2))%nat).
  { rewrite Hp. cbn [position set_lastRotationAngle set_totalRotation
                     trackRotation fst].
    rewrite crossing_path_length. lia. }
  destruct (FrameFacts.followPath_continues M s2 Hi Hlen)
    as (a & i & Efp & Ha & _).
  assert (E : useFrame M inp s = moveAlongPath M inp a
                                   (set_currentPathIndex i s2)).
  { apply FrameFacts.useFrame_travel; try rewrite Haa; assumption. }
  cbv zeta. rewrite E.
  destruct (FrameFacts.moveAlongPath_keeps M inp a (set_currentPathIndex i s2))
    as (K1 & K2 & _ & _ & K3 & _).
  cbv zeta in K1, K2, K3. rewrite K1, K2, K3. st_simpl.
  split; [exact Hp|]. split; [exact Hs|]. split; [exact He|].
  destruct (FrameFacts.moveAlongPath_outcome M inp a
              (set_currentPathIndex i s2)) as [(O1 & _)|O].
  - left. cbv zeta in O1. rewrite O1. st_simpl. exact Hm.
  - right. exact O.
Qed.

(** A frame that starts in pathfinding mode and whose [followPath] steers:
    the accumulator is untouched, and pathfinding stays on unless a
    collision is detected. *)
Lemma frame_travelling (inp : FrameInput) (s : AgentState) :
  pathfindingMode s = true -> fst (followPath M s) <> STOP ->
  let s' := useFrame M inp s in
  scanRotation s' = scanRotation s
  /\ currentPath s' = currentPath s
  /\ (pathfindingMode s' = true
      \/ (pathfindingMode s' = false /\ collisionDetected s' = true
          /\ velocity s' = 0 /\ rotationVelocity s' = 0))
  /\ (0 <= delta inp -> delta inp <= 1 # 2 ->
      0 <= velocity s -> velocity s <= 7.5 ->
      0 <= velocity s' /\ velocity s' <= 7.5).
Proof.
  intros Hon Hgo.
  pose proof (no_trigger_while_pathfinding inp s Hon) as Htrig.
  destruct (afterActivation_idle inp s Htrig)
    as (Hp & Hr & Hv & _ & Hs & Hm & Hc & Hi).
  cbv zeta in Hp, Hr, Hv, Hs, Hm, Hc, Hi.
  set (s3 := afterActivation inp s) in *.
  assert (Hact : fst (followPath M s3) = fst (followPath M s))
    by (apply FrameFacts.followPath_action_ext; assumption).
  destruct (FrameFacts.followPath_cases M s3) as [[i E]|(a & i & E & Ha & _)].
  { rewrite E in Hact. cbn [fst] in Hact. congruence. }
  assert (Eframe : useFrame M inp s
                   = moveAlongPath M inp a (set_currentPathIndex i s3)).
  { apply FrameFacts.useFrame_travel;
      [fold s3; congruence | exact E | exact Ha]. }
  cbv zeta. rewrite Eframe.
  destruct (FrameFacts.moveAlongPath_keeps M inp a (set_currentPathIndex i s3))
    as (K1 & _ & _ & _ & K2 & _).
  cbv zeta in K1, K2. rewrite K1, K2. st_simpl.
  split; [exact Hs|]. split; [exact Hc|].
  destruct (FrameFacts.moveAlongPath_outcome M inp a
              (set_currentPathIndex i s3)) as [(O1 & O2)|O];
    cbv zeta in *.
  - split.
    + left. rewrite O1. st_simpl. congruence.
    + intros Hd0 Hd1 Hv0 Hv1. rewrite O2.
      apply MovementFacts.updateMovement_velocity_between; st_simpl;
        try assumption; try (rewrite Hv; assumption).
      apply MovementFacts.MAX_SPEED_bounds.
  - split; [right; exact O|].
    intros _ _ _ _. destruct O as (_ & _ & O & _). rewrite O. split; lra.
Qed.

(** A frame that starts in pathfinding mode and whose [followPath] ends
    the path: pathfinding is off afterwards and the accumulator has gone
    through the scan accumulation of the reactive part of the frame. *)
Lemma frame_arriving (inp : FrameInput) (s : AgentState) :
  pathfindingMode s = true -> fst (followPath M s) = STOP ->
  let s' := useFrame M inp s in
  pathfindingMode s' = false
  /\ scanRotation s'
     = (if ActionType_eqb (action inp) SCAN
        then scanRotation s + Qabs (snd (trackRotation s)) else 0)
  /\ currentPath s' = currentPath s
  /\ exists s4,
       useFrame M inp s
       = reactiveStep M inp (snd (trackRotation s))
           (set_totalRotation 0 (set_pathfindingMode false s4))
       /\ velocity s4 = velocity s.
Proof.
  intros Hon Hstop.
  pose proof (no_trigger_while_pathfinding inp s Hon) as Htrig.
  destruct (afterActivation_idle inp s Htrig)
    as (Hp & Hr & Hv & _ & Hs & Hm & Hc & Hi).
  cbv zeta in Hp, Hr, Hv, Hs, Hm, Hc, Hi.
  set (s3 := afterActivation inp s) in *.
  assert (Hact : fst (followPath M s3) = fst (followPath M s))
    by (apply FrameFacts.followPath_action_ext; assumption).
  destruct (FrameFacts.followPath_cases M s3) as [[i E]|(a & i & E & Ha & _)].
  2:{ rewrite E in Hact. cbn [fst] in Hact. congruence. }
  assert (Eframe : useFrame M inp s
                   = reactiveStep M inp (snd (trackRotation s))
                       (set_totalRotation 0
                          (set_pathfindingMode false
                             (set_pathfindingMode false
                                (set_currentPathIndex i s3))))).
  { apply FrameFacts.useFrame_arrival; [fold s3; congruence | exact E]. }
  cbv zeta. rewrite Eframe.
  match goal with
  | |- context [reactiveStep M inp ?nd ?t] =>
      destruct (FrameFacts.reactiveStep_keeps M inp nd t) as (K & K' & _);
      cbv zeta in K, K'; rewrite K, K'
  end.
  split; [|split; [|split]].
  - reflexivity.
  - rewrite FrameFacts.reactiveStep_scanRotation. st_simpl.
    rewrite Hs. reflexivity.
  - st_simpl. exact Hc.
  - eexists. split; [reflexivity|]. st_simpl. exact Hv.
Qed.

(** The path a frame leaves: the crossing route from the agent's position
    when the trigger holds, the path it found otherwise. *)
Lemma useFrame_currentPath (inp : FrameInput) (s : AgentState) :
  currentPath (useFrame M inp s)
  = if pathfindingTrigger inp s
    then findPathThroughGap (x (position s)) (z (position s))
           (oppositeSide (determineAgentSide (z (position s))))
    else currentPath s.
Proof.
  destruct (pathfindingTrigger inp s) eqn:Etrig.
  { destruct (frame_with_trigger inp s Etrig) as (H & _). exact H. }
  destruct (pathfindingMode s) eqn:Hon.
  - destruct (ActionType_eqb (fst (followPath M s)) STOP) eqn:Ea.
    + assert (Hstop : fst (followPath M s) = STOP)
        by (destruct (fst (followPath M s)); try discriminate; reflexivity).
      destruct (frame_arriving inp s Hon Hstop) as (_ & _ & H & _).
      exact H.
    + assert (Hgo : fst (followPath M s) <> STOP)
        by (intro E; rewrite E in Ea; discriminate).
      destruct (frame_travelling inp s Hon Hgo) as (_ & H & _).
      exact H.
  - destruct (frame_without_trigger inp s Hon Etrig) as (_ & _ & H).
    exact H.
Qed.

End WithMath.

End PathfindingFacts.

(** ** Pathfinding: the statements of the specification *)

Module PathfindingSpec.

Import THREE Agent Spec Examples.
Import PathfindingFacts.

(** C3.  The activation block switches pathfinding from off to on exactly
    when the scan accumulator exceeds [2 * Math.PI], pathfinding is not
    already active and a target is assigned; while pathfinding is active
    it plans nothing.  A frame that starts with pathfinding off can end in
    pathfinding mode only in that case, and never with no target.  When
    pathfinding activates, the path is the crossing route computed from
    the agent's position alone, and it ends on the half opposite the
    agent's: for an agent on the north half (depth at least 0) it is the
    seven waypoints from its position through (0, 5), (0, 2), the gap
    centre, (0, -2) and (0, -8) to depth -10, and for an agent on the
    south half the mirror image, to depth 10.  The frame ends in
    pathfinding mode unless a collision stopped the agent during its
    first step.  The path a frame leaves does not depend on which target
    is assigned. *)
Theorem pathfinding_activation (M : JS.MathFns) (inp : FrameInput)
    (s : AgentState) :
  let s' := useFrame M inp s in
  let here := determineAgentSide (z (position s)) in
  let activated := activatePathfinding inp (fst (trackRotation s)) in
  (pathfindingMode s = false /\ pathfindingMode activated = true
   <-> 2 * JS.PI < scanRotation s /\ pathfindingMode s = false
       /\ targetPosition inp <> None)
  /\ (pathfindingMode s = true -> activated = fst (trackRotation s))
  /\ (pathfindingMode s = false -> pathfindingMode s' = true ->
      2 * JS.PI < scanRotation s /\ targetPosition inp <> None)
  /\ (pathfindingMode s = false -> targetPosition inp = None ->
      pathfindingMode s' = false)
  /\ (pathfindingMode s = false -> 2 * JS.PI < scanRotation s ->
      targetPosition inp <> None ->
      currentPath s'
      = findPathThroughGap (x (position s)) (z (position s))
          (oppositeSide here)
      /\ determineAgentSide (snd (last (currentPath s') (0, 0)))
         = oppositeSide here
      /\ (pathfindingMode s' = true \/ collisionDetected s' = true))
  /\ (pathfindingMode s = false -> 2 * JS.PI < scanRotation s ->
      targetPosition inp <> None ->
      (0 <= z (position s) ->
       currentPath s'
       = [ (x (position s), z (position s)); (0, 5); (0, 2); (0, 0);
           (0, -2); (0, -8);
           (JS.min (JS.max (x (position s)) (- BOUNDARY)) BOUNDARY, -10) ]
       /\ snd (last (currentPath s') (0, 0)) < 0)
      /\ (z (position s) < 0 ->
          currentPath s'
          = [ (x (position s), z (position s)); (0, -5); (0, -2); (0, 0);
              (0, 2); (0, 8);
              (JS.min (JS.max (x (position s)) (- BOUNDARY)) BOUNDARY, 10) ]
          /\ 0 < snd (last (currentPath s') (0, 0))))
  /\ (forall t1 t2 : Q * Q * Q,
        currentPath
          (useFrame M (mkFrameInput (action inp) (Some t1) (delta inp)
                         (elapsedTime inp)) s)
        = currentPath
            (useFrame M (mkFrameInput (action inp) (Some t2) (delta inp)
                           (elapsedTime inp)) s)).
Proof.
  cbv zeta.
  split; [|split; [|split; [|split; [|split; [|split]]]]].
  - rewrite activatePathfinding_mode, pathfindingTrigger_tracked.
    cbn [trackRotation fst pathfindingMode set_totalRotation
         set_lastRotationAngle].
    destruct (pathfindingMode s) eqn:Hm; cbn [orb].
    + split; [intros [H _] | intros (_ & H & _)]; discriminate.
    + rewrite pathfindingTrigger_iff, Hm. tauto.
  - intro Hon. apply activatePathfinding_idle.
    rewrite pathfindingTrigger_tracked.
    apply no_trigger_while_pathfinding. exact Hon.
  - intros Hoff Hon.
    destruct (pathfindingTrigger inp s) eqn:E.
    + apply pathfindingTrigger_iff in E. tauto.
    + destruct (frame_without_trigger M inp s Hoff E) as (_ & H & _).
      congruence.
  - intros Hoff Hnone.
    assert (E : pathfindingTrigger inp s = false)
      by (unfold pathfindingTrigger; rewrite Hnone; apply andb_false_r).
    destruct (frame_without_trigger M inp s Hoff E) as (_ & H & _).
    exact H.
  - intros Hoff Hscan Htarget.
    assert (E : pathfindingTrigger inp s = true)
      by (apply pathfindingTrigger_iff; tauto).
    destruct (frame_with_trigger M inp s E) as (Hp & _ & _ & Hm).
    cbv zeta in Hp, Hm. split; [exact Hp|]. split.
    + rewrite Hp. apply crossing_path_destination.
    + tauto.
  - intros Hoff Hscan Htarget.
    assert (E : pathfindingTrigger inp s = true)
      by (apply pathfindingTrigger_iff; tauto).
    destruct (frame_with_trigger M inp s E) as (Hp & _).
    cbv zeta in Hp. rewrite Hp, crossing_path. split.
    + intro Hz.
      assert (Hn : determineAgentSide (z (position s)) = north).
      { unfold determineAgentSide.
        destruct (JS.geb (z (position s)) 0) eqn:G; [reflexivity|].
        apply JSFacts.geb_false in G. lra. }
      rewrite Hn. split; [reflexivity|]. cbn [last snd]. lra.
    + intro Hz.
      assert (Hn : determineAgentSide (z (position s)) = south).
      { unfold determineAgentSide.
        destruct (JS.geb (z (position s)) 0) eqn:G; [|reflexivity].
        apply JSFacts.geb_true in G. lra. }
      rewrite Hn. split; [reflexivity|]. cbn [last snd]. lra.
  - intros t1 t2. rewrite !useFrame_currentPath. reflexivity.
Qed.

(** An instance: the agent at the origin after a full scan, with the
    Green Cone as target.  Pathfinding is off before the frame, and
    after it the path leads through the gap to the south half. *)
Lemma pathfinding_activation_witness :
  pathfindingMode scannedAtOrigin = false
  /\ currentPath (useFrame Approx.math scanForGreenCone scannedAtOrigin)
     = findPathThroughGap 0 0 south.
Proof.
  split; [reflexivity|].
  refine (proj1 (proj1 (proj2 (proj2 (proj2 (proj2
    (pathfinding_activation Approx.math scanForGreenCone
       scannedAtOrigin))))) eq_refl _ _)).
  - reflexivity.
  - discriminate.
Defined.


(** *** The route from the north half to the south half *)

Lemma gapCenter_not_at_depth (a b : Q) :
  ~ b == 0 -> Waypoint_eqb gapCenter (a, b) = false.
Proof.
  intro H. unfold Waypoint_eqb, gapCenter. cbn [fst snd].
  destruct (Qeq_bool 0 b) eqn:E.
  - apply Qeq_bool_iff in E. symmetry in E. contradiction.
  - apply andb_false_r.
Qed.

Lemma gapCenter_eqb_iff (a b : Q) :
  Waypoint_eqb gapCenter (a, b) = true <-> a == 0 /\ b == 0.
Proof.
  unfold Waypoint_eqb, gapCenter. cbn [fst snd].
  rewrite andb_true_iff, !Qeq_bool_iff.
  split; intros [H1 H2]; split; symmetry; assumption.
Qed.

(** The crossing route from a start on the north half: where the gap
    centre occurs, and where the route ends. *)
Lemma north_crossing_route (startX startZ : Q) :
  0 <= startZ ->
  let path := findPathThroughGap startX startZ
                (oppositeSide (determineAgentSide startZ)) in
  countWaypoint gapCenter (tl path) = 1%nat
  /\ countWaypoint gapCenter path
     = (if Waypoint_eqb gapCenter (startX, startZ) then 2%nat else 1%nat)
  /\ snd (last path (0, 0)) == -10
  /\ withinBoundary (last path (0, 0)).
Proof.
  intro Hz. cbv zeta. rewrite crossing_path.
  assert (Hn : determineAgentSide startZ = north).
  { unfold determineAgentSide.
    destruct (JS.geb startZ 0) eqn:E; [reflexivity|].
    apply JSFacts.geb_false in E. lra. }
  rewrite Hn.
  assert (Hlast : forall a, Waypoint_eqb gapCenter (a, -10) = false).
  { intro a. apply gapCenter_not_at_depth. intro H. discriminate H. }
  assert (Htail : countWaypoint gapCenter
                    [ (0, 5); (0, 2); (0, 0); (0, -2); (0, -8);
                      (JS.min (JS.max startX (- BOUNDARY)) BOUNDARY, -10) ]
                  = 1%nat).
  { unfold countWaypoint. cbn [filter].
    rewrite Hlast.
    change (Waypoint_eqb gapCenter (0, 5)) with false.
    change (Waypoint_eqb gapCenter (0, 2)) with false.
    change (Waypoint_eqb gapCenter (0, 0)) with true.
    change (Waypoint_eqb gapCenter (0, -2)) with false.
    change (Waypoint_eqb gapCenter (0, -8)) with false.
    reflexivity. }
  split; [exact Htail|]. split.
  - unfold countWaypoint in *. cbn [filter] in *.
    destruct (Waypoint_eqb gapCenter (startX, startZ));
      cbn [List.length]; rewrite Htail; reflexivity.
  - cbn [last snd]. split; [reflexivity|].
    unfold withinBoundary. cbn [fst snd].
    destruct (spreadX_within startX) as [H1 H2].
    unfold BOUNDARY in *. repeat split; lra.
Qed.

(** C4, as the code has it.  For every start position on the north half
    with a target assigned on the south half, a frame that starts with the
    scan accumulator above [2 * Math.PI] and pathfinding off leaves a
    waypoint list in which the gap centre occurs exactly once after the
    first waypoint (the start position itself); the whole list contains it
    once, or twice when the agent starts at the gap centre; and the final
    waypoint has depth -10, strictly negative, inside the safe
    boundary. *)
Theorem north_to_south_route (M : JS.MathFns) (inp : FrameInput)
    (s : AgentState) (t : Q * Q * Q)
    (Hnorth : 0 <= z (position s))
    (Htarget : targetPosition inp = Some t)
    (Hsouth : snd t < 0)
    (Hscan : 2 * JS.PI < scanRotation s)
    (Hoff : pathfindingMode s = false) :
  let path := currentPath (useFrame M inp s) in
  countWaypoint gapCenter (tl path) = 1%nat
  /\ countWaypoint gapCenter path
     = (if Waypoint_eqb gapCenter (x (position s), z (position s))
        then 2%nat else 1%nat)
  /\ snd (last path (0, 0)) < 0
  /\ withinBoundary (last path (0, 0)).
Proof.
  assert (E : pathfindingTrigger inp s = true).
  { apply pathfindingTrigger_iff. rewrite Htarget.
    repeat split; [exact Hscan | exact Hoff | discriminate]. }
  destruct (frame_with_trigger M inp s E) as (Hp & _).
  cbv zeta in *. rewrite Hp.
  destruct (north_crossing_route (x (position s)) (z (position s)) Hnorth)
    as (H1 & H2 & H3 & H4).
  cbv zeta in H1, H2, H3, H4.
  split; [exact H1|]. split; [exact H2|]. split; [|exact H4].
  rewrite H3. reflexivity.
Qed.

(** An instance: a start one unit north of the gap, at lateral
    coordinate 4. *)
Lemma north_to_south_route_witness :
  countWaypoint gapCenter
    (currentPath
       (useFrame Approx.math scanForGreenCone
          (set_position (mkVector3 4 0 1) scannedAtOrigin))) = 1%nat.
Proof.
  refine (proj1 (proj2
    (north_to_south_route Approx.math scanForGreenCone
       (set_position (mkVector3 4 0 1) scannedAtOrigin) (2, 0.5, -6)
       _ eq_refl _ _ eq_refl))).
  - discriminate.
  - reflexivity.
  - reflexivity.
Defined.

(** C4 as stated fails where the agent is mounted: at the origin, which is
    on the north half and is the gap centre, with the Green Cone (south
    half) as target and the scan accumulator above [2 * Math.PI], the
    waypoint list contains the gap centre twice. *)
Lemma gap_center_twice_counterexample :
  0 <= z (position scannedAtOrigin)
  /\ determineAgentSide (z (position scannedAtOrigin)) = north
  /\ targetPosition scanForGreenCone = Some (2, 0.5, -6)
  /\ determineTargetSide (-6) = south
  /\ 2 * JS.PI < scanRotation scannedAtOrigin
  /\ pathfindingMode scannedAtOrigin = false
  /\ pathfindingMode
       (useFrame Approx.math scanForGreenCone scannedAtOrigin) = true
  /\ currentPath (useFrame Approx.math scanForGreenCone scannedAtOrigin)
     = [ (0, 0); (0, 5); (0, 2); (0, 0); (0, -2); (0, -8); (0, -10) ]
  /\ countWaypoint gapCenter
       (currentPath (useFrame Approx.math scanForGreenCone scannedAtOrigin))
     = 2%nat.
Proof.
  repeat split; try discriminate; vm_compute; reflexivity.
Qed.

End PathfindingSpec.

(** ** The scan accumulator *)

Module ScanSpec.

Import THREE Agent Spec Examples.
Import PathfindingFacts.

Section WithMath.

Variable M : JS.MathFns.

(** Every frame keeps the accumulator at 0 while pathfinding is on. *)
Lemma scanCleared_step (inp : FrameInput) (s : AgentState) :
  scanClearedWhilePathfinding s ->
  scanClearedWhilePathfinding (useFrame M inp s).
Proof.
  unfold scanClearedWhilePathfinding. intros Inv Hon'.
  destruct (pathfindingTrigger inp s) eqn:Etrig.
  { destruct (frame_with_trigger M inp s Etrig) as (_ & H & _). exact H. }
  destruct (pathfindingMode s) eqn:Hon.
  - destruct (ActionType_eqb (fst (followPath M s)) STOP) eqn:Ea.
    + assert (Hstop : fst (followPath M s) = STOP)
        by (destruct (fst (followPath M s)); try discriminate; reflexivity).
      destruct (frame_arriving M inp s Hon Hstop) as (H & _).
      cbv zeta in H. congruence.
    + assert (Hgo : fst (followPath M s) <> STOP)
        by (intro E; rewrite E in Ea; discriminate).
      destruct (frame_travelling M inp s Hon Hgo) as (H & _).
      cbv zeta in H. rewrite H. apply Inv. reflexivity.
  - destruct (frame_without_trigger M inp s Hon Etrig) as (_ & H & _).
    congruence.
Qed.

Lemma scanCleared_run (inps : list FrameInput) (s : AgentState) :
  scanClearedWhilePathfinding s ->
  scanClearedWhilePathfinding (runFrames M inps s).
Proof.
  revert s. induction inps as [|inp rest IH]; intros s Inv; [exact Inv|].
  cbn [runFrames]. apply IH. apply scanCleared_step. exact Inv.
Qed.

End WithMath.

(** C5, as the code has it.  Across a frame that does not activate
    pathfinding the scan accumulator does not decrease while the supplied
    command is SCAN; a frame that activates pathfinding leaves it at 0;
    it is 0 whenever pathfinding is on, in every run from the initial
    state; so a frame that travels along the path or is aborted by a
    collision leaves it at 0, and the frame in which the path completes
    leaves it at that frame's absolute heading change when the supplied
    command is SCAN and at 0 otherwise. *)
Theorem scan_accumulator (M : JS.MathFns) (inp : FrameInput)
    (s : AgentState) :
  let s' := useFrame M inp s in
  (action inp = SCAN -> pathfindingTrigger inp s = false ->
   scanRotation s <= scanRotation s')
  /\ (pathfindingTrigger inp s = true -> scanRotation s' = 0)
  /\ (forall inps : list FrameInput,
        pathfindingMode (runFrames M inps initialState) = true ->
        scanRotation (runFrames M inps initialState) = 0)
  /\ (pathfindingMode s = true -> scanRotation s = 0 ->
      (fst (followPath M s) <> STOP ->
       scanRotation s' = 0
       /\ (pathfindingMode s' = true
           \/ (pathfindingMode s' = false /\ collisionDetected s' = true)))
      /\ (fst (followPath M s) = STOP ->
          pathfindingMode s' = false
          /\ scanRotation s'
             == (if ActionType_eqb (action inp) SCAN
                 then Qabs (snd (trackRotation s)) else 0))).
Proof.
  cbv zeta. split; [|split; [|split]].
  - intros Hscan Htrig.
    assert (Hgrow : scanRotation s
                    <= (if ActionType_eqb (action inp) SCAN
                        then scanRotation s + Qabs (snd (trackRotation s))
                        else 0)).
    { rewrite Hscan. cbn [ActionType_eqb].
      pose proof (Qabs_nonneg (snd (trackRotation s))). lra. }
    destruct (pathfindingMode s) eqn:Hon.
    + destruct (ActionType_eqb (fst (followPath M s)) STOP) eqn:Ea.
      * assert (Hstop : fst (followPath M s) = STOP)
          by (destruct (fst (followPath M s)); try discriminate; reflexivity).
        destruct (frame_arriving M inp s Hon Hstop) as (_ & H & _).
        cbv zeta in H. rewrite H. exact Hgrow.
      * assert (Hgo : fst (followPath M s) <> STOP)
          by (intro E; rewrite E in Ea; discriminate).
        destruct (frame_travelling M inp s Hon Hgo) as (H & _).
        cbv zeta in H. rewrite H. lra.
    + destruct (frame_without_trigger M inp s Hon Htrig) as (E & _).
      rewrite E, FrameFacts.reactiveStep_scanRotation.
      destruct (afterActivation_idle inp s Htrig) as (_ & _ & _ & _ & H & _).
      cbv zeta in H. rewrite H. exact Hgrow.
  - intro Htrig.
    destruct (frame_with_trigger M inp s Htrig) as (_ & H & _). exact H.
  - intro inps. apply (scanCleared_run M inps initialState).
    intro H. discriminate H.
  - intros Hon Hzero. split.
    + intro Hgo.
      destruct (frame_travelling M inp s Hon Hgo) as (H1 & _ & H2 & _).
      cbv zeta in H1, H2. split; [congruence|]. tauto.
    + intro Hstop.
      destruct (frame_arriving M inp s Hon Hstop) as (H1 & H2 & _).
      cbv zeta in H1, H2. split; [exact H1|].
      rewrite H2, Hzero.
      destruct (ActionType_eqb (action inp) SCAN); lra.
Qed.

(** Instances: a frame at the mounting point that does not trigger; the
    frame after a full scan, which does; and the frame in which the agent
    arrives at the end of its path. *)
Lemma scan_accumulator_witness :
  scanRotation initialState
  <= scanRotation
       (useFrame Approx.math (mkFrameInput SCAN None (1 # 60) 0) initialState)
  /\ scanRotation (useFrame Approx.math scanForGreenCone scannedAtOrigin) = 0
  /\ pathfindingMode (useFrame Approx.math scanForGreenCone arrivingSouth)
     = false
  /\ scanRotation (useFrame Approx.math scanForGreenCone arrivingSouth)
     == Qabs (snd (trackRotation arrivingSouth)).
Proof.
  split; [|split].
  - refine (proj1 (scan_accumulator Approx.math
                     (mkFrameInput SCAN None (1 # 60) 0) initialState)
              eq_refl eq_refl).
  - refine (proj1 (proj2 (scan_accumulator Approx.math scanForGreenCone
                            scannedAtOrigin)) eq_refl).
  - refine (proj2 (proj2 (proj2 (proj2
              (scan_accumulator Approx.math scanForGreenCone arrivingSouth)))
              eq_refl eq_refl) _).
    vm_compute. reflexivity.
Defined.

(** C5 as stated fails at the frame that activates pathfinding: the
    supplied command is SCAN, the accumulator is above [2 * Math.PI]
    before the frame and 0 after it. *)
Lemma scan_accumulator_drops_counterexample :
  action scanForGreenCone = SCAN
  /\ scanRotation scannedAtOrigin == 6.48
  /\ scanRotation (useFrame Approx.math scanForGreenCone scannedAtOrigin) == 0
  /\ ~ scanRotation scannedAtOrigin
       <= scanRotation
            (useFrame Approx.math scanForGreenCone scannedAtOrigin).
Proof.
  split; [reflexivity|]. split; [reflexivity|]. split; [reflexivity|].
  vm_compute. intro H. apply H. reflexivity.
Qed.

End ScanSpec.

(** ** Velocity bounds *)

Module KinematicsSpec.

Import THREE Agent Spec Examples.
Import PathfindingFacts.

Section WithMath.

Variable M : JS.MathFns.

Lemma explorationStep_velocity_between (inp : FrameInput) (s : AgentState)
    (hi : Q) :
  2.5 <= hi -> 0 <= velocity s -> velocity s <= hi ->
  0 <= velocity (explorationStep inp s)
  /\ velocity (explorationStep inp s) <= hi.
Proof.
  intros Hhi H0 H1. unfold explorationStep. split_tests; split; lra.
Qed.

Lemma collisionResponse_velocity_between (s : AgentState) (hi : Q) :
  2.5 <= hi -> 0 <= velocity s -> velocity s <= hi ->
  0 <= velocity (collisionResponse M s)
  /\ velocity (collisionResponse M s) <= hi.
Proof.
  intros Hhi H0 H1. unfold collisionResponse. split_tests; try (split; lra).
  pose proof (Qabs_nonneg (velocity s)).
  destruct (JSFacts.min_spec 2.5 (Qabs (velocity s) + 1.5)) as [[? E]|[? E]];
    rewrite E; split; lra.
Qed.

Lemma softBoundary_velocity_between (s : AgentState) (hi : Q) :
  0 <= velocity s -> velocity s <= hi ->
  0 <= velocity (softBoundary s) /\ velocity (softBoundary s) <= hi.
Proof.
  intros H0 H1. unfold softBoundary. split_tests; split; lra.
Qed.

(** The reactive part of a frame keeps the forward velocity between 0 and
    any bound that is at least the cap of the current mode. *)
Lemma reactiveStep_velocity_between (inp : FrameInput) (nd : Q)
    (s : AgentState) (hi : Q) :
  0 <= delta inp -> delta inp <= 1 # 2 ->
  2.5 <= hi -> MAX_SPEED (pathfindingMode s) <= hi ->
  0 <= velocity s -> velocity s <= hi ->
  0 <= velocity (reactiveStep M inp nd s)
  /\ velocity (reactiveStep M inp nd s) <= hi.
Proof.
  intros Hd0 Hd1 Hhi Hcap H0 H1. unfold reactiveStep. cbv zeta.
  set (s1 := explorationStep inp s).
  set (s2 := updateCooldowns inp s1).
  set (s3 := collisionResponse M s2).
  set (s4 := accumulateScan inp nd s3).
  set (s5 := updateMovement _ _ s4).
  assert (B1 : 0 <= velocity s1 /\ velocity s1 <= hi)
    by (apply explorationStep_velocity_between; assumption).
  destruct (FrameFacts.explorationStep_keeps inp s) as (_ & _ & _ & P1 & _).
  destruct (FrameFacts.updateCooldowns_keeps inp s1)
    as (_ & _ & V2 & _ & _ & P2 & _).
  destruct (FrameFacts.collisionResponse_keeps M s2) as (_ & _ & _ & P3 & _).
  destruct (FrameFacts.accumulateScan_keeps inp nd s3)
    as (_ & _ & V4 & _ & P4 & _).
  cbv zeta in P1, V2, P2, P3, V4, P4.
  fold s1 in P1, V2, P2. fold s2 in V2, P2, P3. fold s3 in P3, V4, P4.
  fold s4 in V4, P4.
  assert (B2 : 0 <= velocity s2 /\ velocity s2 <= hi)
    by (rewrite V2; exact B1).
  assert (B3 : 0 <= velocity s3 /\ velocity s3 <= hi)
    by (apply collisionResponse_velocity_between; tauto).
  assert (B4 : 0 <= velocity s4 /\ velocity s4 <= hi)
    by (rewrite V4; exact B3).
  assert (B5 : 0 <= velocity s5 /\ velocity s5 <= hi).
  { apply MovementFacts.updateMovement_velocity_between; try tauto.
    rewrite P4, P3, P2, P1. exact Hcap. }
  destruct (FrameFacts.applyMovement_keeps M inp s5) as (K & _).
  cbv zeta in K.
  apply softBoundary_velocity_between; rewrite K; tauto.
Qed.

(** Both activations leave the forward velocity alone. *)
Lemma afterActivation_velocity (inp : FrameInput) (s : AgentState) :
  velocity (afterActivation inp s) = velocity s.
Proof.
  unfold afterActivation, activateExploration, activatePathfinding.
  split_tests; reflexivity.
Qed.

Lemma moveAlongPath_velocity_between (inp : FrameInput) (a : ActionType)
    (s : AgentState) :
  0 <= delta inp -> delta inp <= 1 # 2 ->
  0 <= velocity s -> velocity s <= 7.5 ->
  0 <= velocity (moveAlongPath M inp a s)
  /\ velocity (moveAlongPath M inp a s) <= 7.5.
Proof.
  intros Hd0 Hd1 H0 H1.
  destruct (FrameFacts.moveAlongPath_outcome M inp a s)
    as [(_ & O)|(_ & _ & O & _)]; cbv zeta in O; rewrite O.
  - apply MovementFacts.updateMovement_velocity_between; try assumption.
    apply MovementFacts.MAX_SPEED_bounds.
  - split; lra.
Qed.

(** A frame keeps the forward velocity between 0 and the pathfinding
    cap. *)
Lemma useFrame_velocity_between (inp : FrameInput) (s : AgentState) :
  0 <= delta inp -> delta inp <= 1 # 2 ->
  0 <= velocity s -> velocity s <= 7.5 ->
  0 <= velocity (useFrame M inp s) /\ velocity (useFrame M inp s) <= 7.5.
Proof.
  intros Hd0 Hd1 H0 H1.
  pose proof (afterActivation_velocity inp s) as Hv.
  destruct (pathfindingMode (afterActivation inp s)) eqn:Hm.
  - destruct (FrameFacts.followPath_cases M (afterActivation inp s))
      as [[i E]|(a & i & E & Ha & _)].
    + rewrite (FrameFacts.useFrame_arrival M inp s _ Hm E).
      apply reactiveStep_velocity_between; try assumption; st_simpl;
        try (unfold MAX_SPEED; lra); rewrite Hv; assumption.
    + rewrite (FrameFacts.useFrame_travel M inp s a _ Hm E Ha).
      apply moveAlongPath_velocity_between; try assumption; st_simpl;
        rewrite Hv; assumption.
  - rewrite (FrameFacts.useFrame_reactive M inp s Hm).
    apply reactiveStep_velocity_between; try assumption;
      try (rewrite Hm; unfold MAX_SPEED; lra);
      try lra; rewrite Hv; assumption.
Qed.

(** Outside pathfinding a frame keeps the forward velocity between 0 and
    the normal cap. *)
Lemma useFrame_velocity_normal (inp : FrameInput) (s : AgentState) :
  0 <= delta inp -> delta inp <= 1 # 2 ->
  pathfindingMode s = false -> pathfindingTrigger inp s = false ->
  0 <= velocity s -> velocity s <= 2.5 ->
  0 <= velocity (useFrame M inp s) /\ velocity (useFrame M inp s) <= 2.5.
Proof.
  intros Hd0 Hd1 Hoff Htrig H0 H1.
  destruct (frame_without_trigger M inp s Hoff Htrig) as (E & _).
  rewrite E.
  destruct (afterActivation_idle inp s Htrig)
    as (_ & _ & Hv & _ & _ & Hm & _).
  cbv zeta in Hv, Hm.
  apply reactiveStep_velocity_between; try assumption; try lra;
    try (rewrite Hm, Hoff; unfold MAX_SPEED; lra);
    rewrite Hv; assumption.
Qed.

End WithMath.

(** Beyond the rim on the positive [x] side, with [z] within the rim, the
    soft boundary adds 0.5 to the angular velocity. *)
Lemma softBoundary_turns (s : AgentState) :
  boundary - AGENT_RADIUS < x (position s) ->
  Qabs (z (position s)) <= boundary - AGENT_RADIUS ->
  rotationVelocity (softBoundary s) == rotationVelocity s + 0.5.
Proof.
  intros Hx Hz. unfold softBoundary. cbv zeta.
  assert (T1 : JS.gtb (Qabs (x (position s))) (boundary - AGENT_RADIUS) = true).
  { apply JSFacts.gtb_true.
    destruct (JSFacts.abs_cases (x (position s))) as [[S E]|[S E]];
      rewrite E; unfold boundary, AGENT_RADIUS in *; lra. }
  rewrite T1. st_simpl. cbn [x y z].
  assert (T2 : JS.gtb (Qabs (z (position s))) (boundary - AGENT_RADIUS)
               = false).
  { apply JSFacts.gtb_false. exact Hz. }
  rewrite T2.
  assert (T3 : JS.gtb (clamp (x (position s)) (- boundary + AGENT_RADIUS)
                         (boundary - AGENT_RADIUS)) 0 = true).
  { apply JSFacts.gtb_true. unfold clamp.
    destruct (JSFacts.min_spec (boundary - AGENT_RADIUS) (x (position s)))
      as [[A1 A2]|[A1 A2]]; rewrite A2;
      destruct (JSFacts.max_spec (- boundary + AGENT_RADIUS)
                  (boundary - AGENT_RADIUS)) as [[B1 B2]|[B1 B2]];
      try rewrite B2; unfold boundary, AGENT_RADIUS in *; lra. }
  rewrite T3. st_simpl. reflexivity.
Qed.

(** A frame past the pathfinding block, for an agent that is not
    exploring, stands still beyond the rim on the positive [x] side and
    whose collision cooldown outlasts the frame: under IDLE the angular
    velocity decays towards 0 at the rate of [updateMovement] and the
    soft boundary then adds 0.5. *)
Lemma reactiveStep_beyond_rim (M : JS.MathFns) (inp : FrameInput) (nd : Q)
    (s : AgentState) :
  explorationMode s = false -> action inp = IDLE ->
  0 <= delta inp -> delta inp < collisionCooldown s ->
  velocity s == 0 ->
  boundary - AGENT_RADIUS < x (position s) ->
  Qabs (z (position s)) <= boundary - AGENT_RADIUS ->
  rotationVelocity (reactiveStep M inp nd s)
  == lerp (rotationVelocity s) 0 (delta inp * 4) + 0.5.
Proof.
  intros Hexp Hact Hd0 Hd1 Hv Hx Hz.
  unfold reactiveStep. cbv zeta.
  assert (E0 : explorationStep inp s = s)
    by (unfold explorationStep; rewrite Hexp; reflexivity).
  rewrite E0.
  destruct (FrameFacts.updateCooldowns_keeps inp s)
    as (P1 & _ & V1 & R1 & _ & _ & _ & _ & _ & _ & _ & U1).
  cbv zeta in *.
  assert (C1 : collisionCooldown (updateCooldowns inp s)
               = collisionCooldown s - delta inp).
  { unfold updateCooldowns. cbv zeta.
    assert (G : JS.gtb (collisionCooldown s) 0 = true)
      by (apply JSFacts.gtb_true; lra).
    rewrite G. st_simpl.
    destruct (JS.gtb (viewSwitchCooldown s) 0); st_simpl; reflexivity. }
  set (s1 := updateCooldowns inp s) in *.
  assert (C2 : collisionResponse M s1 = s1).
  { unfold collisionResponse.
    assert (G : JS.leb (collisionCooldown s1) 0 = false)
      by (apply JSFacts.leb_false; rewrite C1; lra).
    rewrite G. reflexivity. }
  rewrite C2.
  destruct (FrameFacts.accumulateScan_keeps inp nd s1)
    as (P2 & Y2 & V2 & R2 & _). cbv zeta in *.
  set (s2 := accumulateScan inp nd s1) in *.
  rewrite Hact.
  assert (F : flipCommand (useRearView s1) IDLE = IDLE)
    by (unfold flipCommand; destruct (useRearView s1); reflexivity).
  rewrite F.
  set (s3 := updateMovement (delta inp) IDLE s2).
  assert (R3 : rotationVelocity s3
               = lerp (rotationVelocity s) 0 (delta inp * 4)).
  { unfold s3. rewrite MovementFacts.updateMovement_rotationVelocity.
    rewrite R2, R1. reflexivity. }
  assert (V3 : velocity s3 == 0).
  { unfold s3. rewrite MovementFacts.updateMovement_velocity.
    rewrite V2, V1. unfold targetVel, lerp. rewrite Hv. ring. }
  assert (P3 : position s3 = position s)
    by (unfold s3, updateMovement; cbv zeta; st_simpl; congruence).
  destruct (FrameFacts.applyMovement_keeps M inp s3) as (_ & R4 & _).
  cbv zeta in R4.
  assert (P4 : x (position (applyMovement M inp s3)) == x (position s)
               /\ z (position (applyMovement M inp s3)) == z (position s)).
  { unfold applyMovement, translateZ. cbv zeta. st_simpl.
    destruct (useRearView s3); st_simpl; cbn [x y z]; rewrite P3, V3;
      split; ring. }
  destruct P4 as [P4x P4z].
  rewrite softBoundary_turns.
  - rewrite R4, R3. reflexivity.
  - rewrite P4x. exact Hx.
  - rewrite P4z. exact Hz.
Qed.

(** No bound on the angular velocity is kept by every frame: for every
    bound there is an agent turning at that rate from which a frame of at
    most 1/16 s ends above it. *)
Lemma angular_velocity_unbounded (M : JS.MathFns) (B : Q) :
  0 <= B ->
  exists (s : AgentState) (inp : FrameInput),
    0 < delta inp /\ delta inp <= 1 # 4
    /\ - B <= rotationVelocity s /\ rotationVelocity s <= B
    /\ 0 <= velocity s /\ velocity s <= 2.5
    /\ pathfindingMode s = false
    /\ B < rotationVelocity (useFrame M inp s).
Proof.
  intro HB.
  assert (Hpos : 0 < 16 * (B + 1)) by lra.
  assert (Hd : / (16 * (B + 1)) * (16 * (B + 1)) == 1)
    by (rewrite Qmult_comm; apply Qmult_inv_r; lra).
  assert (Hd0 : 0 < / (16 * (B + 1))) by (apply Qinv_lt_0_compat; exact Hpos).
  set (d := / (16 * (B + 1))) in *. clearbody d.
  assert (HdB : 0 <= d * B) by (apply Qmult_le_0_compat; lra).
  set (s := set_position (mkVector3 14 0 5)
              (set_collisionCooldown 1
                 (set_rotationVelocity B initialState))).
  set (inp := mkFrameInput IDLE None d 0).
  exists s, inp.
  split; [exact Hd0|]. split; [cbn [delta inp]; lra|].
  split; [cbn; lra|]. split; [cbn; lra|].
  split; [cbn; lra|]. split; [cbn; lra|].
  split; [reflexivity|].
  destruct (frame_without_trigger M inp s eq_refl eq_refl) as (E & _).
  rewrite E.
  rewrite reactiveStep_beyond_rim.
  - change (rotationVelocity (afterActivation inp s)) with B.
    cbn [delta inp]. unfold lerp. lra.
  - reflexivity.
  - reflexivity.
  - cbn [delta inp]. lra.
  - change (collisionCooldown (afterActivation inp s)) with 1.
    cbn [delta inp]. lra.
  - reflexivity.
  - change (x (position (afterActivation inp s))) with 14.
    unfold boundary, AGENT_RADIUS. lra.
  - change (z (position (afterActivation inp s))) with 5.
    unfold boundary, AGENT_RADIUS. 
    destruct (JSFacts.abs_cases 5) as [[S E5]|[S E5]]; rewrite E5; lra.
Qed.

(** C2, as the code has it.  For every command and every frame time
    between 0 and 1/4 s: [updateMovement] keeps the forward velocity
    within [[0, MAX_SPEED]] (7.5 while pathfinding, 2.5 otherwise) and the
    angular velocity within the scan rate 0.81 on either side, when they
    start there; a whole frame keeps the forward velocity within
    [[0, 7.5]] when it starts there, and within [[0, 2.5]] when it starts
    there with pathfinding off and not triggered.  No bound on the
    angular velocity is kept by every frame: for every bound there is an
    agent turning within it, at a forward velocity between 0 and 2.5 and
    not pathfinding, from which a frame of at most 1/4 s ends with the
    angular velocity above the bound (the soft boundary adds 0.5 to
    it). *)
Theorem kinematics_bounds (M : JS.MathFns) (inp : FrameInput)
    (s : AgentState)
    (Hd0 : 0 <= delta inp) (Hd1 : delta inp <= 1 # 4) :
  (forall a : ActionType,
     0 <= velocity s -> velocity s <= MAX_SPEED (pathfindingMode s) ->
     0 <= velocity (updateMovement (delta inp) a s)
     /\ velocity (updateMovement (delta inp) a s)
        <= MAX_SPEED (pathfindingMode s))
  /\ (forall a : ActionType,
        -0.81 <= rotationVelocity s -> rotationVelocity s <= 0.81 ->
        -0.81 <= rotationVelocity (updateMovement (delta inp) a s)
        /\ rotationVelocity (updateMovement (delta inp) a s) <= 0.81)
  /\ (0 <= velocity s -> velocity s <= 7.5 ->
      0 <= velocity (useFrame M inp s)
      /\ velocity (useFrame M inp s) <= 7.5)
  /\ (pathfindingMode s = false -> pathfindingTrigger inp s = false ->
      0 <= velocity s -> velocity s <= 2.5 ->
      0 <= velocity (useFrame M inp s)
      /\ velocity (useFrame M inp s) <= 2.5)
  /\ (forall B : Q, 0 <= B ->
      exists (s0 : AgentState) (inp0 : FrameInput),
        0 < delta inp0 /\ delta inp0 <= 1 # 4
        /\ - B <= rotationVelocity s0 /\ rotationVelocity s0 <= B
        /\ 0 <= velocity s0 /\ velocity s0 <= 2.5
        /\ pathfindingMode s0 = false
        /\ B < rotationVelocity (useFrame M inp0 s0)).
Proof.
  assert (Hd2 : delta inp <= 1 # 2) by lra.
  split; [|split; [|split; [|split]]].
  - intros a H0 H1.
    apply MovementFacts.updateMovement_velocity_between;
      try assumption; lra.
  - intros a H0 H1. rewrite MovementFacts.updateMovement_rotationVelocity.
    destruct (MovementFacts.targetRot_between a).
    apply MovementFacts.lerp_between; lra.
  - intros H0 H1. apply useFrame_velocity_between; assumption.
  - intros Hoff Htrig H0 H1. apply useFrame_velocity_normal; assumption.
  - intros B HB. apply angular_velocity_unbounded. exact HB.
Qed.

(** An instance: a frame of 1/60 s on the agent cruising at speed 1. *)
Lemma kinematics_bounds_witness :
  0 <= velocity (useFrame Approx.math (idleNoTarget 0) cruising)
  /\ velocity (useFrame Approx.math (idleNoTarget 0) cruising) <= 7.5.
Proof.
  refine (proj1 (proj2 (proj2
    (kinematics_bounds Approx.math (idleNoTarget 0) cruising _ _))) _ _);
    discriminate.
Defined.

(** C2 as stated fails, because nothing clamps either velocity.  A frame
    of 1/60 s in the turn phase of exploration, with both velocities 0
    before it, ends with angular velocity 14/15, above the configured
    rotation speed 0.675 and above the scan rate 0.81; and one call of
    [updateMovement] with FORWARD on a forward velocity of 6 (reached
    while pathfinding, whose cap is 7.5) leaves it above the cap 2.5 of
    the current mode. *)
Lemma unclamped_velocity_counterexample :
  (velocity exploringTurn == 0 /\ rotationVelocity exploringTurn == 0
   /\ rotationVelocity
        (useFrame Approx.math (idleNoTarget (1 # 2)) exploringTurn)
      == 14 # 15
   /\ ROT_SPEED < 14 # 15 /\ 0.81 < 14 # 15)
  /\ (pathfindingMode (set_velocity 6 initialState) = false
      /\ MAX_SPEED false < velocity (updateMovement (1 # 60) FORWARD
                                       (set_velocity 6 initialState))).
Proof.
  repeat split; vm_compute; reflexivity.
Qed.

(** C7, as the code has it.  For every non-negative initial forward
    velocity and every frame time above 0 and at most 1/2 s, under STOP on
    every tick the velocity after [n] ticks is the initial one times
    [(1 - 2 delta) ^ n]; it is never negative and never increases; for
    every positive threshold there is a number of ticks after which it
    stays below the threshold; and it is exactly 0 only if the initial
    velocity is 0 or the frame time is exactly 1/2 s. *)
Theorem stop_decay (delta : Q) (s : AgentState) (n : nat)
    (Hd0 : 0 < delta) (Hd1 : delta <= 1 # 2) (Hv : 0 <= velocity s) :
  let v := fun k => velocity (Nat.iter k (updateMovement delta STOP) s) in
  v n == velocity s * (1 - delta * 2) ^ Z.of_nat n
  /\ 0 <= v n
  /\ v (S n) <= v n
  /\ (forall eps : Q, 0 < eps ->
        exists N : nat, forall m : nat, (N <= m)%nat -> v m < eps)
  /\ (v n == 0 -> velocity s == 0 \/ delta == 1 # 2).
Proof.
  cbv zeta. split; [|split; [|split; [|split]]].
  - apply MovementFacts.stop_velocity_closed_form.
  - apply MovementFacts.stop_velocity_nonneg; try assumption; lra.
  - apply MovementFacts.stop_velocity_decreasing; try assumption; lra.
  - intros eps He.
    apply MovementFacts.stop_velocity_eventually_small; assumption.
  - intro Hz.
    destruct (Qlt_le_dec 0 (velocity s)) as [Hpos|Hneg]; [|left; lra].
    destruct (Qlt_le_dec delta (1 # 2)) as [Hlt|Hge]; [|right; lra].
    pose proof (MovementFacts.stop_velocity_positive delta n s
                  ltac:(lra) Hlt Hpos).
    lra.
Qed.

(** An instance: speed 1, frames of 1/8 s, three ticks. *)
Lemma stop_decay_witness :
  velocity (Nat.iter 3 (updateMovement (1 # 8) STOP) cruising)
  == 1 * (1 - (1 # 8) * 2) ^ 3.
Proof.
  refine (proj1 (stop_decay (1 # 8) cruising 3 _ _ _)).
  - reflexivity.
  - discriminate.
  - discriminate.
Defined.

(** C7 as stated fails: from speed 1 with frames of 1/8 s, STOP on every
    tick never brings the forward velocity to 0 (it is [(3/4) ^ n] after
    [n] ticks). *)
Lemma stop_never_zero_counterexample :
  ~ exists n : nat,
      velocity (Nat.iter n (updateMovement (1 # 8) STOP) cruising) == 0.
Proof.
  intros [n Hz].
  assert (Hpos : 0 < velocity
                       (Nat.iter n (updateMovement (1 # 8) STOP) cruising)).
  { apply MovementFacts.stop_velocity_positive.
    - discriminate.
    - reflexivity.
    - reflexivity. }
  lra.
Qed.

End KinematicsSpec.

(** ** The exploration controller *)

Module ExplorationSpec.

Import THREE Agent Spec Examples.
Import PathfindingFacts.

(** Exploring is the behaviour mode of that name, in one of its two
    phases. *)
Lemma exploring_mode (s : AgentState) :
  exploring s
  <-> behaviorMode s = Exploring /\ (explorationPhase s <= 1)%nat.
Proof.
  unfold exploring, behaviorMode.
  destruct (pathfindingMode s), (explorationMode s);
    intuition (discriminate || congruence).
Qed.

Section WithMath.

Variable M : JS.MathFns.

(** What the exploration block does to a state in exploration mode. *)
Lemma explorationStep_exploring (inp : FrameInput) (s : AgentState) :
  exploring s ->
  let s' := explorationStep inp s in
  (explorationPhase s' <= 1)%nat
  /\ (rotationVelocity s' = 0 \/ rotationVelocity s' = 1.0)
  /\ explorationMode s'
     = match targetPosition inp with Some _ => false | None => true end
  /\ (explorationPhase s = 0%nat ->
      explorationPhase s'
      = (if JS.gtb (elapsedTime inp - explorationStartTime s) 3.0
         then 1%nat else 0%nat)
      /\ explorationStartTime s'
         = (if JS.gtb (elapsedTime inp - explorationStartTime s) 3.0
            then elapsedTime inp else explorationStartTime s)
      /\ velocity s' = 1.5 /\ rotationVelocity s' = 0)
  /\ (explorationPhase s = 1%nat ->
      explorationPhase s'
      = (if JS.gtb (elapsedTime inp - explorationStartTime s) 1.2
         then 0%nat else 1%nat)
      /\ explorationStartTime s'
         = (if JS.gtb (elapsedTime inp - explorationStartTime s) 1.2
            then elapsedTime inp else explorationStartTime s)
      /\ velocity s' = 0.3 /\ rotationVelocity s' = 1.0).
Proof.
  intros (He & Hp & Hph). unfold explorationStep. rewrite He, Hp.
  cbn [andb negb]. cbv zeta.
  destruct (explorationPhase s) as [|[|k]] eqn:Eph; [| |lia];
    destruct (JS.gtb _ _); destruct (targetPosition inp); st_simpl;
    repeat split; auto; try lia; try discriminate.
Qed.

(** The rebound keeps the angular velocity or damps it. *)
Lemma collisionResponse_rotationVelocity (s : AgentState) :
  rotationVelocity (collisionResponse M s) = rotationVelocity s
  \/ rotationVelocity (collisionResponse M s) = rotationVelocity s * 0.3.
Proof. unfold collisionResponse. split_tests; auto. Qed.

(** The later blocks of a frame do not touch the exploration references,
    and the heading advances by the final angular velocity. *)
Lemma reactiveStep_exploration (inp : FrameInput) (nd : Q)
    (s : AgentState) :
  let s1 := explorationStep inp s in
  let s3 := collisionResponse M (updateCooldowns inp s1) in
  let s' := reactiveStep M inp nd s in
  explorationMode s' = explorationMode s1
  /\ explorationPhase s' = explorationPhase s1
  /\ explorationStartTime s' = explorationStartTime s1
  /\ rotation_y s'
     = rotation_y s
       + lerp (rotationVelocity s3)
           (targetRot (flipCommand (useRearView s3) (action inp)))
           (delta inp * 4) * delta inp
  /\ (rotationVelocity s3 = rotationVelocity s1
      \/ rotationVelocity s3 = rotationVelocity s1 * 0.3).
Proof.
  cbv zeta. unfold reactiveStep. cbv zeta.
  set (s1 := explorationStep inp s).
  set (s2 := updateCooldowns inp s1).
  set (s3 := collisionResponse M s2).
  set (s4 := accumulateScan inp nd s3).
  set (s5 := updateMovement _ _ s4).
  set (s6 := applyMovement M inp s5).
  destruct (FrameFacts.explorationStep_keeps inp s) as (_ & R1 & _).
  destruct (FrameFacts.updateCooldowns_keeps inp s1)
    as (_ & R2 & _ & V2 & _ & _ & A2 & B2 & C2 & _).
  destruct (FrameFacts.collisionResponse_keeps M s2)
    as (_ & R3 & _ & _ & A3 & B3 & C3 & _).
  destruct (FrameFacts.accumulateScan_keeps inp nd s3)
    as (_ & R4 & _ & V4 & _ & A4 & B4 & C4 & _).
  destruct (FrameFacts.applyMovement_keeps M inp s5)
    as (_ & _ & _ & _ & A6 & B6 & C6 & _ & _ & R6).
  destruct (FrameFacts.softBoundary_keeps s6)
    as (R7 & _ & _ & A7 & B7 & C7 & _).
  cbv zeta in *.
  fold s1 in R1, R2, V2, A2, B2, C2.
  fold s2 in R2, V2, A2, B2, C2, R3, A3, B3, C3.
  fold s3 in R3, A3, B3, C3, R4, V4, A4, B4, C4.
  fold s4 in R4, V4, A4, B4, C4.
  fold s6 in A6, B6, C6, R6.
  assert (A5 : explorationMode s5 = explorationMode s4) by reflexivity.
  assert (B5 : explorationPhase s5 = explorationPhase s4) by reflexivity.
  assert (C5 : explorationStartTime s5 = explorationStartTime s4)
    by reflexivity.
  assert (R5 : rotation_y s5 = rotation_y s4) by reflexivity.
  assert (V5 : rotationVelocity s5
               = lerp (rotationVelocity s4)
                   (targetRot (flipCommand (useRearView s3) (action inp)))
                   (delta inp * 4)) by reflexivity.
  split; [congruence|]. split; [congruence|]. split; [congruence|]. split.
  - rewrite R7, R6, V5, R5, R4, R3, R2, R1, V4. reflexivity.
  - rewrite <- V2. apply collisionResponse_rotationVelocity.
Qed.

(** In exploration mode with no target the trigger of pathfinding cannot
    hold and neither activation does anything. *)
Lemma exploring_frame_is_reactive (inp : FrameInput) (s : AgentState) :
  exploring s -> pathfindingTrigger inp s = false ->
  useFrame M inp s
  = reactiveStep M inp (snd (trackRotation s)) (fst (trackRotation s)).
Proof.
  intros (He & Hp & _) Htrig.
  destruct (frame_without_trigger M inp s Hp Htrig) as (E & _).
  rewrite E. f_equal. unfold afterActivation.
  rewrite activatePathfinding_idle by exact Htrig.
  unfold activateExploration.
  cbn [trackRotation fst explorationMode set_totalRotation
       set_lastRotationAngle].
  rewrite He. cbn [negb]. rewrite andb_false_r. reflexivity.
Qed.

Lemma calm_no_trigger (inp : FrameInput) (s : AgentState) :
  targetPosition inp = None -> pathfindingTrigger inp s = false.
Proof.
  intro H. unfold pathfindingTrigger. rewrite H. apply andb_false_r.
Qed.

(** One frame of exploration with no target: the agent is still
    exploring, and its heading has advanced by at most the frame time
    (one radian per second). *)
Lemma exploring_frame (inp : FrameInput) (s : AgentState) :
  exploring s -> calmFrame inp ->
  exploring (useFrame M inp s)
  /\ rotation_y (useFrame M inp s) - rotation_y s <= delta inp.
Proof.
  intros Hex (Hnone & Hd0 & Hd1).
  pose proof (calm_no_trigger inp s Hnone) as Htrig.
  rewrite (exploring_frame_is_reactive inp s Hex Htrig).
  set (s0 := fst (trackRotation s)).
  assert (Hex0 : exploring s0) by exact Hex.
  destruct (explorationStep_exploring inp s0 Hex0)
    as (Hph & Hrot & Hmode & _).
  destruct (reactiveStep_exploration inp (snd (trackRotation s)) s0)
    as (A & B & _ & R & Hc).
  cbv zeta in *. rewrite Hnone in Hmode.
  split.
  - unfold exploring. rewrite A, B. split; [exact Hmode|]. split; [|exact Hph].
    destruct (FrameFacts.reactiveStep_keeps M inp (snd (trackRotation s)) s0)
      as (K & _).
    cbv zeta in K. rewrite K. exact (proj1 (proj2 Hex)).
  - rewrite R. change (rotation_y s0) with (rotation_y s).
    set (r3 := rotationVelocity
                 (collisionResponse M
                    (updateCooldowns inp (explorationStep inp s0)))) in *.
    set (tr := targetRot _).
    assert (Hr3 : 0 <= r3 /\ r3 <= 1).
    { destruct Hrot as [Hrot|Hrot]; destruct Hc as [Hc|Hc];
        rewrite Hc, Hrot; split; lra. }
    assert (Htr : -0.81 <= tr /\ tr <= 0.81)
      by apply MovementFacts.targetRot_between.
    assert (Hl : -0.81 <= lerp r3 tr (delta inp * 4)
                 /\ lerp r3 tr (delta inp * 4) <= 1)
      by (apply MovementFacts.lerp_between; lra).
    nra.
Qed.

(** A run of such frames turns the agent by at most the time it lasts. *)
Lemma exploring_run (inps : list FrameInput) (s : AgentState) :
  exploring s -> Forall calmFrame inps ->
  exploring (runFrames M inps s)
  /\ rotation_y (runFrames M inps s) - rotation_y s <= totalTime inps.
Proof.
  revert s. induction inps as [|inp rest IH]; intros s Hex Hall.
  - cbn [runFrames totalTime fold_right]. split; [exact Hex|lra].
  - inversion Hall as [|? ? Hinp Hrest]; subst.
    destruct (exploring_frame inp s Hex Hinp) as (Hex' & Hturn).
    destruct (IH (useFrame M inp s) Hex' Hrest) as (Hex'' & Hturn').
    cbn [runFrames]. split; [exact Hex''|].
    change (totalTime (inp :: rest)) with (delta inp + totalTime rest).
    lra.
Qed.

(** The two phases and their durations, and the end of exploration: in
    exploration mode, a frame with a target assigned leaves the mode; a
    frame without one stays in it, moves from the forward phase to the
    turn phase once more than 3 s have passed since the phase began, and
    from the turn phase back to the forward phase once more than 1.2 s
    have. *)
Lemma exploring_phases (inp : FrameInput) (s : AgentState) :
  exploring s ->
  let s' := useFrame M inp s in
  let since := elapsedTime inp - explorationStartTime s in
  (targetPosition inp <> None -> explorationMode s' = false)
  /\ (targetPosition inp = None ->
      explorationMode s' = true
      /\ (explorationPhase s = 0%nat ->
          explorationPhase s' = (if JS.gtb since 3.0 then 1%nat else 0%nat)
          /\ explorationStartTime s'
             = (if JS.gtb since 3.0 then elapsedTime inp
                else explorationStartTime s))
      /\ (explorationPhase s = 1%nat ->
          explorationPhase s' = (if JS.gtb since 1.2 then 0%nat else 1%nat)
          /\ explorationStartTime s'
             = (if JS.gtb since 1.2 then elapsedTime inp
                else explorationStartTime s))).
Proof.
  intros Hex. cbv zeta.
  assert (Hreactive :
    pathfindingTrigger inp s = false ->
    explorationMode (useFrame M inp s)
    = explorationMode (explorationStep inp (fst (trackRotation s)))
    /\ explorationPhase (useFrame M inp s)
       = explorationPhase (explorationStep inp (fst (trackRotation s)))
    /\ explorationStartTime (useFrame M inp s)
       = explorationStartTime
           (explorationStep inp (fst (trackRotation s)))).
  { intro Htrig.
    rewrite (exploring_frame_is_reactive inp s Hex Htrig).
    destruct (reactiveStep_exploration inp (snd (trackRotation s))
                (fst (trackRotation s))) as (A & B & C & _).
    cbv zeta in A, B, C. tauto. }
  assert (Hex0 : exploring (fst (trackRotation s))) by exact Hex.
  destruct (explorationStep_exploring inp (fst (trackRotation s)) Hex0)
    as (_ & _ & Hmode & H0 & H1).
  cbv zeta in Hmode, H0, H1.
  change (explorationPhase (fst (trackRotation s)))
    with (explorationPhase s) in H0, H1.
  change (explorationStartTime (fst (trackRotation s)))
    with (explorationStartTime s) in H0, H1.
  split.
  - intro Htarget.
    destruct (pathfindingTrigger inp s) eqn:Etrig.
    + destruct (frame_with_trigger M inp s Etrig) as (_ & _ & H & _).
      exact H.
    + destruct (Hreactive eq_refl) as (A & _). rewrite A, Hmode.
      destruct (targetPosition inp); [reflexivity|congruence].
  - intro Hnone.
    destruct (Hreactive (calm_no_trigger inp s Hnone)) as (A & B & C).
    rewrite A, B, C, Hmode, Hnone.
    split; [reflexivity|]. split; intro Hph.
    + destruct (H0 Hph) as (P & T & _). tauto.
    + destruct (H1 Hph) as (P & T & _). tauto.
Qed.

End WithMath.

(** C8, what the code does in place of the turn of about 120 degrees.
    Over any run of frames in exploration mode with no target and frame
    times of at most 1/4 s, the agent stays in exploration mode and its
    heading advances by at most one radian per second of frame time; so
    over a turn phase, which lasts 1.2 s and at most one frame more, it
    advances by less than a third of a turn. *)
Theorem exploration_turn_short (M : JS.MathFns) (inps : list FrameInput)
    (s : AgentState) (Hex : exploring s) (Hrun : Forall calmFrame inps) :
  exploring (runFrames M inps s)
  /\ rotation_y (runFrames M inps s) - rotation_y s <= totalTime inps
  /\ (totalTime inps <= 1.45 ->
      3 * (rotation_y (runFrames M inps s) - rotation_y s) < 2 * JS.PI).
Proof.
  destruct (exploring_run M inps s Hex Hrun) as (H1 & H2).
  split; [exact H1|]. split; [exact H2|].
  intro Ht. destruct JSFacts.two_pi_bounds as [Hpi _]. lra.
Qed.

Lemma turnRun_calm : Forall calmFrame turnRun.
Proof.
  unfold turnRun. cbn [map].
  repeat (apply Forall_cons;
          [split; [reflexivity | split; discriminate]|]).
  apply Forall_nil.
Qed.

(** An instance: a whole turn phase sampled at 1/10 s. *)
Lemma exploration_turn_short_witness :
  exploring exploringTurn
  /\ Forall calmFrame turnRun
  /\ totalTime turnRun <= 1.45
  /\ 3 * (rotation_y (runFrames Approx.math turnRun exploringTurn)
          - rotation_y exploringTurn) < 2 * JS.PI.
Proof.
  assert (Hex : exploring exploringTurn).
  { repeat split. cbn. lia. }
  assert (Ht : totalTime turnRun <= 1.45) by discriminate.
  split; [exact Hex|]. split; [exact turnRun_calm|]. split; [exact Ht|].
  exact (proj2 (proj2
    (exploration_turn_short Approx.math turnRun exploringTurn Hex
       turnRun_calm)) Ht).
Defined.

(** The worked turn phase of [Examples.turnRun]: thirteen frames after the
    phase began the controller is back in the forward phase, and the
    heading has advanced by 1.2012 radians, about 69 degrees. *)
Lemma turn_phase_example :
  let s' := runFrames Approx.math turnRun exploringTurn in
  explorationPhase s' = 0%nat
  /\ explorationMode s' = true
  /\ rotation_y s' - rotation_y exploringTurn == 1.2012
  /\ 3 * 1.2012 < 2 * JS.PI.
Proof. vm_compute. repeat split. Qed.

End ExplorationSpec.

(** ** The vision service client *)

Module VisionSpec.

Import Sam2.

(** The [catch] branch always yields SCAN, target not visible, and one of
    two fixed messages. *)
Lemma scanFallback_shape (e : Thrown) :
  vr_action (scanFallback e) = ofAction SCAN
  /\ vr_targetVisible (scanFallback e) = Some (JBool false)
  /\ exists text,
       vr_reasoning (scanFallback e) = Some (JString text)
       /\ text <> ""%string
       /\ (text = "SAM2 backend unavailable. Falling back to scan mode."%string
           \/ text
              = "SAM2 backend not running. Please start the Python backend server."%string).
Proof.
  unfold scanFallback. cbv zeta.
  destruct (isError e); [destruct (_ || _)|]; cbn;
    (split; [reflexivity|]; split; [reflexivity|]; eexists;
     split; [reflexivity|]; split; [discriminate|]; auto).
Qed.

(** Reading the properties of a document other than [null] never
    throws. *)
Lemma read_field (data : JSON.Json) (key : string) (net : Net) :
  data <> JNull -> read data key net = (Normal (field data key), net).
Proof.
  intro H. destruct data; try reflexivity. congruence.
Qed.

(** What the two calls return for a success status and a document other
    than [null]: the properties as read, nothing checked. *)
Lemma getMonocularNavCommand_reads (response : Response)
    (data : JSON.Json) (rest : Net) :
  ok response = true -> body response = Json data -> data <> JNull ->
  getMonocularNavCommand (Responded response :: rest)
  = (Normal (mkVisionResponse (field data "action") (field data "reasoning")
               (field data "targetVisible") (field data "confidence")
               (field data "boundingBox") None None), rest).
Proof.
  intros Hok Hbody Hdata.
  unfold getMonocularNavCommand, tryCatch, bind, fetch, ret, throw.
  rewrite Hok, Hbody. cbn [negb json]. unfold ret.
  rewrite !(read_field data _ _ Hdata). reflexivity.
Qed.

Lemma getNavCommandStereo_reads (response : Response)
    (data : JSON.Json) (rest : Net) :
  ok response = true -> body response = Json data -> data <> JNull ->
  getNavCommandStereo (Responded response :: rest)
  = (Normal (fieldsOf data), rest).
Proof.
  intros Hok Hbody Hdata.
  unfold getNavCommandStereo, tryCatch, bind, fetch, ret, throw.
  rewrite Hok, Hbody. cbn [negb json]. unfold ret.
  rewrite !(read_field data _ _ Hdata). reflexivity.
Qed.

(** A failed request makes the monocular call fall back. *)
Lemma getMonocularNavCommand_failed (r : FetchResult) (rest : Net) :
  failed r = true ->
  exists e, getMonocularNavCommand (r :: rest)
            = (Normal (scanFallback e), rest).
Proof.
  unfold failed, getMonocularNavCommand, tryCatch, bind, fetch, ret, throw.
  destruct r as [e|r]; intro H.
  - exists e. reflexivity.
  - destruct (negb (ok r)); [eexists; reflexivity|].
    cbn [orb] in H. unfold json, ret, throw.
    destruct (body r) as [e|data]; [eexists; reflexivity|].
    destruct data; try discriminate. eexists; reflexivity.
Qed.

(** The monocular request never throws: it completes normally on every
    script. *)
Lemma getMonocularNavCommand_total (net : Net) :
  exists v net', getMonocularNavCommand net = (Normal v, net').
Proof.
  destruct net as [|r rest]; [eexists; eexists; reflexivity|].
  destruct (failed r) eqn:E.
  - destruct (getMonocularNavCommand_failed r rest E) as (e & H). eauto.
  - destruct r as [e|r]; [discriminate|].
    unfold failed in E. apply orb_false_iff in E. destruct E as [E1 E2].
    apply negb_false_iff in E1.
    destruct (body r) as [e|data] eqn:Eb; [discriminate|].
    rewrite (getMonocularNavCommand_reads r data rest E1 Eb);
      [eauto|intros ->; discriminate].
Qed.

(** A failed stereo request hands over to the monocular one. *)
Lemma getNavCommandStereo_failed (r : FetchResult) (rest : Net) :
  failed r = true ->
  getNavCommandStereo (r :: rest) = getMonocularNavCommand rest.
Proof.
  unfold failed, getNavCommandStereo, tryCatch, bind, fetch, ret, throw.
  destruct r as [e|r]; intro H; [reflexivity|].
  destruct (negb (ok r)).
  - destruct (getMonocularNavCommand rest) as [[v|e] net'] eqn:E;
      [reflexivity|].
    destruct (getMonocularNavCommand_total rest) as (v & n & E').
    congruence.
  - cbn [orb] in H. unfold json, ret, throw.
    destruct (body r) as [e|data]; [reflexivity|].
    destruct data; try discriminate. reflexivity.
Qed.

Lemma getNavCommandStereo_total (net : Net) :
  exists v net', getNavCommandStereo net = (Normal v, net').
Proof.
  destruct net as [|r rest].
  - unfold getNavCommandStereo, tryCatch, bind, fetch, ret, throw.
    apply getMonocularNavCommand_total.
  - destruct (failed r) eqn:E.
    + rewrite (getNavCommandStereo_failed r rest E).
      apply getMonocularNavCommand_total.
    + destruct r as [e|r]; [discriminate|].
      unfold failed in E. apply orb_false_iff in E. destruct E as [E1 E2].
      apply negb_false_iff in E1.
      destruct (body r) as [e|data] eqn:Eb; [discriminate|].
      rewrite (getNavCommandStereo_reads r data rest E1 Eb);
        [eauto|intros ->; discriminate].
Qed.

(** The log lines of a fallback result do not throw, and its action is
    not STOP. *)
Lemma scanFallback_processed (C : App.Conversions) (e : Thrown) :
  App.andThen (App.logResult C (scanFallback e))
    (fun _ => App.targetReached C (scanFallback e))
  = Normal false.
Proof.
  unfold scanFallback. cbv zeta.
  destruct (isError e); [destruct (_ || _)|]; reflexivity.
Qed.

(** C9.  Whatever the service does, neither vision call throws, and
    neither does the capture handler.  When the request fails by a
    connection error, a non-success status, a body that is not JSON or
    the body [null], the monocular call returns SCAN with the target not
    visible and a non-empty reasoning, one of the two fixed messages; the
    stereo call hands over to the monocular request, which falls back in
    the same way when it fails too; and the capture handler then sets the
    agent's action to SCAN, clears its in-flight flag, keeps the
    simulation running and sets no timer.  A body that is JSON of any
    other shape is not checked: with a success status both calls return
    the properties as they read them, so for the body [{}] the action is
    [undefined], not SCAN.  When a statement of the handler throws on
    such a result, its [catch] branch sets the action to SCAN. *)
Theorem vision_failure_falls_back (r : FetchResult) (rest : Net)
    (Hfail : failed r = true) :
  (forall net, exists v net', getNavCommand net = (Normal v, net'))
  /\ (forall net, exists v net', getNavCommandStereo net = (Normal v, net'))
  /\ (exists v text,
        getNavCommand (r :: rest) = (Normal v, rest)
        /\ vr_action v = ofAction SCAN
        /\ vr_targetVisible v = Some (JBool false)
        /\ vr_reasoning v = Some (JString text)
        /\ text <> ""%string
        /\ (text
            = "SAM2 backend unavailable. Falling back to scan mode."%string
            \/ text
               = "SAM2 backend not running. Please start the Python backend server."%string))
  /\ getNavCommandStereo (r :: rest) = getMonocularNavCommand rest
  /\ (forall r2 rest2, rest = r2 :: rest2 -> failed r2 = true ->
      exists v text,
        getNavCommandStereo (r :: rest) = (Normal v, rest2)
        /\ vr_action v = ofAction SCAN
        /\ vr_targetVisible v = Some (JBool false)
        /\ vr_reasoning v = Some (JString text) /\ text <> ""%string)
  /\ (forall C s r2 rest2,
        App.isProcessing s = false -> App.isRunning s = true ->
        rest = r2 :: rest2 -> failed r2 = true ->
        let s' := fst (fst (App.handleVisionCapture C s (r :: rest))) in
        App.agentAction s' = ofAction SCAN /\ App.isProcessing s' = false
        /\ App.isRunning s' = true
        /\ snd (fst (App.handleVisionCapture C s (r :: rest))) = false)
  /\ (forall response data net,
        ok response = true -> body response = Json data -> data <> JNull ->
        getNavCommandStereo (Responded response :: net)
        = (Normal (fieldsOf data), net)
        /\ getNavCommand (Responded response :: net)
           = (Normal (mkVisionResponse (field data "action")
                        (field data "reasoning") (field data "targetVisible")
                        (field data "confidence") (field data "boundingBox")
                        None None), net))
  /\ (forall response net,
        ok response = true -> body response = Json (JObject []) ->
        exists v,
          getNavCommand (Responded response :: net) = (Normal v, net)
          /\ vr_action v = None /\ vr_action v <> ofAction SCAN
          /\ vr_targetVisible v = None /\ vr_reasoning v = None)
  /\ (forall C render settled s,
        App.isProcessing (fst (App.resumeCapture C render settled s)) = false
        /\ (forall result e,
              settled = Normal result ->
              App.andThen (App.logResult C result)
                (fun _ => App.targetReached C result) = Throw e ->
              App.agentAction (fst (App.resumeCapture C render settled s))
              = ofAction SCAN
              /\ snd (App.resumeCapture C render settled s) = false)).
Proof.
  split; [exact getMonocularNavCommand_total|].
  split; [exact getNavCommandStereo_total|].
  split; [|split; [|split; [|split; [|split; [|split]]]]].
  - destruct (getMonocularNavCommand_failed r rest Hfail) as (e & E).
    destruct (scanFallback_shape e) as (H1 & H2 & text & H3 & H4 & H5).
    exists (scanFallback e), text. auto 10.
  - apply getNavCommandStereo_failed. exact Hfail.
  - intros r2 rest2 Hrest Hfail2. subst rest.
    rewrite (getNavCommandStereo_failed r (r2 :: rest2) Hfail).
    destruct (getMonocularNavCommand_failed r2 rest2 Hfail2) as (e & E).
    destruct (scanFallback_shape e) as (H1 & H2 & text & H3 & H4 & _).
    exists (scanFallback e), text. auto 10.
  - intros C s r2 rest2 Hidle Hrun Hrest Hfail2. subst rest.
    unfold App.handleVisionCapture, App.captureRefused.
    rewrite Hidle, Hrun. cbn [orb negb].
    rewrite (getNavCommandStereo_failed r (r2 :: rest2) Hfail).
    destruct (getMonocularNavCommand_failed r2 rest2 Hfail2) as (e & E).
    rewrite E. unfold App.resumeCapture, App.applyVisionResult.
    rewrite scanFallback_processed.
    destruct (scanFallback_shape e) as (H1 & _).
    cbv zeta. cbn [fst snd]. unfold App.set_isProcessing.
    cbn [App.agentAction App.isProcessing App.isRunning].
    rewrite H1, Hrun. auto.
  - intros response data net Hok Hbody Hdata. split.
    + apply getNavCommandStereo_reads; assumption.
    + apply getMonocularNavCommand_reads; assumption.
  - intros response net Hok Hbody.
    eexists. split.
    + apply (getMonocularNavCommand_reads response (JObject []) net);
        [assumption|assumption|discriminate].
    + cbn. repeat split; discriminate.
  - intros C render settled s. split.
    + unfold App.resumeCapture.
      destruct (match settled with
                | Normal result => App.applyVisionResult C render result s
                | Throw _ => (App.visionError s, false)
                end) as [s1 timer].
      reflexivity.
    + intros result e -> Hthrow.
      unfold App.resumeCapture, App.applyVisionResult. rewrite Hthrow.
      split; reflexivity.
Qed.

(** An instance: the backend answers 503 with an empty body. *)
Lemma vision_failure_falls_back_witness :
  exists v,
    getNavCommand
      [Responded (mkResponse false 503 "Service Unavailable"
                    (NotJson (mkThrown true "Unexpected end of JSON input")))]
    = (Normal v, [])
    /\ vr_action v = ofAction SCAN
    /\ vr_targetVisible v = Some (JBool false).
Proof.
  destruct (proj1 (proj2 (proj2
    (vision_failure_falls_back
       (Responded (mkResponse false 503 "Service Unavailable"
                     (NotJson (mkThrown true "Unexpected end of JSON input"))))
       [] eq_refl)))) as (v & text & E & H1 & H2 & _).
  exists v. repeat split; assumption.
Defined.

(** Worked examples: the message when the connection is refused, and when
    the backend answers 503. *)
Lemma fallback_examples :
  getNavCommand [Rejected failedToFetch]
  = (Normal (conforming SCAN
       "SAM2 backend not running. Please start the Python backend server."
       false None None None None), [])
  /\ getNavCommand
       [Responded (mkResponse false 503 "Service Unavailable" (Json JNull))]
     = (Normal (conforming SCAN
          "SAM2 backend unavailable. Falling back to scan mode."
          false None None None None), []).
Proof. split; reflexivity. Qed.

(** The payloads that are not checked: with status 200, the body [{}] and
    the body [5] give a result with every property [undefined], through
    either call; and a result whose distance is a string makes the
    capture handler throw at line 80, so that a STOP with the target in
    view at confidence 0.9 ends as SCAN with the simulation still running
    and the result stored. *)
Lemma malformed_payload_examples :
  getNavCommand [Responded (mkResponse true 200 "OK" (Json (JObject [])))]
  = (Normal (mkVisionResponse None None None None None None None), [])
  /\ getNavCommandStereo
       [Responded (mkResponse true 200 "OK" (Json (JNumber 5)))]
     = (Normal (mkVisionResponse None None None None None None None), [])
  /\ (let answer :=
        [Responded
           (mkResponse true 200 "OK"
              (Json (JObject [ ("action", JString "STOP");
                               ("reasoning", JString "Target reached");
                               ("targetVisible", JBool true);
                               ("confidence", JNumber 0.9);
                               ("distance", JString "3.2");
                               ("angle", JNumber 0) ]%string)))] in
      let s' :=
        fst (fst (App.handleVisionCapture Examples.plainConversions
                    (App.toggleSimulation App.initialApp) answer)) in
      App.agentAction s' = ofAction SCAN /\ App.isRunning s' = true
      /\ App.isProcessing s' = false
      /\ option_map vr_distance (App.visionData s')
         = Some (Some (JString "3.2"))).
Proof. repeat split. Qed.

End VisionSpec.

(** ** The mission sequencer *)

Module MissionSpec.

Import App Examples.

(** *** The test of line 86 *)

Lemma isString_ofAction (a b : ActionType) :
  isString (ofAction a) (actionName b) = true <-> a = b.
Proof.
  unfold isString, ofAction. rewrite String.eqb_eq.
  split; [|intros ->; reflexivity].
  destruct a, b; intro H; (reflexivity || discriminate H).
Qed.

(** For a result of the declared types the log lines are built without a
    throw. *)
Lemma logResult_conforming (C : Conversions) (a : ActionType)
    (reasoning : string) (visible : bool) (conf : option Q) (box : Value)
    (dist ang : option Q) :
  logResult C (conforming a reasoning visible conf box dist ang)
  = Sam2.Normal tt.
Proof.
  unfold logResult, conforming. cbn [vr_reasoning vr_distance vr_angle
    vr_action interpolate andThen ofAction].
  destruct dist, ang; reflexivity.
Qed.

(** And the test succeeds exactly when the action is STOP, the target is
    visible and the confidence is a number above 0.8. *)
Lemma targetReached_conforming (C : Conversions) (a : ActionType)
    (reasoning : string) (visible : bool) (conf : option Q) (box : Value)
    (dist ang : option Q) :
  (exists b, targetReached C (conforming a reasoning visible conf box dist ang)
             = Sam2.Normal b)
  /\ (targetReached C (conforming a reasoning visible conf box dist ang)
      = Sam2.Normal true
      <-> a = STOP /\ visible = true /\ exists c, conf = Some c /\ 0.8 < c).
Proof.
  unfold targetReached, conforming.
  cbn [vr_action vr_targetVisible vr_confidence truthy].
  destruct (isString (ofAction a) (actionName STOP)) eqn:Ea.
  - apply isString_ofAction in Ea. subst a.
    destruct visible; cbn [andb].
    + destruct conf as [c|]; cbn [option_map truthy greaterThan andb].
      * destruct (Qeq_bool c 0) eqn:Ez; cbn [negb].
        -- split; [eauto|]. split; [discriminate|].
           intros (_ & _ & c' & Hc & Hgt). injection Hc as <-.
           apply Qeq_bool_iff in Ez. lra.
        -- split; [eauto|]. split.
           ++ intro H. injection H as H. apply JSFacts.gtb_true in H.
              eauto 6.
           ++ intros (_ & _ & c' & Hc & Hgt). injection Hc as <-.
              f_equal. apply JSFacts.gtb_true. exact Hgt.
      * split; [eauto|]. split; [discriminate|].
        intros (_ & _ & c & Hc & _). discriminate.
    + split; [eauto|]. split; [discriminate|].
      intros (_ & H & _). discriminate.
  - cbn [andb]. split; [eauto|]. split; [discriminate|].
    intros (H & _). subst a.
    assert (K : isString (ofAction STOP) (actionName STOP) = true)
      by reflexivity.
    congruence.
Qed.

(** For any result, the test can only succeed on the string ['STOP'], a
    true [targetVisible], and a confidence that compares above 0.8. *)
Lemma targetReached_true (C : Conversions) (result : VisionResponse) :
  targetReached C result = Sam2.Normal true ->
  vr_action result = ofAction STOP
  /\ truthy (vr_targetVisible result) = true
  /\ truthy (vr_confidence result) = true
  /\ greaterThan C (vr_confidence result) 0.8 = Sam2.Normal true.
Proof.
  unfold targetReached.
  destruct (isString (vr_action result) (actionName STOP)) eqn:Ea;
    [|discriminate].
  destruct (truthy (vr_targetVisible result)); [|discriminate].
  destruct (truthy (vr_confidence result)); [|discriminate].
  cbn [andb]. intro H. repeat split; try assumption.
  unfold isString in Ea.
  destruct (vr_action result) as [[| | |t| |]|]; try discriminate.
  apply String.eqb_eq in Ea. subst t. reflexivity.
Qed.

Lemma processed_true (C : Conversions) (result : VisionResponse) :
  andThen (logResult C result) (fun _ => targetReached C result)
  = Sam2.Normal true
  <-> logResult C result = Sam2.Normal tt
      /\ targetReached C result = Sam2.Normal true.
Proof.
  unfold andThen. destruct (logResult C result) as [[]|e].
  - split; [auto|tauto].
  - split; [discriminate|intros [H _]; discriminate].
Qed.

(** *** What the handler does with a result *)

(** Processing a result touches neither the mission nor the selected
    target. *)
Lemma applyVisionResult_keeps (C : Conversions) (r : AppState)
    (result : VisionResponse) (s : AppState) :
  currentMission (fst (applyVisionResult C r result s)) = currentMission s
  /\ selectedTarget (fst (applyVisionResult C r result s))
     = selectedTarget s.
Proof.
  unfold applyVisionResult. cbv zeta.
  destruct (andThen _ _) as [[|]|e]; try (split; reflexivity).
  destruct (currentMission r) as [m|]; [|split; reflexivity].
  destruct (nth_error (steps m) (current_step m)) as [st|];
    [|split; reflexivity].
  destruct (String.eqb _ _); split; reflexivity.
Qed.

Lemma resumeCapture_keeps (C : Conversions) (r : AppState)
    (settled : Sam2.Completion VisionResponse) (s : AppState) :
  currentMission (fst (resumeCapture C r settled s)) = currentMission s
  /\ selectedTarget (fst (resumeCapture C r settled s)) = selectedTarget s
  /\ isProcessing (fst (resumeCapture C r settled s)) = false.
Proof.
  unfold resumeCapture. destruct settled as [result|e].
  - pose proof (applyVisionResult_keeps C r result s) as K.
    destruct (applyVisionResult C r result s) as [s1 timer].
    cbn [fst] in *. exact (conj (proj1 K) (conj (proj2 K) eq_refl)).
  - repeat split.
Qed.

(** In a render whose current step is the selected target, the timer is
    set exactly when the statements before the test do not throw and the
    test succeeds. *)
Lemma applyVisionResult_timer (C : Conversions) (r : AppState)
    (result : VisionResponse) (s : AppState) :
  missionInSync r ->
  (snd (applyVisionResult C r result s) = true
   <-> andThen (logResult C result) (fun _ => targetReached C result)
       = Sam2.Normal true).
Proof.
  intros (m & st & Hm & Hst & Ht).
  unfold applyVisionResult. cbv zeta.
  destruct (andThen _ _) as [[|]|e].
  - rewrite Hm, Hst, Ht, String.eqb_refl. cbn [snd]. tauto.
  - cbn [snd]. split; discriminate.
  - cbn [snd]. split; discriminate.
Qed.

(** Without a mission in the render no timer is ever set. *)
Lemma applyVisionResult_single (C : Conversions) (r : AppState)
    (result : VisionResponse) (s : AppState) :
  currentMission r = None -> snd (applyVisionResult C r result s) = false.
Proof.
  intro Hm. unfold applyVisionResult. cbv zeta. rewrite Hm.
  destruct (andThen _ _) as [[|]|e]; reflexivity.
Qed.

(** A timer is only set by a render whose current step is the selected
    target. *)
Lemma applyVisionResult_timer_inSync (C : Conversions) (r : AppState)
    (result : VisionResponse) (s : AppState) :
  snd (applyVisionResult C r result s) = true -> missionInSync r.
Proof.
  unfold applyVisionResult. cbv zeta.
  destruct (andThen _ _) as [[|]|e]; try discriminate.
  destruct (currentMission r) as [m|] eqn:Hm; [|discriminate].
  destruct (nth_error (steps m) (current_step m)) as [st|] eqn:Hst;
    [|discriminate].
  destruct (String.eqb (target st) (selectedTarget r)) eqn:Ht;
    [|discriminate].
  intros _. apply String.eqb_eq in Ht. exists m, st. auto.
Qed.

(** *** [handleNextStep] *)

(** Run at once, the callback of a render is [handleNextStep]. *)
Lemma handleNextStepOf_same (s : AppState) :
  handleNextStepOf s s = handleNextStep s.
Proof. reflexivity. Qed.

(** [handleNextStep] of a render with a mission, whenever it runs: it
    moves that mission to its next step and selects the target of that
    step when there is one, and otherwise marks it completed and stops
    the simulation. *)
Lemma handleNextStepOf_spec (r s : AppState) (m : ChainedMission) :
  currentMission r = Some m ->
  ((current_step m + 1 < List.length (steps m))%nat ->
   currentMission (handleNextStepOf r s)
   = Some (mkChainedMission (id m) (steps m) (current_step m + 1) active)
   /\ (exists st, nth_error (steps m) (current_step m + 1) = Some st
                  /\ selectedTarget (handleNextStepOf r s) = target st)
   /\ isRunning (handleNextStepOf r s) = isRunning s)
  /\ ((List.length (steps m) <= current_step m + 1)%nat ->
      currentMission (handleNextStepOf r s)
      = Some (mkChainedMission (id m) (steps m) (current_step m) completed)
      /\ isRunning (handleNextStepOf r s) = false
      /\ selectedTarget (handleNextStepOf r s) = selectedTarget s).
Proof.
  intro Hm. unfold handleNextStepOf. rewrite Hm. cbv zeta. split.
  - intro Hlt. pose proof Hlt as Hlt'. apply Nat.ltb_lt in Hlt'.
    rewrite Hlt'. cbn [currentMission isRunning selectedTarget].
    split; [reflexivity|]. split; [|reflexivity].
    destruct (nth_error (steps m) (current_step m + 1)) as [st|] eqn:E.
    + exists st. auto.
    + apply nth_error_None in E. lia.
  - intro Hge. apply Nat.ltb_ge in Hge. rewrite Hge.
    cbn [currentMission isRunning selectedTarget]. auto.
Qed.

Lemma handleNextStep_spec (s : AppState) (m : ChainedMission) :
  currentMission s = Some m ->
  ((current_step m + 1 < List.length (steps m))%nat ->
   currentMission (handleNextStep s)
   = Some (mkChainedMission (id m) (steps m) (current_step m + 1) active)
   /\ missionInSync (handleNextStep s)
   /\ isRunning (handleNextStep s) = isRunning s)
  /\ ((List.length (steps m) <= current_step m + 1)%nat ->
      currentMission (handleNextStep s)
      = Some (mkChainedMission (id m) (steps m) (current_step m) completed)
      /\ isRunning (handleNextStep s) = false
      /\ selectedTarget (handleNextStep s) = selectedTarget s).
Proof.
  intro Hm. rewrite <- handleNextStepOf_same.
  destruct (handleNextStepOf_spec s s m Hm) as (Hnext & Hlast).
  split; [|exact Hlast].
  intro Hlt. destruct (Hnext Hlt) as (H1 & (st & Hst & Ht) & H3).
  split; [exact H1|]. split; [|exact H3].
  eexists. exists st. rewrite H1. cbn [steps current_step]. auto.
Qed.

(** *** The mission and the selected target stay in step when nothing
    runs late *)

(** A parsed mission with at least one step starts in step. *)
Lemma resumeSubmit_inSync (m : ChainedMission) (r s : AppState) :
  steps m <> [] -> current_step m = 0%nat ->
  missionInSync (resumeSubmit r (Parsed m) s).
Proof.
  intros Hsteps Hzero. unfold resumeSubmit.
  destruct (steps m) as [|firstStep rest] eqn:E; [congruence|].
  exists m, firstStep.
  destruct (negb (isRunning r)); cbn [currentMission selectedTarget];
    rewrite Hzero, E; auto.
Qed.

Lemma handleNextStep_inSync (s : AppState) :
  missionInSync s -> missionInSync (handleNextStep s).
Proof.
  intros (m & st & Hm & Hst & Ht).
  destruct (handleNextStep_spec s m Hm) as (Hnext & Hlast).
  destruct (Nat.lt_ge_cases (current_step m + 1) (List.length (steps m)))
    as [Hlt|Hge].
  - exact (proj1 (proj2 (Hnext Hlt))).
  - destruct (Hlast Hge) as (Hm' & _ & Ht').
    exists (mkChainedMission (id m) (steps m) (current_step m) completed), st.
    rewrite Hm', Ht'. cbn. auto.
Qed.

(** Of all the events of a session only a timer that fires and a
    submission that is parsed write the mission or the selected target. *)
Lemma dispatch_keeps_mission (C : Conversions)
    (toLowerCase trim : string -> string) (e : Session.Event)
    (st : Session.State) :
  e <> Session.TimerFired ->
  (forall reply now, e <> Session.MissionParsed reply now) ->
  currentMission (Session.cells (Session.dispatch C toLowerCase trim e st))
  = currentMission (Session.cells st)
  /\ selectedTarget
       (Session.cells (Session.dispatch C toLowerCase trim e st))
     = selectedTarget (Session.cells st).
Proof.
  intros Htimer Hparsed.
  destruct e as [text| |reply now| | |net|]; cbn [Session.dispatch].
  - split; reflexivity.
  - destruct (submitRefused trim (Session.form st)); split; reflexivity.
  - destruct (Hparsed reply now eq_refl).
  - cbn [Session.cells]. unfold toggleSimulation. cbv zeta.
    destruct (_ && _); [|destruct (_ && _)]; split; reflexivity.
  - destruct (captureRefused _ _); split; reflexivity.
  - destruct (Session.capture st) as [r|]; [|split; reflexivity].
    destruct (resumeCapture_keeps C r
                (fst (Sam2.getNavCommandStereo net)) (Session.cells st))
      as (K1 & K2 & _).
    destruct (resumeCapture C r (fst (Sam2.getNavCommandStereo net))
                (Session.cells st)) as [s' timer].
    cbn [fst Session.cells] in *. auto.
  - congruence.
Qed.

(** C6.  In a render whose mission has the selected target as its current
    step, the capture handler sets the timer that advances the mission
    only when the result's action is ['STOP'], its [targetVisible] is
    true and its confidence compares above 0.8, and for a result of the
    declared types exactly then: action STOP, target visible, and a
    confidence that is a number strictly above 0.8.  Processing the
    result leaves the mission and the selected target as they are.  When
    the timer fires, whatever has happened to the cells meanwhile,
    [handleNextStep] moves that mission to its next step and selects the
    target of that step, and when there is no next step it marks the
    mission completed at its current step and stops the simulation.  For
    the single-step mission and three captures answered STOP with the
    target visible at confidence 0.5, 0.7 and 0.85, only the third sets a
    timer; the mission is untouched until the timer fires, which completes
    it and stops the simulation, and frames captured after that are
    ignored.  No other event of a session than a timer and the parsing
    of a submission writes the mission or the selected target. *)
Theorem mission_step_advance (C : Conversions)
    (toLowerCase trim : string -> string) (r s : AppState)
    (result : VisionResponse) (Hsync : missionInSync r) :
  let out := resumeCapture C r (Sam2.Normal result) s in
  (snd out = true ->
   vr_action result = ofAction STOP
   /\ truthy (vr_targetVisible result) = true
   /\ greaterThan C (vr_confidence result) 0.8 = Sam2.Normal true)
  /\ (forall a reasoning visible conf box dist ang,
        result = conforming a reasoning visible conf box dist ang ->
        (snd out = true
         <-> a = STOP /\ visible = true
             /\ exists c, conf = Some c /\ 0.8 < c))
  /\ currentMission (fst out) = currentMission s
  /\ selectedTarget (fst out) = selectedTarget s
  /\ (forall m later,
        currentMission r = Some m ->
        ((current_step m + 1 < List.length (steps m))%nat ->
         currentMission (handleNextStepOf r later)
         = Some (mkChainedMission (id m) (steps m) (current_step m + 1)
                   active)
         /\ (exists st, nth_error (steps m) (current_step m + 1) = Some st
                        /\ selectedTarget (handleNextStepOf r later)
                           = target st)
         /\ isRunning (handleNextStepOf r later) = isRunning later)
        /\ ((List.length (steps m) <= current_step m + 1)%nat ->
            currentMission (handleNextStepOf r later)
            = Some (mkChainedMission (id m) (steps m) (current_step m)
                      completed)
            /\ isRunning (handleNextStepOf r later) = false
            /\ selectedTarget (handleNextStepOf r later)
               = selectedTarget later))
  /\ (let run := Session.run C toLowerCase trim in
      let st1 := run [Session.FramesCaptured;
                      Session.VisionAnswered (stopAnswer 0.5)]
                     singleStepSession in
      let st2 := run [Session.FramesCaptured;
                      Session.VisionAnswered (stopAnswer 0.7)] st1 in
      let st3 := run [Session.FramesCaptured;
                      Session.VisionAnswered (stopAnswer 0.85)] st2 in
      let st4 := run [Session.TimerFired] st3 in
      Session.timers st1 = [] /\ Session.timers st2 = []
      /\ List.length (Session.timers st3) = 1%nat
      /\ currentMission (Session.cells st3)
         = currentMission singleStepApp
      /\ isRunning (Session.cells st3) = true
      /\ Session.timers st4 = []
      /\ currentMission (Session.cells st4)
         = Some (mkChainedMission "mission_1" [redCubeStep] 0 completed)
      /\ isRunning (Session.cells st4) = false
      /\ run [Session.FramesCaptured] st4 = st4)
  /\ (forall e st,
        e <> Session.TimerFired ->
        (forall reply now, e <> Session.MissionParsed reply now) ->
        currentMission
          (Session.cells (Session.dispatch C toLowerCase trim e st))
        = currentMission (Session.cells st)
        /\ selectedTarget
             (Session.cells (Session.dispatch C toLowerCase trim e st))
           = selectedTarget (Session.cells st)).
Proof.
  cbv zeta.
  destruct (resumeCapture_keeps C r (Sam2.Normal result) s) as (Km & Kt & _).
  assert (Htimer : snd (resumeCapture C r (Sam2.Normal result) s) = true
                   <-> logResult C result = Sam2.Normal tt
                       /\ targetReached C result = Sam2.Normal true).
  { rewrite <- processed_true.
    rewrite <- (applyVisionResult_timer C r result s Hsync).
    unfold resumeCapture.
    destruct (applyVisionResult C r result s) as [s1 timer]. reflexivity. }
  split; [|split; [|split; [exact Km|split; [exact Kt|split; [|split]]]]].
  - intro H. apply Htimer in H. destruct H as [_ H].
    destruct (targetReached_true C result H) as (H1 & H2 & _ & H4). auto.
  - intros a reasoning visible conf box dist ang ->.
    rewrite Htimer.
    destruct (targetReached_conforming C a reasoning visible conf box
                dist ang) as [_ Hiff].
    rewrite <- Hiff.
    pose proof (logResult_conforming C a reasoning visible conf box
                  dist ang).
    tauto.
  - intros m later Hm. apply handleNextStepOf_spec. exact Hm.
  - repeat split.
  - intros e st. apply dispatch_keeps_mission.
Qed.

(** An instance: the single-step mission and the result of confidence
    0.85. *)
Lemma mission_step_advance_witness :
  missionInSync singleStepApp
  /\ snd (resumeCapture plainConversions singleStepApp
            (Sam2.Normal (stopAt 0.85)) singleStepApp) = true.
Proof.
  assert (Hsync : missionInSync singleStepApp).
  { eexists. exists redCubeStep. repeat split. }
  split; [exact Hsync|].
  apply (proj2 (proj1 (proj2
    (mission_step_advance plainConversions Session.lowerAscii
       Session.lowerAscii singleStepApp singleStepApp (stopAt 0.85) Hsync))
    STOP "Target reached"%string true (Some 0.85) None None None eq_refl)).
  split; [reflexivity|]. split; [reflexivity|].
  exists 0.85. split; reflexivity.
Defined.

(** Results that miss one of the three conditions set no timer: a
    confidence of exactly 0.8, a target not visible, an action other
    than STOP, a confidence left out. *)
Lemma no_advance_examples :
  let timer result :=
    snd (resumeCapture plainConversions singleStepApp (Sam2.Normal result)
           singleStepApp) in
  timer (stopAt 0.8) = false
  /\ timer (conforming STOP "" false (Some 0.9) None None None) = false
  /\ timer (conforming FORWARD "" true (Some 0.9) None None None) = false
  /\ timer (conforming STOP "" true None None None None) = false.
Proof. repeat split. Qed.

(** A mission of two steps does advance: the timer set by the render of
    the first step selects the second target and keeps the simulation
    running. *)
Lemma two_step_advance_example :
  let mission :=
    mkChainedMission "mission_2"
      [redCubeStep; Llm.stepFor "Green Cone"%string] 0 pending in
  let start :=
    Session.mkState
      (mkAppState "Red Cube"%string true (ofAction IDLE) None (Some mission)
         false)
      initialForm None None [] in
  let st :=
    Session.run plainConversions Session.lowerAscii Session.lowerAscii
      [Session.FramesCaptured; Session.VisionAnswered (stopAnswer 0.85);
       Session.TimerFired] start in
  currentMission (Session.cells st)
  = Some (mkChainedMission "mission_2"
            [redCubeStep; Llm.stepFor "Green Cone"%string] 1 active)
  /\ selectedTarget (Session.cells st) = "Green Cone"%string
  /\ isRunning (Session.cells st) = true.
Proof. repeat split. Qed.

End MissionSpec.

(** ** Cross-check on IEEE doubles *)

Module IEEEFacts.

Import Floats.
Local Open Scope float_scope.

Lemma iter_shift {A : Type} (f : A -> A) (n : nat) (a : A) :
  Nat.iter n f (f a) = f (Nat.iter n f a).
Proof.
  induction n as [|n IH]; [reflexivity|].
  rewrite !Nat.iter_succ, IH. reflexivity.
Qed.

Lemma positiveFor_sound (n : nat) (delta v : float) :
  IEEE.positiveFor n delta v = true ->
  forall k : nat, (k <= n)%nat ->
    ltb 0 (Nat.iter k (IEEE.stopVelocity delta) v) = true.
Proof.
  revert v. induction n as [|n IH]; intros v H k Hk.
  - assert (k = 0%nat) by lia. subst k. exact H.
  - cbn [IEEE.positiveFor] in H. apply andb_true_iff in H.
    destruct H as [H0 Hrest].
    destruct k as [|k]; [exact H0|].
    rewrite Nat.iter_succ, <- iter_shift. apply IH; [exact Hrest | lia].
Qed.

Lemma fixed_point_stays {A : Type} (f : A -> A) (a : A) :
  f a = a -> forall m : nat, Nat.iter m f a = a.
Proof.
  intros Hf m. induction m as [|m IH]; [reflexivity|].
  rewrite Nat.iter_succ, IH. exact Hf.
Qed.

(** On doubles, from speed 1 with frames of 1/8 s, the forward velocity
    under STOP is positive after every number of ticks: it decays to the
    subnormal 2 * 2^-1074 within 2600 ticks and rounding keeps it
    there. *)
Lemma stop_in_doubles_never_zero (n : nat) :
  ltb 0 (Nat.iter n (IEEE.stopVelocity 0.125) 1) = true.
Proof.
  destruct (Nat.le_gt_cases n 2600) as [Hle|Hgt].
  - apply (positiveFor_sound 2600 0.125 1); [|exact Hle].
    vm_compute. reflexivity.
  - replace n with ((n - 2600) + 2600)%nat by lia.
    rewrite Nat.iter_add.
    assert (Hfix : IEEE.stopVelocity 0.125
                     (Nat.iter 2600 (IEEE.stopVelocity 0.125) 1)
                   = Nat.iter 2600 (IEEE.stopVelocity 0.125) 1)
      by (vm_compute; reflexivity).
    rewrite (fixed_point_stays _ _ Hfix).
    vm_compute. reflexivity.
Qed.

(** On doubles the velocity does reach 0 under STOP when the factor
    [1 - 2 delta] is at most 1/2, by underflow: with frames of 1/4 s, from
    speed 1, at the 1075th tick. *)
Lemma stop_in_doubles_underflow :
  ltb 0 (Nat.iter 1074 (IEEE.stopVelocity 0.25) 1) = true
  /\ Nat.iter 1075 (IEEE.stopVelocity 0.25) 1 = 0.
Proof. split; vm_compute; reflexivity. Qed.

End IEEEFacts.

(** ** The arena as the collision test and the soft boundary see it *)

Module ArenaSpec.

Import THREE Agent Spec.

Lemma clamp_between (v lo hi : Q) :
  lo <= hi -> lo <= clamp v lo hi /\ clamp v lo hi <= hi.
Proof.
  intro H. unfold clamp.
  destruct (JSFacts.min_spec hi v) as [[H1 E1]|[H1 E1]]; rewrite E1;
    match goal with
    | |- context [JS.max ?a ?b] =>
        destruct (JSFacts.max_spec a b) as [[H2 E2]|[H2 E2]]; rewrite E2
    end; split; lra.
Qed.

(** The value the soft boundary clamps a coordinate to, when it lies
    outside. *)
Lemma clamp_outside (v : Q) :
  boundary - AGENT_RADIUS < Qabs v ->
  Qabs (clamp v (- boundary + AGENT_RADIUS) (boundary - AGENT_RADIUS))
  == boundary - AGENT_RADIUS.
Proof.
  unfold boundary, AGENT_RADIUS, clamp. intro H.
  destruct (JSFacts.min_spec (14 - 0.4) v) as [[H1 E1]|[H1 E1]]; rewrite E1;
    match goal with
    | |- context [JS.max ?a ?b] =>
        destruct (JSFacts.max_spec a b) as [[H2 E2]|[H2 E2]]; rewrite E2
    end; abs_split; lra.
Qed.

Lemma softBoundary_inside (s : AgentState) :
  insideSoftBoundary (position (softBoundary s)).
Proof.
  unfold insideSoftBoundary, softBoundary.
  pose proof (clamp_between (x (position s)) (- boundary + AGENT_RADIUS)
                (boundary - AGENT_RADIUS)) as Cx.
  pose proof (clamp_between (z (position s)) (- boundary + AGENT_RADIUS)
                (boundary - AGENT_RADIUS)) as Cz.
  unfold boundary, AGENT_RADIUS in *.
  split_tests; js_props; split;
    try (apply Qabs_Qle_condition; lra);
    try assumption.
Qed.

(** [checkCollisions] as one boolean formula: the central wall decides in
    its band, except that past both segments and outside the gap the
    boundary walls and the obstacles are looked at as everywhere else. *)
Lemma checkCollisions_formula (M : JS.MathFns) (p : Vector3)
    (targets : list Vector3) :
  checkCollisions M p targets
  = (nearCentralWall p && (hitsLeftSegment p || hitsRightSegment p))
    || (negb (nearCentralWall p && inGapArea p)
        && (hitsBoundaryWall p || hitsTarget M p targets)).
Proof.
  unfold checkCollisions.
  destruct (nearCentralWall p), (hitsLeftSegment p), (hitsRightSegment p),
    (inGapArea p), (hitsBoundaryWall p); reflexivity.
Qed.

Lemma ltb_abs (a b : Q) : JS.ltb (Qabs a) b = true <-> - b < a /\ a < b.
Proof. rewrite JSFacts.ltb_true. apply JSFacts.abs_lt. Qed.

(** The boundary-wall tests as intervals. *)
Lemma hitsBoundaryWall_iff (p : Vector3) :
  hitsBoundaryWall p = true
  <-> (13.35 < z p /\ z p < 14.65 /\ -14 < x p /\ x p < 14)
      \/ (-14.65 < z p /\ z p < -13.35 /\ -14 < x p /\ x p < 14)
      \/ (13.35 < x p /\ x p < 14.65 /\ -14 < z p /\ z p < 14)
      \/ (-14.65 < x p /\ x p < -13.35 /\ -14 < z p /\ z p < 14).
Proof.
  unfold hitsBoundaryWall, boundary, AGENT_RADIUS, wallThickness.
  pose proof CollisionFacts.reach_of_boundary_wall as Hr.
  set (r := 0.4 + 0.5 / 2) in *. clearbody r.
  rewrite !orb_true_iff, !andb_true_iff, !ltb_abs.
  lra.
Qed.

(** The loop over the obstacles finds one exactly when one is in reach. *)
Lemma hitsTarget_iff (M : JS.MathFns) (p : Vector3) (targets : list Vector3) :
  hitsTarget M p targets = true
  <-> exists t, In t targets /\ distanceTo M p t < AGENT_RADIUS + 0.5.
Proof.
  induction targets as [|t rest IH]; cbn [hitsTarget].
  - split; [discriminate|]. intros (t & [] & _).
  - destruct (JS.ltb (distanceTo M p t) (AGENT_RADIUS + 0.5)) eqn:E.
    + split; [|reflexivity]. intros _. exists t.
      split; [left; reflexivity|]. apply JSFacts.ltb_true. exact E.
    + rewrite IH. split.
      * intros (t' & Hin & Hd). exists t'. split; [right; exact Hin|exact Hd].
      * intros (t' & [Heq|Hin] & Hd).
        -- subst t'. apply JSFacts.ltb_true in Hd. congruence.
        -- exists t'. split; assumption.
Qed.

(** Inside the soft boundary the walls are hit exactly on this part of the
    floor. *)
Lemma arena_walls (M : JS.MathFns) (p : Vector3) :
  insideSoftBoundary p ->
  (checkCollisions M p [] = true
   <-> (Qabs (z p) < 0.65 /\ 2.6 < Qabs (x p))
       \/ (0.65 <= Qabs (z p)
           /\ (13.35 < Qabs (x p) \/ 13.35 < Qabs (z p)))).
Proof.
  unfold insideSoftBoundary, boundary, AGENT_RADIUS. intros [Hx Hz].
  apply Qabs_Qle_condition in Hx. apply Qabs_Qle_condition in Hz.
  rewrite checkCollisions_formula. cbn [hitsTarget].
  rewrite orb_false_r, orb_true_iff, !andb_true_iff, orb_true_iff,
    negb_true_iff, andb_false_iff.
  rewrite CollisionFacts.hitsLeftSegment_iff,
    CollisionFacts.hitsRightSegment_iff, hitsBoundaryWall_iff.
  unfold inGapArea, nearCentralWall, wallZ, gapHalfWidth, AGENT_RADIUS.
  rewrite JSFacts.ltb_false, JSFacts.ltb_false, ltb_abs.
  destruct (JSFacts.abs_cases (x p)) as [[Sx Ex]|[Sx Ex]];
    destruct (JSFacts.abs_cases (z p)) as [[Sz Ez]|[Sz Ez]];
    destruct (JSFacts.abs_cases (z p - 0)) as [[Sz0 Ez0]|[Sz0 Ez0]];
    rewrite Ex, Ez, Ez0; lra.
Qed.

(** A wall that is hit is hit whatever the obstacles. *)
Lemma walls_before_obstacles (M : JS.MathFns) (p : Vector3)
    (targets : list Vector3) :
  checkCollisions M p [] = true -> checkCollisions M p targets = true.
Proof.
  rewrite !checkCollisions_formula. cbn [hitsTarget].
  destruct (nearCentralWall p), (hitsLeftSegment p), (hitsRightSegment p),
    (inGapArea p), (hitsBoundaryWall p); cbn; congruence.
Qed.

(** X1.  Every frame that reaches the soft boundary block, that is every
    frame that does not return from the pathfinding block, ends with the
    agent inside the square [|x| <= 13.6], [|z| <= 13.6]
    ([boundary - AGENT_RADIUS]), wherever it started and whatever its
    velocity and the frame time. *)
Theorem soft_boundary_confines (M : JS.MathFns) (inp : FrameInput)
    (s : AgentState) :
  snd (pathfindingStep M inp (afterActivation inp s)) = false ->
  insideSoftBoundary (position (useFrame M inp s)).
Proof.
  unfold afterActivation, useFrame.
  destruct (trackRotation s) as [s1 nd]. cbn [fst].
  destruct (pathfindingStep M inp _) as [s4 returned]. cbn [snd].
  intro H. subst returned. unfold reactiveStep. cbv zeta.
  apply softBoundary_inside.
Qed.

(** An instance: a frame of an agent far outside the arena, with no
    path to follow. *)
Lemma soft_boundary_confines_witness :
  snd (pathfindingStep Approx.math (Examples.idleNoTarget 0)
         (afterActivation (Examples.idleNoTarget 0)
            (set_position (mkVector3 30 0 (-40)) Examples.cruising))) = false
  /\ insideSoftBoundary
       (position (useFrame Approx.math (Examples.idleNoTarget 0)
                    (set_position (mkVector3 30 0 (-40)) Examples.cruising))).
Proof.
  assert (H : snd (pathfindingStep Approx.math (Examples.idleNoTarget 0)
                     (afterActivation (Examples.idleNoTarget 0)
                        (set_position (mkVector3 30 0 (-40))
                           Examples.cruising))) = false)
    by reflexivity.
  split; [exact H|].
  exact (soft_boundary_confines Approx.math (Examples.idleNoTarget 0)
           (set_position (mkVector3 30 0 (-40)) Examples.cruising) H).
Defined.

(** Where the soft boundary has clamped a coordinate, the agent is left on
    the rim of the square. *)
Lemma softBoundary_rim (s : AgentState) :
  ~ insideSoftBoundary (position s) ->
  Qabs (x (position (softBoundary s))) == boundary - AGENT_RADIUS
  \/ Qabs (z (position (softBoundary s))) == boundary - AGENT_RADIUS.
Proof.
  intro Hout.
  pose proof (clamp_outside (x (position s))) as Cx.
  pose proof (clamp_outside (z (position s))) as Cz.
  unfold softBoundary. unfold insideSoftBoundary in Hout.
  split_tests; js_props.
  - left. apply Cx. assumption.
  - left. apply Cx. assumption.
  - right. apply Cz. assumption.
  - exfalso. apply Hout. split; assumption.
Qed.

(** X2.  Whenever the soft boundary clamps the agent (its position lies
    outside the square), the position it is put back to is one at which
    [checkCollisions] reports a collision, whatever the obstacles: the rim
    of the soft boundary lies within reach of the boundary walls. *)
Theorem soft_boundary_clamp_collides (M : JS.MathFns) (s : AgentState)
    (targets : list Vector3) :
  ~ insideSoftBoundary (position s) ->
  checkCollisions M (position (softBoundary s)) targets = true.
Proof.
  intro Hout. apply walls_before_obstacles.
  pose proof (softBoundary_inside s) as Hin.
  apply (arena_walls M) in Hin as Hiff. apply Hiff.
  destruct (softBoundary_rim s Hout) as [E|E];
    unfold insideSoftBoundary, boundary, AGENT_RADIUS in *;
    destruct Hin as [Hx Hz];
    destruct (Qlt_le_dec (Qabs (z (position (softBoundary s)))) 0.65);
    [left|right|left|right]; split; try assumption; lra.
Qed.

Lemma soft_boundary_clamp_collides_witness :
  ~ insideSoftBoundary (position (set_position (mkVector3 15 0 3)
                                    Examples.cruising))
  /\ checkCollisions Approx.math
       (position (softBoundary (set_position (mkVector3 15 0 3)
                                  Examples.cruising))) [] = true.
Proof.
  assert (H : ~ insideSoftBoundary
                  (position (set_position (mkVector3 15 0 3)
                               Examples.cruising))).
  { intros [Hx _]. cbn [position set_position x] in Hx.
    apply Qabs_Qle_condition in Hx. unfold boundary, AGENT_RADIUS in Hx.
    lra. }
  split; [exact H|].
  exact (soft_boundary_clamp_collides Approx.math _ [] H).
Defined.

(** X3.  The floor plan of [checkCollisions] inside the soft boundary.  A
    position there collides with a wall exactly in the band of the central
    wall ([|z| < 0.65]) more than 2.6 from its middle, and on the rim less
    than 0.65 from a boundary wall ([|x| > 13.35] or [|z| > 13.35]);
    obstacles are looked at everywhere except in the band within 2.6 of
    the middle of the gap, where the test answers no collision at once. *)
Theorem arena_collision_map (M : JS.MathFns) (p : Vector3)
    (targets : list Vector3) :
  insideSoftBoundary p ->
  (checkCollisions M p targets = true
   <-> (Qabs (z p) < 0.65 /\ 2.6 < Qabs (x p))
       \/ (0.65 <= Qabs (z p)
           /\ (13.35 < Qabs (x p) \/ 13.35 < Qabs (z p)
               \/ exists t, In t targets
                            /\ distanceTo M p t < AGENT_RADIUS + 0.5))).
Proof.
  intro Hin. pose proof (arena_walls M p Hin) as Hw.
  rewrite checkCollisions_formula in Hw. cbn [hitsTarget] in Hw.
  rewrite checkCollisions_formula.
  rewrite <- hitsTarget_iff.
  assert (Hband : nearCentralWall p = true <-> Qabs (z p) < 0.65).
  { unfold nearCentralWall, wallZ, AGENT_RADIUS. rewrite JSFacts.ltb_true.
    destruct (JSFacts.abs_cases (z p)) as [[Sz Ez]|[Sz Ez]];
      destruct (JSFacts.abs_cases (z p - 0)) as [[Sz0 Ez0]|[Sz0 Ez0]];
      rewrite Ez, Ez0; lra. }
  assert (Hgap : nearCentralWall p = true ->
                 hitsLeftSegment p = false -> hitsRightSegment p = false ->
                 inGapArea p = true).
  { intros _ Hl Hr. unfold inGapArea, gapHalfWidth.
    apply JSFacts.ltb_true.
    destruct (Bool.not_true_iff_false (hitsLeftSegment p)) as [_ Hl'].
    destruct (Bool.not_true_iff_false (hitsRightSegment p)) as [_ Hr'].
    pose proof (proj2 (CollisionFacts.hitsLeftSegment_iff p)) as L.
    pose proof (proj2 (CollisionFacts.hitsRightSegment_iff p)) as R.
    unfold insideSoftBoundary, boundary, AGENT_RADIUS in Hin.
    destruct Hin as [Hx _]. apply Qabs_Qle_condition in Hx.
    destruct (JSFacts.abs_cases (x p)) as [[Sx Ex]|[Sx Ex]]; rewrite Ex.
    - destruct (Qlt_le_dec (x p) 3) as [H|H]; [exact H|].
      exfalso. assert (hitsRightSegment p = true) by (apply R; lra).
      congruence.
    - destruct (Qlt_le_dec (- x p) 3) as [H|H]; [exact H|].
      exfalso. assert (hitsLeftSegment p = true) by (apply L; lra).
      congruence. }
  destruct (nearCentralWall p) eqn:En.
  - assert (Hz : Qabs (z p) < 0.65) by (apply Hband; reflexivity).
    destruct (hitsLeftSegment p) eqn:El; [|destruct (hitsRightSegment p) eqn:Er].
    + cbn in *. split; [intros _|reflexivity].
      destruct Hw as [Hw _]. destruct (Hw eq_refl) as [H|[H _]];
        [left; exact H|lra].
    + cbn in *. split; [intros _|reflexivity].
      destruct Hw as [Hw _]. destruct (Hw eq_refl) as [H|[H _]];
        [left; exact H|lra].
    + rewrite (Hgap eq_refl eq_refl eq_refl) in *. cbn in *.
      split; [discriminate|]. intros [H|[H _]]; [|lra].
      apply Hw. left. exact H.
  - assert (Hz : 0.65 <= Qabs (z p)).
    { destruct (Qlt_le_dec (Qabs (z p)) 0.65) as [H|H]; [|exact H].
      apply Hband in H. discriminate. }
    cbn in *. rewrite orb_true_iff. rewrite orb_false_r in Hw. split.
    + intros [H|H].
      * apply Hw in H. destruct H as [[H _]|[_ [H|H]]]; [lra| |];
          right; (split; [exact Hz|]); [left|right; left]; exact H.
      * right. split; [exact Hz|]. right. right. exact H.
    + intros [[H _]|[_ [H|[H|H]]]]; [lra| | |].
      * left. apply Hw. right. split; [exact Hz|left; exact H].
      * left. apply Hw. right. split; [exact Hz|right; exact H].
      * right. exact H.
Qed.

(** An instance: on the open floor of the north half, with the Red Cube's
    position as only obstacle, two units away. *)
Lemma arena_collision_map_witness :
  insideSoftBoundary (mkVector3 5 0 3)
  /\ checkCollisions Approx.math (mkVector3 5 0 3) [mkVector3 5 0 5] = false.
Proof.
  assert (H : insideSoftBoundary (mkVector3 5 0 3)).
  { split; cbn [x z]; apply Qabs_Qle_condition;
      unfold boundary, AGENT_RADIUS; lra. }
  split; [exact H|].
  destruct (checkCollisions Approx.math (mkVector3 5 0 3) [mkVector3 5 0 5])
    eqn:E; [|reflexivity].
  exfalso.
  apply (arena_collision_map Approx.math (mkVector3 5 0 3)
           [mkVector3 5 0 5] H) in E.
  cbn [x z] in E. destruct E as [[E _]|[_ [E|[E|(t & [Ht|[]] & E)]]]].
  - revert E. cbn. discriminate.
  - revert E. cbn. discriminate.
  - revert E. cbn. discriminate.
  - subst t. revert E. vm_compute. discriminate.
Defined.

(** Give a name to every quotient of constants, with its value. *)
Ltac name_quotients :=
  repeat match goal with
  | |- context [Qdiv ?a ?b] =>
      let v := eval vm_compute in (Qred (Qdiv a b)) in
      let q := fresh "q" in
      let E := fresh "E" in
      assert (E : Qdiv a b == v) by reflexivity;
      set (q := Qdiv a b) in *; clearbody q
  end.

(** The footprints of the six meshes, as intervals. *)
Lemma occupies_segments (p : Vector3) :
  (WallWithGap.occupies WallWithGap.leftSegment p
   <-> (-20 <= x p /\ x p <= -3) /\ (-0.25 <= z p /\ z p <= 0.25))
  /\ (WallWithGap.occupies WallWithGap.rightSegment p
      <-> (3 <= x p /\ x p <= 20) /\ (-0.25 <= z p /\ z p <= 0.25)).
Proof.
  unfold WallWithGap.occupies, WallWithGap.leftSegment,
    WallWithGap.rightSegment, WallWithGap.extentX, WallWithGap.extentZ.
  cbn [WallWithGap.centre WallWithGap.boxWidth WallWithGap.boxDepth
       WallWithGap.quarterTurn x z].
  rewrite !Qabs_Qle_condition.
  unfold WallWithGap.wallLength, WallWithGap.gapWidth,
    WallWithGap.wallThickness.
  name_quotients. lra.
Qed.

Lemma occupies_boundary_walls (p : Vector3) :
  (WallWithGap.occupies WallWithGap.northWall p
   <-> (-14 <= x p /\ x p <= 14) /\ (13.75 <= z p /\ z p <= 14.25))
  /\ (WallWithGap.occupies WallWithGap.southWall p
      <-> (-14 <= x p /\ x p <= 14) /\ (-14.25 <= z p /\ z p <= -13.75))
  /\ (WallWithGap.occupies WallWithGap.eastWall p
      <-> (13.75 <= x p /\ x p <= 14.25) /\ (-14 <= z p /\ z p <= 14))
  /\ (WallWithGap.occupies WallWithGap.westWall p
      <-> (-14.25 <= x p /\ x p <= -13.75) /\ (-14 <= z p /\ z p <= 14)).
Proof.
  unfold WallWithGap.occupies, WallWithGap.northWall, WallWithGap.southWall,
    WallWithGap.eastWall, WallWithGap.westWall,
    WallWithGap.extentX, WallWithGap.extentZ.
  cbn [WallWithGap.centre WallWithGap.boxWidth WallWithGap.boxDepth
       WallWithGap.quarterTurn x z].
  rewrite !Qabs_Qle_condition.
  unfold WallWithGap.boundarySize, WallWithGap.wallThickness.
  name_quotients. lra.
Qed.

(** X4.  The walls [WallWithGap] draws are solid for [checkCollisions]:
    an agent whose centre lies in the footprint of one of the two segments
    of the central wall, or of one of the four boundary walls away from
    the outer corners of the arena, is in collision, whatever the
    obstacles.  At the outer corners ([|x| >= 14] and [|z| >= 14]), which
    the drawn boundary walls cover too, no wall is hit. *)
Theorem drawn_walls_are_solid (M : JS.MathFns) (p : Vector3)
    (targets : list Vector3) :
  (WallWithGap.occupies WallWithGap.leftSegment p
   \/ WallWithGap.occupies WallWithGap.rightSegment p
   \/ ((WallWithGap.occupies WallWithGap.northWall p
        \/ WallWithGap.occupies WallWithGap.southWall p
        \/ WallWithGap.occupies WallWithGap.eastWall p
        \/ WallWithGap.occupies WallWithGap.westWall p)
       /\ (Qabs (x p) < 14 \/ Qabs (z p) < 14)) ->
   checkCollisions M p targets = true)
  /\ (14 <= Qabs (x p) -> 14 <= Qabs (z p) ->
      checkCollisions M p [] = false).
Proof.
  split.
  { intro H. apply walls_before_obstacles.
    destruct (occupies_segments p) as [L R].
    destruct (occupies_boundary_walls p) as (N & S & E & W).
    rewrite L, R, N, S, E, W in H. clear L R N S E W.
    rewrite checkCollisions_formula. cbn [hitsTarget].
    rewrite orb_false_r.
    destruct (nearCentralWall p) eqn:En;
      destruct (hitsLeftSegment p) eqn:El;
      destruct (hitsRightSegment p) eqn:Er;
      destruct (inGapArea p) eqn:Eg;
      destruct (hitsBoundaryWall p) eqn:Eb;
      try reflexivity; exfalso;
      rewrite ?JSFacts.ltb_true in *;
      pose proof (CollisionFacts.nearCentralWall_iff p) as Bn;
      pose proof (CollisionFacts.hitsLeftSegment_iff p) as Bl;
      pose proof (CollisionFacts.hitsRightSegment_iff p) as Br;
      pose proof (hitsBoundaryWall_iff p) as Bb;
      unfold inWallBand, wallZ, AGENT_RADIUS in Bn;
      rewrite JSFacts.abs_lt in Bn;
      unfold inGapArea, gapHalfWidth in Eg;
      rewrite ?En, ?El, ?Er, ?Eb in *;
      destruct (JSFacts.abs_cases (x p)) as [[Sx Ex]|[Sx Ex]];
      destruct (JSFacts.abs_cases (z p)) as [[Sz Ez]|[Sz Ez]];
      rewrite Ex, Ez in H;
      try (apply JSFacts.ltb_true in Eg; rewrite Ex in Eg);
      try (apply JSFacts.ltb_false in Eg; rewrite Ex in Eg);
      repeat match goal with
      | B : true = true <-> _ |- _ =>
          let B' := fresh in pose proof (proj1 B eq_refl) as B'; clear B
      | B : false = true <-> ?P |- _ =>
          let B' := fresh in
          assert (B' : ~ P)
            by (intro; assert (false = true) by (apply B; assumption);
                discriminate);
          clear B
      end; lra. }
  intros Hx Hz.
  rewrite checkCollisions_formula. cbn [hitsTarget]. rewrite orb_false_r.
  assert (En : nearCentralWall p = false).
  { destruct (nearCentralWall p) eqn:E; [|reflexivity].
    apply CollisionFacts.nearCentralWall_iff in E.
    unfold inWallBand, wallZ, AGENT_RADIUS in E.
    rewrite JSFacts.abs_lt in E.
    destruct (JSFacts.abs_cases (z p)) as [[Sz Ez]|[Sz Ez]];
      rewrite Ez in Hz; lra. }
  assert (Eb : hitsBoundaryWall p = false).
  { destruct (hitsBoundaryWall p) eqn:E; [|reflexivity].
    apply hitsBoundaryWall_iff in E.
    destruct (JSFacts.abs_cases (x p)) as [[Sx Ex]|[Sx Ex]];
      destruct (JSFacts.abs_cases (z p)) as [[Sz Ez]|[Sz Ez]];
      rewrite Ex in Hx; rewrite Ez in Hz; lra. }
  rewrite En, Eb. reflexivity.
Qed.

(** An instance: the middle of the right segment. *)
Lemma drawn_walls_are_solid_witness :
  WallWithGap.occupies WallWithGap.rightSegment (mkVector3 11.5 0 0)
  /\ checkCollisions Approx.math (mkVector3 11.5 0 0) [] = true.
Proof.
  assert (H : WallWithGap.occupies WallWithGap.rightSegment
                (mkVector3 11.5 0 0)).
  { apply (proj2 (occupies_segments (mkVector3 11.5 0 0))).
    cbn [x z]. lra. }
  split; [exact H|].
  exact (proj1 (drawn_walls_are_solid Approx.math (mkVector3 11.5 0 0) [])
           (or_intror (or_introl H))).
Defined.

End ArenaSpec.

(** ** The collision cooldown *)

Module CooldownSpec.

Import THREE Agent Spec.

(** *** Blocks that leave the collision references alone *)

Lemma trackRotation_cooldown (s : AgentState) :
  collisionCooldown (fst (trackRotation s)) = collisionCooldown s.
Proof. reflexivity. Qed.

Lemma trackRotation_detected (s : AgentState) :
  collisionDetected (fst (trackRotation s)) = collisionDetected s.
Proof. reflexivity. Qed.

Lemma activatePathfinding_cooldown (inp : FrameInput) (s : AgentState) :
  collisionCooldown (activatePathfinding inp s) = collisionCooldown s.
Proof. unfold activatePathfinding. split_tests; reflexivity. Qed.

Lemma activatePathfinding_detected (inp : FrameInput) (s : AgentState) :
  collisionDetected (activatePathfinding inp s) = collisionDetected s.
Proof. unfold activatePathfinding. split_tests; reflexivity. Qed.

Lemma activateExploration_cooldown (inp : FrameInput) (s : AgentState) :
  collisionCooldown (activateExploration inp s) = collisionCooldown s.
Proof. unfold activateExploration. split_tests; reflexivity. Qed.

Lemma activateExploration_detected (inp : FrameInput) (s : AgentState) :
  collisionDetected (activateExploration inp s) = collisionDetected s.
Proof. unfold activateExploration. split_tests; reflexivity. Qed.

Lemma afterActivation_cooldown (inp : FrameInput) (s : AgentState) :
  collisionCooldown (afterActivation inp s) = collisionCooldown s.
Proof.
  unfold afterActivation.
  rewrite activateExploration_cooldown, activatePathfinding_cooldown.
  reflexivity.
Qed.

Lemma afterActivation_detected (inp : FrameInput) (s : AgentState) :
  collisionDetected (afterActivation inp s) = collisionDetected s.
Proof.
  unfold afterActivation.
  rewrite activateExploration_detected, activatePathfinding_detected.
  reflexivity.
Qed.

Lemma explorationStep_cooldown (inp : FrameInput) (s : AgentState) :
  collisionCooldown (explorationStep inp s) = collisionCooldown s.
Proof. unfold explorationStep. split_tests; reflexivity. Qed.

Lemma explorationStep_detected (inp : FrameInput) (s : AgentState) :
  collisionDetected (explorationStep inp s) = collisionDetected s.
Proof. unfold explorationStep. split_tests; reflexivity. Qed.

Lemma accumulateScan_cooldown (inp : FrameInput) (nd : Q) (s : AgentState) :
  collisionCooldown (accumulateScan inp nd s) = collisionCooldown s.
Proof. unfold accumulateScan. split_tests; reflexivity. Qed.

Lemma accumulateScan_detected (inp : FrameInput) (nd : Q) (s : AgentState) :
  collisionDetected (accumulateScan inp nd s) = collisionDetected s.
Proof. unfold accumulateScan. split_tests; reflexivity. Qed.

Lemma applyMovement_cooldown (M : JS.MathFns) (inp : FrameInput)
    (s : AgentState) :
  collisionCooldown (applyMovement M inp s) = collisionCooldown s.
Proof. unfold applyMovement. split_tests; reflexivity. Qed.

Lemma applyMovement_detected (M : JS.MathFns) (inp : FrameInput)
    (s : AgentState) :
  collisionDetected (applyMovement M inp s) = collisionDetected s.
Proof. unfold applyMovement. split_tests; reflexivity. Qed.

Lemma softBoundary_cooldown (s : AgentState) :
  collisionCooldown (softBoundary s) = collisionCooldown s.
Proof. unfold softBoundary. split_tests; reflexivity. Qed.

Lemma softBoundary_detected (s : AgentState) :
  collisionDetected (softBoundary s) = collisionDetected s.
Proof. unfold softBoundary. split_tests; reflexivity. Qed.

Lemma followPath_cooldown (M : JS.MathFns) (s : AgentState) :
  collisionCooldown (snd (followPath M s)) = collisionCooldown s.
Proof. unfold followPath. split_tests; reflexivity. Qed.

Lemma followPath_detected (M : JS.MathFns) (s : AgentState) :
  collisionDetected (snd (followPath M s)) = collisionDetected s.
Proof. unfold followPath. split_tests; reflexivity. Qed.

Create Rewrite HintDb collision_refs.

#[local] Hint Rewrite trackRotation_cooldown trackRotation_detected
  activatePathfinding_cooldown activatePathfinding_detected
  activateExploration_cooldown activateExploration_detected
  afterActivation_cooldown afterActivation_detected
  explorationStep_cooldown explorationStep_detected
  accumulateScan_cooldown accumulateScan_detected
  applyMovement_cooldown applyMovement_detected
  softBoundary_cooldown softBoundary_detected
  followPath_cooldown followPath_detected : collision_refs.

(** *** The frame, by cases *)

(** Every frame is a reactive step, a step of travel along the path, or
    the end of the path followed by a reactive step. *)
Lemma useFrame_cases (M : JS.MathFns) (inp : FrameInput) (s : AgentState) :
  let s3 := afterActivation inp s in
  let nd := snd (trackRotation s) in
  (pathfindingMode s3 = false
   /\ snd (pathfindingStep M inp s3) = false
   /\ useFrame M inp s = reactiveStep M inp nd s3)
  \/ (pathfindingMode s3 = true
      /\ fst (followPath M s3) <> STOP
      /\ snd (pathfindingStep M inp s3) = true
      /\ useFrame M inp s
         = moveAlongPath M inp (fst (followPath M s3))
             (snd (followPath M s3)))
  \/ (pathfindingMode s3 = true
      /\ fst (followPath M s3) = STOP
      /\ snd (pathfindingStep M inp s3) = false
      /\ useFrame M inp s
         = reactiveStep M inp nd
             (set_totalRotation 0
                (set_pathfindingMode false (snd (followPath M s3))))).
Proof.
  cbv zeta. unfold afterActivation, useFrame.
  destruct (trackRotation s) as [s1 nd]. cbn [fst snd].
  set (s3 := activateExploration inp (activatePathfinding inp s1)).
  unfold pathfindingStep.
  destruct (pathfindingMode s3) eqn:Emode.
  - right. destruct (followPath M s3) as [a s4]. cbn [fst snd].
    destruct a; cbn [ActionType_eqb negb snd].
    all: try (left; split; [reflexivity|];
              split; [discriminate|]; split; reflexivity).
    right. split; [reflexivity|]. split; [reflexivity|]. split; reflexivity.
  - left. repeat split; reflexivity.
Qed.

(** *** While the cooldown runs *)

Lemma reactiveStep_cooling (M : JS.MathFns) (inp : FrameInput) (nd : Q)
    (s : AgentState) :
  delta inp < collisionCooldown s -> 0 <= delta inp ->
  collisionDetected (reactiveStep M inp nd s) = collisionDetected s
  /\ collisionCooldown (reactiveStep M inp nd s)
     = collisionCooldown s - delta inp.
Proof.
  intros Hc Hd. unfold reactiveStep. cbv zeta.
  autorewrite with collision_refs. st_simpl.
  autorewrite with collision_refs.
  assert (E : collisionResponse M (updateCooldowns inp (explorationStep inp s))
              = updateCooldowns inp (explorationStep inp s)).
  { unfold collisionResponse.
    assert (Hpos : JS.leb (collisionCooldown
                      (updateCooldowns inp (explorationStep inp s))) 0
                   = false).
    { apply JSFacts.leb_false. unfold updateCooldowns.
      rewrite explorationStep_cooldown.
      split_tests; js_props; lra. }
    rewrite Hpos. reflexivity. }
  rewrite E. unfold updateCooldowns. rewrite explorationStep_cooldown.
  assert (Hg : JS.gtb (collisionCooldown s) 0 = true)
    by (apply JSFacts.gtb_true; lra).
  rewrite Hg. split_tests; autorewrite with collision_refs; split; reflexivity.
Qed.

Lemma moveAlongPath_cooling (M : JS.MathFns) (inp : FrameInput)
    (a : ActionType) (s : AgentState) :
  0 < collisionCooldown s ->
  let s' := moveAlongPath M inp a s in
  collisionDetected s' = collisionDetected s
  /\ collisionCooldown s' = collisionCooldown s
  /\ pathfindingMode s' = pathfindingMode s.
Proof.
  intro Hc. unfold moveAlongPath. cbv zeta.
  unfold pathfindingCollision.
  match goal with
  | |- context [JS.leb ?c 0] =>
      assert (E : JS.leb c 0 = false)
  end.
  { apply JSFacts.leb_false. split_tests; exact Hc. }
  rewrite E. split_tests; repeat split.
Qed.

(** While the cooldown has more than the frame time left, a frame makes
    no collision test: the flag keeps its value and the cooldown goes down
    by at most the frame time. *)
Lemma useFrame_cooling (M : JS.MathFns) (inp : FrameInput) (s : AgentState) :
  0 <= delta inp -> delta inp < collisionCooldown s ->
  collisionDetected (useFrame M inp s) = collisionDetected s
  /\ collisionCooldown s - delta inp <= collisionCooldown (useFrame M inp s)
  /\ collisionCooldown (useFrame M inp s) <= collisionCooldown s.
Proof.
  intros Hd Hc.
  destruct (useFrame_cases M inp s) as [(_ & _ & E)|[(_ & _ & _ & E)|(_ & _ & _ & E)]];
    cbv zeta in E; rewrite E; clear E.
  - destruct (reactiveStep_cooling M inp (snd (trackRotation s))
                (afterActivation inp s)) as [H1 H2];
      autorewrite with collision_refs; try assumption.
    rewrite H1, H2. autorewrite with collision_refs.
    split; [reflexivity|]. lra.
  - destruct (moveAlongPath_cooling M inp
                (fst (followPath M (afterActivation inp s)))
                (snd (followPath M (afterActivation inp s))))
      as (H1 & H2 & _);
      autorewrite with collision_refs; try lra.
    rewrite H1, H2. autorewrite with collision_refs.
    split; [reflexivity|]. lra.
  - match goal with
    | |- context [reactiveStep M inp ?nd ?t] =>
        destruct (reactiveStep_cooling M inp nd t) as [H1 H2];
          st_simpl; autorewrite with collision_refs; try assumption
    end.
    rewrite H1, H2. st_simpl. autorewrite with collision_refs.
    split; [reflexivity|]. lra.
Qed.

(** X5.  The collision cooldown window.  From a state whose cooldown is
    running, over every run of frames (with any commands, in any mode)
    whose frame times are non-negative and add up to less than the
    cooldown that is left, no collision test is made: the collision flag
    keeps the value it had, and the cooldown goes down by at most the time
    that has passed.  After a collision (cooldown 1.0) a second one cannot
    be registered within the next second of frame time. *)
Theorem collision_cooldown_window (M : JS.MathFns) (inps : list FrameInput)
    (s : AgentState) :
  forwardInTime inps -> totalTime inps < collisionCooldown s ->
  collisionDetected (runFrames M inps s) = collisionDetected s
  /\ collisionCooldown s - totalTime inps
     <= collisionCooldown (runFrames M inps s)
  /\ collisionCooldown (runFrames M inps s) <= collisionCooldown s.
Proof.
  revert s. induction inps as [|inp rest IH]; intros s Hfwd Htot.
  - cbn. split; [reflexivity|]. lra.
  - inversion Hfwd as [|? ? Hd Hrest]; subst.
    cbn [totalTime fold_right] in Htot. fold (totalTime rest) in Htot.
    assert (Hrest0 : 0 <= totalTime rest).
    { clear -Hrest. induction Hrest as [|i l Hi _ IHl]; cbn; [lra|].
      fold (totalTime l). lra. }
    destruct (useFrame_cooling M inp s Hd) as (H1 & H2 & H3); [lra|].
    cbn [runFrames totalTime fold_right]. fold (totalTime rest).
    destruct (IH (useFrame M inp s) Hrest) as (I1 & I2 & I3); [lra|].
    rewrite I1, H1. split; [reflexivity|]. lra.
Qed.

(** An instance: the turn run of thirteen frames of 1/10 s, begun with the
    collision flag up and the cooldown just set to 1.5 s. *)
Lemma collision_cooldown_window_witness :
  forwardInTime Examples.turnRun
  /\ totalTime Examples.turnRun
     < collisionCooldown
         (set_collisionCooldown 1.5
            (set_collisionDetected true Examples.exploringTurn))
  /\ collisionDetected
       (runFrames Approx.math Examples.turnRun
          (set_collisionCooldown 1.5
             (set_collisionDetected true Examples.exploringTurn))) = true.
Proof.
  assert (H1 : forwardInTime Examples.turnRun).
  { unfold forwardInTime, Examples.turnRun. cbn [map].
    repeat constructor; cbn [delta]; lra. }
  assert (H2 : totalTime Examples.turnRun
               < collisionCooldown
                   (set_collisionCooldown 1.5
                      (set_collisionDetected true Examples.exploringTurn)))
    by reflexivity.
  split; [exact H1|]. split; [exact H2|].
  exact (proj1 (collision_cooldown_window Approx.math Examples.turnRun
                  _ H1 H2)).
Defined.

(** *** When the cooldown has run out *)

Lemma updateCooldowns_expired (inp : FrameInput) (s : AgentState) :
  collisionCooldown s <= 0 ->
  collisionCooldown (updateCooldowns inp s) = collisionCooldown s
  /\ collisionDetected (updateCooldowns inp s) = collisionDetected s.
Proof.
  intro H. unfold updateCooldowns.
  assert (E : JS.gtb (collisionCooldown s) 0 = false)
    by (apply JSFacts.gtb_false; exact H).
  rewrite E. split_tests; split; reflexivity.
Qed.

(** What the collision block does once the cooldown has run out. *)
Lemma collisionResponse_test (M : JS.MathFns) (s : AgentState) :
  collisionCooldown s <= 0 ->
  let s' := collisionResponse M s in
  collisionDetected s' = checkCollisions M (position s) []
  /\ (checkCollisions M (position s) [] = true ->
      collisionCooldown s' = COLLISION_COOLDOWN_TIME
      /\ 1.5 <= velocity s' /\ velocity s' <= 2.5
      /\ rotationVelocity s' = rotationVelocity s * 0.3)
  /\ (checkCollisions M (position s) [] = false ->
      collisionCooldown s' = collisionCooldown s
      /\ velocity s' = velocity s
      /\ rotationVelocity s' = rotationVelocity s).
Proof.
  intro H. cbv zeta. unfold collisionResponse.
  assert (E : JS.leb (collisionCooldown s) 0 = true)
    by (apply JSFacts.leb_true; exact H).
  rewrite E. cbv zeta. st_simpl.
  destruct (checkCollisions M (position s) []) eqn:Ec; st_simpl.
  - split; [reflexivity|]. split; [|discriminate]. intros _.
    split; [reflexivity|].
    destruct (JSFacts.min_spec 2.5 (Qabs (velocity s) + 1.5))
      as [[H1 E1]|[H1 E1]]; rewrite E1;
      pose proof (Qabs_nonneg (velocity s));
      (split; [lra|]; split; [lra|reflexivity]).
  - split; [reflexivity|]. split; [discriminate|]. intros _.
    repeat split.
Qed.

(** The soft boundary at most quarters a forward velocity. *)
Lemma softBoundary_velocity_quarter (s : AgentState) :
  0 <= velocity s ->
  velocity s * 0.25 <= velocity (softBoundary s)
  /\ velocity (softBoundary s) <= velocity s.
Proof.
  intro H. unfold softBoundary. split_tests; split; lra.
Qed.

(** X6.  The collision test of a reactive frame.  In a frame that starts
    with pathfinding off and does not activate it, once the cooldown has
    run out, the collision flag the frame leaves is the result of
    [checkCollisions] at the position the frame started from (the test
    comes before the movement, with no obstacles).  On a collision the
    cooldown is set to [COLLISION_COOLDOWN_TIME] and the forward velocity
    the frame leaves is positive, between [(1 - 2 * delta) * 0.375] and
    2.5: the rebound speed has the sign of forward motion.  With no
    collision the cooldown is left as it was. *)
Theorem collision_test_frame (M : JS.MathFns) (inp : FrameInput)
    (s : AgentState) :
  pathfindingMode s = false -> pathfindingTrigger inp s = false ->
  collisionCooldown s <= 0 -> 0 <= delta inp -> delta inp <= 1 # 2 ->
  let s' := useFrame M inp s in
  collisionDetected s' = checkCollisions M (position s) []
  /\ (checkCollisions M (position s) [] = true ->
      collisionCooldown s' = COLLISION_COOLDOWN_TIME
      /\ (1 - 2 * delta inp) * 0.375 <= velocity s'
      /\ velocity s' <= 2.5)
  /\ (checkCollisions M (position s) [] = false ->
      collisionCooldown s' = collisionCooldown s).
Proof.
  intros Hoff Htrig Hc Hd0 Hd1. cbv zeta.
  destruct (PathfindingFacts.frame_without_trigger M inp s Hoff Htrig)
    as (E & _ & _).
  rewrite E. clear E.
  destruct (PathfindingFacts.afterActivation_idle inp s Htrig)
    as (Hp & _ & _ & _ & _ & Hm & _).
  cbv zeta in Hp, Hm.
  pose proof (afterActivation_cooldown inp s) as Hc3.
  set (s3 := afterActivation inp s) in *.
  unfold reactiveStep. cbv zeta.
  set (e := explorationStep inp s3).
  assert (He : position e = position s /\ pathfindingMode e = false
               /\ collisionCooldown e = collisionCooldown s).
  { destruct (FrameFacts.explorationStep_keeps inp s3)
      as (K1 & _ & _ & K2 & _).
    cbv zeta in K1, K2. fold e in K1, K2.
    split; [congruence|]. split; [congruence|].
    unfold e. rewrite explorationStep_cooldown. exact Hc3. }
  destruct He as (Pe & Me & Ce).
  set (c := updateCooldowns inp e).
  assert (Hcc : position c = position s /\ pathfindingMode c = false
                /\ collisionCooldown c = collisionCooldown s).
  { destruct (FrameFacts.updateCooldowns_keeps inp e)
      as (K1 & _ & _ & _ & _ & K2 & _).
    cbv zeta in K1, K2. fold c in K1, K2.
    split; [congruence|]. split; [congruence|].
    unfold c. destruct (updateCooldowns_expired inp e) as [K _];
      [rewrite Ce; exact Hc|]. congruence. }
  destruct Hcc as (Pc & Mc & Cc).
  assert (Hc' : collisionCooldown c <= 0) by (rewrite Cc; exact Hc).
  destruct (collisionResponse_test M c Hc') as (R1 & R2 & R3).
  cbv zeta in R1, R2, R3. rewrite Pc in R1, R2, R3.
  destruct (FrameFacts.collisionResponse_keeps M c)
    as (_ & _ & _ & Mr & _).
  cbv zeta in Mr.
  set (r := collisionResponse M c) in *.
  set (a := accumulateScan inp (snd (trackRotation s)) r).
  destruct (FrameFacts.accumulateScan_keeps inp (snd (trackRotation s)) r)
    as (_ & _ & Va & _ & Ma & _).
  cbv zeta in Va, Ma. fold a in Va, Ma.
  rewrite softBoundary_detected, softBoundary_cooldown.
  rewrite applyMovement_detected, applyMovement_cooldown.
  st_simpl. unfold a.
  rewrite accumulateScan_detected, accumulateScan_cooldown. fold a.
  split; [exact R1|]. split.
  - intro Hcol. destruct (R2 Hcol) as (K1 & K2 & K3 & _).
    split; [exact K1|].
    set (u := updateMovement (delta inp)
                (flipCommand (useRearView r) (action inp)) a).
    assert (Hu : (1 - 2 * delta inp) * 1.5 <= velocity u
                 /\ velocity u <= 2.5).
    { unfold u. st_simpl. rewrite Va.
      unfold targetVel, MAX_SPEED, lerp. rewrite Ma, Mr, Mc.
      destruct (flipCommand (useRearView r) (action inp)); rewrite ?Va;
        split; nra. }
    destruct (FrameFacts.applyMovement_keeps M inp u) as (Vm & _).
    cbv zeta in Vm.
    destruct (softBoundary_velocity_quarter (applyMovement M inp u))
      as [B1 B2]; [rewrite Vm; nra|].
    rewrite Vm in B1, B2. split; nra.
  - intro Hcol. destruct (R3 Hcol) as (K1 & _). congruence.
Qed.

(** An instance: a cruising agent put at the middle of the right wall
    segment, for a frame of 1/60 s. *)
Lemma collision_test_frame_witness :
  pathfindingMode (set_position (mkVector3 11.5 0 0) Examples.cruising)
  = false
  /\ collisionDetected
       (useFrame Approx.math (Examples.idleNoTarget 0)
          (set_position (mkVector3 11.5 0 0) Examples.cruising)) = true.
Proof.
  split; [reflexivity|].
  refine (eq_trans (proj1 (collision_test_frame Approx.math
            (Examples.idleNoTarget 0)
            (set_position (mkVector3 11.5 0 0) Examples.cruising)
            eq_refl eq_refl _ _ _)) _).
  - cbn. discriminate.
  - cbn. discriminate.
  - cbn. discriminate.
  - reflexivity.
Defined.

End CooldownSpec.

(** ** The waypoint index *)

Module PathSpec.

Import THREE Agent Spec.

(** What [followPath] does to the index and to pathfinding mode. *)
Lemma followPath_step (M : JS.MathFns) (s : AgentState) :
  let a := fst (followPath M s) in
  let s' := snd (followPath M s) in
  currentPath s' = currentPath s
  /\ (currentPathIndex s' = currentPathIndex s
      \/ currentPathIndex s' = S (currentPathIndex s))
  /\ (a = STOP -> pathfindingMode s' = false
                  /\ (List.length (currentPath s) <= currentPathIndex s')%nat)
  /\ (a <> STOP -> pathfindingMode s' = pathfindingMode s
                   /\ (currentPathIndex s' < List.length (currentPath s))%nat).
Proof.
  cbv zeta. unfold followPath. cbv zeta.
  destruct (Nat.eqb (List.length (currentPath s)) 0
            || Nat.leb (List.length (currentPath s)) (currentPathIndex s))
    eqn:Eend.
  { cbn [fst snd]. st_simpl.
    split; [reflexivity|]. split; [left; reflexivity|].
    split; [|congruence]. intros _. split; [reflexivity|].
    apply orb_true_iff in Eend. destruct Eend as [E|E];
      [apply Nat.eqb_eq in E; lia | apply Nat.leb_le in E; exact E]. }
  apply orb_false_iff in Eend. destruct Eend as [_ Eidx].
  apply Nat.leb_gt in Eidx.
  destruct (JS.ltb _ 1.0).
  - cbn [currentPathIndex set_currentPathIndex].
    destruct (Nat.leb (List.length (currentPath s)) (S (currentPathIndex s)))
      eqn:Elast; cbn [fst snd]; st_simpl.
    + apply Nat.leb_le in Elast.
      split; [reflexivity|]. split; [right; reflexivity|].
      split; [intros _; split; [reflexivity|exact Elast]|congruence].
    + apply Nat.leb_gt in Elast.
      split; [reflexivity|]. split; [right; reflexivity|].
      split; [|intros _; split; [reflexivity|exact Elast]].
      intro E. destruct (FrameFacts.steerTowards_not_STOP M _ _ E).
  - cbn [fst snd].
    split; [reflexivity|]. split; [left; reflexivity|].
    split; [|intros _; split; [reflexivity|exact Eidx]].
    intro E. destruct (FrameFacts.steerTowards_not_STOP M _ _ E).
Qed.

(** The path, the index and the mode the pathfinding block starts
    from. *)
Lemma afterActivation_path (inp : FrameInput) (s : AgentState) :
  let s3 := afterActivation inp s in
  (pathfindingTrigger inp s = true
   /\ pathfindingMode s3 = true /\ currentPathIndex s3 = 0%nat
   /\ List.length (currentPath s3) = 7%nat)
  \/ (pathfindingTrigger inp s = false
      /\ pathfindingMode s3 = pathfindingMode s
      /\ currentPathIndex s3 = currentPathIndex s
      /\ currentPath s3 = currentPath s).
Proof.
  cbv zeta. destruct (pathfindingTrigger inp s) eqn:Etrig.
  - left. split; [reflexivity|].
    pose proof (PathfindingFacts.activatePathfinding_fires inp
                  (fst (trackRotation s)) Etrig) as (Hm & Hp & Hi & _).
    cbv zeta in Hm, Hp, Hi.
    unfold afterActivation.
    destruct (FrameFacts.activateExploration_keeps inp
                (activatePathfinding inp (fst (trackRotation s))))
      as (_ & _ & _ & _ & _ & K1 & K2 & K3 & _).
    cbv zeta in K1, K2, K3. rewrite K1, K2, K3, Hm, Hi, Hp.
    split; [reflexivity|]. split; [reflexivity|].
    apply PathfindingFacts.crossing_path_length.
  - right. split; [reflexivity|].
    destruct (PathfindingFacts.afterActivation_idle inp s Etrig)
      as (_ & _ & _ & _ & _ & K1 & K2 & K3).
    cbv zeta in K1, K2, K3. repeat split; assumption.
Qed.

(** What a frame does to the path and its index, from the state the
    pathfinding block starts from. *)
Lemma useFrame_path (M : JS.MathFns) (inp : FrameInput) (s : AgentState) :
  let s3 := afterActivation inp s in
  let s' := useFrame M inp s in
  currentPath s' = currentPath s3
  /\ (currentPathIndex s' = currentPathIndex s3
      \/ currentPathIndex s' = S (currentPathIndex s3))
  /\ (pathfindingMode s3 = false ->
      pathfindingMode s' = false
      /\ currentPathIndex s' = currentPathIndex s3)
  /\ (pathfindingMode s' = true ->
      (currentPathIndex s' < List.length (currentPath s3))%nat).
Proof.
  cbv zeta.
  destruct (followPath_step M (afterActivation inp s))
    as (F1 & F2 & F3 & F4).
  cbv zeta in F1, F2, F3, F4.
  destruct (CooldownSpec.useFrame_cases M inp s)
    as [(Hm & _ & E)|[(Hm & Ha & _ & E)|(Hm & Ha & _ & E)]];
    cbv zeta in Hm, E; rewrite E; clear E.
  - destruct (FrameFacts.reactiveStep_keeps M inp (snd (trackRotation s))
                (afterActivation inp s)) as (K1 & K2 & K3).
    cbv zeta in K1, K2, K3. rewrite K1, K2, K3.
    split; [reflexivity|]. split; [left; reflexivity|].
    split; [intros _; split; [exact Hm|reflexivity]|congruence].
  - destruct (FrameFacts.moveAlongPath_keeps M inp
                (fst (followPath M (afterActivation inp s)))
                (snd (followPath M (afterActivation inp s))))
      as (_ & _ & _ & _ & K2 & K3).
    cbv zeta in K2, K3. rewrite K2, K3.
    split; [exact F1|]. split; [exact F2|].
    split; [congruence|]. intros _. apply F4. exact Ha.
  - match goal with
    | |- context [reactiveStep M inp ?nd ?t] =>
        destruct (FrameFacts.reactiveStep_keeps M inp nd t) as (K1 & K2 & K3);
        cbv zeta in K1, K2, K3; rewrite K1, K2, K3
    end.
    st_simpl.
    split; [exact F1|]. split; [exact F2|].
    split; [congruence|discriminate].
Qed.

Lemma useFrame_pathIndexInvariant (M : JS.MathFns) (inp : FrameInput)
    (s : AgentState) :
  pathIndexInvariant s -> pathIndexInvariant (useFrame M inp s).
Proof.
  intros (I1 & I2 & I3).
  destruct (useFrame_path M inp s) as (P1 & P2 & P3 & P4).
  cbv zeta in P1, P2, P3, P4.
  destruct (afterActivation_path inp s)
    as [(_ & A1 & A2 & A3)|(_ & A1 & A2 & A3)]; cbv zeta in A1, A2, A3.
  - unfold pathIndexInvariant. rewrite P1, A3.
    split; [rewrite A2 in P2; lia|]. split; [right; reflexivity|].
    intro H. apply P4 in H. rewrite A3 in H. exact H.
  - unfold pathIndexInvariant. rewrite P1, A3.
    split; [|split; [exact I2|]].
    + destruct (pathfindingMode s) eqn:Em.
      * specialize (I3 eq_refl). rewrite A2 in P2. lia.
      * destruct (P3 A1) as [_ E]. rewrite E, A2. exact I1.
    + intro H. apply P4 in H. rewrite A3 in H. exact H.
Qed.

(** X7.  The waypoint index stays inside its path.  In every state an
    agent reaches from its mount, by any run of frames, the index is at
    most the length of the path and strictly inside it while pathfinding
    is on, and the path is empty (none computed yet) or has the seven
    waypoints of a crossing route, never the two of a same-side route;
    and whenever the next frame calls [followPath] (pathfinding is on
    after the activations), the index is strictly inside the path: the
    first guard of [followPath], for an empty path or an index past the
    end, never fires in the frame callback. *)
Theorem path_index_invariant (M : JS.MathFns) (inps : list FrameInput) :
  let s := runFrames M inps initialState in
  pathIndexInvariant s
  /\ forall inp,
       pathfindingMode (afterActivation inp s) = true ->
       (currentPathIndex (afterActivation inp s)
        < List.length (currentPath (afterActivation inp s)))%nat.
Proof.
  cbv zeta.
  assert (H : forall s, pathIndexInvariant s ->
                        pathIndexInvariant (runFrames M inps s)).
  { induction inps as [|inp rest IH]; intros s Hs; [exact Hs|].
    cbn [runFrames]. apply IH. apply useFrame_pathIndexInvariant. exact Hs. }
  assert (H0 : pathIndexInvariant (runFrames M inps initialState)).
  { apply H. unfold pathIndexInvariant. cbn.
    split; [lia|]. split; [left; reflexivity|discriminate]. }
  split; [exact H0|]. intros inp Hon.
  destruct H0 as (_ & _ & I3).
  destruct (afterActivation_path inp (runFrames M inps initialState))
    as [(_ & _ & A2 & A3)|(_ & A1 & A2 & A3)]; cbv zeta in *.
  - rewrite A2, A3. lia.
  - rewrite A2, A3. apply I3. congruence.
Qed.

(** X8.  A frame consumes at most one waypoint.  In a frame that does not
    activate pathfinding the path is left as it is and the waypoint index
    stays or moves on by one, never back; it moves only while pathfinding
    is on.  In the frame that activates pathfinding the index ends at 0
    or 1. *)
Theorem waypoint_index_progress (M : JS.MathFns) (inp : FrameInput)
    (s : AgentState) :
  let s' := useFrame M inp s in
  (pathfindingTrigger inp s = false ->
   currentPath s' = currentPath s
   /\ (currentPathIndex s' = currentPathIndex s
       \/ currentPathIndex s' = S (currentPathIndex s))
   /\ (pathfindingMode s = false ->
       currentPathIndex s' = currentPathIndex s))
  /\ (pathfindingTrigger inp s = true -> (currentPathIndex s' <= 1)%nat).
Proof.
  cbv zeta.
  destruct (useFrame_path M inp s) as (P1 & P2 & P3 & _).
  cbv zeta in P1, P2, P3.
  destruct (afterActivation_path inp s)
    as [(T & A1 & A2 & A3)|(T & A1 & A2 & A3)]; cbv zeta in A1, A2, A3;
    rewrite T; (split; [|intro Ht]); try discriminate.
  - rewrite A2 in P2. lia.
  - intros _. rewrite P1, A3. split; [reflexivity|].
    rewrite A2 in P2. split; [exact P2|].
    intro Hoff. rewrite Hoff in A1. destruct (P3 A1) as [_ E].
    rewrite E. exact A2.
Qed.

(** An instance: a frame of the agent at its mount, which has no path. *)
Lemma waypoint_index_progress_witness :
  pathfindingTrigger (Examples.idleNoTarget 0) initialState = false
  /\ currentPathIndex (useFrame Approx.math (Examples.idleNoTarget 0)
                         initialState) = 0%nat.
Proof.
  split; [reflexivity|].
  exact (proj2 (proj2 (proj1 (waypoint_index_progress Approx.math
           (Examples.idleNoTarget 0) initialState) eq_refl)) eq_refl).
Defined.

(** X9.  A step of travel is a step straight towards the current
    waypoint.  Where [Math.sqrt] returns the distance [d > 0] to the
    waypoint (a number whose square is the squared distance), the frame
    moves the agent along the line to the waypoint by the fraction
    [v * delta / d] of the way, [v] being the velocity [updateMovement]
    has just set: the length of the step is [v * delta], the height is
    untouched, and the heading is set to face the waypoint from the new
    position.  A collision test comes after and does not move the
    agent. *)
Theorem travel_step_towards_waypoint (M : JS.MathFns) (inp : FrameInput)
    (a : ActionType) (s : AgentState) :
  let wp := nth (currentPathIndex s) (currentPath s) (0, 0) in
  let dx := fst wp - x (position s) in
  let dz := snd wp - z (position s) in
  let d := JS.sqrt M (dx * dx + dz * dz) in
  let v := velocity (updateMovement (delta inp)
                       (flipCommand (useRearView s) a) s) in
  let s' := moveAlongPath M inp a s in
  0 < d -> d * d == dx * dx + dz * dz ->
  x (position s') - x (position s) == dx * (v * delta inp / d)
  /\ z (position s') - z (position s) == dz * (v * delta inp / d)
  /\ y (position s') = y (position s)
  /\ (x (position s') - x (position s)) * (x (position s') - x (position s))
     + (z (position s') - z (position s)) * (z (position s') - z (position s))
     == (v * delta inp) * (v * delta inp)
  /\ rotation_y s' = calculateAngleToWaypoint M (position s') wp.
Proof.
  intros wp dx dz d v s' Hd Hd2.
  assert (Hpos : position s'
                 = mkVector3 (x (position s) + dx / d * v * delta inp)
                     (y (position s))
                     (z (position s) + dz / d * v * delta inp)
                 /\ rotation_y s' = calculateAngleToWaypoint M (position s') wp).
  { unfold s', moveAlongPath. cbv zeta.
    match goal with
    | |- context [pathfindingCollision M ?t] =>
        destruct (FrameFacts.pathfindingCollision_keeps M t) as (K1 & K2 & _);
        cbv zeta in K1, K2; rewrite K1, K2; clear K1 K2
    end.
    st_simpl. fold wp. fold dx. fold dz. fold d.
    assert (E : JS.gtb d 0 = true) by (apply JSFacts.gtb_true; exact Hd).
    rewrite E. st_simpl. split; reflexivity. }
  destruct Hpos as [Hpos Hrot]. rewrite Hpos. cbn [x y z].
  set (k := v * delta inp / d).
  assert (Hk : d * k == v * delta inp) by (unfold k; field; lra).
  assert (Ex : x (position s) + dx / d * v * delta inp - x (position s)
               == dx * k) by (unfold k; field; lra).
  assert (Ez : z (position s) + dz / d * v * delta inp - z (position s)
               == dz * k) by (unfold k; field; lra).
  split; [exact Ex|]. split; [exact Ez|]. split; [reflexivity|].
  split; [|rewrite <- Hpos; exact Hrot].
  rewrite Ex, Ez.
  setoid_replace (dx * k * (dx * k) + dz * k * (dz * k))
    with ((dx * dx + dz * dz) * (k * k)) by ring.
  rewrite <- Hd2.
  setoid_replace (d * d * (k * k)) with ((d * k) * (d * k)) by ring.
  rewrite Hk. reflexivity.
Qed.

(** An instance: the last leg of a crossing, half a unit short of the
    waypoint [(0, -10)]; the integer square root is exact there. *)
Lemma travel_step_towards_waypoint_witness :
  0 < JS.sqrt Approx.math
        ((0 - 0) * (0 - 0) + (-10 - -9.5) * (-10 - -9.5))
  /\ y (position (moveAlongPath Approx.math (Examples.idleNoTarget 0) FORWARD
                    Examples.arrivingSouth)) = 0.
Proof.
  split; [reflexivity|].
  refine (proj1 (proj2 (proj2
    (travel_step_towards_waypoint Approx.math (Examples.idleNoTarget 0)
       FORWARD Examples.arrivingSouth _ _)))).
  - reflexivity.
  - reflexivity.
Defined.

End PathSpec.

(** ** The rear view *)

Module ViewSpec.

Import THREE Agent Spec.

Lemma trackRotation_frontView (s : AgentState) :
  frontView s -> frontView (fst (trackRotation s)).
Proof. intro H. exact H. Qed.

Lemma activatePathfinding_frontView (inp : FrameInput) (s : AgentState) :
  frontView s -> frontView (activatePathfinding inp s).
Proof.
  intros [H1 H2]. unfold frontView, activatePathfinding.
  split_tests; split; assumption || reflexivity.
Qed.

Lemma activateExploration_frontView (inp : FrameInput) (s : AgentState) :
  frontView s -> frontView (activateExploration inp s).
Proof.
  intros [H1 H2]. unfold frontView, activateExploration.
  split_tests; split; congruence.
Qed.

Lemma followPath_frontView (M : JS.MathFns) (s : AgentState) :
  frontView s -> frontView (snd (followPath M s)).
Proof.
  intros [H1 H2]. unfold frontView, followPath.
  split_tests; split; congruence.
Qed.

Lemma pathfindingCollision_frontView (M : JS.MathFns) (s : AgentState) :
  frontView s -> frontView (pathfindingCollision M s).
Proof.
  intros [H1 H2]. unfold frontView, pathfindingCollision.
  split_tests; split; congruence.
Qed.

Lemma moveAlongPath_frontView (M : JS.MathFns) (inp : FrameInput)
    (a : ActionType) (s : AgentState) :
  frontView s -> frontView (moveAlongPath M inp a s).
Proof.
  intros [H1 H2]. unfold moveAlongPath. cbv zeta.
  apply pathfindingCollision_frontView.
  unfold frontView. split_tests; split; assumption.
Qed.

Lemma explorationStep_frontView (inp : FrameInput) (s : AgentState) :
  frontView s -> frontView (explorationStep inp s).
Proof.
  intros [H1 H2]. unfold frontView, explorationStep.
  split_tests; split; congruence.
Qed.

Lemma updateCooldowns_frontView (inp : FrameInput) (s : AgentState) :
  frontView s -> frontView (updateCooldowns inp s).
Proof.
  intros [H1 H2]. unfold frontView, updateCooldowns.
  split_tests; js_props; split; try assumption;
    rewrite H2 in *; lra.
Qed.

Lemma collisionResponse_frontView (M : JS.MathFns) (s : AgentState) :
  frontView s -> frontView (collisionResponse M s).
Proof.
  intros [H1 H2]. unfold frontView, collisionResponse.
  split_tests; split; congruence.
Qed.

Lemma accumulateScan_frontView (inp : FrameInput) (nd : Q) (s : AgentState) :
  frontView s -> frontView (accumulateScan inp nd s).
Proof.
  intros [H1 H2]. unfold frontView, accumulateScan.
  split_tests; split; congruence.
Qed.

Lemma applyMovement_frontView (M : JS.MathFns) (inp : FrameInput)
    (s : AgentState) :
  frontView s -> frontView (applyMovement M inp s).
Proof.
  intros [H1 H2]. unfold frontView, applyMovement.
  split_tests; split; congruence.
Qed.

Lemma softBoundary_frontView (s : AgentState) :
  frontView s -> frontView (softBoundary s).
Proof.
  intros [H1 H2]. unfold frontView, softBoundary.
  split_tests; split; congruence.
Qed.

Lemma reactiveStep_frontView (M : JS.MathFns) (inp : FrameInput) (nd : Q)
    (s : AgentState) :
  frontView s -> frontView (reactiveStep M inp nd s).
Proof.
  intro H. unfold reactiveStep. cbv zeta.
  apply softBoundary_frontView, applyMovement_frontView.
  assert (H3 : frontView (accumulateScan inp nd
                 (collisionResponse M
                    (updateCooldowns inp (explorationStep inp s))))).
  { apply accumulateScan_frontView, collisionResponse_frontView,
      updateCooldowns_frontView, explorationStep_frontView. exact H. }
  destruct H3 as [H1 H2]. unfold frontView. st_simpl. split; assumption.
Qed.

Lemma useFrame_frontView (M : JS.MathFns) (inp : FrameInput)
    (s : AgentState) :
  frontView s -> frontView (useFrame M inp s).
Proof.
  intro H.
  assert (H3 : frontView (afterActivation inp s)).
  { unfold afterActivation.
    apply activateExploration_frontView, activatePathfinding_frontView,
      trackRotation_frontView. exact H. }
  destruct (CooldownSpec.useFrame_cases M inp s)
    as [(_ & _ & E)|[(_ & _ & _ & E)|(_ & _ & _ & E)]];
    cbv zeta in E; rewrite E; clear E.
  - apply reactiveStep_frontView. exact H3.
  - apply moveAlongPath_frontView, followPath_frontView. exact H3.
  - apply reactiveStep_frontView.
    destruct (followPath_frontView M _ H3) as [H1 H2].
    unfold frontView. st_simpl. split; assumption.
Qed.

(** X10.  The rear view is never active.  No assignment of the frame
    callback sets [useRearView] (the only one clears it), so in every
    state an agent reaches from its mount the front view is the active
    one and the view-switch cooldown stays at 0: [flipCommand] passes
    every command through unchanged. *)
Theorem rear_view_never_active (M : JS.MathFns) (inps : list FrameInput) :
  let s := runFrames M inps initialState in
  frontView s /\ forall cmd, flipCommand (useRearView s) cmd = cmd.
Proof.
  cbv zeta.
  assert (H : forall s, frontView s -> frontView (runFrames M inps s)).
  { induction inps as [|inp rest IH]; intros s Hs; [exact Hs|].
    cbn [runFrames]. apply IH. apply useFrame_frontView. exact Hs. }
  assert (H0 : frontView (runFrames M inps initialState)).
  { apply H. split; reflexivity. }
  split; [exact H0|]. intro cmd. destruct H0 as [E _]. rewrite E.
  reflexivity.
Qed.

End ViewSpec.

(** ** Entering exploration mode *)

Module ExplorationStart.

Import THREE Agent Spec.

Lemma followPath_exploration (M : JS.MathFns) (s : AgentState) :
  let s' := snd (followPath M s) in
  explorationMode s' = explorationMode s
  /\ explorationPhase s' = explorationPhase s
  /\ explorationStartTime s' = explorationStartTime s.
Proof. unfold followPath. split_tests; repeat split. Qed.

(** The exploration block on a state whose exploration mode is off. *)
Lemma explorationStep_off (inp : FrameInput) (s : AgentState) :
  explorationMode s = false -> explorationStep inp s = s.
Proof. intro H. unfold explorationStep. rewrite H. reflexivity. Qed.

(** The exploration block in the frame that has just entered the mode. *)
Lemma explorationStep_fresh (inp : FrameInput) (s : AgentState) :
  explorationMode s = true -> pathfindingMode s = false ->
  explorationPhase s = 0%nat -> explorationStartTime s = elapsedTime inp ->
  targetPosition inp = None ->
  let s' := explorationStep inp s in
  explorationMode s' = true /\ explorationPhase s' = 0%nat
  /\ explorationStartTime s' = elapsedTime inp.
Proof.
  intros Hm Hp Hph Hst Ht. cbv zeta. unfold explorationStep.
  rewrite Hm, Hp, Hph, Hst, Ht. cbn [andb negb]. cbv zeta. st_simpl.
  assert (E : JS.gtb (elapsedTime inp - elapsedTime inp) 3.0 = false)
    by (apply JSFacts.gtb_false; lra).
  rewrite E. st_simpl. repeat split; assumption.
Qed.

(** The state the pathfinding block starts from, for a frame begun with
    exploration mode off. *)
Lemma afterActivation_exploration (inp : FrameInput) (s : AgentState) :
  explorationMode s = false ->
  let s3 := afterActivation inp s in
  (targetPosition inp = None
   /\ 2 * JS.PI < totalRotation s + Qabs (snd (trackRotation s))
   /\ explorationMode s3 = true /\ explorationPhase s3 = 0%nat
   /\ explorationStartTime s3 = elapsedTime inp)
  \/ (~ (targetPosition inp = None
         /\ 2 * JS.PI < totalRotation s + Qabs (snd (trackRotation s)))
      /\ explorationMode s3 = false).
Proof.
  intro Hoff. cbv zeta. unfold afterActivation.
  destruct (targetPosition inp) as [t|] eqn:Et.
  - right. split; [intros [H _]; discriminate|].
    unfold activateExploration. rewrite Et, andb_false_r.
    unfold activatePathfinding. split_tests; [reflexivity|exact Hoff].
  - assert (Htrig : pathfindingTrigger inp (fst (trackRotation s)) = false).
    { unfold pathfindingTrigger. rewrite Et, andb_false_r. reflexivity. }
    rewrite PathfindingFacts.activatePathfinding_idle by exact Htrig.
    unfold activateExploration. rewrite Et, andb_true_r.
    unfold trackRotation. cbv zeta. st_simpl. rewrite Hoff. cbn [negb].
    rewrite andb_true_r.
    destruct (JS.gtb _ _) eqn:E; st_simpl; js_props.
    + left. repeat split; try reflexivity. exact E.
    + right. split; [|exact Hoff]. intros [_ H]. lra.
Qed.

(** X11.  Entering exploration mode.  A frame that starts with
    exploration mode off ends with it on exactly when no target is
    assigned and the total-rotation accumulator, with this frame's heading
    change added, exceeds [2 * Math.PI]; it then ends in the forward
    phase (phase 0), begun at the frame's clock time.  With a target
    assigned exploration mode is never entered, in any behaviour mode. *)
Theorem exploration_activation (M : JS.MathFns) (inp : FrameInput)
    (s : AgentState) :
  explorationMode s = false ->
  let s' := useFrame M inp s in
  (explorationMode s' = true
   <-> targetPosition inp = None
       /\ 2 * JS.PI
          < totalRotation s
            + Qabs (normalizeAngle (rotation_y s - lastRotationAngle s)))
  /\ (explorationMode s' = true ->
      explorationPhase s' = 0%nat
      /\ explorationStartTime s' = elapsedTime inp).
Proof.
  intro Hoff. cbv zeta.
  change (normalizeAngle (rotation_y s - lastRotationAngle s))
    with (snd (trackRotation s)).
  assert (Hframe :
    exists t,
      explorationMode (useFrame M inp s) = explorationMode (explorationStep inp t)
      /\ explorationPhase (useFrame M inp s)
         = explorationPhase (explorationStep inp t)
      /\ explorationStartTime (useFrame M inp s)
         = explorationStartTime (explorationStep inp t)
      /\ explorationMode t = explorationMode (afterActivation inp s)
      /\ explorationPhase t = explorationPhase (afterActivation inp s)
      /\ explorationStartTime t
         = explorationStartTime (afterActivation inp s)
      /\ pathfindingMode t = false
    \/ (explorationMode (useFrame M inp s)
        = explorationMode (afterActivation inp s)
        /\ explorationPhase (useFrame M inp s)
           = explorationPhase (afterActivation inp s)
        /\ explorationStartTime (useFrame M inp s)
           = explorationStartTime (afterActivation inp s))).
  { destruct (followPath_exploration M (afterActivation inp s))
      as (F1 & F2 & F3). cbv zeta in F1, F2, F3.
    destruct (CooldownSpec.useFrame_cases M inp s)
      as [(Hm & _ & E)|[(Hm & _ & _ & E)|(Hm & _ & _ & E)]];
      cbv zeta in Hm, E; rewrite E; clear E.
    - exists (afterActivation inp s). left.
      destruct (ExplorationSpec.reactiveStep_exploration M inp
                  (snd (trackRotation s)) (afterActivation inp s))
        as (R1 & R2 & R3 & _).
      cbv zeta in R1, R2, R3. repeat split; assumption.
    - exists (afterActivation inp s). right.
      destruct (FrameFacts.moveAlongPath_keeps M inp
                  (fst (followPath M (afterActivation inp s)))
                  (snd (followPath M (afterActivation inp s))))
        as (_ & K1 & K2 & K3 & _).
      cbv zeta in K1, K2, K3. rewrite K1, K2, K3.
      repeat split; assumption.
    - eexists. left.
      match goal with
      | |- context [reactiveStep M inp ?nd ?t] =>
          destruct (ExplorationSpec.reactiveStep_exploration M inp nd t)
            as (R1 & R2 & R3 & _);
          cbv zeta in R1, R2, R3
      end.
      split; [exact R1|]. split; [exact R2|]. split; [exact R3|].
      st_simpl. repeat split; assumption. }
  destruct (afterActivation_exploration inp s Hoff)
    as [(Ht & Hrot & A1 & A2 & A3)|(Hno & A1)]; cbv zeta in *.
  - assert (Hres : explorationMode (useFrame M inp s) = true
                   /\ explorationPhase (useFrame M inp s) = 0%nat
                   /\ explorationStartTime (useFrame M inp s)
                      = elapsedTime inp).
    { destruct Hframe as (t & [(E1 & E2 & E3 & T1 & T2 & T3 & T4)
                              |(E1 & E2 & E3)]).
      - destruct (explorationStep_fresh inp t) as (S1 & S2 & S3);
          try congruence.
        repeat split; congruence.
      - repeat split; congruence. }
    destruct Hres as (R1 & R2 & R3).
    split; [split; [intros _; split; assumption|intros _; exact R1]|].
    intros _. split; assumption.
  - assert (Hres : explorationMode (useFrame M inp s) = false).
    { destruct Hframe as (t & [(E1 & _ & _ & T1 & _)|(E1 & _)]).
      - rewrite E1, explorationStep_off; congruence.
      - congruence. }
    rewrite Hres. split; [|discriminate].
    split; [discriminate|]. intro H. contradiction.
Qed.

(** An instance: the agent after a full scan turn at its mount, in a
    frame with no target; and the same frame with a target, which does
    not enter exploration. *)
Lemma exploration_activation_witness :
  explorationMode Examples.scannedAtOrigin = false
  /\ explorationMode
       (useFrame Approx.math (Examples.idleNoTarget 10)
          Examples.scannedAtOrigin) = true
  /\ explorationMode
       (useFrame Approx.math Examples.scanForGreenCone
          Examples.scannedAtOrigin) = false.
Proof.
  split; [reflexivity|]. split.
  - apply (proj1 (exploration_activation Approx.math
                    (Examples.idleNoTarget 10) Examples.scannedAtOrigin
                    eq_refl)).
    split; [reflexivity|]. vm_compute. reflexivity.
  - destruct (explorationMode
                (useFrame Approx.math Examples.scanForGreenCone
                   Examples.scannedAtOrigin)) eqn:E; [|reflexivity].
    apply (proj1 (exploration_activation Approx.math
                    Examples.scanForGreenCone Examples.scannedAtOrigin
                    eq_refl)) in E.
    destruct E as [E _]. discriminate E.
Defined.

End ExplorationStart.

(** ** The planned route and the walls *)

Module RouteSpec.

Import THREE Agent Spec.

(** A part of the floor on which nothing is hit: more than 0.65 from
    every boundary wall, and either within 2.6 of the middle of the gap
    or outside the band of the central wall. *)
Lemma free_floor (M : JS.MathFns) (p : Vector3) :
  -13.35 <= x p /\ x p <= 13.35 -> -13.35 <= z p /\ z p <= 13.35 ->
  (-2.6 <= x p /\ x p <= 2.6) \/ z p <= -0.65 \/ 0.65 <= z p ->
  checkCollisions M p [] = false.
Proof.
  intros Hx Hz Hfree.
  destruct (checkCollisions M p []) eqn:E; [|reflexivity]. exfalso.
  assert (Hin : insideSoftBoundary p).
  { unfold insideSoftBoundary, boundary, AGENT_RADIUS.
    split; apply Qabs_Qle_condition; lra. }
  apply (ArenaSpec.arena_walls M p Hin) in E.
  destruct (JSFacts.abs_cases (x p)) as [[Sx Ex]|[Sx Ex]];
    destruct (JSFacts.abs_cases (z p)) as [[Sz Ez]|[Sz Ez]];
    rewrite Ex, Ez in E; lra.
Qed.

(** And conversely: a position inside the soft boundary at which nothing
    is hit lies on that part of the floor. *)
Lemma free_position (M : JS.MathFns) (p : Vector3) :
  insideSoftBoundary p -> checkCollisions M p [] = false ->
  (-13.35 <= x p /\ x p <= 13.35) /\ (-13.35 <= z p /\ z p <= 13.35)
  /\ ((-2.6 <= x p /\ x p <= 2.6) \/ z p <= -0.65 \/ 0.65 <= z p).
Proof.
  intros Hin Hfree.
  pose proof (ArenaSpec.arena_walls M p Hin) as Hw.
  assert (Hno : ~ ((Qabs (z p) < 0.65 /\ 2.6 < Qabs (x p))
                   \/ (0.65 <= Qabs (z p)
                       /\ (13.35 < Qabs (x p) \/ 13.35 < Qabs (z p))))).
  { intro H. apply Hw in H. congruence. }
  unfold insideSoftBoundary, boundary, AGENT_RADIUS in Hin.
  destruct Hin as [Hx Hz].
  apply Qabs_Qle_condition in Hx. apply Qabs_Qle_condition in Hz.
  destruct (JSFacts.abs_cases (x p)) as [[Sx Ex]|[Sx Ex]];
    destruct (JSFacts.abs_cases (z p)) as [[Sz Ez]|[Sz Ez]];
    rewrite Ex, Ez in Hno; lra.
Qed.

(** The four routes, with their constants evaluated. *)
Lemma route_cases (startX startZ : Q) (targetSide : Side) :
  let sx := JS.min (JS.max startX (- BOUNDARY)) BOUNDARY in
  findPathThroughGap startX startZ targetSide
  = (startX, startZ)
    :: match determineAgentSide startZ, targetSide with
       | north, north => [ (0, 10) ]
       | south, south => [ (0, -10) ]
       | north, south =>
           [ (0, 5); (0, 2); (0, 0); (0, -2); (0, -8); (sx, -10) ]
       | south, north =>
           [ (0, -5); (0, -2); (0, 0); (0, 2); (0, 8); (sx, 10) ]
       end.
Proof.
  unfold findPathThroughGap.
  destruct (determineAgentSide startZ), targetSide; reflexivity.
Qed.

(** The leg from a start position at which nothing is hit to a point of
    the middle line on the same half. *)
Lemma first_leg_free (M : JS.MathFns) (startX startZ c t : Q) :
  insideSoftBoundary (mkVector3 startX 0 startZ) ->
  checkCollisions M (mkVector3 startX 0 startZ) [] = false ->
  0 <= t -> t <= 1 ->
  (0 <= startZ /\ 0.65 <= c /\ c <= 13.35)
  \/ (startZ <= 0 /\ c <= -0.65 /\ -13.35 <= c) ->
  checkCollisions M (pointOnLeg ((startX, startZ), (0, c)) t) [] = false.
Proof.
  intros Hin Hfree Ht0 Ht1 Hside.
  destruct (free_position M _ Hin Hfree) as (Hx & Hz & Hf).
  cbn [x z] in Hx, Hz, Hf.
  apply free_floor; unfold pointOnLeg; cbn [x z fst snd].
  - apply MovementFacts.lerp_between; lra.
  - apply MovementFacts.lerp_between; lra.
  - destruct Hf as [Hf|[Hf|Hf]].
    + left. apply MovementFacts.lerp_between; lra.
    + destruct Hside as [Hs|Hs].
      * left.
        assert (Hgap : -2.6 <= startX /\ startX <= 2.6).
        { destruct (Qlt_le_dec startZ 0.65) as [H|H]; [|lra].
          destruct (free_position M _ Hin Hfree) as (_ & _ & [K|[K|K]]);
            cbn [x z] in K; lra. }
        apply MovementFacts.lerp_between; lra.
      * right. left.
        destruct (MovementFacts.lerp_between startZ c t (-13.35) (-0.65));
          lra.
    + destruct Hside as [Hs|Hs].
      * right. right.
        destruct (MovementFacts.lerp_between startZ c t 0.65 13.35); lra.
      * lra.
Qed.

(** X12.  The planned route keeps clear of the walls.  For every start
    position and either target side, every waypoint of
    [findPathThroughGap] after the first (the start position itself) is a
    position at which [checkCollisions] reports no collision, and so is
    every point of the straight legs between them: a crossing route
    passes the central wall through the middle of the gap.  When the
    start position is inside the soft boundary and itself free of
    collision, the same holds of the first leg, and so of every point of
    the whole route. *)
Theorem route_clear_of_walls (M : JS.MathFns) (startX startZ : Q)
    (targetSide : Side) :
  let route := findPathThroughGap startX startZ targetSide in
  (forall w, In w (tl route) ->
             checkCollisions M (mkVector3 (fst w) 0 (snd w)) [] = false)
  /\ (forall leg t, In leg (legs (tl route)) -> 0 <= t -> t <= 1 ->
                    checkCollisions M (pointOnLeg leg t) [] = false)
  /\ (insideSoftBoundary (mkVector3 startX 0 startZ) ->
      checkCollisions M (mkVector3 startX 0 startZ) [] = false ->
      forall leg t, In leg (legs route) -> 0 <= t -> t <= 1 ->
                    checkCollisions M (pointOnLeg leg t) [] = false).
Proof.
  cbv zeta. rewrite route_cases. cbv zeta. cbn [tl].
  destruct (PathfindingFacts.spreadX_within startX) as [S1 S2].
  unfold BOUNDARY in *.
  set (sx := JS.min (JS.max startX (- (12))) 12) in *. clearbody sx.
  assert (Hrest : forall leg t,
            In leg (legs match determineAgentSide startZ, targetSide with
                        | north, north => [ (0, 10) ]
                        | south, south => [ (0, -10) ]
                        | north, south =>
                            [ (0, 5); (0, 2); (0, 0); (0, -2); (0, -8);
                              (sx, -10) ]
                        | south, north =>
                            [ (0, -5); (0, -2); (0, 0); (0, 2); (0, 8);
                              (sx, 10) ]
                        end) ->
            0 <= t -> t <= 1 ->
            checkCollisions M (pointOnLeg leg t) [] = false).
  { intros leg t Hin Ht0 Ht1.
    destruct (determineAgentSide startZ), targetSide;
      cbn [legs tl combine In] in Hin;
      repeat match goal with
      | H : _ \/ _ |- _ => destruct H as [H|H]
      | H : False |- _ => destruct H
      end;
      subst leg; apply free_floor; unfold pointOnLeg, lerp;
      cbn [x z fst snd]; try lra; nra. }
  split; [|split; [exact Hrest|]].
  - intros w Hin.
    destruct (determineAgentSide startZ), targetSide;
      cbn [In] in Hin;
      repeat match goal with
      | H : _ \/ _ |- _ => destruct H as [H|H]
      | H : False |- _ => destruct H
      end;
      subst w; apply free_floor; cbn [x z fst snd]; lra.
  - intros Hin Hfree leg t Hleg Ht0 Ht1.
    assert (Hside : determineAgentSide startZ = north /\ 0 <= startZ
                    \/ determineAgentSide startZ = south /\ startZ <= 0).
    { unfold determineAgentSide.
      destruct (JS.geb startZ 0) eqn:E; js_props; [left|right];
        split; try reflexivity; lra. }
    assert (Hfirst : forall c,
              (determineAgentSide startZ = north -> 0.65 <= c /\ c <= 13.35) ->
              (determineAgentSide startZ = south
               -> c <= -0.65 /\ -13.35 <= c) ->
              checkCollisions M (pointOnLeg ((startX, startZ), (0, c)) t) []
              = false).
    { intros c Hn Hs. apply first_leg_free; try assumption.
      destruct Hside as [[E Hz]|[E Hz]]; [left|right];
        (split; [exact Hz|]);
        [apply Hn; exact E|apply Hs; exact E]. }
    unfold legs in Hleg. cbn [tl] in Hleg.
    destruct (determineAgentSide startZ) eqn:Eside, targetSide;
      cbn [combine] in Hleg;
      destruct Hleg as [Hleg|Hleg];
      try (subst leg; apply Hfirst; intro K;
           first [discriminate K | lra]);
      apply Hrest; try assumption; rewrite ?Eside;
      unfold legs; cbn [tl combine]; exact Hleg.
Qed.

(** An instance: half way along the leg that passes the gap, on the
    route from the Red Cube's position to the south. *)
Lemma route_clear_of_walls_witness :
  In ((0, 2), (0, 0)) (legs (findPathThroughGap 5 5 south))
  /\ checkCollisions Approx.math (pointOnLeg ((0, 2), (0, 0)) (1 # 2)) []
     = false.
Proof.
  assert (H : In ((0, 2), (0, 0)) (legs (findPathThroughGap 5 5 south))).
  { right. right. left. reflexivity. }
  split; [exact H|].
  refine (proj2 (proj2 (route_clear_of_walls Approx.math 5 5 south))
            _ _ ((0, 2), (0, 0)) (1 # 2) H _ _).
  - split; cbn [x z]; apply Qabs_Qle_condition;
      unfold boundary, AGENT_RADIUS; lra.
  - vm_compute. reflexivity.
  - lra.
  - lra.
Defined.

(** X13.  The planner is symmetric under reflection through the line of
    the central wall.  For a start position off that line, the route from
    the mirrored start to the mirrored side is the mirror image of the
    route, waypoint by waypoint. *)
Theorem route_mirror_symmetry (startX startZ : Q) (targetSide : Side) :
  ~ startZ == 0 ->
  findPathThroughGap startX (- startZ) (oppositeSide targetSide)
  = map mirror (findPathThroughGap startX startZ targetSide).
Proof.
  intro Hz. unfold findPathThroughGap, determineAgentSide.
  destruct (JS.geb startZ 0) eqn:E1; destruct (JS.geb (- startZ) 0) eqn:E2;
    js_props; try (exfalso; apply Hz; lra); try lra;
    destruct targetSide; reflexivity.
Qed.

(** An instance: from the Red Cube's side. *)
Lemma route_mirror_symmetry_witness :
  ~ 5 == 0
  /\ findPathThroughGap 5 (- (5)) north
     = map mirror (findPathThroughGap 5 5 south).
Proof.
  assert (H : ~ 5 == 0) by (intro H; discriminate H).
  split; [exact H|].
  exact (route_mirror_symmetry 5 5 south H).
Defined.

(** On the line itself the symmetry breaks: depth 0 counts as north, and
    the mirror image of the crossing route from there is not the route
    the planner gives for the mirrored request. *)
Lemma route_mirror_breaks_on_the_line (startX : Q) :
  findPathThroughGap startX (- 0) (oppositeSide south)
  <> map mirror (findPathThroughGap startX 0 south).
Proof. discriminate. Qed.

End RouteSpec.

(** ** The response to a constant command *)

Module ResponseSpec.

Import THREE Agent Spec.

Lemma iter_pathfindingMode (delta : Q) (a : ActionType) (n : nat)
    (s : AgentState) :
  pathfindingMode (Nat.iter n (updateMovement delta a) s) = pathfindingMode s.
Proof.
  induction n as [|n IH]; [reflexivity|].
  rewrite Nat.iter_succ, MovementFacts.updateMovement_pathfindingMode.
  exact IH.
Qed.

Lemma power_succ (q : Q) (n : nat) :
  q ^ Z.of_nat (S n) == q * q ^ Z.of_nat n.
Proof.
  rewrite Nat2Z.inj_succ, <- Z.add_1_r.
  rewrite Qpower_plus' by lia. simpl (_ ^ 1). ring.
Qed.

(** X14.  The response of [updateMovement] to a command that is held.
    After [n] ticks of frame time [delta] under the same command, the
    angular velocity differs from the command's target rate by the
    initial difference times [(1 - 4 * delta) ^ n]; the forward velocity
    differs from the speed limit of the mode by the initial difference
    times [(1 - 2 * delta) ^ n] under FORWARD, is the initial velocity
    times [(1 - delta) ^ n] under LEFT and RIGHT (whose target is half
    the current velocity), and the initial velocity times
    [(1 - 2 * delta) ^ n] under the other commands.  Nothing is clamped:
    the rates are approached, and only for [delta < 1/2]
    (angular) and [delta < 1] (forward) do the differences shrink. *)
Theorem held_command_response (delta : Q) (a : ActionType) (n : nat)
    (s : AgentState) :
  let s' := Nat.iter n (updateMovement delta a) s in
  rotationVelocity s' - targetRot a
  == (rotationVelocity s - targetRot a) * (1 - 4 * delta) ^ Z.of_nat n
  /\ match a with
     | FORWARD =>
         velocity s' - MAX_SPEED (pathfindingMode s)
         == (velocity s - MAX_SPEED (pathfindingMode s))
            * (1 - 2 * delta) ^ Z.of_nat n
     | LEFT | RIGHT => velocity s' == velocity s * (1 - delta) ^ Z.of_nat n
     | _ => velocity s' == velocity s * (1 - 2 * delta) ^ Z.of_nat n
     end.
Proof.
  cbv zeta. induction n as [|n [IHr IHv]].
  - simpl. split; [lra|]. destruct a; lra.
  - rewrite Nat.iter_succ.
    rewrite MovementFacts.updateMovement_rotationVelocity,
      MovementFacts.updateMovement_velocity.
    unfold lerp, targetVel. rewrite iter_pathfindingMode.
    rewrite !power_succ.
    set (r := rotationVelocity (Nat.iter n (updateMovement delta a) s)) in *.
    set (v := velocity (Nat.iter n (updateMovement delta a) s)) in *.
    set (pr := (1 - 4 * delta) ^ Z.of_nat n) in *.
    split.
    + clearbody r v pr.
      setoid_replace ((1 - delta * 4) * r + delta * 4 * targetRot a
                      - targetRot a)
        with ((1 - 4 * delta) * (r - targetRot a)) by ring.
      rewrite IHr. ring.
    + clearbody r v pr.
      destruct a; cbv beta iota in IHv |- *; rewrite ?power_succ;
        match goal with
        | |- context [?q ^ Z.of_nat n] =>
            set (pv := q ^ Z.of_nat n) in *; clearbody pv
        end.
      * setoid_replace ((1 - delta * 2) * v + delta * 2 * 0)
          with ((1 - 2 * delta) * v) by ring.
        rewrite IHv. ring.
      * setoid_replace ((1 - delta * 2) * v
                        + delta * 2 * MAX_SPEED (pathfindingMode s)
                        - MAX_SPEED (pathfindingMode s))
          with ((1 - 2 * delta) * (v - MAX_SPEED (pathfindingMode s)))
          by ring.
        rewrite IHv. ring.
      * setoid_replace ((1 - delta * 2) * v + delta * 2 * (v * 0.5))
          with ((1 - delta) * v) by ring.
        rewrite IHv. ring.
      * setoid_replace ((1 - delta * 2) * v + delta * 2 * (v * 0.5))
          with ((1 - delta) * v) by ring.
        rewrite IHv. ring.
      * setoid_replace ((1 - delta * 2) * v + delta * 2 * 0)
          with ((1 - 2 * delta) * v) by ring.
        rewrite IHv. ring.
      * setoid_replace ((1 - delta * 2) * v + delta * 2 * 0)
          with ((1 - 2 * delta) * v) by ring.
        rewrite IHv. ring.
Qed.

End ResponseSpec.

(** ** The vision service client, when the service answers *)

Module VisionPass.

Import Sam2.

(** X15.  A successful answer is passed through.  When the response has a
    success status and a JSON document other than [null] as body (an
    object, for a conforming service), the stereo call returns the seven
    properties of the document as they are, and the monocular call
    returns the first five and leaves distance and angle undefined; each
    has issued exactly one request.  A property the document lacks is
    [undefined] in the result. *)
Theorem vision_success_passthrough (response : Response)
    (data : JSON.Json) (rest : Net) :
  ok response = true -> body response = Json data -> data <> JNull ->
  getNavCommandStereo (Responded response :: rest)
  = (Normal (mkVisionResponse (field data "action") (field data "reasoning")
               (field data "targetVisible") (field data "confidence")
               (field data "boundingBox") (field data "distance")
               (field data "angle")), rest)
  /\ getMonocularNavCommand (Responded response :: rest)
     = (Normal (mkVisionResponse (field data "action")
                  (field data "reasoning") (field data "targetVisible")
                  (field data "confidence") (field data "boundingBox")
                  None None), rest)
  /\ (forall members key,
        data = JObject members -> field data key = lookup key members).
Proof.
  intros Hok Hbody Hdata. split; [|split].
  - apply (VisionSpec.getNavCommandStereo_reads response data rest);
      assumption.
  - apply VisionSpec.getMonocularNavCommand_reads; assumption.
  - intros members key ->. reflexivity.
Qed.

(** An instance: the stereo endpoint reports the target ahead at 3.2 m. *)
Lemma vision_success_passthrough_witness :
  fst (getNavCommandStereo
         [Responded
            (mkResponse true 200 "OK"
               (Json (JObject [ ("action", JString "FORWARD");
                                ("reasoning", JString "Target ahead");
                                ("targetVisible", JBool true);
                                ("confidence", JNumber 0.7);
                                ("distance", JNumber 3.2);
                                ("angle", JNumber 0) ]%string)))])
  = Normal (conforming FORWARD "Target ahead" true (Some 0.7) None
              (Some 3.2) (Some 0)).
Proof.
  exact (f_equal fst (proj1
    (vision_success_passthrough
       (mkResponse true 200 "OK"
          (Json (JObject [ ("action", JString "FORWARD");
                           ("reasoning", JString "Target ahead");
                           ("targetVisible", JBool true);
                           ("confidence", JNumber 0.7);
                           ("distance", JNumber 3.2);
                           ("angle", JNumber 0) ]%string)))
       _ [] eq_refl eq_refl ltac:(discriminate)))).
Defined.

(** X16.  How many requests a call issues.  On every script the monocular
    call consumes exactly the next outcome, and nothing when the script
    is exhausted; the stereo call consumes the next outcome, and the one
    after it exactly when the first request failed: one request, or two,
    never more. *)
Theorem vision_requests_issued (net : Net) :
  snd (getMonocularNavCommand net) = tl net
  /\ snd (getNavCommandStereo net)
     = match net with
       | [] => []
       | r :: rest => if failed r then tl rest else rest
       end.
Proof.
  assert (Hmono : forall n, snd (getMonocularNavCommand n) = tl n).
  { intro n. destruct n as [|r rest]; [reflexivity|].
    destruct (failed r) eqn:E.
    - destruct (VisionSpec.getMonocularNavCommand_failed r rest E)
        as (e & H).
      rewrite H. reflexivity.
    - destruct r as [e|r]; [discriminate|].
      unfold failed in E. apply orb_false_iff in E. destruct E as [E1 E2].
      apply negb_false_iff in E1.
      destruct (body r) as [e|data] eqn:Eb; [discriminate|].
      rewrite (VisionSpec.getMonocularNavCommand_reads r data rest E1 Eb);
        [reflexivity|intros ->; discriminate]. }
  split; [apply Hmono|].
  destruct net as [|r rest].
  - reflexivity.
  - destruct (failed r) eqn:E.
    + rewrite (VisionSpec.getNavCommandStereo_failed r rest E). apply Hmono.
    + destruct r as [e|r]; [discriminate|].
      unfold failed in E. apply orb_false_iff in E. destruct E as [E1 E2].
      apply negb_false_iff in E1.
      destruct (body r) as [e|data] eqn:Eb; [discriminate|].
      rewrite (VisionSpec.getNavCommandStereo_reads r data rest E1 Eb);
        [reflexivity|intros ->; discriminate].
Qed.

End VisionPass.

(** ** The mission sequencer and the other handlers of [App] *)

Module SessionSpec.

Import App.

(** [k] advances inside a mission. *)
Lemma advance_inside (k : nat) (s : AppState) (m : ChainedMission) :
  currentMission s = Some m ->
  (current_step m + k < List.length (steps m))%nat -> (0 < k)%nat ->
  currentMission (Nat.iter k handleNextStep s)
  = Some (mkChainedMission (id m) (steps m) (current_step m + k) active)
  /\ isRunning (Nat.iter k handleNextStep s) = isRunning s
  /\ (forall st, nth_error (steps m) (current_step m + k) = Some st ->
                 selectedTarget (Nat.iter k handleNextStep s) = target st).
Proof.
  intros Hm. induction k as [|k IH]; intros Hlt Hk; [lia|].
  rewrite Nat.iter_succ.
  destruct k as [|k'].
  - cbn [Nat.iter nat_rect]. unfold handleNextStep, handleNextStepOf.
    rewrite Hm. cbv zeta.
    replace (current_step m + 1)%nat with (current_step m + 1)%nat
      by reflexivity.
    assert (E : Nat.ltb (current_step m + 1) (List.length (steps m)) = true)
      by (apply Nat.ltb_lt; lia).
    rewrite E. cbn [currentMission isRunning selectedTarget].
    split; [reflexivity|]. split; [reflexivity|].
    intros st Hst. rewrite Hst. reflexivity.
  - destruct IH as (I1 & I2 & _); [lia|lia|].
    set (sk := Nat.iter (S k') handleNextStep s) in *.
    unfold handleNextStep, handleNextStepOf. rewrite I1. cbv zeta.
    cbn [current_step steps id].
    assert (E : Nat.ltb (current_step m + S k' + 1) (List.length (steps m))
                = true) by (apply Nat.ltb_lt; lia).
    rewrite E. cbn [currentMission isRunning selectedTarget].
    replace (current_step m + S k' + 1)%nat
      with (current_step m + S (S k'))%nat by lia.
    split; [reflexivity|]. split; [exact I2|].
    intros st Hst. rewrite Hst. reflexivity.
Qed.

(** Once the last step is the current one, every further call leaves the
    mission completed and the simulation stopped. *)
Lemma advance_at_end (k : nat) (s : AppState) (m : ChainedMission) :
  currentMission s = Some m ->
  (List.length (steps m) <= current_step m + 1)%nat -> (0 < k)%nat ->
  currentMission (Nat.iter k handleNextStep s)
  = Some (mkChainedMission (id m) (steps m) (current_step m) completed)
  /\ isRunning (Nat.iter k handleNextStep s) = false
  /\ selectedTarget (Nat.iter k handleNextStep s) = selectedTarget s.
Proof.
  intros Hm Hend. induction k as [|k IH]; intro Hk; [lia|].
  rewrite Nat.iter_succ.
  assert (E : Nat.ltb (current_step m + 1) (List.length (steps m)) = false)
    by (apply Nat.ltb_ge; lia).
  destruct k as [|k'].
  - cbn [Nat.iter nat_rect]. unfold handleNextStep, handleNextStepOf.
    rewrite Hm. cbv zeta.
    rewrite E. cbn. auto.
  - destruct IH as (I1 & I2 & I3); [lia|].
    set (sk := Nat.iter (S k') handleNextStep s) in *.
    unfold handleNextStep, handleNextStepOf. rewrite I1. cbv zeta.
    cbn [current_step steps id]. rewrite E. cbn. auto.
Qed.

Lemma iter_add {A : Type} (f : A -> A) (n m : nat) (a : A) :
  Nat.iter (n + m) f a = Nat.iter n f (Nat.iter m f a).
Proof.
  induction n as [|n IH]; [reflexivity|].
  cbn [Nat.add]. rewrite !Nat.iter_succ, IH. reflexivity.
Qed.

(** X17.  A mission runs through its steps in order and then completes.
    After a mission with at least one step has been submitted (the rest
    of [handleMissionSubmit] running in the render of the cells), [k]
    calls of [handleNextStep] leave the mission at step [k], with that
    step's target selected and the simulation running, as long as [k] is
    less than the number of steps (status pending before the first call,
    active after); from the call whose number is the number of steps on,
    the mission stays completed at its last step, with that step's target
    still selected and the simulation stopped.  The step counter never
    reaches the number of steps. *)
Theorem mission_runs_to_completion (mid : string) (sts : list MissionStep)
    (s : AppState) (k : nat) :
  sts <> [] ->
  let s1 := resumeSubmit s
              (Parsed (mkChainedMission mid sts 0 pending)) s in
  let sk := Nat.iter k handleNextStep s1 in
  ((k < List.length sts)%nat ->
   currentMission sk
   = Some (mkChainedMission mid sts k
             (if Nat.eqb k 0 then pending else active))
   /\ isRunning sk = true
   /\ forall st, nth_error sts k = Some st -> selectedTarget sk = target st)
  /\ ((List.length sts <= k)%nat ->
      currentMission sk
      = Some (mkChainedMission mid sts (List.length sts - 1) completed)
      /\ isRunning sk = false
      /\ forall st, nth_error sts (List.length sts - 1) = Some st ->
                    selectedTarget sk = target st).
Proof.
  intros Hsts s1 sk.
  destruct sts as [|firstStep rest] eqn:Ests; [congruence|].
  rewrite <- Ests in *.
  assert (H1 : currentMission s1 = Some (mkChainedMission mid sts 0 pending)
               /\ isRunning s1 = true
               /\ selectedTarget s1 = target firstStep).
  { unfold s1, resumeSubmit. cbn [steps]. rewrite Ests.
    destruct (isRunning s) eqn:Er; cbn; auto. }
  destruct H1 as (M1 & R1 & T1).
  split.
  - intro Hk. destruct k as [|k'].
    + unfold sk. cbn [Nat.iter nat_rect Nat.eqb].
      split; [exact M1|]. split; [exact R1|].
      intros st Hst. rewrite Ests in Hst. cbn in Hst.
      injection Hst as <-. exact T1.
    + destruct (advance_inside (S k') s1 _ M1) as (A1 & A2 & A3);
        cbn [current_step steps id] in *; [lia|lia|].
      unfold sk. cbn [Nat.eqb].
      split; [exact A1|]. split; [congruence|exact A3].
  - intro Hk.
    set (n := (List.length sts - 1)%nat).
    assert (Hn : (n < List.length sts)%nat)
      by (unfold n; rewrite Ests; cbn; lia).
    assert (Hsplit : (k = (k - n) + n)%nat) by lia.
    unfold sk. rewrite Hsplit, iter_add.
    set (sn := Nat.iter n handleNextStep s1).
    assert (Hsn : exists st0, currentMission sn
                              = Some (mkChainedMission mid sts n st0)
                  /\ forall st, nth_error sts n = Some st ->
                                selectedTarget sn = target st).
    { destruct n as [|n'] eqn:En.
      - exists pending. unfold sn. cbn [Nat.iter nat_rect].
        split; [exact M1|]. intros st Hst. rewrite Ests in Hst.
        cbn in Hst. injection Hst as <-. exact T1.
      - destruct (advance_inside (S n') s1 _ M1) as (A1 & _ & A3);
          cbn [current_step steps id] in *; [lia|lia|].
        exists active. split; [exact A1|exact A3]. }
    destruct Hsn as (st0 & Msn & Tsn).
    destruct (advance_at_end (k - n) sn _ Msn) as (E1 & E2 & E3);
      cbn [current_step steps id] in *; [unfold n; lia|unfold n; lia|].
    split; [exact E1|]. split; [exact E2|].
    intros st Hst. rewrite E3. apply Tsn. exact Hst.
Qed.

(** An instance: a mission of two steps, after one and after two
    advances. *)
Lemma mission_runs_to_completion_witness :
  [Examples.redCubeStep; Llm.stepFor "Green Cone"%string] <> []
  /\ selectedTarget
       (Nat.iter 1 handleNextStep
          (resumeSubmit initialApp
             (Parsed (mkChainedMission "mission_1"%string
                        [Examples.redCubeStep; Llm.stepFor "Green Cone"%string]
                        0 pending))
             initialApp)) = "Green Cone"%string
  /\ isRunning
       (Nat.iter 2 handleNextStep
          (resumeSubmit initialApp
             (Parsed (mkChainedMission "mission_1"%string
                        [Examples.redCubeStep; Llm.stepFor "Green Cone"%string]
                        0 pending))
             initialApp)) = false.
Proof.
  assert (H : [Examples.redCubeStep; Llm.stepFor "Green Cone"%string] <> [])
    by discriminate.
  split; [exact H|]. split.
  - refine (proj2 (proj2 (proj1 (mission_runs_to_completion
              "mission_1"%string _ initialApp 1 H) _)) _ eq_refl).
    cbn. lia.
  - refine (proj1 (proj2 (proj2 (mission_runs_to_completion
              "mission_1"%string _ initialApp 2 H) _))).
    cbn. lia.
Defined.

(** When distance and angle are both present and one of them is not a
    number, building the log line throws. *)
Lemma logResult_throws (C : Conversions) (result : VisionResponse) :
  nullish (vr_distance result) = false ->
  nullish (vr_angle result) = false ->
  isNumber (vr_distance result) && isNumber (vr_angle result) = false ->
  exists e, logResult C result = Sam2.Throw e.
Proof.
  intros Hd Ha Hn. unfold logResult. rewrite Hd, Ha. cbn [negb andb].
  destruct (interpolate C (vr_reasoning result)) as [[]|e];
    cbn [andThen]; [|eauto].
  unfold toFixed.
  destruct (isNumber (vr_distance result)); cbn [andThen]; [|eauto].
  cbn [andb] in Hn. rewrite Hn. cbn [andThen]. eauto.
Qed.

(** X18.  Single-target mode.  With no mission, while the simulation runs
    and no request is in flight, the capture handler ends with the result
    stored, the in-flight flag clear again, no timer set and the selected
    target untouched.  When none of its statements throws, the action
    becomes the result's action and the simulation stops exactly when the
    test of line 86 succeeds; for a result of the declared types that is
    exactly a target lock: STOP with the target visible and a confidence
    above 0.8.  When a statement throws, as [distance.toFixed] does for a
    result in which distance and angle are both present and one of them
    is not a number, the [catch] branch sets the action to SCAN and the
    simulation keeps running, whatever the result reports. *)
Theorem single_target_lock (C : Conversions) (s : AppState)
    (net : Sam2.Net) :
  currentMission s = None -> isRunning s = true -> isProcessing s = false ->
  exists result,
    fst (Sam2.getNavCommandStereo net) = Sam2.Normal result
    /\ handleVisionCapture C s net
       = ((match andThen (logResult C result)
                   (fun _ => targetReached C result) with
           | Sam2.Normal lock =>
               mkAppState (selectedTarget s) (negb lock)
                 (vr_action result) (Some result) None false
           | Sam2.Throw _ =>
               mkAppState (selectedTarget s) true (ofAction SCAN)
                 (Some result) None false
           end, false),
          snd (Sam2.getNavCommandStereo net))
    /\ (forall a reasoning visible conf box dist ang,
          result = conforming a reasoning visible conf box dist ang ->
          let s' := fst (fst (handleVisionCapture C s net)) in
          agentAction s' = ofAction a
          /\ (isRunning s' = false
              <-> a = STOP /\ visible = true
                  /\ exists c, conf = Some c /\ 0.8 < c))
    /\ (nullish (vr_distance result) = false ->
        nullish (vr_angle result) = false ->
        isNumber (vr_distance result) && isNumber (vr_angle result) = false ->
        let s' := fst (fst (handleVisionCapture C s net)) in
        agentAction s' = ofAction SCAN /\ isRunning s' = true).
Proof.
  intros Hm Hr Hp.
  destruct (VisionSpec.getNavCommandStereo_total net) as (v & net' & E).
  exists v. rewrite E. cbn [fst snd]. split; [reflexivity|].
  assert (Hcap : handleVisionCapture C s net
                 = ((match andThen (logResult C v)
                             (fun _ => targetReached C v) with
                     | Sam2.Normal lock =>
                         mkAppState (selectedTarget s) (negb lock)
                           (vr_action v) (Some v) None false
                     | Sam2.Throw _ =>
                         mkAppState (selectedTarget s) true (ofAction SCAN)
                           (Some v) None false
                     end, false), net')).
  { unfold handleVisionCapture, captureRefused.
    rewrite Hp, Hr. cbn [orb negb]. rewrite E.
    unfold resumeCapture, applyVisionResult, set_isProcessing, visionError.
    cbn [currentMission selectedTarget isRunning agentAction visionData
         isProcessing].
    rewrite Hm.
    destruct (andThen (logResult C v) (fun _ => targetReached C v))
      as [[|]|e]; cbn; rewrite ?Hr; reflexivity. }
  split; [exact Hcap|]. rewrite Hcap. cbn [fst]. split.
  - intros a reasoning visible conf box dist ang ->. cbv zeta.
    rewrite (MissionSpec.logResult_conforming C a reasoning visible conf box
               dist ang).
    cbn [andThen].
    destruct (MissionSpec.targetReached_conforming C a reasoning visible
                conf box dist ang) as [[b Hb] Hiff].
    rewrite Hb in *. cbn [agentAction isRunning].
    split; [reflexivity|].
    rewrite <- Hiff. destruct b; cbn [negb]; split; congruence.
  - intros Hd Ha Hn. cbv zeta.
    destruct (logResult_throws C v Hd Ha Hn) as (e & He).
    rewrite He. cbn [andThen agentAction isRunning]. auto.
Qed.

(** An instance: the service reports STOP at confidence 0.85. *)
Lemma single_target_lock_witness :
  currentMission initialApp = None
  /\ exists result,
       handleVisionCapture Examples.plainConversions
         (toggleSimulation initialApp) (Examples.stopAnswer 0.85)
       = ((match andThen (logResult Examples.plainConversions result)
                   (fun _ => targetReached Examples.plainConversions result)
           with
           | Sam2.Normal lock =>
               mkAppState "Red Cube"%string (negb lock)
                 (vr_action result) (Some result) None false
           | Sam2.Throw _ =>
               mkAppState "Red Cube"%string true (ofAction SCAN)
                 (Some result) None false
           end, false), []).
Proof.
  split; [reflexivity|].
  destruct (single_target_lock Examples.plainConversions
              (toggleSimulation initialApp) (Examples.stopAnswer 0.85)
              eq_refl eq_refl eq_refl) as (result & _ & E & _).
  exists result. exact E.
Defined.

Lemma firstn_firstn_cons {A : Type} (n : nat) (a : A) (l : list A) :
  firstn (S n) (a :: firstn (S n) l) = firstn (S n) (a :: l).
Proof.
  rewrite !firstn_cons. f_equal.
  rewrite firstn_firstn. f_equal. lia.
Qed.

(** X19.  The log keeps the latest fifty entries.  After any sequence of
    [addLog] calls on the empty log the log holds the entries added,
    newest first, cut after the fiftieth: its length is the number of
    calls, capped at 50. *)
Theorem log_keeps_latest_fifty (calls : list LogEntry) :
  let logs :=
    fold_left (fun prev e => addLog (log_id e) (log_timestamp e)
                               (log_message e) (log_type e) prev)
      calls [] in
  logs = firstn 50 (rev calls)
  /\ List.length logs = Nat.min 50 (List.length calls).
Proof.
  cbv zeta.
  assert (H : fold_left (fun prev e => addLog (log_id e) (log_timestamp e)
                                         (log_message e) (log_type e) prev)
                calls [] = firstn 50 (rev calls)).
  { induction calls as [|e rest IH] using rev_ind; [reflexivity|].
    rewrite fold_left_app. cbn [fold_left]. rewrite IH.
    rewrite rev_app_distr. cbn [rev app]. unfold addLog.
    destruct e as [i t m ty]. cbn [log_id log_timestamp log_message log_type].
    apply firstn_firstn_cons. }
  split; [exact H|]. rewrite H, length_firstn, length_rev. reflexivity.
Qed.

End SessionSpec.

(** ** The mission parsers *)

Module LlmSpec.

Import App Llm Spec.

(** Decide the five keyword tests of the fallback parser. *)
Ltac keyword_tests text :=
  destruct (Sam2.includes text "sphere" || Sam2.includes text "pink");
  destruct (Sam2.includes text "cube" || Sam2.includes text "red"
            || Sam2.includes text "square");
  destruct (Sam2.includes text "cone" || Sam2.includes text "green");
  destruct (Sam2.includes text "cylinder" || Sam2.includes text "yellow");
  destruct (Sam2.includes text "skeleton" || Sam2.includes text "skull"
            || Sam2.includes text "head" || Sam2.includes text "bone").

Lemma firstMentioned_cases (toLowerCase : string -> string) (text : string)
    (availableTargets : list TargetShape) :
  firstMentioned toLowerCase text availableTargets = []
  \/ exists t, In t availableTargets
               /\ firstMentioned toLowerCase text availableTargets
                  = [stepFor t].
Proof.
  induction availableTargets as [|t rest IH]; [left; reflexivity|].
  cbn [firstMentioned]. destruct (Sam2.includes _ _).
  - right. exists t. split; [left; reflexivity|reflexivity].
  - destruct IH as [IH|(t' & Hin & IH)]; [left; exact IH|].
    right. exists t'. split; [right; exact Hin|exact IH].
Qed.

(** The fallback parser yields at least one step whenever a target is
    available, and only steps of the standard form. *)
Lemma fallback_steps (toLowerCase : string -> string) (now : N)
    (missionText : string) (availableTargets : list TargetShape) :
  let m := fallbackParseMission toLowerCase now missionText
             availableTargets in
  current_step m = 0%nat /\ status m = pending
  /\ Forall standardStep (steps m)
  /\ (availableTargets <> [] -> steps m <> []).
Proof.
  cbv zeta. unfold fallbackParseMission. cbv zeta.
  cbn [current_step status steps].
  split; [reflexivity|]. split; [reflexivity|].
  assert (Hstd : forall t, standardStep (stepFor t))
    by (intro t; split; reflexivity).
  keyword_tests (toLowerCase missionText); cbn [app List.length Nat.eqb];
    try (split; [repeat constructor; apply Hstd|intros _; discriminate]).
  destruct (firstMentioned_cases toLowerCase (toLowerCase missionText)
              availableTargets) as [E|(t & _ & E)]; rewrite E;
    cbn [app List.length Nat.eqb andb].
  - destruct availableTargets as [|t0 rest]; cbn.
    + split; [constructor|]. intro H. exfalso. apply H. reflexivity.
    + split; [repeat constructor; apply Hstd|discriminate].
  - split; [repeat constructor; apply Hstd|discriminate].
Qed.

Lemma firstWords_of_options :
  map (fun t => firstWord (Session.lowerAscii t)) TARGET_OPTIONS
  = [ "red"; "pink"; "green"; "yellow"; "skeleton" ]%string.
Proof. reflexivity. Qed.

(** X20.  The default of the keyword parser.  For a mission text that
    contains none of the thirteen keywords (after lower-casing), parsed
    against the application's target list, the fallback parser returns
    the single step Red Cube: the loop over the available targets looks
    for their first words, which are keywords already, so it never finds
    anything, and the first target of the list is taken.  (Assumed of
    [toLowerCase]: on the five target names it is ASCII lower-casing.) *)
Theorem fallback_default_target (toLowerCase : string -> string) (now : N)
    (missionText : string) :
  (forall t, In t TARGET_OPTIONS -> toLowerCase t = Session.lowerAscii t) ->
  namesNoTarget (toLowerCase missionText) ->
  steps (fallbackParseMission toLowerCase now missionText TARGET_OPTIONS)
  = [stepFor "Red Cube"%string].
Proof.
  intros Hlow Hno. unfold fallbackParseMission. cbv zeta.
  cbn [steps]. unfold namesNoTarget, fallbackKeywords in Hno.
  repeat match goal with
  | |- context [Sam2.includes (toLowerCase missionText) ?kw] =>
      rewrite (Hno kw)
        by (cbn [In]; repeat (first [left; reflexivity | right]))
  end.
  cbn [orb app List.length Nat.eqb].
  unfold TARGET_OPTIONS in *. cbn [firstMentioned].
  repeat match goal with
  | |- context [toLowerCase ?t] =>
      rewrite (Hlow t)
        by (cbn [In]; repeat (first [left; reflexivity | right]))
  end.
  change (firstWord (Session.lowerAscii "Red Cube")) with "red"%string.
  change (firstWord (Session.lowerAscii "Pink Sphere")) with "pink"%string.
  change (firstWord (Session.lowerAscii "Green Cone")) with "green"%string.
  change (firstWord (Session.lowerAscii "Yellow Cylinder"))
    with "yellow"%string.
  change (firstWord (Session.lowerAscii "Skeleton Head"))
    with "skeleton"%string.
  repeat match goal with
  | |- context [Sam2.includes (toLowerCase missionText) ?kw] =>
      rewrite (Hno kw)
        by (cbn [In]; repeat (first [left; reflexivity | right]))
  end.
  reflexivity.
Qed.

(** An instance: a text that names no target. *)
Lemma fallback_default_target_witness :
  namesNoTarget (Session.lowerAscii "Go over there")
  /\ steps (fallbackParseMission Session.lowerAscii 0 "Go over there"
              TARGET_OPTIONS)
     = [stepFor "Red Cube"%string].
Proof.
  assert (H : namesNoTarget (Session.lowerAscii "Go over there")).
  { intros keyword Hin. cbn [fallbackKeywords In] in Hin.
    repeat (destruct Hin as [<-|Hin]; [reflexivity|]). destruct Hin. }
  split; [exact H|].
  exact (fallback_default_target Session.lowerAscii 0 "Go over there"
           (fun t _ => eq_refl) H).
Defined.

(** X21.  The keyword parser ignores the order of mention.  Whenever the
    lower-cased text contains both the word sphere and the word cube, in
    whichever order and whatever else it says, the mission starts with
    the Pink Sphere and goes on with the Red Cube: the steps come in the
    order of the parser's tests, not of the text. *)
Theorem fallback_ignores_order (toLowerCase : string -> string) (now : N)
    (missionText : string) (availableTargets : list TargetShape) :
  Sam2.includes (toLowerCase missionText) "sphere" = true ->
  Sam2.includes (toLowerCase missionText) "cube" = true ->
  firstn 2 (map target
              (steps (fallbackParseMission toLowerCase now missionText
                        availableTargets)))
  = [ "Pink Sphere"; "Red Cube" ]%string.
Proof.
  intros Hs Hc. unfold fallbackParseMission. cbv zeta. cbn [steps].
  rewrite Hs, Hc. cbn [orb app].
  destruct (Sam2.includes (toLowerCase missionText) "cone"
            || Sam2.includes (toLowerCase missionText) "green");
    destruct (Sam2.includes (toLowerCase missionText) "cylinder"
              || Sam2.includes (toLowerCase missionText) "yellow");
    destruct (Sam2.includes (toLowerCase missionText) "skeleton"
              || Sam2.includes (toLowerCase missionText) "skull"
              || Sam2.includes (toLowerCase missionText) "head"
              || Sam2.includes (toLowerCase missionText) "bone");
    reflexivity.
Qed.

(** An instance: the cube is named first. *)
Lemma fallback_ignores_order_witness :
  map target
    (steps (fallbackParseMission Session.lowerAscii 0
              "Go to the cube, then to the sphere" TARGET_OPTIONS))
  = [ "Pink Sphere"; "Red Cube" ]%string.
Proof.
  refine (eq_trans _ (fallback_ignores_order Session.lowerAscii 0
            "Go to the cube, then to the sphere" TARGET_OPTIONS
            eq_refl eq_refl)).
  reflexivity.
Defined.

(** What [parseMission] hands to [handleMissionSubmit] for the
    application's target list. *)
Lemma parseMission_cases (toLowerCase : string -> string) (reply : LLMReply)
    (now : N) (missionText : string) :
  (reply = Targets []
   /\ parseMission toLowerCase reply now missionText TARGET_OPTIONS = Help)
  \/ (reply <> Targets []
      /\ exists m,
           parseMission toLowerCase reply now missionText TARGET_OPTIONS
           = Parsed m
           /\ current_step m = 0%nat /\ status m = pending
           /\ steps m <> [] /\ Forall standardStep (steps m)).
Proof.
  destruct reply as [|targets].
  - right. split; [discriminate|].
    destruct (fallback_steps toLowerCase now missionText TARGET_OPTIONS)
      as (F1 & F2 & F3 & F4). cbv zeta in F1, F2, F3, F4.
    eexists. split; [reflexivity|].
    repeat split; try assumption. apply F4. discriminate.
  - destruct targets as [|t rest].
    + left. split; reflexivity.
    + right. split; [discriminate|].
      eexists. split; [reflexivity|]. cbn [current_step status steps].
      split; [reflexivity|]. split; [reflexivity|].
      split; [discriminate|].
      apply Forall_forall. intros st Hin. apply in_map_iff in Hin.
      destruct Hin as (t' & <- & _). split; reflexivity.
Qed.

(** X22.  Submitting a mission.  A submission is refused, and leaves
    every cell as it is, exactly when the text is blank (nothing is left
    after [trim]) or a submission is in progress.  Otherwise, when the
    language model gives nothing usable (it cannot be reached, or its
    reply cannot be read), the text starts a mission whatever it says: the
    keyword parser always finds a step, so after [handleMissionSubmit]
    (nothing else writing the cells meanwhile) the simulation runs, the
    mission is at step 0 with status pending and its first target
    selected, all its steps have the standard form, and the form is
    cleared; the help answer (mission cleared, nothing started) is given
    only when the model replies with an empty target list. *)
Theorem offline_submit_starts_mission (toLowerCase trim : string -> string)
    (now : N) (s : AppState) (f : MissionForm) :
  (submitRefused trim f = true
   <-> trim (missionInput f) = ""%string \/ isProcessingMission f = true)
  /\ (submitRefused trim f = true ->
      forall reply,
        handleMissionSubmit trim (parseMission toLowerCase reply now) s f
        = (s, f))
  /\ (submitRefused trim f = false ->
      let out :=
        handleMissionSubmit trim (parseMission toLowerCase Unusable now)
          s f in
      isRunning (fst out) = true /\ missionInSync (fst out)
      /\ (exists m, currentMission (fst out) = Some m
                    /\ current_step m = 0%nat
                    /\ status m = pending /\ steps m <> []
                    /\ Forall standardStep (steps m))
      /\ snd out = mkMissionForm "" false)
  /\ (submitRefused trim f = false ->
      forall reply,
        currentMission
          (fst (handleMissionSubmit trim
                  (parseMission toLowerCase reply now) s f)) = None
        <-> reply = Targets [])
  /\ (submitRefused trim f = false ->
      let out :=
        handleMissionSubmit trim (parseMission toLowerCase (Targets []) now)
          s f in
      isRunning (fst out) = isRunning s
      /\ selectedTarget (fst out) = selectedTarget s).
Proof.
  split; [|split; [|split; [|split]]].
  - unfold submitRefused. rewrite orb_true_iff, String.eqb_eq. tauto.
  - intros Hr reply. unfold handleMissionSubmit. rewrite Hr. reflexivity.
  - intro Hr. cbv zeta. unfold handleMissionSubmit. rewrite Hr.
    cbn [fst snd].
    destruct (parseMission_cases toLowerCase Unusable now (missionInput f))
      as [[H _]|(_ & m & E & M1 & M2 & M3 & M4)]; [discriminate|].
    rewrite E.
    split.
    { unfold resumeSubmit.
      destruct (steps m) as [|st rest']; [congruence|].
      destruct (isRunning s) eqn:Er; cbn; auto. }
    split; [apply MissionSpec.resumeSubmit_inSync; assumption|].
    split; [|reflexivity].
    exists m. unfold resumeSubmit.
    destruct (steps m) as [|st rest'] eqn:Es; [congruence|].
    rewrite <- Es in *.
    destruct (negb (isRunning s)); cbn [currentMission]; auto.
  - intros Hr reply. unfold handleMissionSubmit. rewrite Hr. cbn [fst].
    destruct (parseMission_cases toLowerCase reply now (missionInput f))
      as [[H E]|(H & m & E & _ & _ & M3 & _)]; rewrite E.
    + split; [intros _; exact H|reflexivity].
    + split; [|intro; contradiction].
      unfold resumeSubmit.
      destruct (steps m) as [|st rest']; [congruence|].
      destruct (negb (isRunning s)); discriminate.
  - intro Hr. cbv zeta. unfold handleMissionSubmit. rewrite Hr.
    split; reflexivity.
Qed.

(** X23.  [getNextAction] and the sequencer agree.  For the mission and
    the selected target of a state in step: the answer is to switch
    target exactly when one more call of [handleNextStep] moves the
    mission to a further step, and then names that step's target, which
    [handleNextStep] selects; the answer is that the mission is completed
    exactly when [handleNextStep] would mark it completed and stop the
    simulation.  In every case the action is STOP, FORWARD or SCAN;
    FORWARD requires the target visible at confidence above 0.6. *)
Theorem next_action_agrees_with_sequencer (s : AppState)
    (m : ChainedMission) (st : MissionStep) (targetVisible : bool)
    (confidence : Q) :
  currentMission s = Some m ->
  nth_error (steps m) (current_step m) = Some st ->
  target st = selectedTarget s -> condition st = reached ->
  let next := getNextAction m (selectedTarget s) targetVisible confidence in
  (0.8 < confidence ->
   na_action next = STOP
   /\ (shouldSwitchTarget next = true
       <-> option_map status (currentMission (handleNextStep s))
           = Some active)
   /\ (na_reasoning next = MissionCompleted
       <-> option_map status (currentMission (handleNextStep s))
           = Some completed)
   /\ (shouldSwitchTarget next = true ->
       na_reasoning next
       = MovingToNext (selectedTarget s) (selectedTarget (handleNextStep s))))
  /\ (confidence <= 0.8 ->
      shouldSwitchTarget next = false
      /\ na_action next
         = if targetVisible && JS.gtb confidence 0.6 then FORWARD else SCAN).
Proof.
  intros Hm Hst Ht Hc. cbv zeta. unfold getNextAction.
  rewrite Hst, Ht, Hc, String.eqb_refl. cbn [andb].
  split.
  - intro Hconf.
    assert (E : JS.gtb confidence 0.8 = true)
      by (apply JSFacts.gtb_true; exact Hconf).
    rewrite E.
    unfold handleNextStep, handleNextStepOf. rewrite Hm. cbv zeta.
    destruct (Nat.ltb (current_step m + 1) (List.length (steps m))) eqn:En.
    + apply Nat.ltb_lt in En.
      assert (Ez : (Z.of_nat (current_step m)
                    <? Z.of_nat (List.length (steps m)) - 1)%Z = true)
        by (apply Z.ltb_lt; lia).
      rewrite Ez. cbn.
      split; [reflexivity|]. split; [tauto|].
      split; [split; discriminate|]. intros _.
      destruct (nth_error (steps m) (current_step m + 1)) as [st'|] eqn:E';
        [|apply nth_error_None in E'; lia].
      rewrite (nth_error_nth _ _ st E'). reflexivity.
    + apply Nat.ltb_ge in En.
      assert (Ez : (Z.of_nat (current_step m)
                    <? Z.of_nat (List.length (steps m)) - 1)%Z = false)
        by (apply Z.ltb_ge; lia).
      rewrite Ez. cbn.
      split; [reflexivity|]. split; [split; discriminate|].
      split; [tauto|discriminate].
  - intro Hconf.
    assert (E : JS.gtb confidence 0.8 = false)
      by (apply JSFacts.gtb_false; exact Hconf).
    rewrite E.
    destruct targetVisible; cbn [andb]; [destruct (JS.gtb confidence 0.6)|];
      split; reflexivity.
Qed.

(** An instance: the first step of a mission of two, seen at confidence
    0.85. *)
Lemma next_action_agrees_with_sequencer_witness :
  shouldSwitchTarget
    (getNextAction
       (mkChainedMission "mission_1"%string
          [Examples.redCubeStep; stepFor "Green Cone"%string] 0 pending)
       "Red Cube"%string true 0.85) = true.
Proof.
  refine (proj2 (proj1 (proj2 (proj1
    (next_action_agrees_with_sequencer
       (mkAppState "Red Cube"%string true (ofAction IDLE) None
          (Some (mkChainedMission "mission_1"%string
                   [Examples.redCubeStep; stepFor "Green Cone"%string]
                   0 pending)) false)
       _ Examples.redCubeStep true 0.85 eq_refl eq_refl eq_refl eq_refl)
    _))) _).
  - reflexivity.
  - reflexivity.
Defined.

End LlmSpec.

(** ** The application across user-interface events *)

Module SessionInvariant.

Import App Spec.

Lemma set_isProcessing_invariant (b : bool) (s : AppState) :
  sequencerInvariant s -> sequencerInvariant (set_isProcessing b s).
Proof.
  intros [H1 H2]. split; [exact H1|].
  intros m Hm Hst. destruct (H2 m Hm Hst) as (m' & st & K1 & K2 & K3).
  exists m', st. auto.
Qed.

Lemma toggleSimulation_invariant (s : AppState) :
  sequencerInvariant s -> sequencerInvariant (toggleSimulation s).
Proof.
  intros [H1 H2].
  assert (K : currentMission (toggleSimulation s) = currentMission s
              /\ selectedTarget (toggleSimulation s) = selectedTarget s).
  { unfold toggleSimulation. cbv zeta.
    destruct (_ && _); [|destruct (_ && _)]; repeat split. }
  destruct K as (K2 & K3).
  split; [intros m Hm; apply H1; congruence|].
  intros m Hm Hst. rewrite K2 in Hm.
  destruct (H2 m Hm Hst) as (m' & st & J1 & J2 & J3).
  exists m', st. rewrite K2, K3. auto.
Qed.

Lemma toggleSimulation_isProcessing (s : AppState) :
  isProcessing (toggleSimulation s) = isProcessing s.
Proof.
  unfold toggleSimulation. cbv zeta.
  destruct (_ && _); [|destruct (_ && _)]; reflexivity.
Qed.

(** The rest of a submission, in whatever render and on whatever cells,
    leaves cells that satisfy the invariant. *)
Lemma resumeSubmit_invariant (toLowerCase : string -> string)
    (reply : Llm.LLMReply) (now : N) (text : string) (r s : AppState) :
  sequencerInvariant
    (resumeSubmit r
       (Llm.parseMission toLowerCase reply now text TARGET_OPTIONS) s)
  /\ isProcessing
       (resumeSubmit r
          (Llm.parseMission toLowerCase reply now text TARGET_OPTIONS) s)
     = isProcessing s.
Proof.
  destruct (LlmSpec.parseMission_cases toLowerCase reply now text)
    as [[_ E]|(_ & m & E & M1 & _ & M3 & _)]; rewrite E.
  - split; [|reflexivity]. split; intros m Hm; discriminate Hm.
  - pose proof (MissionSpec.resumeSubmit_inSync m r s M3 M1) as Hsync.
    assert (K : currentMission (resumeSubmit r (Parsed m) s) = Some m
                /\ isProcessing (resumeSubmit r (Parsed m) s)
                   = isProcessing s).
    { unfold resumeSubmit. destruct (steps m); [congruence|].
      destruct (negb (isRunning r)); split; reflexivity. }
    destruct K as [Km Kp]. split; [|exact Kp].
    split.
    + intros m' Hm'. rewrite Km in Hm'. injection Hm' as <-.
      rewrite M1. destruct (steps m); [congruence|cbn; lia].
    + intros _ _ _. exact Hsync.
Qed.

(** A timer that fires, however late, leaves cells that satisfy the
    invariant. *)
Lemma handleNextStepOf_invariant (r s : AppState) :
  stepExists r -> missionInSync r ->
  sequencerInvariant (handleNextStepOf r s)
  /\ isProcessing (handleNextStepOf r s) = isProcessing s.
Proof.
  intros Hex (m & st & Hm & Hst & Ht).
  pose proof (Hex m Hm) as Hlt.
  destruct (MissionSpec.handleNextStepOf_spec r s m Hm) as (Hnext & Hlast).
  assert (Hp : isProcessing (handleNextStepOf r s) = isProcessing s).
  { unfold handleNextStepOf. rewrite Hm. cbv zeta.
    destruct (Nat.ltb _ _); reflexivity. }
  split; [|exact Hp].
  destruct (Nat.lt_ge_cases (current_step m + 1) (List.length (steps m)))
    as [Hin|Hout].
  - destruct (Hnext Hin) as (K1 & (st' & Hst' & Ht') & _).
    split.
    + intros m' Hm'. rewrite K1 in Hm'. injection Hm' as <-.
      cbn [current_step steps]. exact Hin.
    + intros _ _ _. eexists. exists st'. rewrite K1.
      cbn [current_step steps]. auto.
  - destruct (Hlast Hout) as (K1 & _ & _).
    split.
    + intros m' Hm'. rewrite K1 in Hm'. injection Hm' as <-.
      cbn [current_step steps]. exact Hlt.
    + intros m' Hm' Hstatus. rewrite K1 in Hm'. injection Hm' as <-.
      cbn [status] in Hstatus. congruence.
Qed.

(** The rest of a capture keeps the invariant of the cells, clears the
    flag, and sets a timer only in a render whose current step is the
    selected target. *)
Lemma resumeCapture_invariant (C : Conversions) (r : AppState)
    (settled : Sam2.Completion VisionResponse) (s : AppState) :
  sequencerInvariant s ->
  sequencerInvariant (fst (resumeCapture C r settled s))
  /\ isProcessing (fst (resumeCapture C r settled s)) = false
  /\ (snd (resumeCapture C r settled s) = true -> missionInSync r).
Proof.
  intros [H1 H2].
  destruct (MissionSpec.resumeCapture_keeps C r settled s) as (K1 & K2 & K3).
  split; [|split; [exact K3|]].
  - split; [intros m Hm; apply H1; congruence|].
    intros m Hm Hst. rewrite K1 in Hm.
    destruct (H2 m Hm Hst) as (m' & st & J1 & J2 & J3).
    exists m', st. rewrite K1, K2. auto.
  - unfold resumeCapture. destruct settled as [result|e];
      [|discriminate].
    pose proof (MissionSpec.applyVisionResult_timer_inSync C r result s)
      as Hin.
    destruct (applyVisionResult C r result s) as [s1 timer].
    exact Hin.
Qed.

Lemma dispatch_invariant (C : Conversions)
    (toLowerCase trim : string -> string) (e : Session.Event)
    (st : Session.State) :
  sessionInvariant st ->
  sessionInvariant (Session.dispatch C toLowerCase trim e st).
Proof.
  intros (I1 & I2 & I3 & I4 & I5).
  destruct st as [s f cap sub tm].
  cbn [Session.cells Session.form Session.capture Session.submission
       Session.timers] in *.
  destruct e as [text| |reply now| | |net|];
    cbn [Session.dispatch Session.cells Session.form Session.capture
         Session.submission Session.timers].
  - unfold sessionInvariant;
      cbn [Session.cells Session.form Session.capture Session.submission
           Session.timers isProcessingMission];
      repeat (split; [assumption|]); assumption.
  - destruct (submitRefused trim f) eqn:Er.
    + unfold sessionInvariant;
      cbn [Session.cells Session.form Session.capture Session.submission
           Session.timers isProcessingMission];
      repeat (split; [assumption|]); assumption.
    + unfold sessionInvariant.
      cbn [Session.cells Session.form Session.capture Session.submission
           Session.timers isProcessingMission].
      split; [exact I1|]. split; [split; [discriminate|reflexivity]|].
      auto.
  - destruct sub as [[r f']|].
    + destruct (resumeSubmit_invariant toLowerCase reply now
                  (missionInput f') r s) as [K1 K2].
      unfold sessionInvariant.
      cbn [Session.cells Session.form Session.capture Session.submission
           Session.timers isProcessingMission].
      rewrite K2.
      split; [exact I1|].
      split; [split; [discriminate|intro H; exfalso; apply H; reflexivity]|].
      auto.
    + unfold sessionInvariant;
      cbn [Session.cells Session.form Session.capture Session.submission
           Session.timers isProcessingMission];
      repeat (split; [assumption|]); assumption.
  - unfold sessionInvariant.
    cbn [Session.cells Session.form Session.capture Session.submission
         Session.timers].
    rewrite toggleSimulation_isProcessing.
    split; [exact I1|]. split; [exact I2|].
    split; [apply toggleSimulation_invariant; exact I3|]. auto.
  - destruct (captureRefused s s) eqn:Eg.
    + unfold sessionInvariant;
      cbn [Session.cells Session.form Session.capture Session.submission
           Session.timers isProcessingMission];
      repeat (split; [assumption|]); assumption.
    + unfold sessionInvariant.
      cbn [Session.cells Session.form Session.capture Session.submission
           Session.timers set_isProcessing isProcessing].
      split; [split; [discriminate|reflexivity]|].
      split; [exact I2|].
      split; [apply set_isProcessing_invariant; exact I3|].
      split; [|exact I5].
      intros r Hr. injection Hr as <-. exact I3.
  - destruct cap as [r|].
    + destruct (resumeCapture_invariant C r
                  (fst (Sam2.getNavCommandStereo net)) s I3)
        as (K1 & K2 & K3).
      destruct (resumeCapture C r (fst (Sam2.getNavCommandStereo net)) s)
        as [s' timer].
      cbn [fst snd] in *.
      unfold sessionInvariant.
      cbn [Session.cells Session.form Session.capture Session.submission
           Session.timers].
      rewrite K2.
      split; [split; [discriminate|intro H; exfalso; apply H; reflexivity]|].
      split; [exact I2|]. split; [exact K1|].
      split; [discriminate|].
      destruct timer; [|exact I5].
      apply Forall_app. split; [exact I5|].
      constructor; [|constructor].
      split; [apply (I4 r eq_refl)|apply K3; reflexivity].
    + unfold sessionInvariant;
      cbn [Session.cells Session.form Session.capture Session.submission
           Session.timers isProcessingMission];
      repeat (split; [assumption|]); assumption.
  - destruct tm as [|r rest].
    + unfold sessionInvariant;
      cbn [Session.cells Session.form Session.capture Session.submission
           Session.timers isProcessingMission];
      repeat (split; [assumption|]); assumption.
    + inversion I5 as [|r' rest' [Hex Hsync] Hrest]; subst.
      destruct (handleNextStepOf_invariant r s Hex Hsync) as [K1 K2].
      unfold sessionInvariant.
      cbn [Session.cells Session.form Session.capture Session.submission
           Session.timers].
      rewrite K2. auto.
Qed.

(** X24.  What every order of events maintains.  In every state a mounted
    application reaches, through edits and submissions of the mission
    field, answers of the parser (whatever the language model replies),
    presses of the start/abort button, captured frames, answers of the
    vision service (whatever it sends) and timers, in any order: the
    in-flight flag is set exactly while a capture awaits its answer, so
    requests never overlap; the form is busy exactly while a submission
    awaits the parser; the current step of the mission exists; and until
    the mission is completed the selected target is the target of its
    current step.  The same holds of the render a capture under way
    started in, and every pending timer was set in a render whose current
    step is the target selected there. *)
Theorem session_invariant (C : Conversions)
    (toLowerCase trim : string -> string) (events : list Session.Event) :
  sessionInvariant
    (Session.run C toLowerCase trim events Session.mounted).
Proof.
  assert (H : forall st,
            sessionInvariant st ->
            sessionInvariant (Session.run C toLowerCase trim events st)).
  { induction events as [|e rest IH]; intros st Hst; [exact Hst|].
    cbn [Session.run]. apply IH. apply dispatch_invariant. exact Hst. }
  apply H. unfold sessionInvariant, Session.mounted.
  cbn [Session.cells Session.form Session.capture Session.submission
       Session.timers].
  split; [split; [discriminate|intro K; exfalso; apply K; reflexivity]|].
  split; [split; [discriminate|intro K; exfalso; apply K; reflexivity]|].
  split; [split; intros m Hm; discriminate Hm|].
  split; [discriminate|constructor].
Qed.

(** Once a mission is completed the selected target need not be its
    target any more, because a timer advances the mission of the render
    that set it.  The mission Red Cube is submitted and its target
    reached, which sets the timer; before the timer fires the mission
    Green Cone is submitted; the timer then puts the first mission back,
    completed, stops the simulation, and leaves the Green Cone
    selected.  (The two texts have no blank at either end, so [trim]
    leaves them as they are.) *)
Lemma late_timer_example :
  let st :=
    Session.run Examples.plainConversions Session.lowerAscii (fun t => t)
      [ Session.InputChanged "find the red cube";
        Session.SubmitPressed;
        Session.MissionParsed (Llm.Targets ["Red Cube"%string]) 1;
        Session.FramesCaptured;
        Session.VisionAnswered (Examples.stopAnswer 0.85);
        Session.InputChanged "find the green cone";
        Session.SubmitPressed;
        Session.MissionParsed (Llm.Targets ["Green Cone"%string]) 2;
        Session.TimerFired ]
      Session.mounted in
  currentMission (Session.cells st)
  = Some (mkChainedMission "mission_1" [Llm.stepFor "Red Cube"%string] 0
            completed)
  /\ selectedTarget (Session.cells st) = "Green Cone"%string
  /\ isRunning (Session.cells st) = false
  /\ ~ missionInSync (Session.cells st).
Proof.
  cbv zeta. split; [reflexivity|]. split; [reflexivity|].
  split; [reflexivity|].
  intros (m & st & Hm & Hst & Ht).
  cbn in Hm. injection Hm as <-. cbn in Hst. injection Hst as <-.
  cbn in Ht. discriminate Ht.
Qed.

End SessionInvariant.

(** ** Travel along the path *)

Module TravelSpec.

Import THREE Agent Spec.

Lemma followPath_kinematics (M : JS.MathFns) (s : AgentState) :
  let s' := snd (followPath M s) in
  position s' = position s /\ rotation_y s' = rotation_y s
  /\ velocity s' = velocity s.
Proof. unfold followPath. split_tests; repeat split. Qed.

(** An angle difference of zero needs no turn. *)
Lemma steerTowards_facing (M : JS.MathFns) (wp : Waypoint) (s : AgentState) :
  rotation_y s = calculateAngleToWaypoint M (position s) wp ->
  steerTowards M wp s = FORWARD.
Proof.
  intro H. unfold steerTowards. cbv zeta. rewrite <- H.
  set (a := rotation_y s).
  assert (E0 : normalizeAngle (a - a) == 0).
  { unfold normalizeAngle. pose proof JSFacts.two_pi_bounds as [P1 P2].
    cbv zeta.
    destruct (JS.gtb (a - a) JS.PI) eqn:E1; js_props; [lra|].
    destruct (JS.ltb (a - a) (- JS.PI)) eqn:E2; js_props; lra. }
  assert (E : JS.ltb (Qabs (normalizeAngle (a - a))) 0.1 = true).
  { apply JSFacts.ltb_true. rewrite E0. reflexivity. }
  rewrite E. reflexivity.
Qed.

(** Facing the current waypoint, [followPath] orders FORWARD, or STOP at
    the end of the path: it never orders a turn. *)
Lemma followPath_facing (M : JS.MathFns) (s : AgentState) :
  facingWaypoint M s ->
  fst (followPath M s) = FORWARD \/ fst (followPath M s) = STOP.
Proof.
  unfold facingWaypoint. intro H. unfold followPath. cbv zeta.
  destruct (_ || _); [right; reflexivity|].
  destruct (JS.ltb _ 1.0).
  - cbn [currentPathIndex set_currentPathIndex].
    destruct (Nat.leb _ _); [right; reflexivity|]. left. cbn [fst].
    apply steerTowards_facing. exact H.
  - left. cbn [fst]. apply steerTowards_facing. exact H.
Qed.

(** A step of travel ends facing the waypoint it moved towards. *)
Lemma moveAlongPath_facing (M : JS.MathFns) (inp : FrameInput)
    (a : ActionType) (s : AgentState) :
  facingWaypoint M (moveAlongPath M inp a s).
Proof.
  unfold facingWaypoint, moveAlongPath. cbv zeta.
  match goal with
  | |- context [pathfindingCollision M ?t] =>
      destruct (FrameFacts.pathfindingCollision_keeps M t)
        as (K1 & K2 & _ & _ & _ & _ & K3 & K4);
      cbv zeta in K1, K2, K3, K4; rewrite K1, K2, K3, K4;
      clear K1 K2 K3 K4
  end.
  split_tests; reflexivity.
Qed.

(** The collision test of a step of travel, once the cooldown has run
    out. *)
Lemma pathfindingCollision_test (M : JS.MathFns) (s : AgentState) :
  collisionCooldown s <= 0 ->
  let s' := pathfindingCollision M s in
  collisionDetected s' = checkCollisions M (position s) []
  /\ (checkCollisions M (position s) [] = true ->
      pathfindingMode s' = false /\ velocity s' = 0
      /\ rotationVelocity s' = 0
      /\ collisionCooldown s' = COLLISION_COOLDOWN_TIME)
  /\ (checkCollisions M (position s) [] = false ->
      pathfindingMode s' = pathfindingMode s
      /\ collisionCooldown s' = collisionCooldown s).
Proof.
  intro H. cbv zeta. unfold pathfindingCollision.
  assert (E : JS.leb (collisionCooldown s) 0 = true)
    by (apply JSFacts.leb_true; exact H).
  rewrite E. cbv zeta. st_simpl.
  destruct (checkCollisions M (position s) []); st_simpl;
    split; try reflexivity; split; intro; try discriminate; repeat split.
Qed.

(** X25.  On the path the agent never turns.  A frame that ends in
    pathfinding mode ends with the heading set to the bearing of the
    current waypoint; so from the second frame of travel on,
    [followPath] finds the angle difference zero and orders FORWARD (or
    STOP at the end of the path), never LEFT or RIGHT, and every frame
    that stays in pathfinding mode moves the forward velocity towards the
    pathfinding speed limit 7.5 by the factor [2 * delta]. *)
Theorem travel_is_forward (M : JS.MathFns) (inp : FrameInput)
    (s : AgentState) :
  let s' := useFrame M inp s in
  (pathfindingMode s' = true -> facingWaypoint M s')
  /\ (pathfindingMode s = true -> facingWaypoint M s ->
      (fst (followPath M s) = FORWARD \/ fst (followPath M s) = STOP)
      /\ (pathfindingMode s' = true ->
          velocity s' = lerp (velocity s) (MAX_SPEED true) (delta inp * 2))).
Proof.
  cbv zeta. split.
  - intro Hon.
    destruct (CooldownSpec.useFrame_cases M inp s)
      as [(Hm & _ & E)|[(_ & _ & _ & E)|(_ & _ & _ & E)]];
      cbv zeta in *; rewrite E in *; clear E.
    + destruct (FrameFacts.reactiveStep_keeps M inp (snd (trackRotation s))
                  (afterActivation inp s)) as (K & _).
      cbv zeta in K. congruence.
    + apply moveAlongPath_facing.
    + match type of Hon with
      | pathfindingMode (reactiveStep M inp ?nd ?t) = true =>
          destruct (FrameFacts.reactiveStep_keeps M inp nd t) as (K & _);
          cbv zeta in K; rewrite K in Hon
      end.
      discriminate Hon.
  - intros Hon Hface. split; [apply followPath_facing; exact Hface|].
    intro Hon'.
    pose proof (PathfindingFacts.no_trigger_while_pathfinding inp s Hon)
      as Htrig.
    destruct (PathfindingFacts.afterActivation_idle inp s Htrig)
      as (Hp & Hr & Hv & _ & _ & Hm & Hc & Hi).
    cbv zeta in Hp, Hr, Hv, Hm, Hc, Hi.
    set (s3 := afterActivation inp s) in *.
    assert (Hface3 : facingWaypoint M s3).
    { unfold facingWaypoint in *. rewrite Hp, Hr, Hc, Hi. exact Hface. }
    destruct (followPath_kinematics M s3) as (_ & _ & V4).
    cbv zeta in V4.
    destruct (PathSpec.followPath_step M s3) as (_ & _ & _ & F4).
    cbv zeta in F4.
    destruct (CooldownSpec.useFrame_cases M inp s)
      as [(Hm3 & _ & E)|[(_ & Ha & _ & E)|(_ & _ & _ & E)]];
      cbv zeta in *; fold s3 in E; fold s3 in Hm3 || idtac.
    + fold s3 in Hm3. congruence.
    + fold s3 in Ha. rewrite E in *. clear E.
      destruct (followPath_facing M s3 Hface3) as [Ef|Ef]; [|congruence].
      destruct (F4 Ha) as [M4 _].
      destruct (FrameFacts.moveAlongPath_outcome M inp
                  (fst (followPath M s3)) (snd (followPath M s3)))
        as [(_ & O)|(O & _)]; cbv zeta in *; [|congruence].
      rewrite O, Ef.
      assert (Eflip : forall r, flipCommand r FORWARD = FORWARD)
        by (intros []; reflexivity).
      rewrite Eflip, MovementFacts.updateMovement_velocity.
      unfold targetVel. rewrite M4, V4, Hm, Hon, Hv. reflexivity.
    + rewrite E in Hon'.
      match type of Hon' with
      | pathfindingMode (reactiveStep M inp ?nd ?t) = true =>
          destruct (FrameFacts.reactiveStep_keeps M inp nd t) as (K & _);
          cbv zeta in K; rewrite K in Hon'
      end.
      discriminate Hon'.
Qed.

(** An instance: the frame after a scan turn at the mount activates
    pathfinding and ends facing its waypoint. *)
Lemma travel_is_forward_witness :
  pathfindingMode (useFrame Approx.math Examples.scanForGreenCone
                     Examples.scannedAtOrigin) = true
  /\ facingWaypoint Approx.math
       (useFrame Approx.math Examples.scanForGreenCone
          Examples.scannedAtOrigin).
Proof.
  assert (H : pathfindingMode (useFrame Approx.math Examples.scanForGreenCone
                                 Examples.scannedAtOrigin) = true)
    by (vm_compute; reflexivity).
  split; [exact H|].
  exact (proj1 (travel_is_forward Approx.math Examples.scanForGreenCone
                  Examples.scannedAtOrigin) H).
Defined.

(** X26.  The collision test of a frame of travel.  In a frame that
    starts in pathfinding mode and steers, once the cooldown has run out,
    the collision flag the frame leaves is the result of
    [checkCollisions] at the position the frame ends at (the test comes
    after the move, unlike in a reactive frame), and pathfinding stays on
    exactly when there is no collision.  A collision stops the agent
    dead, with both velocities 0 and the cooldown started; the path is
    kept but no longer followed. *)
Theorem travel_collision_test (M : JS.MathFns) (inp : FrameInput)
    (s : AgentState) :
  pathfindingMode s = true -> fst (followPath M s) <> STOP ->
  collisionCooldown s <= 0 ->
  let s' := useFrame M inp s in
  collisionDetected s' = checkCollisions M (position s') []
  /\ pathfindingMode s' = negb (collisionDetected s')
  /\ currentPath s' = currentPath s
  /\ (collisionDetected s' = true ->
      velocity s' = 0 /\ rotationVelocity s' = 0
      /\ collisionCooldown s' = COLLISION_COOLDOWN_TIME)
  /\ (collisionDetected s' = false ->
      collisionCooldown s' = collisionCooldown s).
Proof.
  intros Hon Hgo Hc. cbv zeta.
  pose proof (PathfindingFacts.no_trigger_while_pathfinding inp s Hon)
    as Htrig.
  destruct (PathfindingFacts.afterActivation_idle inp s Htrig)
    as (Hp & Hr & _ & _ & _ & Hm & Hcp & Hi).
  cbv zeta in Hp, Hr, Hm, Hcp, Hi.
  pose proof (CooldownSpec.afterActivation_cooldown inp s) as Hc3.
  set (s3 := afterActivation inp s) in *.
  assert (Hact : fst (followPath M s3) = fst (followPath M s))
    by (apply FrameFacts.followPath_action_ext; assumption).
  destruct (PathSpec.followPath_step M s3) as (F1 & _ & _ & F4).
  cbv zeta in F1, F4.
  destruct (F4 ltac:(congruence)) as [M4 _].
  pose proof (CooldownSpec.followPath_cooldown M s3) as C4.
  destruct (CooldownSpec.useFrame_cases M inp s)
    as [(Hm3 & _ & E)|[(_ & _ & _ & E)|(_ & Ha & _ & E)]];
    cbv zeta in *; try fold s3 in Hm3; try fold s3 in Ha; fold s3 in E.
  - congruence.
  - rewrite E. clear E.
    set (a := fst (followPath M s3)) in *.
    set (s4 := snd (followPath M s3)) in *.
    destruct (FrameFacts.moveAlongPath_keeps M inp a s4)
      as (_ & _ & _ & _ & K5 & _).
    cbv zeta in K5. rewrite K5, F1, Hcp.
    unfold moveAlongPath. cbv zeta.
    match goal with
    | |- context [pathfindingCollision M ?t] =>
        set (t4 := t);
        assert (T : collisionCooldown t4 = collisionCooldown s4
                    /\ pathfindingMode t4 = pathfindingMode s4)
          by (unfold t4; split_tests; split; reflexivity)
    end.
    destruct T as [T1 T2].
    destruct (pathfindingCollision_test M t4) as (P1 & P2 & P3);
      [rewrite T1, C4, Hc3; exact Hc|].
    cbv zeta in P1, P2, P3.
    destruct (FrameFacts.pathfindingCollision_keeps M t4) as (Kp & _).
    cbv zeta in Kp. rewrite Kp, P1.
    split; [reflexivity|].
    destruct (checkCollisions M (position t4) []) eqn:Ec.
    + destruct (P2 eq_refl) as (Q1 & Q2 & Q3 & Q4).
      split; [exact Q1|]. split; [reflexivity|].
      split; [intros _; repeat split; assumption|discriminate].
    + destruct (P3 eq_refl) as (Q1 & Q2).
      split; [cbn [negb]; congruence|]. split; [reflexivity|].
      split; [discriminate|]. intros _. congruence.
  - congruence.
Qed.

(** An instance: the last leg of a crossing, clear of every wall. *)
Lemma travel_collision_test_witness :
  pathfindingMode Examples.arrivingSouth = true
  /\ collisionDetected
       (useFrame Approx.math
          (mkFrameInput SCAN (Some (2, 0.5, -6)) (1 # 60) 20)
          (set_position (mkVector3 0 0 (-8.5)) Examples.arrivingSouth))
     = false.
Proof.
  split; [reflexivity|].
  refine (eq_trans (proj1 (travel_collision_test Approx.math
            (mkFrameInput SCAN (Some (2, 0.5, -6)) (1 # 60) 20)
            (set_position (mkVector3 0 0 (-8.5)) Examples.arrivingSouth)
            eq_refl _ _)) _).
  - vm_compute. discriminate.
  - cbn. discriminate.
  - vm_compute. reflexivity.
Defined.

End TravelSpec.

(** ** The world around the agent *)

Module WorldSpec.

Import THREE Agent Spec.

(** The table has a position for exactly the targets the application can
    select, unless they are destroyed. *)
Lemma targetPosition_None (target : string) (destroyedTargets : list string) :
  SimulationWorld.targetPosition target destroyedTargets = None
  <-> ~ In target App.TARGET_OPTIONS \/ In target destroyedTargets.
Proof.
  change App.TARGET_OPTIONS
    with (map SimulationWorld.type SimulationWorld.targets).
  unfold SimulationWorld.targetPosition.
  assert (Hex : forall t,
            existsb (String.eqb t) destroyedTargets = true
            <-> In t destroyedTargets).
  { intro t. rewrite existsb_exists. split.
    - intros (x & Hin & Hx). apply String.eqb_eq in Hx. subst x. exact Hin.
    - intro Hin. exists t. split; [exact Hin|apply String.eqb_refl]. }
  destruct (find _ SimulationWorld.targets) as [t|] eqn:E.
  - apply find_some in E. destruct E as [Hin Ht].
    apply andb_true_iff in Ht. destruct Ht as [Ht Hd].
    apply String.eqb_eq in Ht. apply negb_true_iff in Hd.
    split; [discriminate|]. intros [Hno|Hdes]; exfalso.
    + apply Hno. rewrite <- Ht. apply in_map. exact Hin.
    + rewrite <- Ht in Hdes. apply Hex in Hdes. congruence.
  - split; [intros _|reflexivity].
    destruct (in_dec string_dec target destroyedTargets) as [Hdes|Hdes];
      [right; exact Hdes|].
    left. intro Hin. apply in_map_iff in Hin.
    destruct Hin as (t & Ht & Hin).
    pose proof (find_none _ _ E t Hin) as Hf. cbv beta in Hf.
    rewrite Ht, String.eqb_refl in Hf. cbn [andb] in Hf.
    apply negb_false_iff in Hf. apply Hex in Hf. contradiction.
Qed.

Lemma run_without_target (M : JS.MathFns) (inps : list FrameInput)
    (s : AgentState) :
  Forall (fun inp => targetPosition inp = None) inps ->
  pathfindingMode s = false ->
  pathfindingMode (runFrames M inps s) = false
  /\ currentPath (runFrames M inps s) = currentPath s.
Proof.
  revert s. induction inps as [|inp rest IH]; intros s Hall Hoff.
  - split; [exact Hoff|reflexivity].
  - inversion Hall as [|? ? Hnone Hrest]; subst.
    assert (Htrig : pathfindingTrigger inp s = false).
    { unfold pathfindingTrigger. rewrite Hnone, andb_false_r. reflexivity. }
    destruct (PathfindingFacts.frame_without_trigger M inp s Hoff Htrig)
      as (_ & F1 & F2).
    cbn [runFrames].
    destruct (IH (useFrame M inp s) Hrest F1) as (I1 & I2).
    split; [exact I1|congruence].
Qed.

(** X27.  A target the world does not hold.  The position handed to the
    agent is [null] exactly when the selected name is not one of the five
    of the application's target list or the target is destroyed.  While
    it is, an agent whose pathfinding is off never enters pathfinding
    mode and computes no path, whatever the commands and however far it
    has turned. *)
Theorem missing_target_never_pathfinds (M : JS.MathFns) (target : string)
    (destroyedTargets : list string) (inps : list FrameInput)
    (s : AgentState) :
  ~ In target App.TARGET_OPTIONS \/ In target destroyedTargets ->
  Forall (fun inp =>
            targetPosition inp
            = SimulationWorld.targetPosition target destroyedTargets) inps ->
  pathfindingMode s = false ->
  SimulationWorld.targetPosition target destroyedTargets = None
  /\ pathfindingMode (runFrames M inps s) = false
  /\ currentPath (runFrames M inps s) = currentPath s.
Proof.
  intros Hmiss Hall Hoff.
  apply targetPosition_None in Hmiss. split; [exact Hmiss|].
  apply run_without_target; [|exact Hoff].
  rewrite Hmiss in Hall. exact Hall.
Qed.

(** An instance: a name the language model made up, during the turn
    run. *)
Lemma missing_target_never_pathfinds_witness :
  ~ In "Blue Pyramid"%string App.TARGET_OPTIONS
  /\ pathfindingMode (runFrames Approx.math Examples.turnRun
                        Examples.scannedAtOrigin) = false.
Proof.
  assert (H : ~ In "Blue Pyramid"%string App.TARGET_OPTIONS).
  { cbn. intros [H|[H|[H|[H|[H|[]]]]]]; discriminate H. }
  split; [exact H|].
  refine (proj1 (proj2 (missing_target_never_pathfinds Approx.math
            "Blue Pyramid" [] Examples.turnRun Examples.scannedAtOrigin
            (or_introl H) _ eq_refl))).
  unfold Examples.turnRun. cbn [map]. repeat constructor.
Defined.

(** After a frame of the scene manager the time of the last capture has
    not gone back, and a call of [onCaptureFrame] comes more than the
    interval after it. *)
Lemma sceneFrame_step (inp : SimulationWorld.SceneInput) (last : Q) :
  let last' := fst (SimulationWorld.useFrame inp last) in
  last <= last'
  /\ (snd (SimulationWorld.useFrame inp last) = true ->
      last' = SimulationWorld.elapsedTime inp * 1000
      /\ last + SimulationWorld.CAPTURE_INTERVAL < last').
Proof.
  cbv zeta. unfold SimulationWorld.useFrame.
  destruct (negb (SimulationWorld.isRunning inp));
    [cbn; split; [lra|discriminate]|].
  destruct (negb (SimulationWorld.camerasReady inp));
    [cbn; split; [lra|discriminate]|].
  cbv zeta. destruct (JS.gtb _ _) eqn:E; cbn [fst snd]; js_props.
  - unfold SimulationWorld.CAPTURE_INTERVAL in *.
    split; [lra|]. intros _. split; [reflexivity|lra].
  - split; [lra|discriminate].
Qed.

(** X28.  Captures are spaced.  Over every run of frames of the scene
    manager, with any clock values, the calls of [onCaptureFrame] come
    at clock times more than [CAPTURE_INTERVAL] = 600 ms apart, the first
    one more than 600 ms after the initial [lastCaptureTime]: the vision
    service is asked at most once per interval, also when the clock does
    not advance evenly and when a capture yields no image. *)
Theorem captures_are_spaced (inps : list SimulationWorld.SceneInput)
    (lastCaptureTime : Q) :
  spaced SimulationWorld.CAPTURE_INTERVAL
    (lastCaptureTime
       :: SimulationWorld.captureTimes inps lastCaptureTime).
Proof.
  assert (H : forall last bound, bound <= last ->
                spaced SimulationWorld.CAPTURE_INTERVAL
                  (bound :: SimulationWorld.captureTimes inps last)).
  { induction inps as [|inp rest IH]; intros last bound Hb; [exact I|].
    cbn [SimulationWorld.captureTimes].
    destruct (sceneFrame_step inp last) as (S1 & S2). cbv zeta in S1, S2.
    destruct (snd (SimulationWorld.useFrame inp last)) eqn:Ecall.
    - destruct (S2 eq_refl) as (T1 & T2).
      cbn [app]. change (spaced ?g (?a :: ?b :: ?r))
        with (a + g < b /\ spaced g (b :: r)).
      pose proof T2 as T3. rewrite T1 in T3.
      split; [lra|]. apply IH. rewrite T1. lra.
    - cbn [app]. apply IH. lra. }
  apply H. lra.
Qed.

End WorldSpec.

(** ** The Gemini build of the vision service *)

Module GeminiSpec.

Import Sam2 Gemini.

(** X29.  The Gemini build falls back in the same way.
    [getNavCommand] never throws; when the request is rejected, the
    response has no text, or the text is not JSON, it returns an object
    with the action SCAN, the target not visible and one of three fixed
    messages, the plain one (signal interference) when the response has
    no text; a JSON document is passed through as it is, whatever it is,
    an object or [null] alike, since no property is read. *)
Theorem gemini_failure_falls_back (result : GenerateResult) :
  (exists v, getNavCommand result = Normal v)
  /\ ((forall data, result <> Text (Json data)) ->
      exists v text,
        getNavCommand result = Normal v
        /\ v = JObject [ ("action", JString "SCAN");
                         ("reasoning", JString text);
                         ("targetVisible", JBool false) ]%string
        /\ field v "action" = ofAction SCAN
        /\ field v "targetVisible" = Some (JBool false)
        /\ field v "reasoning" = Some (JString text)
        /\ (text = "Signal interference. Recalibrating..."%string
            \/ text = "API Key Error: Check .env.local configuration"%string
            \/ text
               = "API quota exceeded. Please check your Gemini API usage."%string))
  /\ (result = NoText ->
      getNavCommand result
      = Normal (JObject
                  [ ("action", JString "SCAN");
                    ("reasoning",
                     JString "Signal interference. Recalibrating...");
                    ("targetVisible", JBool false) ]%string))
  /\ (forall data, getNavCommand (Text (Json data)) = Normal data)
  /\ getNavCommand (Text (Json JNull)) = Normal JNull.
Proof.
  assert (Hshape : forall e, exists text,
    signalFallback e
    = JObject [ ("action", JString "SCAN"); ("reasoning", JString text);
                ("targetVisible", JBool false) ]%string
    /\ (text = "Signal interference. Recalibrating..."%string
        \/ text = "API Key Error: Check .env.local configuration"%string
        \/ text
           = "API quota exceeded. Please check your Gemini API usage."%string)).
  { intro e. unfold signalFallback. cbv zeta.
    destruct (isError e); [destruct (_ || _); [|destruct (_ || _)]|];
      eexists; (split; [reflexivity|]); auto. }
  assert (Hfall : forall e, exists v text,
    Normal (signalFallback e) = Normal v
    /\ v = JObject [ ("action", JString "SCAN"); ("reasoning", JString text);
                     ("targetVisible", JBool false) ]%string
    /\ field v "action" = ofAction SCAN
    /\ field v "targetVisible" = Some (JBool false)
    /\ field v "reasoning" = Some (JString text)
    /\ (text = "Signal interference. Recalibrating..."%string
        \/ text = "API Key Error: Check .env.local configuration"%string
        \/ text
           = "API quota exceeded. Please check your Gemini API usage."%string)).
  { intro e. destruct (Hshape e) as (text & E & Ht).
    exists (signalFallback e), text. rewrite E.
    repeat (split; [reflexivity|]). exact Ht. }
  split; [|split; [|split; [|split]]].
  - destruct result as [e| |[e|data]]; eexists; reflexivity.
  - intros Hdata.
    destruct result as [e| |[e|data]]; try apply Hfall.
    destruct (Hdata data eq_refl).
  - intros ->. reflexivity.
  - reflexivity.
  - reflexivity.
Qed.

(** An instance: the API answers with an authentication error. *)
Lemma gemini_failure_falls_back_witness :
  exists v,
    getNavCommand (Failed (mkThrown true "authentication failed"))
    = Normal v
    /\ field v "action" = ofAction SCAN
    /\ field v "targetVisible" = Some (JBool false).
Proof.
  destruct (proj1 (proj2 (gemini_failure_falls_back
              (Failed (mkThrown true "authentication failed"))))
              ltac:(discriminate))
    as (v & text & E & _ & A & B & _).
  exists v. repeat split; assumption.
Defined.

End GeminiSpec.

(** ** The status light *)

Module LightSpec.

Import THREE Agent Spec.

(** X30.  What the status light shows.  In every state an agent reaches
    from its mount, with the straight-line reference at the value the
    component leaves it at, the colour [eyeColor] computes is red when a
    collision is flagged and otherwise depends on the command alone:
    green for FORWARD, red for STOP, yellow for SCAN, magenta for LEFT
    and RIGHT, light blue for IDLE.  Magenta never shows because of the
    rear view, and cyan never shows. *)
Theorem status_light (M : JS.MathFns) (inps : list FrameInput)
    (confidence : Q) (command : ActionType) :
  let s := runFrames M inps initialState in
  eyeColor false confidence command s
  = (if collisionDetected s then "#ff0000"
     else match command with
          | FORWARD => "#00ff00"
          | STOP => "#ff0000"
          | SCAN => "#ffff00"
          | LEFT | RIGHT => "#ff00ff"
          | _ => "#00ccff"
          end)%string
  /\ eyeColor false confidence command s <> "#00ffff"%string
  /\ (eyeColor false confidence command s = "#ff00ff"%string
      <-> collisionDetected s = false
          /\ (command = LEFT \/ command = RIGHT)).
Proof.
  cbv zeta.
  assert (H : forall s, frontView s -> frontView (runFrames M inps s)).
  { induction inps as [|inp rest IH]; intros s Hs; [exact Hs|].
    cbn [runFrames]. apply IH. apply ViewSpec.useFrame_frontView. exact Hs. }
  destruct (H initialState) as [Hfront _]; [split; reflexivity|].
  unfold eyeColor. rewrite Hfront. cbn [andb].
  destruct (collisionDetected (runFrames M inps initialState)).
  - split; [reflexivity|]. split; [discriminate|].
    split; [discriminate|]. intros [Hc _]. discriminate Hc.
  - split; [reflexivity|].
    destruct command; (split; [discriminate|]);
      (split; [intro E;
               first [discriminate E | split; [reflexivity|tauto]]
              |intros [_ [E|E]]; first [discriminate E | reflexivity]]).
Qed.

End LightSpec.
